(* ===== verification/_CoqProject ===== *)
-Q . S2P
Prelude.v
Text.v
Logger.v
Types.v
LinearHashTable.v
Stream.v
Wire.v
Dialogue.v
Join.v
Grace.v
Kernel.v
LinearJoin.v
LinearAborts.v
GraceSafety.v
GraceJoin.v
Serializer.v
Transport.v
Decoder.v
Hoare.v
Client.v
Protocol.v
ClientJoin.v
ClientSafety.v
KernelServer.v
TestBench.v
SoftwareKernel.v
Demo.v
UdpTransport.v
UartTransport.v
Ports.v
Proxy.v
RawUdp.v
Board.v
Adapter.v
AdapterSafety.v
AdapterProps.v
Planner.v
Extension.v
PlannerProps.v
ExtensionProps.v
Executor.v
ExecutorProps.v
Explain.v
EndToEnd.v
