(* ===== verification/Prelude.v ===== *)
(** A verification development for the FPGA hash-join offload of PostgreSQL.

    * The program

    The extension ([src/pg]) replaces an inner equi-join on an [int4] or [int8]
    key by a custom scan.  Its planner hook decides whether a join can be offloaded,
    its executor drains both sub-plans into (key, TID) tuples and calls the adapter,
    which removes duplicate build keys, opens a transport (UART, UDP or an in-process
    simulation) and runs the host client ([src/host]).  The client talks to the HLS
    kernel ([src/src]) in frames: CONFIGURE, INNER_DATA and OUTER_DATA against ACK,
    RESULT, TIMING, STATUS, ERROR and DEBUG, with a credit window and timeouts.  The
    kernel joins with a BRAM hash table (algorithm A) or, for larger build sides,
    partition by partition through DDR2 (algorithm B, Grace).  The result pairs of
    TIDs go back to the executor, which fetches the heap tuples and emits rows.
    Around this path stand a C-simulation test bench for the kernel, a
    demonstration program and two diagnostic tools ([src/tools]).

    * Files

    - [Prelude]: machine integers, arrays, little-endian bytes, the monad of the
      streaming code, tactics and hints.
    - [Text]: the printf and strtoul conversions the diagnostic code uses; [Logger]:
      [logger.cpp] and the macros of [logger.hpp].
    - [Types]: constants, enumerations and structures of [hash_join_types.hpp].
    - [LinearHashTable]: the BRAM table of [hash_join_linear.hpp].
    - [Stream]: byte streams with arrival times, frame writers and the watchdog of
      [hash_join_kernel.hpp]; [Wire]: the frame formats as data, readers and writers
      against them; [Dialogue]: composition of runs that read bytes and emit frames.
    - [Join]: the equi-join the system is to compute.
    - [Grace]: the DDR2 engine of [hash_join_grace.hpp].
    - [Kernel]: [hash_join_kernel.cpp], the session loop with both algorithms;
      [LinearJoin], [LinearAborts]: sessions of algorithm A that complete or abort;
      [GraceSafety], [GraceJoin]: memory safety and correctness of algorithm B.
    - [Serializer]: [tuple_serializer.cpp]; [Transport]: [transport.hpp] as a class
      with its contract, and [mock_transport.hpp]; [Decoder]: [result_decoder.cpp].
    - [Hoare]: a program logic for host code; [Client]: [fpga_client.cpp].
    - [Protocol]: the contract of host and accelerator as a state machine, for any
      grouping of acknowledgements, and the class [JoinServer]; [ClientJoin]: the
      client against it; [ClientSafety]: the client against any peer, with a transport
      that records the bytes sent; [KernelServer]: the kernel keeps the contract, with
      acknowledgements in groups of two.
    - [TestBench]: [hash_join_tb.cpp], the kernel's senders, drain and tests.
    - [SoftwareKernel]: [software_kernel.hpp], the simulation; [Demo]:
      [demo_join.cpp], a join over it with a dump of the bytes sent.
    - [UdpTransport], [UartTransport]: the two device transports over interfaces for
      the socket and terminal calls; [Ports]: their constructors and destructors
      with the handles they acquire, and the Windows build; [Proxy], [RawUdp]:
      [udp_proxy.cpp] and [raw_udp_send.cpp]; [Board]: the kernel behind an ideal serial line,
      an instance of the terminal interface and of [JoinServer].
    - [Adapter], [AdapterProps]: [fpga_adapter.cpp], with [AdapterSafety]: its runs end
      over every transport; [Planner], [PlannerProps]: [fpga_planner.c] and the
      settings of [fpga_hashjoin.c]; [Extension], [ExtensionProps]:
      [fpga_hashjoin.c], registration and the chained hook; [Executor],
      [ExecutorProps]: [fpga_executor.c]; [Explain]: its EXPLAIN output and the
      release of what a scan took.
    - [EndToEnd]: the parts put together.

    * Model

    Kernel code runs in [M dev], a state monad over streams, registers and DDR2 with
    the outcomes value, blocked read and fault (an access outside an array).  Host
    code runs in [H S], with C++ exceptions as an outcome and [Spin] for an exhausted
    loop bound.  Integers are [Z] with every wrap-around written out.  Input arrives
    with arbitrary gaps, so the watchdog is part of the model; [timely] says that no
    gap reaches it.  Operating system and PostgreSQL calls are parameters: sockets
    ([UdpSocket], [ProxyNet]), terminals ([Tty], [CommPort]), packet capture
    ([Pcap]), the clocks (functions of the number of readings), [open], [malloc],
    the planner's catalog look-ups, [add_path], what PostgreSQL assigns to a registered
    setting, and [ExecProject].  What the code is compared with is stated apart from
    it: the SQL join ([sql_join]) on columns and values, the planner's conditions
    ([equates], [unique_column], [ddr_holds]) on its nodes, the Internet checksum as the
    one's complement sum of RFC 1071, elapsed times on the clock's readings.  Printed lines are strings in
    the state of the program that prints them.

    * Theorems

    - The whole path, for algorithm A over the serial transport: a scan over a
      board returns the SQL join ([EndToEnd.scan_over_board_returns_sql_join]), for unique build keys that fit the table.
      It rests on two halves that meet at [JoinServer]: the client joins over any
      server whose groups of acknowledgements fit its window
      ([client_joins_over_server]), the kernel is one ([kernel_refines_protocol]).
    - Kernel, algorithm A: any sequence of correct requests is served with the
      equi-join, exact counters and frame boundaries ([kernel_serves_requests]); the
      table refines a list of rows ([table_refines_list], [build_overflow_iff],
      [sixteen_rows_fit]); RESET, wrong frames, overflow and silence end a session of
      algorithm A ([LinearAborts]); an oversized frame overruns the buffers
      ([oversized_frame_overruns]).  The test bench recovers the join of any
      32-bit request ([bench_recovers_join]) and its eight tests of algorithm A
      pass ([linear_tests_pass]).
    - Kernel, algorithm B: no access out of bounds whatever the host sends
      ([grace_memory_safe]), a correct request yields a permutation of the join
      ([grace_session_joins]), DDR2 keeps tuples ([pack_unpack_roundtrip]), the
      capacity check can wrap ([capacity_check_wraps]), and there is no watchdog inside
      a session ([grace_has_no_watchdog]).
    - Host library: frames written are read back by the kernel
      ([serialized_frames_read_back]); the decoder is faithful and total
      ([recv_frame_faithful], [recv_frame_total]); the client ends whatever the peer
      does ([run_hash_join_terminates]) and sends the frames of consecutive batches
      within window and credit ([window_and_credit_respected]); a window of one frame stalls
      ([window_of_one_times_out]); the transports deliver byte streams
      ([udp_recv_stream], [udp_send_datagrams], [uart_keeps_contract]), with the one
      leak of [udp_recv_leaks], and release their handles but for the serial
      constructors that throw ([transports_release_handles]); the logger filters by
      level ([logger_filters]); the simulation's join and its stall
      ([simulation_joins], [simulation_stalls]), which ends the demonstration
      ([demo_ends_uncaught]), whose dump loses the frame boundaries after CONFIGURE
      ([wire_dump_frames]).
    - Tools: the proxy forwards every datagram unchanged ([proxy_transparent]) and
      prints the fields of the frames it knows ([proxy_describes_frames]); the raw
      sender's checksum is the Internet checksum ([checksum_makes_header_valid]) and its listening
      ends ([raw_listen_ends]) or, at the clock's wrap-around, never starts
      ([listen_deadline_wraps]).
    - Extension: the adapter ends as its header promises ([adapter_contract]; also
      [dedup_preserves_join], [admitted_sizes_accepted], [udp_endpoint_parsed]), the
      planner offloads exactly the joins it should ([planner_offloads_exactly]; also
      [other_conditions_dropped], [estimate_is_adapter_test]), the registered settings
      suffice for those who use them ([registered_settings_suffice]), the hook chain
      ([planner_hook_chained]) and the executor
      ([drain_plan_exact], [scan_returns_sql_join], [scan_released_once],
      [explain_reports_scan]).

    * Bounds and fuel

    The kernel's loops have the source's own bounds: [build_frame_limit] frames, which
    suffice for every accepted inner relation since no frame is empty, and
    [probe_frame_limit] = 1000000 frames, a hypothesis where it matters.  The session
    loop takes the number of sessions as an argument; any number is allowed.  Host
    loops that depend on time take fuel: theorems say that some bound suffices for all
    larger fuel, never only what holds if a run returns.  Loops over rows are bounded
    by the number of rows, which [run_hash_join_terminates] shows to be enough.
    Socket and terminal loops have budgets from the interface instances.

    * Not modelled

    Where client, transports, adapter and executor call the logger (the calls have
    no effect on the program); the Windows receive path of the UDP transport, which
    differs from the POSIX one only in not retrying interrupted calls; the unit
    tests and hardware smoke tests of the host library and the adapter; HLS pragmas,
    the RTL bridges and the build scripts, which are not part of the C++ program.
    Row estimates of the planner, doubles in the source, are rationals here; durations
    are integers, in nanoseconds or microseconds.  PostgreSQL's allocation limit, at
    which draining a plan of more than 2^25 rows raises an error, is left out.  The three tests of
    algorithm B in the test bench are definitions without a theorem: their tables
    of 12292 rows and more would have to be evaluated.

    * This file

    - [u8] .. [u64] are the wrap-around conversions of the unsigned C types and
      [i32], [i64] those of the signed ones; values are kept in [Z].
    - [gmap Z A] stands for a C array, read with [aget] (the default stands for
      the initial contents).
    - [M S A] is a state monad with three outcomes: a value, [Blocked] (a read on
      an empty stream, the state reached so far is kept) and [Fault] (an access
      outside an array, undefined behaviour in the source).  It is registered
      with stdpp's monad classes, so the component files use [x ← m; k]. *)
From Stdlib Require Export ZArith Lia.
From coqutil Require Export Datatypes.RecordSetters.
From stdpp Require Export base numbers option gmap list.
Export TriangleBracketNotations.
#[global] Open Scope Z_scope.

(** ** Machine integers *)

Definition u8 (z : Z) : Z := z mod 2 ^ 8.
Definition u16 (z : Z) : Z := z mod 2 ^ 16.
Definition u32 (z : Z) : Z := z mod 2 ^ 32.
Definition u64 (z : Z) : Z := z mod 2 ^ 64.

(** Two's complement reinterpretation of the low [w] bits. *)
Definition signed (w z : Z) : Z :=
  let r := z mod 2 ^ w in if r <? 2 ^ (w - 1) then r else r - 2 ^ w.
Definition i32 (z : Z) : Z := signed 32 z.
Definition i64 (z : Z) : Z := signed 64 z.

Definition is_byte (b : Z) : Prop := 0 <= b < 2 ^ 8.
Definition is_u16 (z : Z) : Prop := 0 <= z < 2 ^ 16.
Definition is_u32 (z : Z) : Prop := 0 <= z < 2 ^ 32.
Definition is_u64 (z : Z) : Prop := 0 <= z < 2 ^ 64.
Definition is_i32 (z : Z) : Prop := - 2 ^ 31 <= z < 2 ^ 31.
Definition is_i64 (z : Z) : Prop := - 2 ^ 63 <= z < 2 ^ 63.

(** ** Arrays *)

Definition aget {A} (d : A) (m : gmap Z A) (i : Z) : A := default d (m !! i).

(** ** Little-endian byte strings *)

(** The [n] bytes of [v], least significant first. *)
Fixpoint le_bytes (n : nat) (v : Z) : list Z :=
  match n with
  | O => []
  | S n => v mod 256 :: le_bytes n (v / 256)
  end.

Fixpoint le_value (bs : list Z) : Z :=
  match bs with
  | [] => 0
  | b :: bs => b + 256 * le_value bs
  end.

(** ** The effect monad *)

Inductive outcome (S A : Type) : Type :=
| Ret (a : A) (s : S)
| Blocked (s : S)
| Fault.
Arguments Ret {S A} a s.
Arguments Blocked {S A} s.
Arguments Fault {S A}.

Definition M (S A : Type) : Type := S -> outcome S A.

#[global] Instance M_ret {S} : MRet (M S) := fun A a s => Ret a s.
#[global] Instance M_bind {S} : MBind (M S) := fun A B k m s =>
  match m s with
  | Ret a s' => k a s'
  | Blocked s' => Blocked s'
  | Fault => Fault
  end.

Definition mget {S} : M S S := fun s => Ret s s.
Definition mmodify {S} (f : S -> S) : M S unit := fun s => Ret tt (f s).
Definition mfault {S A} : M S A := fun _ => Fault.
Definition mwhen {S} (b : bool) (m : M S unit) : M S unit :=
  if b then m else mret tt.

(** The state an outcome leaves behind, if any. *)
Definition final {S A} (o : outcome S A) : option S :=
  match o with Ret _ s => Some s | Blocked s => Some s | Fault => None end.

#[global] Arguments Z.to_nat : simpl never.

(** ** Hint databases and tactics *)

Create HintDb wrap.
Create HintDb bytes.

(** Case analysis on the boolean tests of the source. *)
Ltac zcase :=
  match goal with
  | |- context [ Z.eqb ?a ?b ] => destruct (Z.eqb_spec a b)
  | |- context [ Z.leb ?a ?b ] => destruct (Z.leb_spec a b)
  | |- context [ Z.ltb ?a ?b ] => destruct (Z.ltb_spec a b)
  end.
Ltac zcases := repeat (zcase; try lia).

(** Euclidean facts for every [mod] and [/] by a constant. *)
Ltac zdm := Z.div_mod_to_equations; lia.

(** Record projections of record updates. *)
Ltac rcbn := cbn [apply_update] in *; unfold constant in *; cbn in *.

(** ** Lemmas on machine integers *)

Lemma u8_small z : is_byte z -> u8 z = z.
Proof. apply Z.mod_small. Qed.
Lemma u16_small z : is_u16 z -> u16 z = z.
Proof. apply Z.mod_small. Qed.
Lemma u32_small z : is_u32 z -> u32 z = z.
Proof. apply Z.mod_small. Qed.
Lemma u64_small z : is_u64 z -> u64 z = z.
Proof. apply Z.mod_small. Qed.

Lemma u8_range z : is_byte (u8 z).
Proof. apply Z.mod_pos_bound. lia. Qed.
Lemma u16_range z : is_u16 (u16 z).
Proof. apply Z.mod_pos_bound. lia. Qed.
Lemma u32_range z : is_u32 (u32 z).
Proof. apply Z.mod_pos_bound. lia. Qed.
Lemma u64_range z : is_u64 (u64 z).
Proof. apply Z.mod_pos_bound. lia. Qed.
#[export] Hint Resolve u8_range u16_range u32_range u64_range : wrap.

Lemma signed_range w z : 0 < w -> - 2 ^ (w - 1) <= signed w z < 2 ^ (w - 1).
Proof.
  intros Hw. unfold signed.
  assert (2 ^ w = 2 * 2 ^ (w - 1)) as Hp by (rewrite <- Z.pow_succ_r by lia; f_equal; lia).
  pose proof (Z.mod_pos_bound z (2 ^ w)) as Hb.
  zcase; lia.
Qed.

Lemma signed_mod w z : 0 < w -> signed w (z mod 2 ^ w) = signed w z.
Proof. intros. unfold signed. rewrite Z.mod_mod by lia. done. Qed.

Lemma signed_small w z : 0 < w -> - 2 ^ (w - 1) <= z < 2 ^ (w - 1) -> signed w z = z.
Proof.
  intros Hw Hz. unfold signed.
  assert (2 ^ w = 2 * 2 ^ (w - 1)) as Hp by (rewrite <- Z.pow_succ_r by lia; f_equal; lia).
  destruct (decide (0 <= z)).
  - rewrite Z.mod_small by lia. zcases.
  - rewrite <- (Z.mod_add _ 1) by lia. rewrite Z.mod_small by lia. zcases.
Qed.

Lemma i32_small z : is_i32 z -> i32 z = z.
Proof. intros. apply signed_small; [lia|done]. Qed.
Lemma i64_small z : is_i64 z -> i64 z = z.
Proof. intros. apply signed_small; [lia|done]. Qed.
Lemma i32_u32 z : i32 (u32 z) = i32 z.
Proof. by apply signed_mod. Qed.
Lemma i64_u64 z : i64 (u64 z) = i64 z.
Proof. by apply signed_mod. Qed.
Lemma i32_range z : is_i32 (i32 z).
Proof. by apply (signed_range 32). Qed.
Lemma i64_range z : is_i64 (i64 z).
Proof. by apply (signed_range 64). Qed.
#[export] Hint Resolve i32_range i64_range : wrap.

(** The masks and shifts the source selects bytes with. *)
Lemma land_255 v : Z.land v 255 = v mod 256.
Proof. change 255 with (Z.ones 8). by rewrite Z.land_ones. Qed.
Lemma shiftr_8 v n : 0 <= n -> Z.shiftr v n = v / 2 ^ n.
Proof. apply Z.shiftr_div_pow2. Qed.

(** [lor] of a value and a disjoint shifted one is their sum. *)
Lemma lor_shiftl_add a b n : 0 <= n -> 0 <= a < 2 ^ n -> Z.lor a (Z.shiftl b n) = a + b * 2 ^ n.
Proof.
  intros Hn Ha. rewrite <- Z.shiftl_mul_pow2 by done.
  assert (Z.land a (Z.shiftl b n) = 0) as Hd.
  { apply Z.bits_inj'. intros i Hi. rewrite Z.land_spec, Z.bits_0, Z.shiftl_spec by done.
    destruct (decide (i < n)); [rewrite (Z.testbit_neg_r b) by lia; apply andb_false_r|].
    rewrite <- (Z.mod_small a (2 ^ n)) by done.
    by rewrite Z.mod_pow2_bits_high by lia. }
  by rewrite <- Z.lxor_lor, <- Z.add_nocarry_lxor.
Qed.

(** ** Lemmas on byte strings *)

Lemma length_le_bytes n v : length (le_bytes n v) = n.
Proof. revert v. induction n; intros; simpl; auto. Qed.

Lemma le_bytes_byte n v : Forall is_byte (le_bytes n v).
Proof. revert v. induction n; constructor; auto. apply (Z.mod_pos_bound v 256). lia. Qed.

Lemma le_value_bytes n v : le_value (le_bytes n v) = v mod 256 ^ Z.of_nat n.
Proof.
  revert v. induction n as [|n IH]; intros v; simpl le_bytes; simpl le_value.
  - by rewrite Z.mod_1_r.
  - rewrite IH, Nat2Z.inj_succ, Z.pow_succ_r by lia.
    rewrite Z.rem_mul_r by lia. lia.
Qed.

Lemma le_value_bound bs : Forall is_byte bs -> 0 <= le_value bs < 256 ^ Z.of_nat (length bs).
Proof.
  induction 1 as [|b bs Hb _ IH]; [simpl; lia|].
  simpl le_value. simpl length. rewrite Nat2Z.inj_succ, Z.pow_succ_r by lia.
  unfold is_byte in Hb. lia.
Qed.

Lemma le_bytes_value bs : Forall is_byte bs -> le_bytes (length bs) (le_value bs) = bs.
Proof.
  induction 1 as [|b bs Hb _ IH]; [done|]. simpl. unfold is_byte in Hb.
  f_equal; [zdm|]. replace ((b + 256 * le_value bs) / 256) with (le_value bs) by zdm. done.
Qed.

(** ** Lemmas on the monad *)

Section monad.
Context {S A B : Type}.

(** Run the first command of a sequence. *)
Lemma bind_Ret (m : M S A) (k : A -> M S B) s a s' :
  m s = Ret a s' -> (m ≫= k) s = k a s'.
Proof. unfold mbind, M_bind. by intros ->. Qed.

Lemma bind_Blocked (m : M S A) (k : A -> M S B) s s' :
  m s = Blocked s' -> (m ≫= k) s = Blocked s'.
Proof. unfold mbind, M_bind. by intros ->. Qed.

Lemma bind_inv_Ret (m : M S A) (k : A -> M S B) s b s' :
  (m ≫= k) s = Ret b s' -> exists a s1, m s = Ret a s1 /\ k a s1 = Ret b s'.
Proof. unfold mbind, M_bind. destruct (m s); naive_solver. Qed.
End monad.

(** [run H] rewrites the head command of the goal with the equation [H]. *)
Tactic Notation "run" uconstr(H) :=
  erewrite bind_Ret; [|eapply H; try done]; cbn beta iota.
