(* ===== verification/Text.v ===== *)
(** The text conversions of the C library that the diagnostic code uses: the
    [printf] conversions [%u], [%d], [%llu], [%02d], [%02x] and [%04x], the cut of
    [snprintf], and [strtoul] in base 10.  Strings are those of the Standard
    Library; lengths are bounded so that callers can show that nothing is cut. *)
From stdpp Require Import strings pretty.
From S2P Require Import Prelude.

(** ** Printing *)

(** [%u], [%d] and [%llu]: decimal, without padding. *)
Definition dec (z : Z) : string := pretty z.

(** Decimal digits, padded with zeros on the left to [w] characters. *)
Fixpoint zeros (n : nat) : string :=
  match n with O => "" | S n => String (Ascii.ascii_of_nat 48) (zeros n) end.
Definition dec_pad (w : nat) (z : Z) : string :=
  zeros (w - String.length (dec z)) +:+ dec z.

Definition hex_char (d : Z) : Ascii.ascii :=
  Ascii.ascii_of_nat (Z.to_nat (if d <? 10 then 48 + d else 87 + d)).

(** The [w] low hexadecimal digits; [%02x] of a byte and [%04x] of a 16-bit value
    print exactly these. *)
Fixpoint hex_go (w : nat) (v : Z) (s : string) : string :=
  match w with O => s | S w => hex_go w (v / 16) (String (hex_char (v mod 16)) s) end.
Definition hex (w : nat) (v : Z) : string := hex_go w v "".

(** [snprintf (buf, size, ...)]: at most [size - 1] characters are kept. *)
Definition snprintf (size : nat) (s : string) : string := String.substring 0 (size - 1) s.

(** ** Reading numbers *)

Definition char_code (c : Ascii.ascii) : Z := Z.of_nat (Ascii.nat_of_ascii c).
Definition is_space (c : Ascii.ascii) : bool :=
  (char_code c =? 32) || ((9 <=? char_code c) && (char_code c <=? 13)).
Definition is_digit (c : Ascii.ascii) : bool := (48 <=? char_code c) && (char_code c <=? 57).

Fixpoint skip_spaces (s : string) : string :=
  match s with
  | String c s' => if is_space c then skip_spaces s' else s
  | EmptyString => s
  end.

(** The value of the longest prefix of digits. *)
Fixpoint leading_digits (acc : Z) (s : string) : Z :=
  match s with
  | String c s' => if is_digit c then leading_digits (acc * 10 + (char_code c - 48)) s' else acc
  | EmptyString => acc
  end.

Definition ULONG_MAX : Z := 2 ^ 64 - 1.

(** [strtoul (s, nullptr, 10)]: spaces, an optional sign, digits; a value out of
    range gives [ULONG_MAX], a minus sign negates in the unsigned type. *)
Definition strtoul10 (s : string) : Z :=
  let magnitude s := leading_digits 0 s in
  match skip_spaces s with
  | String c s' =>
      if char_code c =? 45 then
        if ULONG_MAX <? magnitude s' then ULONG_MAX else u64 (- magnitude s')
      else Z.min (if char_code c =? 43 then magnitude s' else magnitude (String c s')) ULONG_MAX
  | EmptyString => 0
  end.

(** ** Lengths *)

Lemma slen_app s1 s2 : String.length (s1 +:+ s2) = (String.length s1 + String.length s2)%nat.
Proof. induction s1 as [|c s1 IH]; simpl; [done|]. by f_equal. Qed.

Lemma sapp_assoc s1 s2 s3 : (s1 +:+ s2) +:+ s3 = s1 +:+ (s2 +:+ s3).
Proof.
  induction s1 as [|c s1 IH]; [done|].
  change (String c ((s1 +:+ s2) +:+ s3) = String c (s1 +:+ (s2 +:+ s3))). by rewrite IH.
Qed.

Lemma slen_pretty_N_go k : forall x s, (x < 10 ^ N.of_nat k)%N ->
  (String.length (pretty_N_go x s) <= k + String.length s)%nat.
Proof.
  induction k as [|k IH]; intros x s Hx.
  - assert (x = 0%N) as -> by (simpl in Hx; lia). rewrite pretty_N_go_0. lia.
  - destruct (decide (x = 0%N)) as [->|Hx0]; [rewrite pretty_N_go_0; lia|].
    rewrite pretty_N_go_step by lia. etrans; [apply IH|simpl; lia].
    rewrite Nat2N.inj_succ, N.pow_succ_r' in Hx. by apply N.Div0.div_lt_upper_bound.
Qed.

(** A number below [10 ^ k] takes at most [k] characters. *)
Lemma slen_dec k z : (0 < k)%nat -> 0 <= z < 10 ^ Z.of_nat k -> (String.length (dec z) <= k)%nat.
Proof.
  intros Hk [Hz Hlt]. unfold dec. destruct z as [|p|p]; [simpl; lia| |lia].
  change (pretty (Z.pos p)) with (pretty (N.pos p)). unfold pretty, pretty_N.
  destruct (decide (N.pos p = 0%N)) as [?|_]; [done|].
  pose proof (slen_pretty_N_go k (N.pos p) "") as Hl. simpl in Hl. rewrite Nat.add_0_r in Hl.
  apply Hl. apply N2Z.inj_lt. by rewrite N2Z.inj_pow, nat_N_Z.
Qed.

Lemma slen_hex_go w : forall v s, String.length (hex_go w v s) = (w + String.length s)%nat.
Proof. induction w as [|w IH]; intros v s; simpl; [done|]. rewrite IH. simpl. lia. Qed.

Lemma slen_hex w v : String.length (hex w v) = w.
Proof. unfold hex. rewrite slen_hex_go. simpl. lia. Qed.

Lemma slen_zeros n : String.length (zeros n) = n.
Proof. induction n as [|n IH]; [done|]. cbn [zeros String.length]. by rewrite IH. Qed.

Lemma slen_dec_pad w z : (String.length (dec z) <= w)%nat -> String.length (dec_pad w z) = w.
Proof. intros Hl. unfold dec_pad. rewrite slen_app, slen_zeros. lia. Qed.

Lemma substring_all m : forall s, (String.length s <= m)%nat -> String.substring 0 m s = s.
Proof.
  induction m as [|m IH]; intros [|c s] Hl; try done; simpl in *; [lia|].
  by rewrite IH by lia.
Qed.

(** A text that fits the buffer is not cut. *)
Lemma snprintf_fits size s : (String.length s < size)%nat -> snprintf size s = s.
Proof. intros Hl. apply substring_all. lia. Qed.

Lemma slen_snprintf size s : (String.length (snprintf size s) <= size - 1)%nat.
Proof.
  unfold snprintf. generalize (size - 1)%nat as m. intros m. revert s.
  induction m as [|m IH]; intros [|c s]; simpl; try lia. specialize (IH s). lia.
Qed.

(** ** Examples *)

Example dec_pad_example : dec_pad 2 7 = "07". Proof. reflexivity. Qed.
Example hex_example : hex 4 10767 = "2a0f". Proof. reflexivity. Qed.
Example strtoul_example : (strtoul10 " +50000x", strtoul10 "-1", strtoul10 "") = (50000, ULONG_MAX, 0).
Proof. reflexivity. Qed.
