(* ===== verification/Logger.v ===== *)
(** The host's logger, [host/src/logger.cpp] and the macros of [logger.hpp].

    The singleton is created by the first call of [instance], which reads the
    environment variable FPGA_LOG_LEVEL ([env]); [process] holds it with the lines
    written to stderr and the number of clock readings.  [clock n] is what the
    [n]-th reading gives as local time of day.  A printf format and its arguments
    are one string, the formatted text. *)
From stdpp Require Import strings.
From S2P Require Import Prelude Text.

Inductive LogLevel := DEBUG | INFO | WARN | ERROR | NONE.
Definition level_code (l : LogLevel) : Z :=
  match l with DEBUG => 0 | INFO => 1 | WARN => 2 | ERROR => 3 | NONE => 4 end.
#[global] Instance LogLevel_eq_dec : EqDecision LogLevel.
Proof. solve_decision. Defined.

(** Local time of day as [localtime_r] and [tv_nsec] give it. *)
Record wall_time := mkWall { tm_hour : Z; tm_min : Z; tm_sec : Z; tv_nsec : Z }.

(** ["%02d:%02d:%02d.%03d"] into a buffer of [len] bytes. *)
Definition format_timestamp (len : nat) (w : wall_time) : string :=
  let ms := Z.quot (tv_nsec w) 1000000 in
  snprintf len (dec_pad 2 (tm_hour w) +:+ ":" +:+ dec_pad 2 (tm_min w) +:+ ":" +:+
                dec_pad 2 (tm_sec w) +:+ "." +:+ dec_pad 3 ms).

Definition level_tag (l : LogLevel) : string :=
  match l with
  | DEBUG => "DEBUG"
  | INFO => "INFO "
  | WARN => "WARN "
  | ERROR => "ERROR"
  | NONE => "?????"
  end.

Definition parse_level_env (env : option string) : LogLevel :=
  match env with
  | None => INFO
  | Some v =>
      if String.eqb v "DEBUG" then DEBUG
      else if String.eqb v "INFO" then INFO
      else if String.eqb v "WARN" then WARN
      else if String.eqb v "ERROR" then ERROR
      else if String.eqb v "NONE" then NONE
      else INFO
  end.

Record process := mkProcess {
  logger : option LogLevel;  (** [min_level_] of the singleton, once created *)
  stderr : list string;
  readings : nat }.

Section logger.
Variable env : option string.
Variable clock : nat -> wall_time.

(** [Logger::instance().level()], with the process in which the logger exists. *)
Definition instance (s : process) : LogLevel * process :=
  match logger s with
  | Some l => (l, s)
  | None => let l := parse_level_env env in (l, s <| logger := Some l |>)
  end.

Definition set_level (min_level : LogLevel) (s : process) : process :=
  (instance s).2 <| logger := Some min_level |>.

(** The line of a message, cut to the 512-byte buffer. *)
Definition log_line (w : wall_time) (lvl : LogLevel) (comp msg : string) : string :=
  "[" +:+ format_timestamp 20 w +:+ "] [" +:+ level_tag lvl +:+ "] " +:+ comp +:+ ": " +:+
  snprintf 512 msg.

Definition vlog (lvl : LogLevel) (comp msg : string) (s : process) : process :=
  let '(min_level, s) := instance s in
  if level_code lvl <? level_code min_level then s
  else s <| stderr ::= (fun l => l ++ [log_line (clock (readings s)) lvl comp msg]) |>
         <| readings ::= S |>.

Definition log (lvl : LogLevel) (comp msg : string) (s : process) : process := vlog lvl comp msg s.

(** The macros LOG_DEBUG, LOG_INFO, LOG_WARN and LOG_ERROR, by their level. *)
Definition LOG (lvl : LogLevel) (comp msg : string) (s : process) : process :=
  let '(l, s) := instance s in
  if level_code l <=? level_code lvl then log lvl comp msg s else s.

(** ** Sequences of calls *)

Inductive call := SetLevel (l : LogLevel) | Log (l : LogLevel) (comp msg : string).

Definition run_call (s : process) (c : call) : process :=
  match c with SetLevel l => set_level l s | Log l comp msg => LOG l comp msg s end.

(** Specification: the messages that reach stderr, given the threshold. *)
Fixpoint passed (min_level : LogLevel) (cs : list call) : list (LogLevel * string * string) :=
  match cs with
  | [] => []
  | SetLevel l :: cs => passed l cs
  | Log l comp msg :: cs =>
      (if level_code min_level <=? level_code l then [(l, comp, msg)] else []) ++ passed min_level cs
  end.

(** The lines of messages printed from clock reading [n] on. *)
Fixpoint stamped (n : nat) (ms : list (LogLevel * string * string)) : list string :=
  match ms with
  | [] => []
  | (l, comp, msg) :: ms => log_line (clock n) l comp msg :: stamped (S n) ms
  end.

Lemma LOG_run l comp msg m o n :
  LOG l comp msg (mkProcess (Some m) o n) =
  if level_code m <=? level_code l
  then mkProcess (Some m) (o ++ [log_line (clock n) l comp msg]) (S n)
  else mkProcess (Some m) o n.
Proof.
  unfold LOG, log, vlog, instance. cbn. destruct (Z.leb_spec (level_code m) (level_code l)); [|done].
  cbn. by replace (level_code l <? level_code m) with false by lia.
Qed.

Lemma run_calls cs : forall m o n,
  exists m', foldl run_call (mkProcess (Some m) o n) cs =
    mkProcess (Some m') (o ++ stamped n (passed m cs)) (n + length (passed m cs)).
Proof.
  induction cs as [|[l|l comp msg] cs IH]; intros m o n; cbn [foldl run_call passed].
  - exists m. simpl. by rewrite app_nil_r, Nat.add_0_r.
  - apply IH.
  - rewrite LOG_run. destruct (_ <=? _); [|apply IH]. destruct (IH m (o ++ [log_line (clock n) l comp msg]) (S n))
      as [m' ->]. exists m'. simpl. by rewrite <- app_assoc, Nat.add_succ_r.
Qed.
End logger.

(** ** Properties *)

(** From a fresh process, any sequence of level changes and log calls writes to
    stderr exactly the messages at or above the threshold in force, one line per
    message in call order, the threshold starting at the value FPGA_LOG_LEVEL
    names (INFO when it is unset or unknown); the clock is read once per line. *)
Theorem logger_filters (env : option string) (clock : nat -> wall_time) (cs : list call) :
  let s := foldl (run_call env clock) (mkProcess None [] 0) cs in
  let printed := passed (parse_level_env env) cs in
  stderr s = stamped clock 0 printed /\ readings s = length printed.
Proof.
  destruct cs as [|c cs]; [done|]. cbn zeta.
  change (foldl (run_call env clock) (mkProcess None [] 0) (c :: cs)) with
    (foldl (run_call env clock) (run_call env clock (mkProcess None [] 0) c) cs).
  replace (run_call env clock (mkProcess None [] 0) c)
    with (run_call env clock (mkProcess (Some (parse_level_env env)) [] 0) c) by (by destruct c).
  change (foldl _ (run_call _ _ _ c) cs) with
    (foldl (run_call env clock) (mkProcess (Some (parse_level_env env)) [] 0) (c :: cs)).
  by destruct (run_calls env clock (c :: cs) (parse_level_env env) [] 0) as [m' ->].
Qed.

(** Nothing below ERROR is printed at level ERROR, nothing at all at NONE. *)
Lemma none_silences cs :
  Forall (fun c => match c with SetLevel _ => False | Log l _ _ => l <> NONE end) cs ->
  passed NONE cs = [].
Proof.
  induction 1 as [|[l|l comp msg] cs Hc _ IH]; [done..|]. cbn [passed]. rewrite IH, app_nil_r.
  by destruct l.
Qed.

(** The timestamp of a time of day has its twelve characters. *)
Lemma timestamp_length w :
  0 <= tm_hour w < 24 -> 0 <= tm_min w < 60 -> 0 <= tm_sec w <= 60 -> 0 <= tv_nsec w < 10 ^ 9 ->
  String.length (format_timestamp 20 w) = 12%nat.
Proof.
  intros Hh Hm Hs Hn. assert (0 <= Z.quot (tv_nsec w) 1000000 < 1000) as Hms
    by (split; [apply Z.quot_pos; lia|apply Z.quot_lt_upper_bound; lia]).
  assert (forall k z, (0 < k)%nat -> 0 <= z < 10 ^ Z.of_nat k -> String.length (dec_pad k z) = k) as Hl
    by (intros; by apply slen_dec_pad, slen_dec).
  unfold format_timestamp.
  rewrite snprintf_fits; rewrite !slen_app, !(Hl 2%nat), (Hl 3%nat) by lia; simpl; lia.
Qed.
