(* ===== verification/Types.v ===== *)
(** The constants, enumerations and wire structures of
    [src/src/hash_join_types.hpp], shared by the kernel and the host library.

    Enumerations are inductive types with their one-byte code; a value that the
    source obtains by casting a received byte stays a [Z]. *)
From S2P Require Import Prelude.

(** ** Capacity constants *)

Definition HT_LOG2_SLOTS : Z := 14.
Definition HT_SLOTS : Z := Z.shiftl 1 HT_LOG2_SLOTS.
Definition HT_MAX_ROWS : Z := HT_SLOTS * 3 / 4.
Definition MAX_PROBE_DIST : Z := 16.
Definition RX_BUF_TUPLES : Z := 256.
Definition RX_CREDIT_TUPLES : Z := 512.
Definition TX_BUF_SIZE : Z := 256.
Definition RESULT_FLUSH_PAIRS : Z := 118.
Definition ACK_BATCH_FRAMES : Z := 2.

(** ** Grace hash join constants *)

Definition GRACE_WORDS_PER_TUPLE : Z := 2.
Definition GRACE_MAX_K : Z := 256.
Definition GRACE_INNER_SLOT_WORDS : Z := HT_MAX_ROWS * GRACE_WORDS_PER_TUPLE.
Definition GRACE_OUTER_AREA_BASE : Z := GRACE_MAX_K * GRACE_INNER_SLOT_WORDS.
Definition GRACE_DDR2_TOTAL_WORDS : Z := 16 * 1024 * 1024.
Definition GRACE_MAX_INNER_ROWS : Z := GRACE_MAX_K * HT_MAX_ROWS.

(** ** Enumerations *)

Inductive AlgorithmType := ALGORITHM_A | ALGORITHM_B.
Definition alg_code (a : AlgorithmType) : Z :=
  match a with ALGORITHM_A => 0 | ALGORITHM_B => 1 end.

Inductive MsgType :=
| MSG_CONFIGURE | MSG_INNER_DATA | MSG_OUTER_DATA | MSG_RESULT | MSG_ACK
| MSG_STATUS | MSG_ERROR | MSG_RESET | MSG_DEBUG | MSG_TIMING.
Definition msg_code (m : MsgType) : Z :=
  match m with
  | MSG_CONFIGURE => 1 | MSG_INNER_DATA => 2 | MSG_OUTER_DATA => 3
  | MSG_RESULT => 4 | MSG_ACK => 5 | MSG_STATUS => 6 | MSG_ERROR => 7
  | MSG_RESET => 8 | MSG_DEBUG => 9 | MSG_TIMING => 10
  end.

Inductive FpgaError :=
| ERR_NONE | ERR_OVERFLOW | ERR_INVALID_CMD | ERR_BAD_STATE | ERR_DDR_FAULT
| ERR_DUPLICATE_KEY.
Definition err_code (e : FpgaError) : Z :=
  match e with
  | ERR_NONE => 0 | ERR_OVERFLOW => 1 | ERR_INVALID_CMD => 2
  | ERR_BAD_STATE => 3 | ERR_DDR_FAULT => 4 | ERR_DUPLICATE_KEY => 5
  end.

Inductive Phase := PHASE_IDLE | PHASE_BUILDING | PHASE_PROBING | PHASE_DONE.
Definition phase_code (p : Phase) : Z :=
  match p with
  | PHASE_IDLE => 0 | PHASE_BUILDING => 1 | PHASE_PROBING => 2 | PHASE_DONE => 3
  end.

Inductive KeyType := KEY_INT32 | KEY_INT64.
Definition key_code (k : KeyType) : Z :=
  match k with KEY_INT32 => 1 | KEY_INT64 => 2 end.

#[global] Instance MsgType_eq_dec : EqDecision MsgType.
Proof. solve_decision. Defined.
#[global] Instance FpgaError_eq_dec : EqDecision FpgaError.
Proof. solve_decision. Defined.
#[global] Instance Phase_eq_dec : EqDecision Phase.
Proof. solve_decision. Defined.
#[global] Instance KeyType_eq_dec : EqDecision KeyType.
Proof. solve_decision. Defined.

(** [err == ERR_NONE] *)
Definition err_ok (e : FpgaError) : bool :=
  match e with ERR_NONE => true | _ => false end.

(** ** Wire structures *)

Record Tid := mkTid { blkno : Z; offno : Z }.
(** A tuple with its key widened to 64 bits ([FpgaTuple32]/[FpgaTuple64] once
    received, [InputTuple] on the host). *)
Record Tuple := mkTuple { key : Z; tid : Tid }.
Record ResultPair := mkPair { inner_tid : Tid; outer_tid : Tid }.

#[global] Instance Tid_eq_dec : EqDecision Tid.
Proof. solve_decision. Defined.
#[global] Instance Tuple_eq_dec : EqDecision Tuple.
Proof. solve_decision. Defined.
#[global] Instance ResultPair_eq_dec : EqDecision ResultPair.
Proof. solve_decision. Defined.

Definition tid0 : Tid := mkTid 0 0.
Definition pair0 : ResultPair := mkPair tid0 tid0.

Definition tid_wf (t : Tid) : Prop := is_u32 (blkno t) /\ is_u16 (offno t).
Definition pair_wf (p : ResultPair) : Prop := tid_wf (inner_tid p) /\ tid_wf (outer_tid p).

Record ConfigurePayload := mkConfigure {
  cp_algorithm : Z;
  cp_key_type : Z;
  cp_rx_buf_slots : Z;
  cp_inner_count : Z;
  cp_outer_count : Z;
  cp_session_id : Z }.

Record StatusPayload := mkStatus {
  sp_phase : Z;
  sp_session_id : Z;
  sp_credit : Z;
  sp_rows_processed : Z;
  sp_rows_matched : Z }.

(** ** Timing summary *)

Definition TIMING_SUMMARY_VERSION : Z := 1.
Definition TIMING_SUMMARY_COUNT : Z := 1.
Definition TIMING_SUMMARY_BYTES : Z := 200.
Definition TIMING_FLAG_ESTIMATED_CYCLES : Z := 1.
Definition TIMING_FLAG_RTL_STREAM_CYCLES : Z := 2.
Definition TIMING_DEFAULT_CLOCK_HZ : Z := 70000000.

Record TimingSummaryPayload := mkTiming {
  tm_version : Z;
  tm_flags : Z;
  tm_clock_hz : Z;
  tm_inner_rows : Z;
  tm_outer_rows : Z;
  tm_matched_rows : Z;
  tm_inner_frames : Z;
  tm_outer_frames : Z;
  tm_result_frames : Z;
  tm_ack_frames : Z;
  tm_debug_frames : Z;
  tm_bytes_rx : Z;
  tm_bytes_tx : Z;
  tm_session_total_cycles : Z;
  tm_config_cycles : Z;
  tm_build_rx_cycles : Z;
  tm_build_compute_cycles : Z;
  tm_build_total_cycles : Z;
  tm_probe_rx_cycles : Z;
  tm_probe_compute_cycles : Z;
  tm_result_emit_cycles : Z;
  tm_probe_total_cycles : Z;
  tm_ack_emit_cycles : Z;
  tm_rx_wait_cycles : Z;
  tm_tx_blocked_cycles : Z;
  tm_protocol_wait_cycles : Z;
  tm_max_build_batch_cycles : Z;
  tm_max_probe_batch_cycles : Z;
  tm_max_result_frame_cycles : Z;
  tm_hash_build_inserts : Z;
  tm_hash_probe_lookups : Z;
  tm_hash_probe_hits : Z;
  tm_hash_probe_misses : Z;
  tm_hash_overflow_errors : Z;
  tm_hash_build_collision_steps : Z;
  tm_hash_probe_collision_steps : Z;
  tm_hash_max_build_probe_distance : Z;
  tm_hash_max_probe_distance : Z;
  tm_hash_table_load_factor_ppm : Z }.

(** [TimingSummaryPayload timing = {}] *)
Definition timing0 : TimingSummaryPayload :=
  mkTiming 0 0 0 0 0 0 0 0 0 0 0 0 0 0 0 0 0 0 0 0 0 0 0 0 0 0 0 0 0 0 0 0 0 0 0 0 0 0 0.

(** The constants in numerals, for [lia]. *)
Lemma const_values :
  HT_SLOTS = 16384 /\ HT_MAX_ROWS = 12288 /\ GRACE_INNER_SLOT_WORDS = 24576 /\
  GRACE_OUTER_AREA_BASE = 6291456 /\ GRACE_DDR2_TOTAL_WORDS = 16777216 /\
  GRACE_MAX_INNER_ROWS = 3145728.
Proof. done. Qed.

Ltac consts :=
  change HT_SLOTS with 16384 in *; change HT_MAX_ROWS with 12288 in *;
  change GRACE_INNER_SLOT_WORDS with 24576 in *;
  change GRACE_OUTER_AREA_BASE with 6291456 in *;
  change GRACE_DDR2_TOTAL_WORDS with 16777216 in *;
  change GRACE_MAX_INNER_ROWS with 3145728 in *;
  change MAX_PROBE_DIST with 16 in *; change GRACE_MAX_K with 256 in *;
  change GRACE_WORDS_PER_TUPLE with 2 in *; change RX_BUF_TUPLES with 256 in *;
  change TX_BUF_SIZE with 256 in *; change RESULT_FLUSH_PAIRS with 118 in *;
  change RX_CREDIT_TUPLES with 512 in *; change ACK_BATCH_FRAMES with 2 in *.

Lemma msg_code_inj m m' : msg_code m = msg_code m' -> m = m'.
Proof. destruct m, m'; simpl; congruence || lia. Qed.
Lemma msg_code_byte m : is_byte (msg_code m).
Proof. unfold is_byte; destruct m; simpl; lia. Qed.
Lemma phase_code_byte p : is_byte (phase_code p).
Proof. unfold is_byte; destruct p; simpl; lia. Qed.
Lemma err_code_byte e : is_byte (err_code e).
Proof. unfold is_byte; destruct e; simpl; lia. Qed.
#[export] Hint Resolve msg_code_byte phase_code_byte err_code_byte : bytes.

(** Evaluate comparisons of concrete message types. *)
Ltac codes :=
  repeat match goal with
  | |- context [ msg_code ?a =? msg_code ?b ] =>
      let v := eval vm_compute in (msg_code a =? msg_code b) in
      change (msg_code a =? msg_code b) with v
  end; cbn [negb andb orb].
