(* ===== verification/LinearHashTable.v ===== *)
(** The BRAM hash table of [src/src/hash_join_linear.hpp]: open addressing with
    linear probing bounded by [MAX_PROBE_DIST].

    The table is the source's five fields; the four arrays are [gmap Z Z] and
    the static object starts zeroed ([ht_static]).  [reset], [build] and [probe]
    follow the loops of the source step by step and return the probe-step count
    the source reports through [steps_out].

    The specification is the list of tuples inserted since the last [reset]:
    [ht_rep h l] relates a table to it, [build] appends to the list and [probe]
    finds the first tuple with the key. *)
From S2P Require Import Prelude Types.

Record LinearHashTable := mkHT {
  ht_key : gmap Z Z;
  ht_blk : gmap Z Z;
  ht_off : gmap Z Z;
  ht_valid : gmap Z Z;
  row_count : Z }.

Definition ht_static : LinearHashTable := mkHT ∅ ∅ ∅ ∅ 0.

(** Fibonacci hash of the key, as a slot index. *)
Definition slot_of (k : Z) : Z :=
  u32 (Z.shiftr (u64 (u64 k * 11400714819323198485)) (64 - HT_LOG2_SLOTS)).

Definition probe_slot (start step : Z) : Z :=
  Z.land (u32 (start + step)) (HT_SLOTS - 1).

(** ** Operations *)

Fixpoint clear_valid (n : nat) (s : Z) (v : gmap Z Z) : gmap Z Z :=
  match n with
  | O => v
  | S n => clear_valid n (s + 1) (<[s := 0]> v)
  end.

Definition reset (h : LinearHashTable) : LinearHashTable :=
  h <| ht_valid ::= clear_valid (Z.to_nat HT_SLOTS) 0 |> <| row_count := 0 |>.

(** Store a tuple in slot [s]. *)
Definition store (s k : Z) (t : Tid) (h : LinearHashTable) : LinearHashTable :=
  mkHT (<[s := k]> (ht_key h)) (<[s := blkno t]> (ht_blk h))
       (<[s := offno t]> (ht_off h)) (<[s := 1]> (ht_valid h)) (u32 (row_count h + 1)).

Fixpoint build_chain (n : nat) (step start k : Z) (t : Tid) (h : LinearHashTable)
  : FpgaError * Z * LinearHashTable :=
  match n with
  | O => (ERR_OVERFLOW, step, h)
  | S n =>
      let s := probe_slot start step in
      if aget 0 (ht_valid h) s =? 0
      then (ERR_NONE, step + 1, store s k t h)
      else build_chain n (step + 1) start k t h
  end.

(** [build]: error, probe steps taken, new table. *)
Definition build (k : Z) (t : Tid) (h : LinearHashTable)
  : FpgaError * Z * LinearHashTable :=
  if HT_MAX_ROWS <=? row_count h then (ERR_OVERFLOW, 0, h)
  else build_chain (Z.to_nat MAX_PROBE_DIST) 0 (slot_of k) k t h.

Definition read_tid (s : Z) (h : LinearHashTable) : Tid :=
  mkTid (aget 0 (ht_blk h) s) (aget 0 (ht_off h) s).

Fixpoint probe_chain (n : nat) (step start k : Z) (h : LinearHashTable)
  : option Tid * Z :=
  match n with
  | O => (None, step)
  | S n =>
      let s := probe_slot start step in
      if aget 0 (ht_valid h) s =? 0 then (None, step + 1)
      else if aget 0 (ht_key h) s =? k then (Some (read_tid s h), step + 1)
      else probe_chain n (step + 1) start k h
  end.

(** [probe]: the tid found ([return 1]) or not ([return 0]), probe steps taken. *)
Definition probe (k : Z) (h : LinearHashTable) : option Tid * Z :=
  probe_chain (Z.to_nat MAX_PROBE_DIST) 0 (slot_of k) k h.

Definition size (h : LinearHashTable) : Z := row_count h.
Definition capacity : Z := HT_MAX_ROWS.

(** Insert a list of tuples in order, stopping at the first error. *)
Fixpoint build_all (ts : list Tuple) (h : LinearHashTable) : option LinearHashTable :=
  match ts with
  | [] => Some h
  | t :: ts =>
      let '(e, _, h') := build (key t) (tid t) h in
      if err_ok e then build_all ts h' else None
  end.

(** ** Specification *)

(** The tid of the first tuple of [l] with key [k]. *)
Fixpoint first_match (k : Z) (l : list Tuple) : option Tid :=
  match l with
  | [] => None
  | t :: l => if key t =? k then Some (tid t) else first_match k l
  end.

Definition slot (k d : Z) : Z := (slot_of k + d) mod HT_SLOTS.
Definition occupied (h : LinearHashTable) (s : Z) : Prop := aget 0 (ht_valid h) s <> 0.
Definition stored (h : LinearHashTable) (s : Z) (t : Tuple) : Prop :=
  aget 0 (ht_key h) s = key t /\ read_tid s h = tid t.

(** Tuple number [i] sits in the probe window of its key, behind slots that
    earlier tuples fill. *)
Definition placed (h : LinearHashTable) (pl : list Z) (i : nat) (s : Z) (t : Tuple) : Prop :=
  stored h s t /\
  exists d, 0 <= d < MAX_PROBE_DIST /\ s = slot (key t) d /\
    forall d', 0 <= d' < d -> exists j, (j < i)%nat /\ pl !! j = Some (slot (key t) d').

(** The table holds exactly the tuples [l], inserted in this order. *)
Definition ht_rep (h : LinearHashTable) (l : list Tuple) : Prop :=
  row_count h = Z.of_nat (length l) /\ row_count h <= HT_MAX_ROWS /\
  exists pl : list Z,
    length pl = length l /\ NoDup pl /\
    (forall s, 0 <= s < HT_SLOTS -> occupied h s <-> s ∈ pl) /\
    forall i s t, pl !! i = Some s -> l !! i = Some t -> placed h pl i s t.

(** The sixteen slots a key may use are all taken. *)
Definition window_full (h : LinearHashTable) (k : Z) : Prop :=
  forall d, 0 <= d < MAX_PROBE_DIST -> occupied h (slot k d).

(** ** Lemmas *)

Lemma aget_insert {A} (d : A) m i x j :
  aget d (<[i := x]> m) j = if decide (i = j) then x else aget d m j.
Proof. unfold aget. rewrite lookup_insert. by case_decide. Qed.

Lemma slot_of_range k : 0 <= slot_of k < HT_SLOTS.
Proof.
  unfold slot_of, HT_LOG2_SLOTS. rewrite Z.shiftr_div_pow2 by lia. consts.
  pose proof (u64_range (u64 k * 11400714819323198485)) as Hr. unfold is_u64 in Hr.
  set (v := u64 _) in *. clearbody v. unfold u32. Z.div_mod_to_equations. lia.
Qed.

Lemma slot_range k d : 0 <= slot k d < HT_SLOTS.
Proof. apply Z.mod_pos_bound. consts. lia. Qed.

Lemma probe_slot_eq k d : 0 <= d < 2 ^ 31 -> probe_slot (slot_of k) d = slot k d.
Proof.
  intros Hd. pose proof (slot_of_range k). unfold probe_slot, slot. consts.
  change (16384 - 1) with (Z.ones 14). rewrite Z.land_ones by lia.
  rewrite u32_small; [done|]. unfold is_u32. lia.
Qed.

(** Distinct offsets of one window are distinct slots. *)
Lemma slot_inj k d d' :
  0 <= d < MAX_PROBE_DIST -> 0 <= d' < MAX_PROBE_DIST -> slot k d = slot k d' -> d = d'.
Proof. unfold slot. consts. intros. zdm. Qed.

Lemma clear_valid_spec n s v j :
  aget 0 (clear_valid n s v) j =
  if decide (s <= j < s + Z.of_nat n) then 0 else aget 0 v j.
Proof.
  revert s v. induction n as [|n IH]; intros s v.
  - case_decide; [lia|done].
  - cbn [clear_valid]. rewrite IH, aget_insert. repeat case_decide; lia || done.
Qed.

Lemma occupied_reset h s : 0 <= s < HT_SLOTS -> ~ occupied (reset h) s.
Proof.
  intros Hs. unfold occupied, reset. rcbn. rewrite clear_valid_spec.
  consts. case_decide; [by intros []|lia].
Qed.

Lemma occupied_store s k t h j :
  occupied (store s k t h) j <-> j = s \/ occupied h j.
Proof.
  unfold occupied, store. simpl. rewrite aget_insert. case_decide; [split; [by left|done]|].
  split; [by right|]. by intros [->|].
Qed.

Lemma stored_store_eq s t h : stored (store s (key t) (tid t) h) s t.
Proof.
  unfold stored, store, read_tid. simpl. rewrite !aget_insert, !decide_True by done.
  split; [done|by destruct (tid t)].
Qed.

Lemma stored_store_ne s k t h j t' : s <> j -> stored h j t' -> stored (store s k t h) j t'.
Proof.
  intros Hn [Hk Ht]. unfold stored, store, read_tid in *. simpl.
  by rewrite !aget_insert, !decide_False by done.
Qed.

Lemma ht_rep_empty h :
  row_count h = 0 -> (forall s, 0 <= s < HT_SLOTS -> ~ occupied h s) -> ht_rep h [].
Proof.
  intros Hr Ho. split; [done|]. split; [consts; lia|]. exists [].
  split_and!; [done|constructor| |done].
  intros s Hs. split; [by intros ?%Ho|set_solver].
Qed.

Lemma ht_rep_reset h : ht_rep (reset h) [].
Proof. apply ht_rep_empty; [reflexivity|apply occupied_reset]. Qed.

#[global] Opaque reset.

(** *** The insertion loop *)

Lemma build_chain_spec n d k t h :
  0 <= d -> d + Z.of_nat n <= MAX_PROBE_DIST ->
  (forall d', 0 <= d' < d -> occupied h (slot k d')) ->
  (exists d', d <= d' < d + Z.of_nat n /\ ~ occupied h (slot k d') /\
     (forall d0, 0 <= d0 < d' -> occupied h (slot k d0)) /\
     build_chain n d (slot_of k) k t h = (ERR_NONE, d' + 1, store (slot k d') k t h)) \/
  ((forall d', 0 <= d' < d + Z.of_nat n -> occupied h (slot k d')) /\
     build_chain n d (slot_of k) k t h = (ERR_OVERFLOW, d + Z.of_nat n, h)).
Proof.
  revert d. induction n as [|n IH]; intros d Hd Hn Hocc.
  - right. split; [intros; apply Hocc; lia|]. simpl. f_equal. f_equal. lia.
  - cbn [build_chain]. consts. rewrite probe_slot_eq by lia.
    destruct (Z.eqb_spec (aget 0 (ht_valid h) (slot k d)) 0) as [He|He].
    + left. exists d. split_and!; try done; try lia. intros Hc. by apply Hc.
    + destruct (IH (d + 1)) as [(d' & ? & ? & ? & Heq)|[? Heq]]; try lia.
      * intros d' ?. destruct (decide (d' = d)) as [->|]; [done|]. apply Hocc. lia.
      * left. exists d'. split_and!; try done; lia.
      * right. rewrite Heq. split; [intros; apply H; lia|]. f_equal. f_equal. lia.
Qed.

(** What [build] does on each of its branches. *)
Lemma build_cases k t h :
  (row_count h < HT_MAX_ROWS /\ exists d, 0 <= d < MAX_PROBE_DIST /\ ~ occupied h (slot k d) /\
     (forall d', 0 <= d' < d -> occupied h (slot k d')) /\
     build k t h = (ERR_NONE, d + 1, store (slot k d) k t h)) \/
  (row_count h < HT_MAX_ROWS /\ window_full h k /\
     build k t h = (ERR_OVERFLOW, MAX_PROBE_DIST, h)) \/
  (HT_MAX_ROWS <= row_count h /\ build k t h = (ERR_OVERFLOW, 0, h)).
Proof.
  unfold build, window_full. destruct (Z.leb_spec HT_MAX_ROWS (row_count h)); [auto|].
  destruct (build_chain_spec (Z.to_nat MAX_PROBE_DIST) 0 k t h)
    as [(d & Hd & ? & ? & ->)|[? ->]]; consts; try lia.
  - left. split; [done|]. exists d. split_and!; try done; lia.
  - right. left. by split_and!.
Qed.

Lemma placed_app h pl pl' i s t : placed h pl i s t -> placed h (pl ++ pl') i s t.
Proof.
  intros [Hs (d & Hd & -> & Hj)]. split; [done|]. exists d. split_and!; try done; try lia.
  intros d' Hd'. destruct (Hj d' Hd') as (j & ? & ?). exists j. split; [done|].
  by apply lookup_app_l_Some.
Qed.

Lemma ht_rep_store h l k t d :
  ht_rep h l -> row_count h < HT_MAX_ROWS -> 0 <= d < MAX_PROBE_DIST ->
  ~ occupied h (slot k d) -> (forall d', 0 <= d' < d -> occupied h (slot k d')) ->
  ht_rep (store (slot k d) k t h) (l ++ [mkTuple k t]).
Proof.
  intros (Hrc & _ & pl & Hlen & Hnd & Hocc & Hpl) Hmax Hd Hfree Hpre.
  assert (slot k d ∉ pl) as Hnin by (rewrite <- Hocc by apply slot_range; done).
  assert (row_count (store (slot k d) k t h) = row_count h + 1) as Hrc'.
  { simpl. apply u32_small. unfold is_u32. consts. lia. }
  unfold ht_rep. rewrite !Hrc'. split; [rewrite length_app; simpl; lia|]. split; [lia|].
  exists (pl ++ [slot k d]). rewrite !length_app. simpl. split_and!; [lia| | |].
  - apply NoDup_app. split_and!; [done|set_solver|apply NoDup_singleton].
  - intros s Hs. rewrite occupied_store, (Hocc s Hs). set_solver.
  - intros i s t' Hi Ht.
    apply lookup_app_Some in Hi as [Hi|[Hge Hi]]; apply lookup_app_Some in Ht as [Ht|[Hge' Ht]];
      try (apply lookup_lt_Some in Hi; lia); try (apply lookup_lt_Some in Ht; lia).
    + apply placed_app. destruct (Hpl _ _ _ Hi Ht) as [Hst Hex]. split; [|done].
      apply stored_store_ne; [|done]. intros Heq. apply Hnin. rewrite Heq.
      by eapply list_elem_of_lookup_2.
    + apply list_lookup_singleton_Some in Hi as [Hi0 <-].
      apply list_lookup_singleton_Some in Ht as [_ <-].
      assert (i = length pl) as -> by lia.
      split; [apply (stored_store_eq _ (mkTuple k t))|]. exists d. split_and!; try done; try lia.
      intros d' Hd'. assert (slot k d' ∈ pl) as Hin by (apply Hocc; [apply slot_range|by apply Hpre]).
      apply list_elem_of_lookup_1 in Hin as [j Hj]. exists j.
      split; [by eapply lookup_lt_Some|]. by apply lookup_app_l_Some.
Qed.

Lemma build_rep h l k t steps h' :
  ht_rep h l -> build k t h = (ERR_NONE, steps, h') ->
  ht_rep h' (l ++ [mkTuple k t]) /\ 1 <= steps <= MAX_PROBE_DIST.
Proof.
  intros Hr Hb. destruct (build_cases k t h) as [(Hm & d & Hd & Hf & Hp & Hc)|[(_&_&Hc)|[_ Hc]]];
    rewrite Hc in Hb; [|congruence..].
  injection Hb as <- <-. split; [by apply ht_rep_store|consts; lia].
Qed.

(** *** The lookup loop *)

Lemma first_match_None k l : first_match k l = None <-> forall t, t ∈ l -> key t <> k.
Proof.
  induction l as [|a l IH]; simpl; [set_solver|].
  destruct (Z.eqb_spec (key a) k) as [He|He]; [|rewrite IH; set_solver].
  split; [done|]. intros H. exfalso. apply (H a); set_solver.
Qed.

Lemma first_match_Some k l t :
  first_match k l = Some t ->
  exists i, l !! i = Some (mkTuple k t) /\ forall j u, (j < i)%nat -> l !! j = Some u -> key u <> k.
Proof.
  induction l as [|a l IH]; simpl; [done|].
  destruct (Z.eqb_spec (key a) k) as [<-|He].
  - intros [= <-]. exists 0%nat. split; [by destruct a|lia].
  - intros (i & Hi & Hj)%IH. exists (S i). split; [done|].
    intros [|j] u ?; [naive_solver|]. apply Hj. lia.
Qed.

Lemma probe_chain_found n d d' k h t :
  0 <= d <= d' -> d' < d + Z.of_nat n -> d + Z.of_nat n <= MAX_PROBE_DIST ->
  (forall d0, d <= d0 < d' -> occupied h (slot k d0) /\ aget 0 (ht_key h) (slot k d0) <> k) ->
  occupied h (slot k d') -> stored h (slot k d') (mkTuple k t) ->
  probe_chain n d (slot_of k) k h = (Some t, d' + 1).
Proof.
  revert d. induction n as [|n IH]; intros d Hd Hn Hm Hpre Ho [Hk Ht]; [lia|].
  cbn [probe_chain]. consts. rewrite probe_slot_eq by lia.
  destruct (decide (d = d')) as [->|Hne].
  - destruct (Z.eqb_spec (aget 0 (ht_valid h) (slot k d')) 0); [by destruct Ho|].
    rewrite Hk, Z.eqb_refl, Ht. done.
  - destruct (Hpre d) as [Hod Hkd]; [lia|].
    destruct (Z.eqb_spec (aget 0 (ht_valid h) (slot k d)) 0); [by destruct Hod|].
    destruct (Z.eqb_spec (aget 0 (ht_key h) (slot k d)) k); [done|].
    apply IH; try done; try lia. intros; apply Hpre; lia.
Qed.

Lemma probe_chain_miss n d k h :
  0 <= d -> d + Z.of_nat n <= MAX_PROBE_DIST ->
  (forall d0, d <= d0 < MAX_PROBE_DIST -> occupied h (slot k d0) ->
     aget 0 (ht_key h) (slot k d0) <> k) ->
  fst (probe_chain n d (slot_of k) k h) = None.
Proof.
  revert d. induction n as [|n IH]; intros d Hd Hm Hk; [done|].
  cbn [probe_chain]. consts. rewrite probe_slot_eq by lia.
  destruct (Z.eqb_spec (aget 0 (ht_valid h) (slot k d)) 0); [done|].
  destruct (Z.eqb_spec (aget 0 (ht_key h) (slot k d)) k) as [He|]; [by apply Hk in He; try lia|].
  apply IH; try lia. intros; apply Hk; lia || done.
Qed.

Lemma probe_chain_steps n d start k h :
  d <= snd (probe_chain n d start k h) <= d + Z.of_nat n /\
  ((0 < n)%nat -> d < snd (probe_chain n d start k h)).
Proof.
  revert d. induction n as [|n IH]; intros d; cbn [probe_chain]; [simpl; lia|].
  destruct (_ =? 0); [simpl; lia|]. destruct (_ =? k); [simpl; lia|].
  specialize (IH (d + 1)). lia.
Qed.

Lemma probe_steps k h : 1 <= snd (probe k h) <= MAX_PROBE_DIST.
Proof.
  unfold probe. destruct (probe_chain_steps (Z.to_nat MAX_PROBE_DIST) 0 (slot_of k) k h).
  consts. lia.
Qed.

Lemma probe_rep h l k : ht_rep h l -> fst (probe k h) = first_match k l.
Proof.
  intros (Hrc & _ & pl & Hlen & Hnd & Hocc & Hpl).
  assert (forall d, occupied h (slot k d) ->
    exists i t, pl !! i = Some (slot k d) /\ l !! i = Some t /\ placed h pl i (slot k d) t) as Hget.
  { intros d Ho. apply Hocc in Ho; [|apply slot_range].
    apply list_elem_of_lookup_1 in Ho as [i Hi].
    destruct (lookup_lt_is_Some_2 l i) as [t Ht]; [rewrite <- Hlen; by eapply lookup_lt_Some|].
    eauto 6. }
  destruct (first_match k l) as [t|] eqn:Hf; unfold probe.
  - apply first_match_Some in Hf as (i & Hi & Hfirst).
    destruct (lookup_lt_is_Some_2 pl i) as [s Hs]; [rewrite Hlen; by eapply lookup_lt_Some|].
    destruct (Hpl _ _ _ Hs Hi) as [Hst (d & Hd & -> & Hj)]. simpl in Hst, Hj.
    rewrite (probe_chain_found _ 0 d k h t); try done; consts; try lia.
    + intros d0 Hd0. destruct (Hj d0) as (j & Hji & Hpj); [lia|].
      destruct (lookup_lt_is_Some_2 l j) as [u Hu]; [rewrite <- Hlen; by eapply lookup_lt_Some|].
      destruct (Hpl _ _ _ Hpj Hu) as [[Hku _] _]. split.
      * apply Hocc; [apply slot_range|]. by eapply list_elem_of_lookup_2.
      * rewrite Hku. by eapply Hfirst.
    + apply Hocc; [apply slot_range|]. by eapply list_elem_of_lookup_2.
  - apply probe_chain_miss; consts; try lia. intros d0 Hd0 Ho.
    destruct (Hget _ Ho) as (i & t & _ & Ht & [[-> _] _]).
    rewrite first_match_None in Hf. apply Hf. by eapply list_elem_of_lookup_2.
Qed.

Lemma build_all_app ts ts' h :
  build_all (ts ++ ts') h = h1 ← build_all ts h; build_all ts' h1.
Proof.
  revert h. induction ts as [|t ts IH]; intros h; [done|]. simpl.
  destruct (build _ _ h) as [[[] st] h']; simpl; done.
Qed.

Lemma build_all_rep ts h l h' :
  ht_rep h l -> build_all ts h = Some h' -> ht_rep h' (l ++ ts).
Proof.
  revert h l. induction ts as [|[k t] ts IH]; intros h l Hr; simpl.
  - intros [= <-]. by rewrite app_nil_r.
  - destruct (build k t h) as [[e st] h1] eqn:Hb. destruct e; simpl; try done.
    intros Ha. destruct (build_rep _ _ _ _ _ _ Hr Hb) as [Hr1 _].
    specialize (IH _ _ Hr1 Ha). by rewrite <- app_assoc in IH.
Qed.

(** *** Acceptance of a list of tuples *)

(** Whether an insertion succeeds depends on the valid bits and the row count only. *)
Definition same_slots (h1 h2 : LinearHashTable) : Prop :=
  row_count h1 = row_count h2 /\
  forall s, 0 <= s < HT_SLOTS -> aget 0 (ht_valid h1) s = aget 0 (ht_valid h2) s.

Lemma build_chain_same n d k t h1 h2 :
  0 <= d -> d + Z.of_nat n <= MAX_PROBE_DIST -> same_slots h1 h2 ->
  let r1 := build_chain n d (slot_of k) k t h1 in
  let r2 := build_chain n d (slot_of k) k t h2 in
  fst r1 = fst r2 /\ same_slots (snd r1) (snd r2).
Proof.
  revert d. induction n as [|n IH]; intros d Hd Hn [Hr Hv];
    cbn [build_chain]; [split; [reflexivity|split; assumption]|].
  consts. rewrite probe_slot_eq by lia.
  rewrite <- (Hv (slot k d)) by apply slot_range. destruct (_ =? 0).
  - split; [reflexivity|]. split; cbn [snd store row_count ht_valid]; [by rewrite Hr|].
    intros s Hs. rewrite !aget_insert. case_decide; [reflexivity|by apply Hv].
  - apply IH; [lia|lia|split; assumption].
Qed.

Lemma build_same k t h1 h2 :
  same_slots h1 h2 ->
  fst (build k t h1) = fst (build k t h2) /\ same_slots (snd (build k t h1)) (snd (build k t h2)).
Proof.
  intros Hs. unfold build. destruct Hs as [Hr Hv]. rewrite Hr.
  destruct (HT_MAX_ROWS <=? row_count h2); [split; [reflexivity|split; assumption]|].
  apply build_chain_same; [lia|consts; lia|split; assumption].
Qed.

Lemma build_all_same ts h1 h2 :
  same_slots h1 h2 -> is_Some (build_all ts h1) -> is_Some (build_all ts h2).
Proof.
  revert h1 h2. induction ts as [|t ts IH]; intros h1 h2 Hs; simpl; [done|].
  destruct (build_same (key t) (tid t) h1 h2 Hs) as [Hf Hs'].
  destruct (build (key t) (tid t) h1) as [[e1 s1] h1'], (build (key t) (tid t) h2) as [[e2 s2] h2'].
  simpl in *. injection Hf as <- <-. destruct (err_ok e1); [by apply IH|by intros []].
Qed.

#[global] Transparent reset.
Lemma same_slots_reset h1 h2 : same_slots (reset h1) (reset h2).
Proof.
  split; [done|]. intros s Hs. unfold reset. rcbn. rewrite !clear_valid_spec.
  consts. by rewrite !decide_True by lia.
Qed.
#[global] Opaque reset.

(** The rows that a freshly reset table takes without error. *)
Definition table_accepts (ts : list Tuple) : Prop := is_Some (build_all ts (reset ht_static)).

Lemma table_accepts_reset ts h : table_accepts ts -> exists h', build_all ts (reset h) = Some h'.
Proof. intros Ha. exact (build_all_same _ _ _ (same_slots_reset ht_static h) Ha). Qed.

(** A full window takes [MAX_PROBE_DIST] distinct occupied slots. *)
Lemma window_full_rows h l k : ht_rep h l -> window_full h k -> MAX_PROBE_DIST <= Z.of_nat (length l).
Proof.
  intros (Hrc & _ & pl & Hlen & Hnd & Hocc & _) Hw. rewrite <- Hlen.
  assert (NoDup ((fun i => slot k (Z.of_nat i)) <$> seq 0 16)) as Hn.
  { apply NoDup_fmap_2_strong; [|apply NoDup_seq]. intros x y Hx Hy He.
    apply elem_of_seq in Hx, Hy. apply slot_inj in He; consts; lia. }
  assert ((fun i => slot k (Z.of_nat i)) <$> seq 0 16 ⊆ pl) as Hsub.
  { intros s (i & -> & Hi)%list_elem_of_fmap. apply elem_of_seq in Hi.
    apply Hocc; [apply slot_range|]. apply Hw. consts. lia. }
  apply NoDup_submseteq in Hsub; [|done]. apply submseteq_length in Hsub.
  rewrite length_fmap, length_seq in Hsub. consts. lia.
Qed.

(** At most sixteen rows of a table share a key. *)
Lemma same_key_bound k h l :
  ht_rep h l -> Forall (fun t => key t = k) l -> Z.of_nat (length l) <= MAX_PROBE_DIST.
Proof.
  intros (_ & _ & pl & Hlen & Hnd & _ & Hpl) Hk. rewrite <- Hlen.
  assert (pl ⊆ (fun i => slot k (Z.of_nat i)) <$> seq 0 16) as Hsub.
  { intros s Hs. apply list_elem_of_lookup_1 in Hs as [i Hi].
    destruct (lookup_lt_is_Some_2 l i) as [t Ht]; [rewrite <- Hlen; by eapply lookup_lt_Some|].
    destruct (Hpl _ _ _ Hi Ht) as [_ (d & Hd & -> & _)].
    rewrite (Forall_lookup_1 _ _ _ _ Hk Ht). consts. apply list_elem_of_fmap.
    exists (Z.to_nat d). rewrite Z2Nat.id, elem_of_seq by lia. split; [done|lia]. }
  apply NoDup_submseteq in Hsub; [|done]. apply submseteq_length in Hsub.
  rewrite length_fmap, length_seq in Hsub. consts. lia.
Qed.

(** Sixteen rows always fit, whatever their keys. *)
Lemma build_all_small ts h l :
  ht_rep h l -> Z.of_nat (length l + length ts) <= MAX_PROBE_DIST -> is_Some (build_all ts h).
Proof.
  revert h l. induction ts as [|[k t] ts IH]; intros h l Hr Hl; cbn [build_all]; [eauto|].
  cbn [length key tid] in *. pose proof Hr as (Hrc & _).
  destruct (build_cases k t h) as [(_ & d & _ & _ & _ & Hb)|[(_ & Hw & _)|[Hge _]]].
  - rewrite Hb. cbn [err_ok]. destruct (build_rep _ _ _ _ _ _ Hr Hb) as [Hr' _].
    eapply IH; [exact Hr'|]. rewrite length_app. simpl. lia.
  - apply (window_full_rows _ _ _ Hr) in Hw. lia.
  - consts. lia.
Qed.

Lemma table_accepts_small ts :
  Z.of_nat (length ts) <= MAX_PROBE_DIST -> table_accepts ts.
Proof. intros. apply (build_all_small _ _ []); [apply ht_rep_reset|done]. Qed.

(** ** Properties *)

(** C7: the table refines a list of tuples.  After inserting any rows [ts] that
    it accepts into a table in any earlier state that has been reset, [size] is
    their number, at most [capacity], and [probe] returns for every 64-bit key
    the tid of the first row with that key, in at most [MAX_PROBE_DIST] steps. *)
Theorem table_refines_list (h : LinearHashTable) (ts : list Tuple) (h' : LinearHashTable) :
  build_all ts (reset h) = Some h' ->
  size h' = Z.of_nat (length ts) /\ size h' <= capacity /\
  forall k, fst (probe k h') = first_match k ts /\ 1 <= snd (probe k h') <= MAX_PROBE_DIST.
Proof.
  intros Hb. pose proof (build_all_rep _ _ _ _ (ht_rep_reset h) Hb) as Hr. simpl in Hr.
  pose proof Hr as (Hrc & Hmax & _). split_and!; [done|done|].
  intros k. split; [by apply probe_rep|apply probe_steps].
Qed.

Lemma table_refines_list_witness :
  exists h', build_all [mkTuple 5 (mkTid 7 1); mkTuple (-3) (mkTid 8 2); mkTuple 5 (mkTid 9 3)]
               (reset ht_static) = Some h' /\ fst (probe 5 h') = Some (mkTid 7 1).
Proof.
  destruct (build_all_small [mkTuple 5 (mkTid 7 1); mkTuple (-3) (mkTid 8 2);
    mkTuple 5 (mkTid 9 3)] (reset ht_static) [] (ht_rep_reset _)) as [h' Hb]; [done|].
  exists h'. split; [exact Hb|].
  destruct (table_refines_list ht_static _ h' Hb) as (_ & _ & Hp).
  destruct (Hp 5) as [-> _]. reflexivity.
Defined.

(** C12: an insertion fails exactly when the table holds [HT_MAX_ROWS] rows or the
    sixteen slots of the key's probe window are taken; it then changes nothing
    and reports ERR_OVERFLOW.  It never reports another error. *)
Theorem build_overflow_iff (h : LinearHashTable) (l : list Tuple) (k : Z) (t : Tid) :
  ht_rep h l ->
  let '(e, steps, h') := build k t h in
  (e = ERR_OVERFLOW <-> Z.of_nat (length l) = HT_MAX_ROWS \/ window_full h k) /\
  (e = ERR_OVERFLOW -> h' = h) /\
  (e <> ERR_OVERFLOW -> e = ERR_NONE /\ 1 <= steps <= MAX_PROBE_DIST /\
     ht_rep h' (l ++ [mkTuple k t])).
Proof.
  intros Hr. pose proof Hr as (Hrc & Hmax & _).
  destruct (build_cases k t h) as [(Hm & d & Hd & Hf & Hp & Hb)|[(Hm & Hw & Hb)|[Hge Hb]]];
    rewrite Hb.
  - destruct (build_rep h _ _ _ _ _ Hr Hb). split_and!; [|done|done].
    split; [done|]. intros [?|Hw]; [lia|]. exfalso. apply Hf, Hw, Hd.
  - by split_and!; [split; [by right|]|..].
  - split_and!; [split; [left; lia|done]|done|done].
Qed.

Lemma build_overflow_iff_witness :
  ht_rep (reset ht_static) [] /\ fst (fst (build 42 (mkTid 1 1) (reset ht_static))) = ERR_NONE.
Proof.
  split; [apply ht_rep_reset|].
  pose proof (build_overflow_iff (reset ht_static) [] 42 (mkTid 1 1) (ht_rep_reset _)) as H.
  destruct (build 42 (mkTid 1 1) (reset ht_static)) as [[e steps] h'].
  destruct H as (Hiff & _ & Hok). simpl. apply Hok. rewrite Hiff.
  intros [Hl|Hw]; [by simpl in Hl|].
  apply (window_full_rows _ _ _ (ht_rep_reset _)) in Hw. by apply Hw.
Defined.

(** Any [MAX_PROBE_DIST] rows fit, whatever their keys, duplicates and
    adversarial hash collisions included. *)
Theorem sixteen_rows_fit (h : LinearHashTable) (ts : list Tuple) :
  Z.of_nat (length ts) <= MAX_PROBE_DIST -> exists h', build_all ts (reset h) = Some h'.
Proof. intros Hl. exact (build_all_small ts (reset h) [] (ht_rep_reset h) Hl). Qed.

Lemma sixteen_rows_fit_witness :
  exists h', build_all (replicate 16 (mkTuple 5 (mkTid 7 1))) (reset ht_static) = Some h'.
Proof. apply (sixteen_rows_fit ht_static (replicate 16 (mkTuple 5 (mkTid 7 1)))). done. Defined.
