(* ===== verification/Stream.v ===== *)
(** The AXI-Stream layer of [src/src/hash_join_kernel.hpp]: byte-level reads and
    writes, the frame builders and the frame-boundary watchdog.

    [dev] is what the kernel sees of the outside world: the pending input, the
    output written so far, the AXI-Lite registers and the DDR2 buffer.  The
    input is a list of events, a byte or a number of clock cycles in which no
    byte is available, so that the watchdog of [rx_byte_guarded] is part of the
    model; blocking reads wait through silence and block at the end of the list.

    The flag [dbg] of [emit_debug] is the build configuration
    [defined(__SYNTHESIS__) && !defined(__SYNTHESIS_DISABLE_DEBUG__)]. *)
From S2P Require Import Prelude Types.

(** ** Device state *)

Record AxisByte := mkAxis { ax_data : Z; ax_last : bool; ax_keep : Z }.

Inductive rx_event := RxByte (b : Z) | RxSilence (cycles : Z).

Record regs := mkRegs {
  status_reg : Z;
  result_count_reg : Z;
  error_code_reg : Z;
  ht_capacity_reg : Z;
  rx_buf_cap_reg : Z }.

Record dev := mkDev {
  rx : list rx_event;
  tx : list AxisByte;
  ports : regs;
  ddr2 : gmap Z Z }.

(** ** Read helpers *)

(** The first available byte: [s.read().data] waits for it. *)
Fixpoint rx_next (l : list rx_event) : option (Z * list rx_event) :=
  match l with
  | [] => None
  | RxByte b :: l => Some (u8 b, l)
  | RxSilence _ :: l => rx_next l
  end.

Definition rx_byte : M dev Z := fun d =>
  match rx_next (rx d) with
  | Some (b, l) => Ret b (d <| rx := l |>)
  | None => Blocked d
  end.

Definition rx_u16 : M dev Z :=
  b0 ← rx_byte; b1 ← rx_byte;
  mret (Z.lor b0 (u16 (Z.shiftl b1 8))).

Definition rx_u32 : M dev Z :=
  b0 ← rx_byte; b1 ← rx_byte; b2 ← rx_byte; b3 ← rx_byte;
  mret (Z.lor (Z.lor (Z.lor b0 (Z.shiftl b1 8)) (Z.shiftl b2 16)) (Z.shiftl b3 24)).

Definition rx_i64 : M dev Z :=
  b0 ← rx_byte; b1 ← rx_byte; b2 ← rx_byte; b3 ← rx_byte;
  b4 ← rx_byte; b5 ← rx_byte; b6 ← rx_byte; b7 ← rx_byte;
  mret (i64 (Z.lor (Z.lor (Z.lor (Z.lor (Z.lor (Z.lor (Z.lor b0
    (Z.shiftl b1 8)) (Z.shiftl b2 16)) (Z.shiftl b3 24)) (Z.shiftl b4 32))
    (Z.shiftl b5 40)) (Z.shiftl b6 48)) (Z.shiftl b7 56))).

Definition rx_tid : M dev Tid :=
  b ← rx_u32; o ← rx_u16; mret (mkTid b o).

(** [keytype == KEY_INT64]; the key type is whatever byte CONFIGURE carried. *)
Definition is_int64 (keytype : Z) : bool := keytype =? key_code KEY_INT64.

Definition rx_discard_tuple (keytype : Z) : M dev unit :=
  (if is_int64 keytype then _ ← rx_i64; mret tt else _ ← rx_u32; mret tt) ;;
  _ ← rx_tid; mret tt.

(** The key of a tuple, widened to 64 bits. *)
Definition rx_key (keytype : Z) : M dev Z :=
  if is_int64 keytype then rx_i64 else k ← rx_u32; mret (i32 k).

Definition rx_tuple (keytype : Z) : M dev Tuple :=
  k ← rx_key keytype; t ← rx_tid; mret (mkTuple k t).

(** ** Write helpers *)

(** [b.keep] is one bit wide for an 8-bit stream. *)
Definition tx_byte (v : Z) (last : bool) : M dev unit :=
  mmodify (fun d => d <| tx ::= (fun o => o ++ [mkAxis v last (Z.land 255 1)]) |>).

Definition tx_u16 (v : Z) (last : bool) : M dev unit :=
  tx_byte (Z.land v 255) false ;;
  tx_byte (Z.land (Z.shiftr v 8) 255) last.

Definition tx_u32 (v : Z) (last : bool) : M dev unit :=
  tx_byte (Z.land (Z.shiftr v 0) 255) false ;;
  tx_byte (Z.land (Z.shiftr v 8) 255) false ;;
  tx_byte (Z.land (Z.shiftr v 16) 255) false ;;
  tx_byte (Z.land (Z.shiftr v 24) 255) last.

Definition tx_u64 (v : Z) (last : bool) : M dev unit :=
  tx_u32 (Z.land v 4294967295) false ;;
  tx_u32 (u32 (Z.shiftr v 32)) last.

(** ** Frame builders *)

Definition tx_header (type : MsgType) (count : Z) : M dev unit :=
  tx_byte (msg_code type) false ;; tx_u16 count false.

Definition tx_status_frame (type : MsgType) (phase : Phase)
    (processed matched credit session_id : Z) : M dev unit :=
  tx_header type 1 ;;
  tx_byte (phase_code phase) false ;;
  tx_byte session_id false ;;
  tx_u16 credit false ;;
  tx_u32 processed false ;;
  tx_u32 matched true.

Definition tx_error (e : FpgaError) : M dev unit :=
  tx_header MSG_ERROR 1 ;; tx_byte (err_code e) true.

Fixpoint tx_result_pairs (n : nat) (i count : Z) (buf : gmap Z ResultPair) : M dev unit :=
  match n with
  | O => mret tt
  | S n =>
      let last := i =? u16 (count - 1) in
      let p := aget pair0 buf i in
      tx_u32 (blkno (inner_tid p)) false ;;
      tx_u16 (offno (inner_tid p)) false ;;
      tx_u32 (blkno (outer_tid p)) false ;;
      tx_u16 (offno (outer_tid p)) last ;;
      tx_result_pairs n (i + 1) count buf
  end.

(** [count] must be at most [TX_BUF_SIZE]: a larger one reads past the buffer. *)
Definition tx_results (buf : gmap Z ResultPair) (count : Z) : M dev unit :=
  if count =? 0 then mret tt
  else if TX_BUF_SIZE <? count then mfault
  else tx_header MSG_RESULT count ;; tx_result_pairs (Z.to_nat count) 0 count buf.

Definition tx_timing_summary (t : TimingSummaryPayload) : M dev unit :=
  tx_header MSG_TIMING TIMING_SUMMARY_COUNT ;;
  tx_u16 (tm_version t) false ;;
  tx_u16 (tm_flags t) false ;;
  tx_u32 (tm_clock_hz t) false ;;
  tx_u32 (tm_inner_rows t) false ;;
  tx_u32 (tm_outer_rows t) false ;;
  tx_u32 (tm_matched_rows t) false ;;
  tx_u32 (tm_inner_frames t) false ;;
  tx_u32 (tm_outer_frames t) false ;;
  tx_u32 (tm_result_frames t) false ;;
  tx_u32 (tm_ack_frames t) false ;;
  tx_u32 (tm_debug_frames t) false ;;
  tx_u32 (tm_bytes_rx t) false ;;
  tx_u32 (tm_bytes_tx t) false ;;
  tx_u64 (tm_session_total_cycles t) false ;;
  tx_u64 (tm_config_cycles t) false ;;
  tx_u64 (tm_build_rx_cycles t) false ;;
  tx_u64 (tm_build_compute_cycles t) false ;;
  tx_u64 (tm_build_total_cycles t) false ;;
  tx_u64 (tm_probe_rx_cycles t) false ;;
  tx_u64 (tm_probe_compute_cycles t) false ;;
  tx_u64 (tm_result_emit_cycles t) false ;;
  tx_u64 (tm_probe_total_cycles t) false ;;
  tx_u64 (tm_ack_emit_cycles t) false ;;
  tx_u64 (tm_rx_wait_cycles t) false ;;
  tx_u64 (tm_tx_blocked_cycles t) false ;;
  tx_u64 (tm_protocol_wait_cycles t) false ;;
  tx_u32 (tm_max_build_batch_cycles t) false ;;
  tx_u32 (tm_max_probe_batch_cycles t) false ;;
  tx_u32 (tm_max_result_frame_cycles t) false ;;
  tx_u32 (tm_hash_build_inserts t) false ;;
  tx_u32 (tm_hash_probe_lookups t) false ;;
  tx_u32 (tm_hash_probe_hits t) false ;;
  tx_u32 (tm_hash_probe_misses t) false ;;
  tx_u32 (tm_hash_overflow_errors t) false ;;
  tx_u32 (tm_hash_build_collision_steps t) false ;;
  tx_u32 (tm_hash_probe_collision_steps t) false ;;
  tx_u16 (tm_hash_max_build_probe_distance t) false ;;
  tx_u16 (tm_hash_max_probe_distance t) false ;;
  tx_u32 (tm_hash_table_load_factor_ppm t) true.

Inductive DbgLevelKernel := DBG_DEBUG | DBG_INFO | DBG_WARN | DBG_ERROR.
Definition dbg_level_code (l : DbgLevelKernel) : Z :=
  match l with DBG_DEBUG => 0 | DBG_INFO => 1 | DBG_WARN => 2 | DBG_ERROR => 3 end.

Inductive DbgCodeKernel :=
| DBG_IDLE_ENTER | DBG_CONFIGURE | DBG_BUILD_BATCH | DBG_BUILD_DONE
| DBG_PROBE_BATCH | DBG_PROBE_DONE | DBG_RESET | DBG_BUILD_KEY | DBG_PROBE_KEY
| DBG_PROBE_HIT | DBG_KERNEL_ERROR.
Definition dbg_code_code (c : DbgCodeKernel) : Z :=
  match c with
  | DBG_IDLE_ENTER => 1 | DBG_CONFIGURE => 2 | DBG_BUILD_BATCH => 3
  | DBG_BUILD_DONE => 4 | DBG_PROBE_BATCH => 5 | DBG_PROBE_DONE => 6
  | DBG_RESET => 7 | DBG_BUILD_KEY => 8 | DBG_PROBE_KEY => 9
  | DBG_PROBE_HIT => 10 | DBG_KERNEL_ERROR => 255
  end.

Definition emit_debug (dbg : bool) (level : DbgLevelKernel) (code : DbgCodeKernel)
    (value : Z) : M dev unit :=
  mwhen dbg
    (tx_header MSG_DEBUG 1 ;;
     tx_byte (dbg_level_code level) false ;;
     tx_u16 (dbg_code_code code) false ;;
     tx_u32 value true).

(** ** Frame-boundary watchdog *)

Definition RX_WATCHDOG_CYCLES : Z := 350000000.

Inductive poll_result :=
| PollByte (b : Z) (l : list rx_event)
| PollTimeout (l : list rx_event)
| PollPending.

(** Poll until a byte arrives or [RX_WATCHDOG_CYCLES] polls have failed. *)
Fixpoint poll (ctr : Z) (l : list rx_event) : poll_result :=
  match l with
  | [] => PollPending
  | RxByte b :: l => PollByte (u8 b) l
  | RxSilence n :: l =>
      if RX_WATCHDOG_CYCLES <=? ctr + n
      then PollTimeout (RxSilence (ctr + n - RX_WATCHDOG_CYCLES) :: l)
      else poll (ctr + n) l
  end.

(** The byte read and the new value of [session_done] (false on entry). *)
Definition rx_byte_guarded (dbg : bool) (session_id : Z) : M dev (Z * bool) := fun d =>
  match poll 0 (rx d) with
  | PollByte b l => Ret (b, false) (d <| rx := l |>)
  | PollTimeout l =>
      (emit_debug dbg DBG_WARN DBG_RESET RX_WATCHDOG_CYCLES ;;
       tx_status_frame MSG_ACK PHASE_IDLE 0 0 RX_CREDIT_TUPLES session_id ;;
       mret (0, true)) (d <| rx := l |>)
  | PollPending => Blocked d
  end.
