(* ===== verification/Wire.v ===== *)
(** The wire format as data, and the stream layer against it.

    [pg_frame] and [fp_frame] are the frames of the two directions with their
    byte strings ([pg_bytes], [fp_bytes]), following the layout comments of
    [hash_join_types.hpp].  [reads m bs a] says that a reader consumes exactly
    the bytes [bs], whatever the arrival times, and returns [a]; [writes m l bs]
    that a writer emits exactly [bs], with TLAST on the final byte iff [l].
    Both are compositional, so the kernel proofs work on frames. *)
From S2P Require Import Prelude Types Stream.

(** ** Byte strings of the structures *)

Definition tid_bytes (t : Tid) : list Z := le_bytes 4 (blkno t) ++ le_bytes 2 (offno t).
Definition pair_bytes (p : ResultPair) : list Z :=
  tid_bytes (inner_tid p) ++ tid_bytes (outer_tid p).
Definition key_bytes (keytype k : Z) : list Z :=
  if is_int64 keytype then le_bytes 8 k else le_bytes 4 k.
Definition tuple_bytes (keytype : Z) (t : Tuple) : list Z :=
  key_bytes keytype (key t) ++ tid_bytes (tid t).
Definition tuples_bytes (keytype : Z) (ts : list Tuple) : list Z :=
  concat (tuple_bytes keytype <$> ts).
Definition header_bytes (m : MsgType) (count : Z) : list Z := msg_code m :: le_bytes 2 count.

Definition configure_bytes (c : ConfigurePayload) : list Z :=
  [cp_algorithm c; cp_key_type c] ++ le_bytes 2 (cp_rx_buf_slots c) ++
  le_bytes 4 (cp_inner_count c) ++ le_bytes 4 (cp_outer_count c) ++ [cp_session_id c].

Definition status_bytes (s : StatusPayload) : list Z :=
  [sp_phase s] ++ [sp_session_id s] ++ le_bytes 2 (sp_credit s) ++
  le_bytes 4 (sp_rows_processed s) ++ le_bytes 4 (sp_rows_matched s).

Definition timing_bytes (t : TimingSummaryPayload) : list Z :=
  le_bytes 2 (tm_version t) ++ le_bytes 2 (tm_flags t) ++ le_bytes 4 (tm_clock_hz t) ++
  le_bytes 4 (tm_inner_rows t) ++ le_bytes 4 (tm_outer_rows t) ++
  le_bytes 4 (tm_matched_rows t) ++ le_bytes 4 (tm_inner_frames t) ++
  le_bytes 4 (tm_outer_frames t) ++ le_bytes 4 (tm_result_frames t) ++
  le_bytes 4 (tm_ack_frames t) ++ le_bytes 4 (tm_debug_frames t) ++
  le_bytes 4 (tm_bytes_rx t) ++ le_bytes 4 (tm_bytes_tx t) ++
  le_bytes 8 (tm_session_total_cycles t) ++ le_bytes 8 (tm_config_cycles t) ++
  le_bytes 8 (tm_build_rx_cycles t) ++ le_bytes 8 (tm_build_compute_cycles t) ++
  le_bytes 8 (tm_build_total_cycles t) ++ le_bytes 8 (tm_probe_rx_cycles t) ++
  le_bytes 8 (tm_probe_compute_cycles t) ++ le_bytes 8 (tm_result_emit_cycles t) ++
  le_bytes 8 (tm_probe_total_cycles t) ++ le_bytes 8 (tm_ack_emit_cycles t) ++
  le_bytes 8 (tm_rx_wait_cycles t) ++ le_bytes 8 (tm_tx_blocked_cycles t) ++
  le_bytes 8 (tm_protocol_wait_cycles t) ++ le_bytes 4 (tm_max_build_batch_cycles t) ++
  le_bytes 4 (tm_max_probe_batch_cycles t) ++ le_bytes 4 (tm_max_result_frame_cycles t) ++
  le_bytes 4 (tm_hash_build_inserts t) ++ le_bytes 4 (tm_hash_probe_lookups t) ++
  le_bytes 4 (tm_hash_probe_hits t) ++ le_bytes 4 (tm_hash_probe_misses t) ++
  le_bytes 4 (tm_hash_overflow_errors t) ++ le_bytes 4 (tm_hash_build_collision_steps t) ++
  le_bytes 4 (tm_hash_probe_collision_steps t) ++
  le_bytes 2 (tm_hash_max_build_probe_distance t) ++
  le_bytes 2 (tm_hash_max_probe_distance t) ++ le_bytes 4 (tm_hash_table_load_factor_ppm t).

(** ** Frames *)

(** PostgreSQL to FPGA; data frames carry tuples in the session's key type. *)
Inductive pg_frame :=
| PConfigure (c : ConfigurePayload)
| PInner (ts : list Tuple)
| POuter (ts : list Tuple)
| PReset.

Definition pg_bytes (keytype : Z) (f : pg_frame) : list Z :=
  match f with
  | PConfigure c => header_bytes MSG_CONFIGURE 1 ++ configure_bytes c
  | PInner ts => header_bytes MSG_INNER_DATA (Z.of_nat (length ts)) ++ tuples_bytes keytype ts
  | POuter ts => header_bytes MSG_OUTER_DATA (Z.of_nat (length ts)) ++ tuples_bytes keytype ts
  | PReset => header_bytes MSG_RESET 0
  end.

(** FPGA to PostgreSQL. *)
Inductive fp_frame :=
| FResult (ps : list ResultPair)
| FAck (s : StatusPayload)
| FStatus (s : StatusPayload)
| FError (e : Z)
| FDebug (level code value : Z)
| FTiming (t : TimingSummaryPayload).

Definition fp_bytes (f : fp_frame) : list Z :=
  match f with
  | FResult ps => header_bytes MSG_RESULT (Z.of_nat (length ps)) ++ concat (pair_bytes <$> ps)
  | FAck s => header_bytes MSG_ACK 1 ++ status_bytes s
  | FStatus s => header_bytes MSG_STATUS 1 ++ status_bytes s
  | FError e => header_bytes MSG_ERROR 1 ++ [e]
  | FDebug l c v => header_bytes MSG_DEBUG 1 ++ [l] ++ le_bytes 2 c ++ le_bytes 4 v
  | FTiming t => header_bytes MSG_TIMING 1 ++ timing_bytes t
  end.

(** Bytes as the output stream carries them. *)
Fixpoint axis (last : bool) (bs : list Z) : list AxisByte :=
  match bs with
  | [] => []
  | [b] => [mkAxis b last 1]
  | b :: bs => mkAxis b false 1 :: axis last bs
  end.

(** A frame on the stream: TLAST marks its final byte and no other. *)
Definition axis_frame (f : fp_frame) : list AxisByte := axis true (fp_bytes f).
Definition axis_frames (fs : list fp_frame) : list AxisByte := concat (axis_frame <$> fs).

(** Bytes arriving with [g i] cycles of silence before byte number [i]. *)
Fixpoint feed (g : nat -> Z) (n : nat) (bs : list Z) (tl : list rx_event) : list rx_event :=
  match bs with
  | [] => tl
  | b :: bs => RxSilence (g n) :: RxByte b :: feed g (S n) bs tl
  end.

(** No gap long enough for the watchdog. *)
Definition timely (g : nat -> Z) : Prop := forall i, 0 <= g i < RX_WATCHDOG_CYCLES.

(** ** Readers and writers *)

Definition reads {A} (m : M dev A) (bs : list Z) (a : A) : Prop :=
  forall g n rest tl o p mm,
    m (mkDev (feed g n (bs ++ rest) tl) o p mm) =
    Ret a (mkDev (feed g (n + length bs) rest tl) o p mm).

Definition writes (m : M dev unit) (last : bool) (bs : list Z) : Prop :=
  forall i o p mm, m (mkDev i o p mm) = Ret tt (mkDev i (o ++ axis last bs) p mm).

(** A command whose only effect is to emit the frames [fs]. *)
Definition emits (m : M dev unit) (fs : list fp_frame) : Prop :=
  forall i o p mm, m (mkDev i o p mm) = Ret tt (mkDev i (o ++ axis_frames fs) p mm).

(** ** Lemmas on byte strings *)

Lemma le_bytes_app n m v :
  le_bytes (n + m) v = le_bytes n v ++ le_bytes m (v / 256 ^ Z.of_nat n).
Proof.
  revert v. induction n as [|n IH]; intros v; simpl le_bytes.
  - by rewrite Z.div_1_r.
  - rewrite IH, Z.div_div, <- Z.pow_succ_r, Nat2Z.inj_succ by lia. done.
Qed.

Lemma le_bytes_mod n v : le_bytes n (v mod 256 ^ Z.of_nat n) = le_bytes n v.
Proof.
  revert v. induction n as [|n IH]; intros v; [done|]. cbn [le_bytes].
  rewrite Nat2Z.inj_succ, Z.pow_succ_r, Z.rem_mul_r by lia. f_equal.
  - zdm.
  - rewrite <- (IH (v / 256)). f_equal.
    set (q := (v / 256) mod _). clearbody q. zdm.
Qed.

Lemma le_bytes_2 v : le_bytes 2 v = [Z.land v 255; Z.land (Z.shiftr v 8) 255].
Proof. simpl. rewrite !land_255, Z.shiftr_div_pow2 by lia. done. Qed.

Lemma le_bytes_4 v :
  le_bytes 4 v = [Z.land (Z.shiftr v 0) 255; Z.land (Z.shiftr v 8) 255;
                  Z.land (Z.shiftr v 16) 255; Z.land (Z.shiftr v 24) 255].
Proof.
  simpl. rewrite !land_255, !Z.shiftr_div_pow2, !Z.div_div, Z.div_1_r by lia. done.
Qed.

Lemma le_bytes_8 v :
  le_bytes 8 v = le_bytes 4 (Z.land v 4294967295) ++ le_bytes 4 (u32 (Z.shiftr v 32)).
Proof.
  change 4294967295 with (Z.ones 32). rewrite Z.land_ones, Z.shiftr_div_pow2 by lia.
  unfold u32. change (2 ^ 32) with (256 ^ Z.of_nat 4). rewrite !le_bytes_mod.
  apply (le_bytes_app 4 4).
Qed.

(** The values the readers reassemble. *)
Ltac join_step :=
  match goal with
  | |- context [ Z.lor ?a (Z.shiftl ?b ?n) ] =>
      lazymatch a with context [ Z.lor _ _ ] => fail | _ => idtac end;
      rewrite (lor_shiftl_add a b n) by lia
  end.

Lemma join_2 b0 b1 :
  is_byte b0 -> is_byte b1 -> Z.lor b0 (u16 (Z.shiftl b1 8)) = le_value [b0; b1].
Proof.
  unfold is_byte. intros. unfold u16. rewrite Z.shiftl_mul_pow2, Z.mod_small by lia.
  rewrite <- Z.shiftl_mul_pow2, lor_shiftl_add by lia. simpl. lia.
Qed.

Lemma join_4 b0 b1 b2 b3 :
  Forall is_byte [b0; b1; b2; b3] ->
  Z.lor (Z.lor (Z.lor b0 (Z.shiftl b1 8)) (Z.shiftl b2 16)) (Z.shiftl b3 24) =
  le_value [b0; b1; b2; b3].
Proof.
  rewrite !Forall_cons. unfold is_byte. intros (?&?&?&?&_).
  repeat join_step. simpl. lia.
Qed.

Lemma join_8 b0 b1 b2 b3 b4 b5 b6 b7 :
  Forall is_byte [b0; b1; b2; b3; b4; b5; b6; b7] ->
  Z.lor (Z.lor (Z.lor (Z.lor (Z.lor (Z.lor (Z.lor b0
    (Z.shiftl b1 8)) (Z.shiftl b2 16)) (Z.shiftl b3 24)) (Z.shiftl b4 32))
    (Z.shiftl b5 40)) (Z.shiftl b6 48)) (Z.shiftl b7 56) =
  le_value [b0; b1; b2; b3; b4; b5; b6; b7].
Proof.
  rewrite !Forall_cons. unfold is_byte. intros (?&?&?&?&?&?&?&?&_).
  repeat join_step. simpl. lia.
Qed.

(** ** Reader rules *)

Lemma reads_ret {A} (a : A) : reads (mret a) [] a.
Proof. intros ???????. simpl. by rewrite Nat.add_0_r. Qed.

Lemma reads_bind {A B} (m : M dev A) (k : A -> M dev B) bs bs' a b :
  reads m bs a -> reads (k a) bs' b -> reads (m ≫= k) (bs ++ bs') b.
Proof.
  intros Hm Hk g n rest tl o p mm. rewrite <- app_assoc. run Hm. rewrite Hk.
  by rewrite length_app, Nat.add_assoc.
Qed.

Lemma reads_byte b : is_byte b -> reads rx_byte [b] b.
Proof.
  intros Hb g n rest tl o p mm. unfold rx_byte. simpl. rewrite u8_small by done.
  rcbn. by rewrite Nat.add_1_r.
Qed.

(** Reading bytes one after the other into [f]. *)
Lemma reads_byte_cons {B} b (k : Z -> M dev B) bs v :
  is_byte b -> reads (k b) bs v -> reads (rx_byte ≫= k) (b :: bs) v.
Proof. intros. apply (reads_bind _ _ [b] _ b); [by apply reads_byte|done]. Qed.

Lemma reads_u16 v : reads rx_u16 (le_bytes 2 v) (u16 v).
Proof.
  pose proof (le_bytes_byte 2 v) as Hb. pose proof (le_value_bytes 2 v) as Hv.
  unfold u16. change (2 ^ 16) with (256 ^ Z.of_nat 2). rewrite <- Hv.
  simpl le_bytes in *. rewrite !Forall_cons in Hb. destruct Hb as (?&?&_).
  do 2 (apply reads_byte_cons; [done|]). rewrite join_2 by done. apply reads_ret.
Qed.

Lemma reads_u32 v : reads rx_u32 (le_bytes 4 v) (u32 v).
Proof.
  pose proof (le_bytes_byte 4 v) as Hb. pose proof (le_value_bytes 4 v) as Hv.
  unfold u32. change (2 ^ 32) with (256 ^ Z.of_nat 4). rewrite <- Hv.
  simpl le_bytes in *. pose proof Hb as Hb'. rewrite !Forall_cons in Hb. destruct Hb as (?&?&?&?&_).
  do 4 (apply reads_byte_cons; [done|]). rewrite join_4 by done. apply reads_ret.
Qed.

Lemma reads_i64 v : reads rx_i64 (le_bytes 8 v) (i64 v).
Proof.
  pose proof (le_bytes_byte 8 v) as Hb. pose proof (le_value_bytes 8 v) as Hv.
  rewrite <- i64_u64. unfold u64. change (2 ^ 64) with (256 ^ Z.of_nat 8). rewrite <- Hv.
  simpl le_bytes in *. pose proof Hb as Hb'.
  rewrite !Forall_cons in Hb. destruct Hb as (?&?&?&?&?&?&?&?&_).
  do 8 (apply reads_byte_cons; [done|]). rewrite join_8 by done. apply reads_ret.
Qed.

Lemma reads_tid t : tid_wf t -> reads rx_tid (tid_bytes t) t.
Proof.
  intros [Hb Ho]. unfold rx_tid, tid_bytes. eapply reads_bind; [apply reads_u32|].
  rewrite <- (app_nil_r (le_bytes 2 _)). eapply reads_bind; [apply reads_u16|].
  rewrite u32_small, u16_small by done. destruct t. apply reads_ret.
Qed.

#[global] Opaque rx_u16 rx_u32 rx_i64.

Definition key_wf (keytype k : Z) : Prop := if is_int64 keytype then is_i64 k else is_i32 k.
Definition tuple_wf (keytype : Z) (t : Tuple) : Prop :=
  key_wf keytype (key t) /\ tid_wf (tid t).

Lemma reads_key kt k : key_wf kt k -> reads (rx_key kt) (key_bytes kt k) k.
Proof.
  unfold key_wf, rx_key, key_bytes. destruct (is_int64 kt); intros Hk.
  - rewrite <- (i64_small k) at 2 by done. apply reads_i64.
  - rewrite <- (app_nil_r (le_bytes 4 k)). eapply reads_bind; [apply reads_u32|].
    rewrite i32_u32, i32_small by done. apply reads_ret.
Qed.

Lemma reads_tuple kt t : tuple_wf kt t -> reads (rx_tuple kt) (tuple_bytes kt t) t.
Proof.
  intros [Hk Ht]. unfold rx_tuple, tuple_bytes. eapply reads_bind; [by apply reads_key|].
  rewrite <- (app_nil_r (tid_bytes _)). eapply reads_bind; [by apply reads_tid|].
  destruct t. apply reads_ret.
Qed.

Lemma reads_discard kt t :
  tid_wf (tid t) -> reads (rx_discard_tuple kt) (tuple_bytes kt t) tt.
Proof.
  intros Ht. unfold rx_discard_tuple, tuple_bytes, key_bytes.
  eapply (reads_bind _ _ _ _ tt).
  - destruct (is_int64 kt); rewrite <- (app_nil_r (le_bytes _ _)).
    + eapply reads_bind; [apply reads_i64|apply reads_ret].
    + eapply reads_bind; [apply reads_u32|apply reads_ret].
  - rewrite <- (app_nil_r (tid_bytes _)). eapply reads_bind; [by apply reads_tid|apply reads_ret].
Qed.
#[export] Hint Resolve reads_ret reads_u16 reads_u32 reads_i64 reads_tid reads_key
  reads_tuple : bytes.

(** ** Writer rules *)

Lemma axis_app last bs bs' :
  bs' <> [] -> axis last (bs ++ bs') = axis false bs ++ axis last bs'.
Proof.
  intros Hne. induction bs as [|b [|b' bs] IH]; [done| |].
  - simpl. by destruct bs'.
  - simpl in *. by rewrite IH.
Qed.

Lemma axis_data last bs : ax_data <$> axis last bs = bs.
Proof.
  induction bs as [|b [|b' bs] IH]; [done..|].
  cbn [axis] in *. rewrite fmap_cons, IH. done.
Qed.

Lemma writes_byte v last : writes (tx_byte v last) last [v].
Proof. intros i o p mm. reflexivity. Qed.

Lemma writes_seq m1 m2 last bs bs' :
  writes m1 false bs -> writes m2 last bs' -> bs' <> [] -> writes (m1 ;; m2) last (bs ++ bs').
Proof.
  intros H1 H2 Hne i o p mm. run H1. rewrite H2, axis_app, app_assoc by done. done.
Qed.

Lemma writes_cons v m last bs :
  writes m last bs -> bs <> [] -> writes (tx_byte v false ;; m) last (v :: bs).
Proof. intros. by apply (writes_seq _ _ _ [v]); [apply writes_byte|..]. Qed.

Lemma writes_u16 v last : writes (tx_u16 v last) last (le_bytes 2 v).
Proof. rewrite le_bytes_2. apply writes_cons; [apply writes_byte|done]. Qed.

Lemma writes_u32 v last : writes (tx_u32 v last) last (le_bytes 4 v).
Proof. rewrite le_bytes_4. do 3 (apply writes_cons; [|done]). apply writes_byte. Qed.

Lemma writes_u64 v last : writes (tx_u64 v last) last (le_bytes 8 v).
Proof. rewrite le_bytes_8. apply writes_seq; [apply writes_u32..|done]. Qed.

Lemma writes_header m c : writes (tx_header m c) false (header_bytes m c).
Proof. apply writes_cons; [apply writes_u16|done]. Qed.

Lemma writes_then_ret m last bs : writes m last bs -> writes (m ;; mret tt) last bs.
Proof. intros H i o p mm. by run H. Qed.

#[global] Opaque tx_byte tx_u16 tx_u32 tx_u64 tx_header.

(** Walk down a sequence of field writers. *)
Ltac writes_fields :=
  repeat first
    [ apply writes_byte | apply writes_u16 | apply writes_u32 | apply writes_u64
    | apply writes_seq; [apply writes_header| |done]
    | apply writes_seq; [first [apply writes_u16|apply writes_u32|apply writes_u64]| |done]
    | apply (writes_seq _ _ _ [_]); [apply writes_byte| |done] ].

Lemma writes_emits m f : writes m true (fp_bytes f) -> emits m [f].
Proof. intros H i o p mm. rewrite H. unfold axis_frames. simpl. by rewrite app_nil_r. Qed.

Definition status_of (ph : Phase) (processed matched credit sid : Z) : StatusPayload :=
  mkStatus (phase_code ph) sid credit processed matched.

Lemma emits_ack ph pr ma cr sid :
  emits (tx_status_frame MSG_ACK ph pr ma cr sid) [FAck (status_of ph pr ma cr sid)].
Proof. apply writes_emits. unfold tx_status_frame, fp_bytes, status_bytes. writes_fields. Qed.

Lemma emits_status ph pr ma cr sid :
  emits (tx_status_frame MSG_STATUS ph pr ma cr sid) [FStatus (status_of ph pr ma cr sid)].
Proof. apply writes_emits. unfold tx_status_frame, fp_bytes, status_bytes. writes_fields. Qed.

Lemma emits_error e : emits (tx_error e) [FError (err_code e)].
Proof. apply writes_emits. unfold tx_error, fp_bytes. writes_fields. Qed.

Lemma emits_timing t : emits (tx_timing_summary t) [FTiming t].
Proof. apply writes_emits. unfold tx_timing_summary, fp_bytes, timing_bytes. writes_fields. Qed.

Definition debug_frames (dbg : bool) (l : DbgLevelKernel) (c : DbgCodeKernel) (v : Z)
  : list fp_frame :=
  if dbg then [FDebug (dbg_level_code l) (dbg_code_code c) v] else [].

Lemma emits_nil : emits (mret tt) [].
Proof. intros i o p mm. unfold axis_frames. simpl. by rewrite app_nil_r. Qed.

Lemma emits_debug dbg l c v : emits (emit_debug dbg l c v) (debug_frames dbg l c v).
Proof.
  destruct dbg; [|apply emits_nil].
  apply writes_emits. unfold emit_debug, mwhen, fp_bytes. writes_fields.
Qed.

(** The first [n] entries of a result buffer. *)
Definition buf_pairs (buf : gmap Z ResultPair) (n : nat) : list ResultPair :=
  (fun i => aget pair0 buf (Z.of_nat i)) <$> seq 0 n.

Lemma writes_result_pairs n i c buf :
  (0 < n)%nat -> 0 <= i -> i + Z.of_nat n = c -> c < 2 ^ 16 ->
  writes (tx_result_pairs n i c buf) true
    (concat ((fun j => pair_bytes (aget pair0 buf (i + Z.of_nat j))) <$> seq 0 n)).
Proof.
  revert i. induction n as [|n IH]; intros i Hn Hi Hc Hm; [lia|].
  cbn [tx_result_pairs]. rewrite <- cons_seq, <- fmap_S_seq, fmap_cons, <- list_fmap_compose.
  rewrite Z.add_0_r, u16_small by (unfold is_u16; lia).
  rewrite (list_fmap_ext _ (fun j => pair_bytes (aget pair0 buf (i + 1 + Z.of_nat j))) (seq 0 n))
    by (intros; simpl; do 2 f_equal; lia).
  cbn [concat]. unfold pair_bytes at 1, tid_bytes. rewrite <- !app_assoc.
  repeat (apply writes_seq; [first [apply writes_u16|apply writes_u32]| |done]).
  destruct (decide (n = O)) as [->|Hn0].
  - replace (i =? c - 1) with true by lia. apply writes_then_ret, writes_u16.
  - replace (i =? c - 1) with false by lia.
    apply writes_seq; [apply writes_u16|apply IH; lia|]. by destruct n.
Qed.

Lemma emits_results buf c :
  0 < c <= TX_BUF_SIZE -> emits (tx_results buf c) [FResult (buf_pairs buf (Z.to_nat c))].
Proof.
  intros Hc. apply writes_emits. unfold tx_results. consts.
  replace (c =? 0) with false by lia. replace (256 <? c) with false by lia.
  unfold fp_bytes, buf_pairs. rewrite length_fmap, length_seq, Z2Nat.id by lia.
  rewrite <- list_fmap_compose.
  apply writes_seq; [apply writes_header|apply (writes_result_pairs _ 0); lia|].
  destruct (Z.to_nat c) eqn:?; [lia|]. done.
Qed.

Lemma emits_seq m1 m2 fs fs' : emits m1 fs -> emits m2 fs' -> emits (m1 ;; m2) (fs ++ fs').
Proof.
  intros H1 H2 i o p mm. run H1. rewrite H2. unfold axis_frames.
  by rewrite fmap_app, concat_app, app_assoc.
Qed.

Lemma axis_frames_app fs fs' : axis_frames (fs ++ fs') = axis_frames fs ++ axis_frames fs'.
Proof. unfold axis_frames. by rewrite fmap_app, concat_app. Qed.

(** ** The watchdog *)

Lemma guarded_timely dbg sid g n b rest tl o p mm :
  timely g -> is_byte b ->
  rx_byte_guarded dbg sid (mkDev (feed g n (b :: rest) tl) o p mm) =
  Ret (b, false) (mkDev (feed g (S n) rest tl) o p mm).
Proof.
  intros Hg Hb. unfold rx_byte_guarded. cbn [rx feed poll]. specialize (Hg n).
  destruct (Z.leb_spec RX_WATCHDOG_CYCLES (0 + g n)); [lia|]. by rewrite u8_small.
Qed.

Lemma guarded_timeout dbg sid n tl o p mm :
  RX_WATCHDOG_CYCLES <= n ->
  rx_byte_guarded dbg sid (mkDev (RxSilence n :: tl) o p mm) =
  Ret (0, true)
    (mkDev (RxSilence (n - RX_WATCHDOG_CYCLES) :: tl)
       (o ++ axis_frames (debug_frames dbg DBG_WARN DBG_RESET RX_WATCHDOG_CYCLES ++
                          [FAck (status_of PHASE_IDLE 0 0 RX_CREDIT_TUPLES sid)])) p mm).
Proof.
  intros Hn. unfold rx_byte_guarded. cbn [rx poll].
  destruct (Z.leb_spec RX_WATCHDOG_CYCLES (0 + n)); [|lia].
  rcbn. run emits_debug. run emits_ack. rewrite axis_frames_app, app_assoc. done.
Qed.
