(* ===== verification/Dialogue.v ===== *)
(** Runs of stream commands as exchanges of bytes and frames.

    [talks g m bs w a fs w'] says that, fed in time by the schedule [g], the
    command [m] consumes exactly the bytes [bs], returns [a], emits exactly the
    frames [fs], each delimited by TLAST, and takes the registers and DDR2 from
    [w] to [w'].  The rules below compose such statements along the monad. *)
From S2P Require Import Prelude Types Stream Wire.

Definition world : Type := regs * gmap Z Z.

Definition talks {A} (g : nat -> Z) (m : M dev A) (bs : list Z) (w : world)
    (a : A) (fs : list fp_frame) (w' : world) : Prop :=
  forall n rest tl o,
    m (mkDev (feed g n (bs ++ rest) tl) o (fst w) (snd w)) =
    Ret a (mkDev (feed g (n + length bs) rest tl) (o ++ axis_frames fs) (fst w') (snd w')).

(** After the bytes [bs] the command [m] has emitted [fs] and goes on as [m']. *)
Definition leads {A} (g : nat -> Z) (m : M dev A) (bs : list Z) (w : world)
    (m' : M dev A) (fs : list fp_frame) (w' : world) : Prop :=
  forall n rest tl o,
    m (mkDev (feed g n (bs ++ rest) tl) o (fst w) (snd w)) =
    m' (mkDev (feed g (n + length bs) rest tl) (o ++ axis_frames fs) (fst w') (snd w')).

(** ** What a list of frames carries *)

Definition frame_pairs (f : fp_frame) : list ResultPair :=
  match f with FResult ps => ps | _ => [] end.
(** All join results, in the order they were sent. *)
Definition results_of (fs : list fp_frame) : list ResultPair := concat (frame_pairs <$> fs).

(** Bytes of the frames the kernel accounts for (all but DEBUG). *)
Definition frame_size (f : fp_frame) : Z :=
  match f with FDebug _ _ _ => 0 | _ => Z.of_nat (length (fp_bytes f)) end.
Definition tx_size (fs : list fp_frame) : Z := foldr (fun f => Z.add (frame_size f)) 0 fs.

Definition is_result (f : fp_frame) : bool := match f with FResult _ => true | _ => false end.
Definition is_ack (f : fp_frame) : bool :=
  match f with FAck _ | FStatus _ => true | _ => false end.
Definition count_frames (q : fp_frame -> bool) (fs : list fp_frame) : Z :=
  foldr (fun f => Z.add (if q f then 1 else 0)) 0 fs.

(** The error codes reported by ERROR frames. *)
Definition errors_of (fs : list fp_frame) : list Z :=
  omap (fun f => match f with FError e => Some e | _ => None end) fs.

Lemma results_of_app fs fs' : results_of (fs ++ fs') = results_of fs ++ results_of fs'.
Proof. unfold results_of. by rewrite fmap_app, concat_app. Qed.
Lemma errors_of_app fs fs' : errors_of (fs ++ fs') = errors_of fs ++ errors_of fs'.
Proof. apply omap_app. Qed.
Lemma tx_size_app fs fs' : tx_size (fs ++ fs') = tx_size fs + tx_size fs'.
Proof. induction fs; simpl; lia. Qed.
Lemma count_frames_app q fs fs' :
  count_frames q (fs ++ fs') = count_frames q fs + count_frames q fs'.
Proof. induction fs; simpl; lia. Qed.

(** DEBUG frames carry no results, no errors and are not accounted for. *)
Lemma debug_silent dbg l c v :
  results_of (debug_frames dbg l c v) = [] /\ errors_of (debug_frames dbg l c v) = [] /\
  tx_size (debug_frames dbg l c v) = 0 /\
  count_frames is_result (debug_frames dbg l c v) = 0 /\
  count_frames is_ack (debug_frames dbg l c v) = 0.
Proof. by destruct dbg. Qed.

(** ** Rules *)

Section rules.
Context {g : nat -> Z}.
Local Abbreviation talks := (talks g).

Lemma talks_ret {A} (a : A) w : talks (mret a) [] w a [] w.
Proof. intros n rest tl o. unfold axis_frames. simpl. by rewrite Nat.add_0_r, app_nil_r. Qed.

Lemma talks_bind {A B} (m : M dev A) (k : A -> M dev B) bs bs' w a fs w1 b fs' w2 :
  talks m bs w a fs w1 -> talks (k a) bs' w1 b fs' w2 ->
  talks (m ≫= k) (bs ++ bs') w b (fs ++ fs') w2.
Proof.
  intros Hm Hk n rest tl o. rewrite <- app_assoc. run Hm. rewrite Hk.
  by rewrite length_app, Nat.add_assoc, axis_frames_app, app_assoc.
Qed.

Lemma talks_reads {A} (m : M dev A) bs a w : reads m bs a -> talks m bs w a [] w.
Proof. intros H n rest tl o. rewrite H. unfold axis_frames. simpl. by rewrite app_nil_r. Qed.

Lemma talks_emits m fs w : emits m fs -> talks m [] w tt fs w.
Proof. intros H n rest tl o. rewrite H. simpl. by rewrite Nat.add_0_r. Qed.

Lemma talks_ports (f : regs -> regs) p mm :
  talks (mmodify (fun d => d <| ports ::= f |>)) [] (p, mm) tt [] (f p, mm).
Proof.
  intros n rest tl o. unfold mmodify. rcbn. unfold axis_frames. simpl.
  by rewrite Nat.add_0_r, app_nil_r.
Qed.

Lemma talks_guarded dbg sid b w :
  timely g -> is_byte b -> talks (rx_byte_guarded dbg sid) [b] w (b, false) [] w.
Proof.
  intros Hg Hb n rest tl o. change ([b] ++ rest) with (b :: rest). rewrite guarded_timely by done.
  unfold axis_frames. simpl. by rewrite Nat.add_1_r, app_nil_r.
Qed.

(** The same with the head command's part named. *)
Lemma talks_read {A B} (m : M dev A) (k : A -> M dev B) bs bs' w w1 a b fs w' :
  talks m bs w a [] w1 -> talks (k a) bs' w1 b fs w' -> talks (m ≫= k) (bs ++ bs') w b fs w'.
Proof. intros Hm Hk. exact (talks_bind _ _ _ _ _ _ [] _ _ _ _ Hm Hk). Qed.

Lemma talks_emit {A B} (m : M dev A) (k : A -> M dev B) bs w w1 a b fs fs' w' :
  talks m [] w a fs w1 -> talks (k a) bs w1 b fs' w' ->
  talks (m ≫= k) bs w b (fs ++ fs') w'.
Proof. intros Hm Hk. exact (talks_bind _ _ [] _ _ _ _ _ _ _ _ Hm Hk). Qed.

Lemma talks_quiet {A B} (m : M dev A) (k : A -> M dev B) bs w w1 a b fs w' :
  talks m [] w a [] w1 -> talks (k a) bs w1 b fs w' -> talks (m ≫= k) bs w b fs w'.
Proof. intros Hm Hk. exact (talks_bind _ _ [] _ _ _ [] _ _ _ _ Hm Hk). Qed.

Lemma leads_refl {A} (m : M dev A) w : leads g m [] w m [] w.
Proof. intros n rest tl o. unfold axis_frames. simpl. by rewrite Nat.add_0_r, app_nil_r. Qed.

Lemma leads_trans {A} (m1 m2 m3 : M dev A) bs bs' w1 w2 w3 fs fs' :
  leads g m1 bs w1 m2 fs w2 -> leads g m2 bs' w2 m3 fs' w3 ->
  leads g m1 (bs ++ bs') w1 m3 (fs ++ fs') w3.
Proof.
  intros H1 H2 n rest tl o. rewrite <- app_assoc, H1, H2.
  by rewrite length_app, Nat.add_assoc, axis_frames_app, app_assoc.
Qed.

Lemma leads_bind {A B} (m : M dev A) (k : A -> M dev B) bs w a fs w' :
  talks m bs w a fs w' -> leads g (m ≫= k) bs w (k a) fs w'.
Proof. intros Hm n rest tl o. by run Hm. Qed.

Lemma leads_bind_l {A B} (m m' : M dev A) (k : A -> M dev B) bs w fs w' :
  leads g m bs w m' fs w' -> leads g (m ≫= k) bs w (m' ≫= k) fs w'.
Proof. intros Hm n rest tl o. unfold mbind, M_bind. by rewrite Hm. Qed.

Lemma leads_talks {A} (m m' : M dev A) bs bs' w w1 w2 a fs fs' :
  leads g m bs w m' fs w1 -> talks m' bs' w1 a fs' w2 ->
  talks m (bs ++ bs') w a (fs ++ fs') w2.
Proof. intros H1 H2. exact (leads_trans _ _ (mret a) _ _ _ _ _ _ _ H1 H2). Qed.

Lemma talks_leads {A} (m : M dev A) bs w a fs w' :
  talks m bs w a fs w' <-> leads g m bs w (mret a) fs w'.
Proof. done. Qed.

Lemma leads_eq {A} (m m' : M dev A) bs bs' w fs fs' w' :
  leads g m bs w m' fs w' -> bs = bs' -> fs = fs' -> leads g m bs' w m' fs' w'.
Proof. by intros ? -> ->. Qed.

Lemma talks_eq {A} (m : M dev A) bs bs' w a fs fs' w' :
  talks m bs w a fs w' -> bs = bs' -> fs = fs' -> talks m bs' w a fs' w'.
Proof. by intros ? -> ->. Qed.

Lemma talks_last {A} (m : M dev A) bs bs' w a fs w' :
  talks m bs w a fs w' -> bs ++ [] = bs' -> talks m bs' w a fs w'.
Proof. by rewrite app_nil_r; intros ? ->. Qed.
End rules.

Lemma header_read {A} g w c (k : Z -> M dev A) bs b fs w' :
  talks g (k (u16 c)) bs w b fs w' ->
  talks g (rx_u16 ≫= k) (le_bytes 2 c ++ bs) w b fs w'.
Proof. intros. by eapply talks_read; [apply talks_reads, reads_u16|]. Qed.
