(* ===== verification/Join.v ===== *)
(** What the accelerator computes: an equi-join of two lists of tuples.

    [nested_join] is the relational definition, every pair of rows with equal
    keys in outer-major order; [hash_join] is what a hash table that answers with
    the first matching inner row yields.  They coincide when inner keys are
    unique, which the host library establishes before offloading. *)
From S2P Require Import Prelude Types LinearHashTable.

Definition match_row (inner : list Tuple) (o : Tuple) : option ResultPair :=
  it ← first_match (key o) inner; Some (mkPair it (tid o)).

Definition hash_join (inner outer : list Tuple) : list ResultPair :=
  omap (match_row inner) outer.

Definition nested_join (inner outer : list Tuple) : list ResultPair :=
  o ← outer; omap (fun i => if key i =? key o then Some (mkPair (tid i) (tid o)) else None) inner.

Definition keys_unique (l : list Tuple) : Prop := NoDup (key <$> l).

(** ** Lemmas *)

Lemma hash_join_app inner o1 o2 :
  hash_join inner (o1 ++ o2) = hash_join inner o1 ++ hash_join inner o2.
Proof. apply omap_app. Qed.

Lemma length_hash_join inner outer : (length (hash_join inner outer) <= length outer)%nat.
Proof.
  induction outer as [|o outer IH]; [done|]. unfold hash_join in *. cbn [omap list_omap].
  simpl. destruct (match_row inner o); simpl; lia.
Qed.

Lemma matches_None o (inner : list Tuple) :
  key o ∉ key <$> inner ->
  omap (fun i => if key i =? key o then Some (mkPair (tid i) (tid o)) else None) inner = [].
Proof.
  induction inner as [|i inner IH]; intros Hn; [done|]. simpl in *.
  rewrite not_elem_of_cons in Hn. destruct Hn as [Hk Hn].
  destruct (Z.eqb_spec (key i) (key o)); [congruence|]. by apply IH.
Qed.

Lemma matches_unique o (inner : list Tuple) :
  keys_unique inner ->
  omap (fun i => if key i =? key o then Some (mkPair (tid i) (tid o)) else None) inner =
  option_list (match_row inner o).
Proof.
  unfold keys_unique, match_row. induction inner as [|i inner IH]; intros Hu; [done|].
  simpl in *. apply NoDup_cons in Hu as [Hn Hu].
  destruct (Z.eqb_spec (key i) (key o)) as [He|He].
  - rewrite matches_None; [done|]. by rewrite <- He.
  - by apply IH.
Qed.

Lemma hash_join_nested inner outer :
  keys_unique inner -> hash_join inner outer = nested_join inner outer.
Proof.
  intros Hu. unfold hash_join, nested_join. induction outer as [|o outer IH]; [done|].
  rewrite bind_cons, <- IH, matches_unique by done. cbn.
  by destruct (match_row inner o).
Qed.

(** The pairs a nested-loop join yields are the pairs of rows with equal keys. *)
Lemma elem_of_nested_join inner outer p :
  p ∈ nested_join inner outer <->
  exists i o, i ∈ inner /\ o ∈ outer /\ key i = key o /\ p = mkPair (tid i) (tid o).
Proof.
  unfold nested_join. rewrite list_elem_of_bind. setoid_rewrite list_elem_of_omap.
  split.
  - intros (o & (i & Hi & He) & Ho). destruct (Z.eqb_spec (key i) (key o)); [|done].
    injection He as <-. eauto 8.
  - intros (i & o & Hi & Ho & Hk & ->). exists o. split; [|done]. exists i. split; [done|].
    by rewrite Hk, Z.eqb_refl.
Qed.

(** With unique keys the order of the inner rows does not matter. *)
Lemma first_match_unique k ts t :
  keys_unique ts -> mkTuple k t ∈ ts -> first_match k ts = Some t.
Proof.
  unfold keys_unique. induction ts as [|t' ts IH]; intros Hu Hin; [by apply elem_of_nil in Hin|].
  cbn [fmap list_fmap] in Hu. apply NoDup_cons in Hu as [Hn Hu]. simpl.
  apply elem_of_cons in Hin as [<-|Hin]; [by rewrite Z.eqb_refl|].
  destruct (Z.eqb_spec (key t') k) as [He|]; [|by apply IH].
  destruct Hn. apply list_elem_of_fmap. by exists (mkTuple k t).
Qed.

Lemma first_match_perm k ts ts' :
  keys_unique ts -> ts ≡ₚ ts' -> first_match k ts' = first_match k ts.
Proof.
  intros Hu Hp. destruct (first_match k ts) as [x|] eqn:He.
  - apply first_match_Some in He as (i & Hi & _). apply list_elem_of_lookup_2 in Hi.
    apply first_match_unique; [|by rewrite <- Hp]. unfold keys_unique. by rewrite <- Hp.
  - rewrite first_match_None in He |- *. intros t Ht. apply He. by rewrite Hp.
Qed.

Lemma hash_join_perm ts ts' outer :
  keys_unique ts -> ts ≡ₚ ts' -> hash_join ts' outer = hash_join ts outer.
Proof.
  intros Hu Hp. unfold hash_join, match_row. induction outer as [|o outer IH]; [done|].
  cbn [omap list_omap]. rewrite (first_match_perm _ ts ts') by done.
  by destruct (first_match _ _); simpl; rewrite IH.
Qed.

Lemma hash_join_reverse ts outer :
  keys_unique ts -> hash_join (reverse ts) outer = hash_join ts outer.
Proof. intros Hu. apply hash_join_perm; [done|]. by rewrite reverse_Permutation. Qed.
