(* ===== verification/Grace.v ===== *)
(** Algorithm B: the Grace hash join engine of [src/src/hash_join_grace.hpp].

    Inner and outer tuples are partitioned by hash into DDR2, then each
    partition is joined through the BRAM hash table.  The engine's state is the
    two arrays of partition counters; DDR2 is the [ddr2] field of the device, and
    every access outside its [GRACE_DDR2_TOTAL_WORDS] words, or outside an array
    of [GRACE_MAX_K] counters, is a [Fault].  Loops run on the number of
    iterations the source allows them; 32-bit index arithmetic wraps. *)
From S2P Require Import Prelude Types Stream LinearHashTable.

Record GraceHashEngine := mkGrace {
  inner_counts : gmap Z Z;
  outer_counts : gmap Z Z }.

Definition partition_of (k K : Z) : Z :=
  u32 (Z.shiftr (u64 (u64 k * 2654435761)) 32) mod K.

(** ** DDR2 tuple encoding *)

Definition pack_tid (t : Tid) : Z :=
  i64 (Z.lor (Z.shiftl (blkno t) 32) (Z.shiftl (offno t) 16)).
Definition unpack_tid (w : Z) : Tid :=
  let packed := u64 w in
  mkTid (u32 (Z.shiftr packed 32)) (u16 (Z.land (Z.shiftr packed 16) 65535)).

Definition in_ddr2 (idx : Z) : bool := (0 <=? idx) && (idx <? GRACE_DDR2_TOTAL_WORDS).

Definition ddr2_write (idx v : Z) : M dev unit :=
  if in_ddr2 idx then mmodify (fun d => d <| ddr2 ::= <[idx := v]> |>) else mfault.
Definition ddr2_read (idx : Z) : M dev Z :=
  if in_ddr2 idx then d ← mget; mret (aget 0 (ddr2 d) idx) else mfault.

(** [pack_tuple(key, tid, &ddr2_buf[idx])] *)
Definition pack_tuple (k : Z) (t : Tid) (idx : Z) : M dev unit :=
  ddr2_write idx k ;; ddr2_write (idx + 1) (pack_tid t).

Definition unpack_tuple (idx : Z) : M dev Tuple :=
  w0 ← ddr2_read idx; w1 ← ddr2_read (idx + 1); mret (mkTuple w0 (unpack_tid w1)).

(** Access to a counter array of [GRACE_MAX_K] entries. *)
Definition count_get (c : gmap Z Z) (p : Z) : M dev Z :=
  if (0 <=? p) && (p <? GRACE_MAX_K) then mret (aget 0 c p) else mfault.

Fixpoint discard_tuples (n : nat) (keytype : Z) : M dev unit :=
  match n with
  | O => mret tt
  | S n => rx_discard_tuple keytype ;; discard_tuples n keytype
  end.

(** Credit advertised after a data frame. *)
Definition frame_credit (total received : Z) : Z :=
  let remaining := u32 (total - received) in
  if remaining <? RX_CREDIT_TUPLES then u16 remaining else u16 RX_CREDIT_TUPLES.

(** ** Phase 1: partition the inner tuples *)

Fixpoint reset_counts (n : nat) (p : Z) (g : GraceHashEngine) : GraceHashEngine :=
  match n with
  | O => g
  | S n => reset_counts n (p + 1) (mkGrace (<[p := 0]> (inner_counts g)) (<[p := 0]> (outer_counts g)))
  end.

(** The tuples of one INNER_DATA frame, [n] of them left. *)
Fixpoint build_inner_tuple_loop (n : nat) (keytype K inner_received : Z) (g : GraceHashEngine)
  : M dev (FpgaError * Z * GraceHashEngine) :=
  match n with
  | O => mret (ERR_NONE, inner_received, g)
  | S n =>
      t ← rx_tuple keytype;
      let p := partition_of (key t) K in
      c ← count_get (inner_counts g) p;
      if HT_MAX_ROWS <=? c then
        discard_tuples n keytype ;;
        tx_error ERR_OVERFLOW ;;
        mret (ERR_OVERFLOW, inner_received, g)
      else
        let idx := u32 (p * GRACE_INNER_SLOT_WORDS + c * GRACE_WORDS_PER_TUPLE) in
        pack_tuple (key t) (tid t) idx ;;
        build_inner_tuple_loop n keytype K (u32 (inner_received + 1))
          (g <| inner_counts ::= <[p := u32 (c + 1)]> |>)
  end.

Fixpoint build_inner_frame_loop (n : nat) (inner_total keytype K session_id inner_received : Z)
    (g : GraceHashEngine) : M dev (FpgaError * GraceHashEngine) :=
  match n with
  | O => mret (ERR_NONE, g)
  | S n =>
      if inner_total <=? inner_received then mret (ERR_NONE, g)
      else
        msg_type ← rx_byte;
        count ← rx_u16;
        if msg_type =? msg_code MSG_RESET then
          tx_status_frame MSG_ACK PHASE_IDLE 0 0 0 session_id ;;
          mret (ERR_BAD_STATE, g)
        else if negb (msg_type =? msg_code MSG_INNER_DATA) then
          tx_error ERR_BAD_STATE ;; mret (ERR_BAD_STATE, g)
        else
          '(e, inner_received, g) ←
            build_inner_tuple_loop (Z.to_nat count) keytype K inner_received g;
          if err_ok e then
            tx_status_frame MSG_ACK PHASE_BUILDING inner_received 0
              (frame_credit inner_total inner_received) session_id ;;
            build_inner_frame_loop n inner_total keytype K session_id inner_received g
          else mret (e, g)
  end.

Definition build_inner_partitions (inner_total keytype K session_id : Z) (g : GraceHashEngine)
  : M dev (FpgaError * GraceHashEngine) :=
  build_inner_frame_loop (Z.to_nat (u32 (inner_total + 1) + 1))
    inner_total keytype K session_id 0 (reset_counts (Z.to_nat GRACE_MAX_K) 0 g).

(** ** Phase 2: partition the outer tuples *)

Fixpoint build_outer_tuple_loop (n : nat) (keytype K outer_slot_words outer_received : Z)
    (g : GraceHashEngine) : M dev (FpgaError * Z * GraceHashEngine) :=
  match n with
  | O => mret (ERR_NONE, outer_received, g)
  | S n =>
      t ← rx_tuple keytype;
      let p := partition_of (key t) K in
      let max_per_slot := outer_slot_words / GRACE_WORDS_PER_TUPLE in
      c ← count_get (outer_counts g) p;
      if max_per_slot <=? c then
        discard_tuples n keytype ;;
        tx_error ERR_OVERFLOW ;;
        mret (ERR_OVERFLOW, outer_received, g)
      else
        let idx := u32 (GRACE_OUTER_AREA_BASE + p * outer_slot_words + c * GRACE_WORDS_PER_TUPLE) in
        pack_tuple (key t) (tid t) idx ;;
        build_outer_tuple_loop n keytype K outer_slot_words (u32 (outer_received + 1))
          (g <| outer_counts ::= <[p := u32 (c + 1)]> |>)
  end.

Fixpoint build_outer_frame_loop (n : nat)
    (outer_total keytype K outer_slot_words session_id outer_received : Z)
    (g : GraceHashEngine) : M dev (FpgaError * GraceHashEngine) :=
  match n with
  | O => mret (ERR_NONE, g)
  | S n =>
      if outer_total <=? outer_received then mret (ERR_NONE, g)
      else
        msg_type ← rx_byte;
        count ← rx_u16;
        if msg_type =? msg_code MSG_RESET then
          tx_status_frame MSG_ACK PHASE_IDLE 0 0 0 session_id ;;
          mret (ERR_BAD_STATE, g)
        else if negb (msg_type =? msg_code MSG_OUTER_DATA) then
          tx_error ERR_BAD_STATE ;; mret (ERR_BAD_STATE, g)
        else
          '(e, outer_received, g) ←
            build_outer_tuple_loop (Z.to_nat count) keytype K outer_slot_words outer_received g;
          if err_ok e then
            tx_status_frame MSG_ACK PHASE_PROBING outer_received 0
              (frame_credit outer_total outer_received) session_id ;;
            build_outer_frame_loop n outer_total keytype K outer_slot_words session_id
              outer_received g
          else mret (e, g)
  end.

Definition build_outer_partitions (outer_total keytype K outer_slot_words session_id : Z)
    (g : GraceHashEngine) : M dev (FpgaError * GraceHashEngine) :=
  build_outer_frame_loop (Z.to_nat (u32 (outer_total + 1) + 1))
    outer_total keytype K outer_slot_words session_id 0 g.

(** ** Phase 3: join the partitions *)

(** Load inner partition [p] from row [i] on. *)
Fixpoint join_build_loop (n : nat) (p i : Z) (h : LinearHashTable)
  : M dev (FpgaError * LinearHashTable) :=
  match n with
  | O => mret (ERR_NONE, h)
  | S n =>
      t ← unpack_tuple (u32 (p * GRACE_INNER_SLOT_WORDS + i * GRACE_WORDS_PER_TUPLE));
      let '(e, _, h) := build (key t) (tid t) h in
      if err_ok e then join_build_loop n p (i + 1) h
      else tx_error e ;; mret (e, h)
  end.

(** [result_buf[i] = pr], an array of [TX_BUF_SIZE] pairs. *)
Definition buf_set (buf : gmap Z ResultPair) (i : Z) (pr : ResultPair) : M dev (gmap Z ResultPair) :=
  if (0 <=? i) && (i <? TX_BUF_SIZE) then mret (<[i := pr]> buf) else mfault.

(** Probe outer partition [p] from row [j] on. *)
Fixpoint join_probe_loop (n : nat) (p j outer_slot_words : Z) (h : LinearHashTable)
    (buf_cnt matched : Z) (buf : gmap Z ResultPair) : M dev (Z * Z * gmap Z ResultPair) :=
  match n with
  | O => mret (buf_cnt, matched, buf)
  | S n =>
      t ← unpack_tuple (u32 (GRACE_OUTER_AREA_BASE + p * outer_slot_words +
                             j * GRACE_WORDS_PER_TUPLE));
      match fst (probe (key t) h) with
      | Some it =>
          buf ← buf_set buf buf_cnt (mkPair it (tid t));
          let buf_cnt := u16 (buf_cnt + 1) in
          let matched := u32 (matched + 1) in
          if buf_cnt =? u16 TX_BUF_SIZE then
            tx_results buf buf_cnt ;;
            join_probe_loop n p (j + 1) outer_slot_words h 0 matched buf
          else join_probe_loop n p (j + 1) outer_slot_words h buf_cnt matched buf
      | None => join_probe_loop n p (j + 1) outer_slot_words h buf_cnt matched buf
      end
  end.

Fixpoint join_partition_loop (n : nat) (p outer_slot_words : Z) (g : GraceHashEngine)
    (h : LinearHashTable) (matched : Z) (buf : gmap Z ResultPair)
  : M dev (FpgaError * Z * LinearHashTable * gmap Z ResultPair) :=
  match n with
  | O => mret (ERR_NONE, matched, h, buf)
  | S n =>
      ni ← count_get (inner_counts g) p;
      '(e, h) ← join_build_loop (Z.to_nat ni) p 0 (reset h);
      if err_ok e then
        no ← count_get (outer_counts g) p;
        '(buf_cnt, matched, buf) ←
          join_probe_loop (Z.to_nat no) p 0 outer_slot_words h 0 matched buf;
        mwhen (0 <? buf_cnt) (tx_results buf buf_cnt) ;;
        join_partition_loop n (p + 1) outer_slot_words g h matched buf
      else mret (e, matched, h, buf)
  end.

(** Error, [matched_out], the table and the buffer it leaves. *)
Definition join_all_partitions (K outer_slot_words : Z) (g : GraceHashEngine)
    (h : LinearHashTable) (buf : gmap Z ResultPair)
  : M dev (FpgaError * Z * LinearHashTable * gmap Z ResultPair) :=
  join_partition_loop (Z.to_nat K) 0 outer_slot_words g h 0 buf.
