(* ===== verification/Kernel.v ===== *)
(** The top-level HLS kernel of [src/src/hash_join_kernel.cpp].

    [kst] holds the kernel's static objects (hash table, Grace engine), its
    buffers and the session variables; the streams, registers and DDR2 are the
    [dev] of [Stream].  One definition per labelled block of the source:
    [configure], [rx_batch], [inner_batch], [build_frame], [build_loop],
    [outer_batch], [probe_done_block], [probe_frame], [probe_loop],
    [algorithm_a], [algorithm_b], [final_status], composed by [session], one
    iteration of the session loop, and [hash_join_kernel].  A [rx_key_buf] or
    [rx_tid_buf] index of [RX_BUF_TUPLES] or more is a [Fault]. *)
From S2P Require Import Prelude Types Stream LinearHashTable Grace.

(** ** Timing summary *)

Definition cycles_between (start finish : Z) : Z :=
  if negb (start =? 0) && (start <=? finish) then finish - start else 0.

(** The passive timing-monitor inputs of the kernel. *)
Record RtlTiming := mkRtl {
  rtl_timing_valid : Z;
  rtl_timing_clock_hz : Z;
  rtl_inner_frames : Z;
  rtl_outer_frames : Z;
  rtl_result_frames : Z;
  rtl_ack_frames : Z;
  rtl_debug_frames : Z;
  rtl_bytes_rx : Z;
  rtl_bytes_tx : Z;
  rtl_cycle_counter : Z;
  rtl_ts_config_first : Z;
  rtl_ts_config_ack : Z;
  rtl_ts_build_first : Z;
  rtl_ts_build_last : Z;
  rtl_ts_build_ack_last : Z;
  rtl_ts_probe_first : Z;
  rtl_ts_probe_last : Z;
  rtl_ts_probe_ack_last : Z;
  rtl_ts_result_first : Z;
  rtl_ts_result_last : Z }.

(** No monitor attached. *)
Definition rtl_none : RtlTiming := mkRtl 0 0 0 0 0 0 0 0 0 0 0 0 0 0 0 0 0 0 0 0.

Definition apply_rtl_stream_timing (r : RtlTiming) (t : TimingSummaryPayload)
  : TimingSummaryPayload :=
  let monitor_seen := negb (rtl_ts_config_first r =? 0) &&
                      (rtl_ts_config_first r <=? rtl_cycle_counter r) in
  if negb monitor_seen then t
  else
    let flags := if rtl_timing_valid r =? 0
                 then Z.lor TIMING_FLAG_RTL_STREAM_CYCLES TIMING_FLAG_ESTIMATED_CYCLES
                 else TIMING_FLAG_RTL_STREAM_CYCLES in
    let clock := if negb (rtl_timing_clock_hz r =? 0) then rtl_timing_clock_hz r
                 else TIMING_DEFAULT_CLOCK_HZ in
    let probe_done := if negb (rtl_ts_probe_ack_last r =? 0) then rtl_ts_probe_ack_last r
                      else rtl_cycle_counter r in
    t <| tm_flags := flags |>
      <| tm_clock_hz := clock |>
      <| tm_inner_frames := rtl_inner_frames r |>
      <| tm_outer_frames := rtl_outer_frames r |>
      <| tm_result_frames := rtl_result_frames r |>
      <| tm_ack_frames := rtl_ack_frames r |>
      <| tm_debug_frames := rtl_debug_frames r |>
      <| tm_bytes_rx := rtl_bytes_rx r |>
      <| tm_bytes_tx := rtl_bytes_tx r |>
      <| tm_session_total_cycles :=
           cycles_between (rtl_ts_config_first r) (rtl_cycle_counter r) |>
      <| tm_config_cycles := cycles_between (rtl_ts_config_first r) (rtl_ts_config_ack r) |>
      <| tm_build_rx_cycles := cycles_between (rtl_ts_build_first r) (rtl_ts_build_last r) |>
      <| tm_build_compute_cycles :=
           cycles_between (rtl_ts_build_last r) (rtl_ts_build_ack_last r) |>
      <| tm_build_total_cycles :=
           cycles_between (rtl_ts_build_first r) (rtl_ts_build_ack_last r) |>
      <| tm_probe_rx_cycles := cycles_between (rtl_ts_probe_first r) (rtl_ts_probe_last r) |>
      <| tm_probe_compute_cycles :=
           cycles_between (rtl_ts_probe_last r) (rtl_ts_result_first r) |>
      <| tm_result_emit_cycles :=
           cycles_between (rtl_ts_result_first r) (rtl_ts_result_last r) |>
      <| tm_probe_total_cycles := cycles_between (rtl_ts_probe_first r) probe_done |>.

(** [x += n] and [x++] at the field widths. *)
Definition add32 (n x : Z) : Z := u32 (x + n).
Definition add64 (n x : Z) : Z := u64 (x + n).

(** ** Kernel state *)

Record kst := mkKst {
  k_ht : LinearHashTable;
  k_grace : GraceHashEngine;
  k_result_buf : gmap Z ResultPair;
  k_rx_key_buf : gmap Z Z;
  k_rx_tid_buf : gmap Z Tid;
  k_algorithm : Z;
  k_keytype : Z;
  k_inner_total : Z;
  k_outer_total : Z;
  k_matched : Z;
  k_K : Z;
  k_outer_slot_w : Z;
  k_result_buf_cnt : Z;
  k_session_id : Z;
  k_session_done : bool;
  k_timing : TimingSummaryPayload }.

(** The static objects at power-up; session variables are set by [session_init]. *)
Definition kst_static : kst :=
  mkKst ht_static (mkGrace ∅ ∅) ∅ ∅ ∅ 0 0 0 0 0 0 0 0 0 false timing0.

Definition set_status (p : Phase) : M dev unit :=
  mmodify (fun d => d <| ports -> status_reg := phase_code p |>).
Definition set_error (e : FpgaError) : M dev unit :=
  mmodify (fun d => d <| ports -> error_code_reg := err_code e |>).
Definition set_result_count (n : Z) : M dev unit :=
  mmodify (fun d => d <| ports -> result_count_reg := n |>).

(** [tx_error(tx, e); error_code_reg = e; session_done = true;] *)
Definition fail_session (e : FpgaError) (k : kst) : M dev kst :=
  tx_error e ;; set_error e ;; mret (k <| k_session_done := true |>).

(** ** Result batches *)

(** The timing of one result frame of [bytes] bytes. *)
Definition flush_timing (bytes : Z) (t : TimingSummaryPayload) : TimingSummaryPayload :=
  let t := t <| tm_result_frames ::= add32 1 |>
             <| tm_bytes_tx ::= add32 bytes |>
             <| tm_result_emit_cycles ::= add64 bytes |> in
  if tm_max_result_frame_cycles t <? bytes
  then t <| tm_max_result_frame_cycles := bytes |> else t.

(** State and [probe_batch_cycles] after the flush. *)
Definition flush_result_batch (k : kst) (pbc : Z) : M dev (kst * Z) :=
  let emitted := k_result_buf_cnt k in
  if emitted =? 0 then mret (k, pbc)
  else
    let bytes := u32 (3 + u32 (emitted * 12)) in
    tx_results (k_result_buf k) emitted ;;
    mret (k <| k_timing ::= flush_timing bytes |> <| k_result_buf_cnt := 0 |>,
          u64 (pbc + bytes)).

(** ** Session start and CONFIGURE *)

Definition session_init (k : kst) : kst :=
  k <| k_algorithm := alg_code ALGORITHM_A |>
    <| k_keytype := key_code KEY_INT32 |>
    <| k_inner_total := 0 |>
    <| k_outer_total := 0 |>
    <| k_matched := 0 |>
    <| k_K := 1 |>
    <| k_outer_slot_w := 0 |>
    <| k_result_buf_cnt := 0 |>
    <| k_session_id := 0 |>
    <| k_session_done := false |>
    <| k_timing := timing0 <| tm_version := TIMING_SUMMARY_VERSION |>
                           <| tm_flags := TIMING_FLAG_ESTIMATED_CYCLES |>
                           <| tm_clock_hz := TIMING_DEFAULT_CLOCK_HZ |> |>.

(** The capacity checks on a received CONFIGURE. *)
Definition check_config (k : kst) : M dev kst :=
  if k_algorithm k =? alg_code ALGORITHM_A then
    if HT_MAX_ROWS <? k_inner_total k then fail_session ERR_OVERFLOW k else mret k
  else if k_algorithm k =? alg_code ALGORITHM_B then
    if GRACE_MAX_INNER_ROWS <? k_inner_total k then fail_session ERR_OVERFLOW k
    else
      let K := u32 (u32 (k_inner_total k + HT_MAX_ROWS) - 1) / HT_MAX_ROWS in
      let K := if K =? 0 then 1 else K in
      let w := u32 (u32 (u32 (k_outer_total k / K + 1) * GRACE_WORDS_PER_TUPLE) * 2) in
      let k := k <| k_K := K |> <| k_outer_slot_w := w |> in
      if GRACE_DDR2_TOTAL_WORDS <? u64 (GRACE_OUTER_AREA_BASE + u64 (K * w))
      then fail_session ERR_OVERFLOW k else mret k
  else fail_session ERR_INVALID_CMD k.

(** Read the CONFIGURE payload and answer it. *)
Definition configure_payload (dbg : bool) (k : kst) : M dev kst :=
  alg ← rx_byte;
  kt ← rx_byte;
  _ ← rx_u16;
  ic ← rx_u32;
  oc ← rx_u32;
  sid ← rx_byte;
  let k := k <| k_algorithm := alg |> <| k_keytype := kt |>
             <| k_inner_total := ic |> <| k_outer_total := oc |> <| k_session_id := sid |>
             <| k_timing ::= fun t =>
                  t <| tm_inner_rows := ic |> <| tm_outer_rows := oc |>
                    <| tm_bytes_rx ::= add32 16 |> <| tm_config_cycles ::= add64 16 |> |> in
  set_result_count oc ;;
  emit_debug dbg DBG_INFO DBG_CONFIGURE ic ;;
  k ← check_config k;
  if k_session_done k then mret k
  else
    set_status PHASE_BUILDING ;;
    let k := k <| k_timing ::= fun t =>
                   t <| tm_ack_frames ::= add32 1 |> <| tm_bytes_tx ::= add32 15 |>
                     <| tm_ack_emit_cycles ::= add64 15 |> <| tm_config_cycles ::= add64 15 |> |> in
    tx_status_frame MSG_ACK PHASE_BUILDING 0 0 RX_CREDIT_TUPLES (k_session_id k) ;;
    mret k.

Definition configure (dbg : bool) (k : kst) : M dev kst :=
  '(msg_type, timed_out) ← rx_byte_guarded dbg 0;
  if (timed_out : bool) then mret (k <| k_session_done := true |>)
  else
    count ← rx_u16;
    if msg_type =? msg_code MSG_RESET then
      emit_debug dbg DBG_INFO DBG_RESET 0 ;;
      tx_status_frame MSG_ACK PHASE_IDLE 0 0 RX_CREDIT_TUPLES 0 ;;
      mret (k <| k_ht ::= reset |> <| k_session_done := true |>)
    else if negb (msg_type =? msg_code MSG_CONFIGURE) || negb (count =? 1) then
      fail_session ERR_INVALID_CMD k
    else configure_payload dbg k.

(** ** Algorithm B *)

Definition note_error (e : FpgaError) (k : kst) : M dev kst :=
  if err_ok e then mret k
  else set_error e ;; mret (k <| k_session_done := true |>).

Definition algorithm_b (k : kst) : M dev kst :=
  '(e, g) ← build_inner_partitions (k_inner_total k) (k_keytype k) (k_K k)
              (k_session_id k) (k_grace k);
  k ← note_error e (k <| k_grace := g |>);
  if k_session_done k then mret k
  else
    set_status PHASE_PROBING ;;
    '(e, g) ← build_outer_partitions (k_outer_total k) (k_keytype k) (k_K k)
                (k_outer_slot_w k) (k_session_id k) (k_grace k);
    k ← note_error e (k <| k_grace := g |>);
    if k_session_done k then mret k
    else
      '(e, m, h, buf) ← join_all_partitions (k_K k) (k_outer_slot_w k) (k_grace k)
                          (k_ht k) (k_result_buf k);
      note_error e (k <| k_matched := m |> <| k_ht := h |> <| k_result_buf := buf |>).

(** ** Algorithm A: build phase *)

Definition tuple_bytes_of (keytype : Z) : Z := if is_int64 keytype then 14 else 10.

(** Parse the tuples of a frame into the receive buffers, from index [i] on. *)
Fixpoint rx_batch (n : nat) (i : Z) (k : kst) : M dev kst :=
  match n with
  | O => mret k
  | S n =>
      key ← rx_key (k_keytype k);
      if RX_BUF_TUPLES <=? i then mfault
      else
        tid ← rx_tid;
        rx_batch n (i + 1) (k <| k_rx_key_buf ::= <[i := key]> |>
                              <| k_rx_tid_buf ::= <[i := tid]> |>)
  end.

(** Timing of one insertion that took [steps] probe steps. *)
Definition build_timing (steps : Z) (t : TimingSummaryPayload) : TimingSummaryPayload :=
  let t := t <| tm_build_compute_cycles ::= add64 (steps * 2) |> in
  if 0 <? steps then
    let t := t <| tm_hash_build_collision_steps ::= add32 (steps - 1) |> in
    if tm_hash_max_build_probe_distance t <? steps
    then t <| tm_hash_max_build_probe_distance := u16 steps |> else t
  else t.

(** Insert the buffered tuples; state, [build_batch_cycles], [inner_received]. *)
Fixpoint inner_batch (n : nat) (i bbc inner_received : Z) (k : kst) : M dev (kst * Z * Z) :=
  match n with
  | O => mret (k, bbc, inner_received)
  | S n =>
      if k_session_done k then mret (k, bbc, inner_received)
      else
        let '(err, steps, h) := build (aget 0 (k_rx_key_buf k) i) (aget tid0 (k_rx_tid_buf k) i)
                                  (k_ht k) in
        let k := k <| k_ht := h |> <| k_timing ::= build_timing steps |> in
        let bbc := u64 (bbc + steps * 2) in
        if err_ok err then
          inner_batch n (i + 1) bbc (u32 (inner_received + 1))
            (k <| k_timing ::= fun t => t <| tm_hash_build_inserts ::= add32 1 |> |>)
        else
          k ← fail_session err
                (k <| k_timing ::= fun t => t <| tm_hash_overflow_errors ::= add32 1 |> |>);
          inner_batch n (i + 1) bbc inner_received k
  end.

(** [if (build_batch_cycles > timing.max_build_batch_cycles) ...] *)
Definition max_build (bbc : Z) (t : TimingSummaryPayload) : TimingSummaryPayload :=
  if tm_max_build_batch_cycles t <? bbc
  then t <| tm_max_build_batch_cycles := u32 bbc |> else t.

(** The acknowledgement after an INNER_DATA frame; state and pending frames. *)
Definition build_ack (k : kst) (bbc inner_received pending : Z) : M dev (kst * Z) :=
  let pending := u16 (pending + 1) in
  let credit := frame_credit (k_inner_total k) inner_received in
  let emit_ack := (ACK_BATCH_FRAMES <=? pending) || (k_inner_total k <=? inner_received) in
  if emit_ack then
    let k := k <| k_timing ::= fun t =>
                   t <| tm_ack_frames ::= add32 1 |> <| tm_bytes_tx ::= add32 15 |>
                     <| tm_ack_emit_cycles ::= add64 15 |> |> in
    tx_status_frame MSG_ACK PHASE_BUILDING inner_received 0 credit (k_session_id k) ;;
    mret (k <| k_timing ::= max_build (u64 (bbc + 15)) |>, 0)
  else mret (k <| k_timing ::= max_build bbc |>, pending).

(** One iteration of [build_loop] past its loop test: state, [inner_received],
    pending frames. *)
Definition build_frame (dbg : bool) (k : kst) (inner_received pending : Z)
  : M dev (kst * Z * Z) :=
  '(msg_type, timed_out) ← rx_byte_guarded dbg (k_session_id k);
  if (timed_out : bool) then mret (k <| k_session_done := true |>, inner_received, pending)
  else
    count ← rx_u16;
    let bbc := u64 (3 + u64 (count * tuple_bytes_of (k_keytype k))) in
    let k := k <| k_timing ::= fun t =>
                   t <| tm_inner_frames ::= add32 1 |> <| tm_bytes_rx ::= add32 (u32 bbc) |>
                     <| tm_build_rx_cycles ::= add64 bbc |> |> in
    if msg_type =? msg_code MSG_RESET then
      set_status PHASE_IDLE ;;
      tx_status_frame MSG_ACK PHASE_IDLE 0 0 0 (k_session_id k) ;;
      mret (k <| k_ht ::= reset |> <| k_session_done := true |>, inner_received, pending)
    else if negb (msg_type =? msg_code MSG_INNER_DATA) then
      k ← fail_session ERR_BAD_STATE k; mret (k, inner_received, pending)
    else
      k ← rx_batch (Z.to_nat count) 0 k;
      mwhen (negb (count =? 0))
        (emit_debug dbg DBG_INFO DBG_BUILD_KEY (u32 (aget 0 (k_rx_key_buf k) 0))) ;;
      '(k, bbc, inner_received) ← inner_batch (Z.to_nat count) 0 bbc inner_received k;
      if k_session_done k then mret (k, inner_received, pending)
      else
        '(k, pending) ← build_ack k bbc inner_received pending;
        mret (k, inner_received, pending).

(** [n] iterations left; state and [inner_received] at loop exit. *)
Fixpoint build_loop (dbg : bool) (n : nat) (k : kst) (inner_received pending : Z)
  : M dev (kst * Z) :=
  match n with
  | O => mret (k, inner_received)
  | S n =>
      if k_session_done k then mret (k, inner_received)
      else if k_inner_total k <=? inner_received then mret (k, inner_received)
      else
        '(k, inner_received, pending) ← build_frame dbg k inner_received pending;
        build_loop dbg n k inner_received pending
  end.

(** ** Algorithm A: probe phase *)

(** Timing of one lookup that took [steps] probe steps. *)
Definition probe_timing (steps : Z) (t : TimingSummaryPayload) : TimingSummaryPayload :=
  let t := t <| tm_probe_compute_cycles ::= add64 (steps * 2) |>
             <| tm_hash_probe_lookups ::= add32 1 |> in
  if 0 <? steps then
    let t := t <| tm_hash_probe_collision_steps ::= add32 (steps - 1) |> in
    if tm_hash_max_probe_distance t <? steps
    then t <| tm_hash_max_probe_distance := u16 steps |> else t
  else t.

(** Buffer a match and flush a full batch. *)
Definition push_match (it : Tid) (i : Z) (k : kst) (pbc : Z) : M dev (kst * Z) :=
  buf ← buf_set (k_result_buf k) (k_result_buf_cnt k) (mkPair it (aget tid0 (k_rx_tid_buf k) i));
  let k := k <| k_result_buf := buf |>
             <| k_result_buf_cnt ::= fun c => u16 (c + 1) |>
             <| k_matched ::= add32 1 |>
             <| k_timing ::= fun t => t <| tm_hash_probe_hits ::= add32 1 |> |> in
  if RESULT_FLUSH_PAIRS <=? k_result_buf_cnt k then flush_result_batch k pbc
  else mret (k, pbc).

(** Probe the buffered tuples; state, [probe_batch_cycles], [outer_received].
    Nothing in this loop sets [session_done], which is false on entry. *)
Fixpoint outer_batch (dbg : bool) (n : nat) (i pbc outer_received : Z) (k : kst)
  : M dev (kst * Z * Z) :=
  match n with
  | O => mret (k, pbc, outer_received)
  | S n =>
      let rx_key := aget 0 (k_rx_key_buf k) i in
      let '(found, steps) := probe rx_key (k_ht k) in
      let k := k <| k_timing ::= probe_timing steps |> in
      let pbc := u64 (pbc + steps * 2) in
      mwhen (i =? 0)
        (emit_debug dbg DBG_INFO DBG_PROBE_HIT
           (Z.lor (if found is Some _ then 2147483648 else 0) (Z.land (u32 rx_key) 2147483647))) ;;
      '(k, pbc) ←
        match found with
        | Some it => push_match it i k pbc
        | None => mret (k <| k_timing ::= fun t => t <| tm_hash_probe_misses ::= add32 1 |> |>, pbc)
        end;
      outer_batch dbg n (i + 1) pbc (u32 (outer_received + 1)) k
  end.

(** The totals of a finished session. *)
Definition finish_timing (t : TimingSummaryPayload) : TimingSummaryPayload :=
  let t := t <| tm_ack_frames ::= add32 1 |>
             <| tm_bytes_tx ::= add32 (15 + 3 + TIMING_SUMMARY_BYTES) |>
             <| tm_ack_emit_cycles ::= add64 15 |> in
  let t := t <| tm_build_total_cycles :=
                  u64 (tm_build_rx_cycles t + tm_build_compute_cycles t) |>
             <| tm_probe_total_cycles :=
                  u64 (u64 (tm_probe_rx_cycles t + tm_probe_compute_cycles t) +
                       tm_result_emit_cycles t) |>
             <| tm_hash_table_load_factor_ppm :=
                  u32 (u64 (tm_hash_build_inserts t * 1000000) / HT_SLOTS) |> in
  t <| tm_session_total_cycles :=
         u64 (u64 (u64 (u64 (tm_config_cycles t + tm_build_total_cycles t) +
                        tm_probe_total_cycles t) + tm_ack_emit_cycles t) +
              (3 + TIMING_SUMMARY_BYTES)) |>.

(** [if (probe_batch_cycles > timing.max_probe_batch_cycles) ...] *)
Definition max_probe (pbc : Z) (t : TimingSummaryPayload) : TimingSummaryPayload :=
  if tm_max_probe_batch_cycles t <? pbc
  then t <| tm_max_probe_batch_cycles := u32 pbc |> else t.

(** The end of the session inside the probe loop. *)
Definition probe_done_block (r : RtlTiming) (k : kst) (pbc inner_received outer_received : Z)
  : M dev kst :=
  set_status PHASE_DONE ;;
  set_result_count (k_matched k) ;;
  set_error ERR_NONE ;;
  let pbc := u64 (pbc + (15 + 3 + TIMING_SUMMARY_BYTES)) in
  let t := (k_timing k) <| tm_inner_rows := inner_received |>
                      <| tm_outer_rows := outer_received |>
                      <| tm_matched_rows := k_matched k |> in
  let t := apply_rtl_stream_timing r (finish_timing (max_probe pbc t)) in
  tx_timing_summary t ;;
  tx_status_frame MSG_STATUS PHASE_DONE outer_received (k_matched k) 0 (k_session_id k) ;;
  mret (k <| k_timing := t |> <| k_session_done := true |>).

(** The acknowledgement after an OUTER_DATA frame that did not end the probe. *)
Definition probe_ack (k : kst) (pbc outer_received pending : Z) : M dev (kst * Z) :=
  if ACK_BATCH_FRAMES <=? pending then
    let k := k <| k_timing ::= fun t =>
                   t <| tm_ack_frames ::= add32 1 |> <| tm_bytes_tx ::= add32 15 |>
                     <| tm_ack_emit_cycles ::= add64 15 |> |> in
    tx_status_frame MSG_ACK PHASE_PROBING outer_received (k_matched k)
      (frame_credit (k_outer_total k) outer_received) (k_session_id k) ;;
    mret (k <| k_timing ::= max_probe (u64 (pbc + 15)) |>, 0)
  else mret (k <| k_timing ::= max_probe pbc |>, pending).

(** The end of an OUTER_DATA frame, after its rows were probed. *)
Definition outer_reply (r : RtlTiming) (explicit_probe_end : bool) (k : kst)
    (pbc inner_received outer_received pending : Z) : M dev (kst * Z * Z) :=
  let probe_done := explicit_probe_end || (k_outer_total k <=? outer_received) in
  '(k, pbc) ← (if probe_done then flush_result_batch k pbc else mret (k, pbc));
  let pending := u16 (pending + 1) in
  if probe_done then
    k ← probe_done_block r k pbc inner_received outer_received;
    mret (k, outer_received, pending)
  else
    '(k, pending) ← probe_ack k pbc outer_received pending;
    mret (k, outer_received, pending).

(** An OUTER_DATA frame of [count] tuples, header already read. *)
Definition outer_frame (dbg : bool) (r : RtlTiming) (k : kst)
    (count pbc inner_received outer_received pending : Z) : M dev (kst * Z * Z) :=
  k ← rx_batch (Z.to_nat count) 0 k;
  mwhen (negb (count =? 0))
    (emit_debug dbg DBG_INFO DBG_PROBE_KEY (u32 (aget 0 (k_rx_key_buf k) 0))) ;;
  let explicit_probe_end := count =? 0 in
  let remaining := if outer_received <? k_outer_total k
                   then u32 (k_outer_total k - outer_received) else 0 in
  let process_count := if remaining <? count then u16 remaining else count in
  '(k, pbc, outer_received) ←
    outer_batch dbg (Z.to_nat process_count) 0 pbc outer_received k;
  outer_reply r explicit_probe_end k pbc inner_received outer_received pending.

(** One iteration of [probe_loop] past its loop test: state, [outer_received],
    pending frames. *)
Definition probe_frame (dbg : bool) (r : RtlTiming) (k : kst)
    (inner_received outer_received pending : Z) : M dev (kst * Z * Z) :=
  '(msg_type, timed_out) ← rx_byte_guarded dbg (k_session_id k);
  if (timed_out : bool) then mret (k <| k_session_done := true |>, outer_received, pending)
  else
    count ← rx_u16;
    let pbc := u64 (3 + u64 (count * tuple_bytes_of (k_keytype k))) in
    let k := k <| k_timing ::= fun t =>
                   t <| tm_outer_frames ::= add32 1 |> <| tm_bytes_rx ::= add32 (u32 pbc) |>
                     <| tm_probe_rx_cycles ::= add64 pbc |> |> in
    if msg_type =? msg_code MSG_RESET then
      '(k, _) ← flush_result_batch k pbc;
      set_status PHASE_IDLE ;;
      tx_status_frame MSG_ACK PHASE_IDLE outer_received (k_matched k) 0 (k_session_id k) ;;
      mret (k <| k_ht ::= reset |> <| k_session_done := true |>, outer_received, pending)
    else if negb (msg_type =? msg_code MSG_OUTER_DATA) then
      k ← fail_session ERR_INVALID_CMD k; mret (k, outer_received, pending)
    else outer_frame dbg r k count pbc inner_received outer_received pending.

(** [n] iterations left. *)
Fixpoint probe_loop (dbg : bool) (r : RtlTiming) (n : nat) (k : kst)
    (inner_received outer_received pending : Z) : M dev kst :=
  match n with
  | O => mret k
  | S n =>
      if k_session_done k then mret k
      else if k_outer_total k <=? outer_received then mret k
      else
        '(k, outer_received, pending) ←
          probe_frame dbg r k inner_received outer_received pending;
        probe_loop dbg r n k inner_received outer_received pending
  end.

(** The iterations the two frame loops allow. *)
Definition build_frame_limit : Z := HT_MAX_ROWS + 2.
Definition probe_frame_limit : Z := 1000000.

Definition algorithm_a (dbg : bool) (r : RtlTiming) (k : kst) : M dev kst :=
  '(k, inner_received) ← build_loop dbg (Z.to_nat build_frame_limit) (k <| k_ht ::= reset |>) 0 0;
  if k_session_done k then mret k
  else
    emit_debug dbg DBG_INFO DBG_BUILD_DONE inner_received ;;
    set_status PHASE_PROBING ;;
    probe_loop dbg r (Z.to_nat probe_frame_limit) k inner_received 0 0.

(** ** Session *)

(** The final STATUS of a session that is still open. *)
Definition final_status (dbg : bool) (r : RtlTiming) (k : kst) : M dev kst :=
  emit_debug dbg DBG_INFO DBG_PROBE_DONE (k_matched k) ;;
  set_status PHASE_DONE ;;
  set_result_count (k_matched k) ;;
  set_error ERR_NONE ;;
  let is_a := k_algorithm k =? alg_code ALGORITHM_A in
  let t := if is_a
           then apply_rtl_stream_timing r
                  (finish_timing ((k_timing k) <| tm_matched_rows := k_matched k |>))
           else k_timing k in
  mwhen is_a (tx_timing_summary t) ;;
  tx_status_frame MSG_STATUS PHASE_DONE 0 (k_matched k) 0 (k_session_id k) ;;
  mret (k <| k_timing := t |>).

(** One iteration of [session_loop]. *)
Definition session (dbg : bool) (r : RtlTiming) (k : kst) : M dev kst :=
  let k := session_init k in
  set_status PHASE_IDLE ;;
  set_error ERR_NONE ;;
  set_result_count 0 ;;
  emit_debug dbg DBG_INFO DBG_IDLE_ENTER 0 ;;
  k ← configure dbg k;
  k ← (if negb (k_session_done k) && (k_algorithm k =? alg_code ALGORITHM_B)
       then algorithm_b k else mret k);
  k ← (if negb (k_session_done k) && (k_algorithm k =? alg_code ALGORITHM_A)
       then algorithm_a dbg r k else mret k);
  if k_session_done k then mret k else final_status dbg r k.

(** [n] iterations of [session_loop]. *)
Fixpoint session_loop (dbg : bool) (r : RtlTiming) (n : nat) (k : kst) : M dev kst :=
  match n with
  | O => mret k
  | S n => k ← session dbg r k; session_loop dbg r n k
  end.

(** The kernel entered with the static objects [k]: C simulation leaves the loop
    after one session ([n = 1]), the hardware never does (any [n]). *)
Definition hash_join_kernel (dbg : bool) (r : RtlTiming) (n : nat) (k : kst) : M dev kst :=
  mmodify (fun d => d <| ports -> ht_capacity_reg := HT_MAX_ROWS |>
                      <| ports -> rx_buf_cap_reg := RX_CREDIT_TUPLES |>) ;;
  session_loop dbg r n k.
