(* ===== verification/LinearJoin.v ===== *)
(** Algorithm A end to end: a session of [hash_join_kernel] fed with CONFIGURE,
    INNER_DATA and OUTER_DATA frames emits the hash join of its inputs.

    The proof follows the kernel's phases.  [loaded] is the state while the build
    loop has inserted a prefix of the inner rows, [probing] the state while the
    probe loop has answered a prefix of the outer rows: results already sent
    followed by the buffered ones are the join of that prefix.  [tallied] relates
    the timing counters to the frames exchanged. *)
From S2P Require Import Prelude Types Stream LinearHashTable Grace Wire Dialogue Join Kernel.

(** ** Counters *)

(** The version, and the counters after [rxb] bytes received, frames [fs] sent, [ni] rows
    inserted, [no] rows probed and [nh] hits. *)
Record tallied (t : TimingSummaryPayload) (rxb : Z) (fs : list fp_frame) (ni no nh : Z) : Prop := {
  ty_version : tm_version t = TIMING_SUMMARY_VERSION;
  ty_bytes_rx : tm_bytes_rx t = u32 rxb;
  ty_bytes_tx : tm_bytes_tx t = u32 (tx_size fs);
  ty_results : tm_result_frames t = u32 (count_frames is_result fs);
  ty_acks : tm_ack_frames t = u32 (count_frames is_ack fs);
  ty_inserts : tm_hash_build_inserts t = u32 ni;
  ty_lookups : tm_hash_probe_lookups t = u32 no;
  ty_hits : tm_hash_probe_hits t = u32 nh;
  ty_misses : tm_hash_probe_misses t = u32 (no - nh);
  ty_overflows : tm_hash_overflow_errors t = 0 }.

Lemma add32_u32 n x : add32 n (u32 x) = u32 (x + n).
Proof. apply Zplus_mod_idemp_l. Qed.
Lemma add32_u32' n x : add32 (u32 n) (u32 x) = u32 (x + n).
Proof. unfold add32, u32. by rewrite <- Zplus_mod. Qed.

(** Close a goal about counters after an update. *)
Ltac tally :=
  match goal with
  | H : tallied ?t _ _ _ _ _ |- _ =>
      let v := fresh "t" in
      set (v := t) in *; clearbody v; destruct H; destruct v; constructor
  end; rcbn;
  rewrite ?tx_size_app, ?count_frames_app;
  repeat match goal with H : _ = u32 _ |- _ => rewrite H; clear H end;
  rewrite ?add32_u32', ?add32_u32; try done; f_equal; simpl; try lia.

Lemma tallied_build_timing t rxb fs ni no nh s :
  tallied t rxb fs ni no nh -> tallied (build_timing s t) rxb fs ni no nh.
Proof. intros []. unfold build_timing. destruct (0 <? s); [destruct (_ <? s)|]; by constructor. Qed.

Lemma tallied_insert t rxb fs ni no nh s :
  tallied t rxb fs ni no nh ->
  tallied ((build_timing s t) <| tm_hash_build_inserts ::= add32 1 |>) rxb fs (ni + 1) no nh.
Proof. intros H%(tallied_build_timing _ _ _ _ _ _ s). tally. Qed.

Lemma tallied_hit t rxb fs ni no nh s :
  tallied t rxb fs ni no nh ->
  tallied ((probe_timing s t) <| tm_hash_probe_hits ::= add32 1 |>) rxb fs ni (no + 1) (nh + 1).
Proof. intros. unfold probe_timing. destruct (0 <? s); [destruct (_ <? s)|]; tally. Qed.

Lemma tallied_miss t rxb fs ni no nh s :
  tallied t rxb fs ni no nh ->
  tallied ((probe_timing s t) <| tm_hash_probe_misses ::= add32 1 |>) rxb fs ni (no + 1) nh.
Proof. intros. unfold probe_timing. destruct (0 <? s); [destruct (_ <? s)|]; tally. Qed.

Lemma tallied_inner_frame t rxb fs ni no nh b :
  tallied t rxb fs ni no nh ->
  tallied (t <| tm_inner_frames ::= add32 1 |> <| tm_bytes_rx ::= add32 (u32 b) |>
             <| tm_build_rx_cycles ::= add64 b |>) (rxb + b) fs ni no nh.
Proof. intros. tally. Qed.

Lemma tallied_outer_frame t rxb fs ni no nh b :
  tallied t rxb fs ni no nh ->
  tallied (t <| tm_outer_frames ::= add32 1 |> <| tm_bytes_rx ::= add32 (u32 b) |>
             <| tm_probe_rx_cycles ::= add64 b |>) (rxb + b) fs ni no nh.
Proof. intros. tally. Qed.

(** One acknowledgement or status frame sent. *)
Lemma tallied_ack t rxb fs ni no nh f :
  is_ack f = true -> is_result f = false -> frame_size f = 15 ->
  tallied t rxb fs ni no nh ->
  tallied (t <| tm_ack_frames ::= add32 1 |> <| tm_bytes_tx ::= add32 15 |>
             <| tm_ack_emit_cycles ::= add64 15 |>) rxb (fs ++ [f]) ni no nh.
Proof. intros Ha Hr Hs ?. tally; rewrite ?Ha, ?Hr, ?Hs; lia. Qed.

Lemma tallied_configure t rxb fs ni no nh f ic oc :
  is_ack f = true -> is_result f = false -> frame_size f = 15 ->
  tallied t rxb fs ni no nh ->
  tallied (t <| tm_inner_rows := ic |> <| tm_outer_rows := oc |>
             <| tm_bytes_rx ::= add32 16 |> <| tm_config_cycles ::= add64 16 |>
             <| tm_ack_frames ::= add32 1 |> <| tm_bytes_tx ::= add32 15 |>
             <| tm_ack_emit_cycles ::= add64 15 |> <| tm_config_cycles ::= add64 15 |>)
    (rxb + 16) (fs ++ [f]) ni no nh.
Proof. intros Ha Hr Hs ?. tally; rewrite ?Ha, ?Hr, ?Hs; lia. Qed.

Lemma tallied_max_build t rxb fs ni no nh s :
  tallied t rxb fs ni no nh -> tallied (max_build s t) rxb fs ni no nh.
Proof. intros []. unfold max_build. destruct (_ <? s); by constructor. Qed.

Lemma tallied_max_probe t rxb fs ni no nh s :
  tallied t rxb fs ni no nh -> tallied (max_probe s t) rxb fs ni no nh.
Proof. intros []. unfold max_probe. destruct (_ <? s); by constructor. Qed.

(** ** Frames of a session in progress *)

(** Acknowledgements, non-empty result batches of bounded size and, when debug output
    is compiled in, debug frames. *)
Definition progress_frame (dbg : bool) (f : fp_frame) : Prop :=
  match f with
  | FResult ps => 0 < Z.of_nat (length ps) <= RESULT_FLUSH_PAIRS
  | FAck _ => True
  | FDebug level _ _ => dbg = true /\ is_byte level
  | _ => False
  end.

Lemma dbg_level_byte l : is_byte (dbg_level_code l).
Proof. by destruct l. Qed.
#[export] Hint Resolve dbg_level_byte : bytes.

Lemma progress_no_errors dbg fs : Forall (progress_frame dbg) fs -> errors_of fs = [].
Proof. induction 1 as [|f fs Hf _ IH]; [done|]. by destruct f. Qed.

Lemma progress_debug dbg l c v : Forall (progress_frame dbg) (debug_frames dbg l c v).
Proof. destruct dbg; constructor; [split; [done|apply dbg_level_byte]|constructor]. Qed.
#[export] Hint Resolve progress_debug Forall_app_2 : bytes.

Lemma length_pair_bytes ps : length (concat (pair_bytes <$> ps)) = (12 * length ps)%nat.
Proof. induction ps as [|p ps IH]; [done|]. cbn [fmap list_fmap concat]. rewrite length_app, IH.
  change (length (pair_bytes p)) with 12%nat. simpl. lia. Qed.

Lemma frame_size_result ps : frame_size (FResult ps) = 3 + Z.of_nat (length ps) * 12.
Proof. unfold frame_size, fp_bytes. rewrite length_app, length_pair_bytes. simpl length. lia. Qed.

Lemma length_buf_pairs buf n : length (buf_pairs buf n) = n.
Proof. unfold buf_pairs. by rewrite length_fmap, length_seq. Qed.

Lemma buf_pairs_insert buf n p :
  buf_pairs (<[Z.of_nat n := p]> buf) (S n) = buf_pairs buf n ++ [p].
Proof.
  unfold buf_pairs. rewrite seq_S, fmap_app. simpl. f_equal.
  - apply list_fmap_ext. intros i x Hx%lookup_seq. rewrite aget_insert, decide_False by lia. done.
  - rewrite aget_insert, decide_True by done. done.
Qed.

(** The configuration part of the state, which no data frame changes. *)
Definition setup (k : kst) : Z * Z * Z * Z * Z * bool :=
  (k_algorithm k, k_keytype k, k_inner_total k, k_outer_total k, k_session_id k, k_session_done k).

(** *** Acknowledgement policy of the build phase *)

(** After [rcv] of [total] rows and [pend] frames since the last ACK. *)
Definition build_acked (total rcv pend : Z) : bool :=
  (ACK_BATCH_FRAMES <=? pend + 1) || (total <=? rcv).
Definition build_acks (total sid rcv pend : Z) : list fp_frame :=
  if build_acked total rcv pend
  then [FAck (status_of PHASE_BUILDING rcv 0 (frame_credit total rcv) sid)] else [].
Definition build_pending (total rcv pend : Z) : Z :=
  if build_acked total rcv pend then 0 else pend + 1.

(** The state while the rows [ts] have been inserted into the empty table [h0];
    [rxb] bytes received and [fs] sent in the session so far. *)
Record loaded (h0 : LinearHashTable) (su : Z * Z * Z * Z * Z * bool) (ts : list Tuple)
    (rxb : Z) (fs : list fp_frame) (k : kst) : Prop := {
  ld_setup : setup k = su;
  ld_table : build_all ts h0 = Some (k_ht k);
  ld_matched : k_matched k = 0;
  ld_buf : k_result_buf_cnt k = 0;
  ld_tally : tallied (k_timing k) rxb fs (Z.of_nat (length ts)) 0 0 }.

Lemma build_all_length ts h0 h :
  ht_rep h0 [] -> build_all ts h0 = Some h -> Z.of_nat (length ts) <= HT_MAX_ROWS.
Proof. intros H0 Ha. destruct (build_all_rep _ _ _ _ H0 Ha) as (? & ? & _). simpl in *. lia. Qed.

Lemma length_tuples_bytes kt ts :
  Z.of_nat (length (tuples_bytes kt ts)) = Z.of_nat (length ts) * tuple_bytes_of kt.
Proof.
  unfold tuples_bytes, tuple_bytes_of, tuple_bytes, key_bytes.
  induction ts as [|t ts IH]; [done|]. cbn [fmap list_fmap concat length].
  rewrite length_app, Nat2Z.inj_add, IH. destruct (is_int64 kt); simpl length; lia.
Qed.

(** The state while the rows [os] have been probed against the table of [inner]:
    the results sent followed by the buffered ones are the join so far. *)
Record probing (su : Z * Z * Z * Z * Z * bool) (inner os : list Tuple)
    (rxb : Z) (fs : list fp_frame) (k : kst) : Prop := {
  pb_setup : setup k = su;
  pb_table : ht_rep (k_ht k) inner;
  pb_cnt : 0 <= k_result_buf_cnt k < RESULT_FLUSH_PAIRS;
  pb_results : results_of fs ++ buf_pairs (k_result_buf k) (Z.to_nat (k_result_buf_cnt k)) =
               hash_join inner os;
  pb_matched : k_matched k = Z.of_nat (length (hash_join inner os));
  pb_tally : tallied (k_timing k) rxb fs (Z.of_nat (length inner)) (Z.of_nat (length os))
               (Z.of_nat (length (hash_join inner os))) }.

(** Result batches and debug frames. *)
Definition batch_frame (dbg : bool) (f : fp_frame) : Prop := progress_frame dbg f /\ is_ack f = false.

Lemma batch_debug dbg l c v : Forall (batch_frame dbg) (debug_frames dbg l c v).
Proof. destruct dbg; constructor; [split; [split; [done|apply dbg_level_byte]|done]|constructor]. Qed.

Lemma acks_batch dbg fs : Forall (batch_frame dbg) fs -> count_frames is_ack fs = 0.
Proof. induction 1 as [|f fs [_ Hf] _ IH]; [done|]. simpl. by rewrite Hf, IH. Qed.

Lemma acks_debug dbg l c v : count_frames is_ack (debug_frames dbg l c v) = 0.
Proof. by destruct dbg. Qed.

Lemma batch_progress dbg fs : Forall (batch_frame dbg) fs -> Forall (progress_frame dbg) fs.
Proof. intros H. eapply Forall_impl; [exact H|]. by intros f []. Qed.

Lemma tallied_silent t rxb fs ni no nh b l c v :
  tallied t rxb fs ni no nh -> tallied t rxb (fs ++ debug_frames b l c v) ni no nh.
Proof.
  intros []. destruct (debug_silent b l c v) as (?&?&Hs&Hr&Ha).
  constructor; rewrite ?tx_size_app, ?count_frames_app, ?Hs, ?Hr, ?Ha, ?Z.add_0_r; done.
Qed.

(** *** Acknowledgement policy of the probe phase *)

Definition probe_acks (total sid rcv matched pend : Z) : list fp_frame :=
  if ACK_BATCH_FRAMES <=? pend + 1
  then [FAck (status_of PHASE_PROBING rcv matched (frame_credit total rcv) sid)] else [].
Definition probe_pending (pend : Z) : Z :=
  if ACK_BATCH_FRAMES <=? pend + 1 then 0 else pend + 1.

(** The registers of a finished session. *)
Definition done_regs (p : regs) (matched : Z) : regs :=
  p <| status_reg := phase_code PHASE_DONE |> <| result_count_reg := matched |>
    <| error_code_reg := err_code ERR_NONE |>.

Lemma tallied_finish t rxb fs ni no nh f f' :
  is_ack f = false -> is_result f = false -> frame_size f = 3 + TIMING_SUMMARY_BYTES ->
  is_ack f' = true -> is_result f' = false -> frame_size f' = 15 ->
  tallied t rxb fs ni no nh -> tallied (finish_timing t) rxb (fs ++ [f; f']) ni no nh.
Proof.
  intros Ha Hr Hs Ha' Hr' Hs' ?. unfold finish_timing.
  tally; rewrite ?Ha, ?Hr, ?Hs, ?Ha', ?Hr', ?Hs'; change TIMING_SUMMARY_BYTES with 200; try lia.
Qed.

(** *** Requests *)

Definition configure_wf (c : ConfigurePayload) : Prop :=
  is_byte (cp_algorithm c) /\ is_byte (cp_key_type c) /\ is_u16 (cp_rx_buf_slots c) /\
  is_u32 (cp_inner_count c) /\ is_u32 (cp_outer_count c) /\ is_byte (cp_session_id c).

(** A data frame that fits the receive buffer. *)
Definition frame_ok (kt : Z) (ts : list Tuple) : Prop :=
  Z.of_nat (length ts) <= RX_BUF_TUPLES /\ Forall (tuple_wf kt) ts.

Definition inner_bytes (kt : Z) (cs : list (list Tuple)) : list Z :=
  concat ((fun ts => pg_bytes kt (PInner ts)) <$> cs).
Definition outer_bytes (kt : Z) (cs : list (list Tuple)) : list Z :=
  concat ((fun ts => pg_bytes kt (POuter ts)) <$> cs).

(** A session's input: CONFIGURE, the inner frames [ins], the outer frames [outs]. *)
Definition request_bytes (c : ConfigurePayload) (ins outs : list (list Tuple)) : list Z :=
  pg_bytes (cp_key_type c) (PConfigure c) ++
  inner_bytes (cp_key_type c) ins ++ outer_bytes (cp_key_type c) outs.

(** A request for algorithm A that announces its rows correctly and whose inner
    rows the table accepts. *)
Record request_ok (c : ConfigurePayload) (ins outs : list (list Tuple)) : Prop := {
  rq_wf : configure_wf c;
  rq_alg : cp_algorithm c = alg_code ALGORITHM_A;
  rq_ins : Forall (frame_ok (cp_key_type c)) ins;
  rq_ins_ne : Forall (.≠ []) ins;
  rq_outs : Forall (frame_ok (cp_key_type c)) outs;
  rq_outs_ne : Forall (.≠ []) outs;
  rq_inner : cp_inner_count c = Z.of_nat (length (concat ins));
  rq_outer : cp_outer_count c = Z.of_nat (length (concat outs));
  rq_table : table_accepts (concat ins);
  rq_limit : Z.of_nat (length outs) <= probe_frame_limit }.

Lemma length_concat_ge (cs : list (list Tuple)) :
  Forall (.≠ []) cs -> (length cs <= length (concat cs))%nat.
Proof.
  induction 1 as [|ts cs Hn _ IH]; [done|]. simpl. rewrite length_app.
  destruct ts; [done|]. simpl. lia.
Qed.

Section session.
Context (g : nat -> Z) (timely_g : timely g) (dbg : bool).

(** *** Flushing results *)

Lemma flush_spec k pbc w rxb fs ni no nh :
  0 <= k_result_buf_cnt k <= RESULT_FLUSH_PAIRS ->
  tallied (k_timing k) rxb fs ni no nh ->
  exists t' pbc' fs',
    talks g (flush_result_batch k pbc) [] w
      (k <| k_timing := t' |> <| k_result_buf_cnt := 0 |>, pbc') fs' w /\
    results_of fs' = buf_pairs (k_result_buf k) (Z.to_nat (k_result_buf_cnt k)) /\
    Forall (batch_frame dbg) fs' /\ tallied t' rxb (fs ++ fs') ni no nh.
Proof.
  intros Hc Ht. unfold flush_result_batch. consts.
  destruct (Z.eqb_spec (k_result_buf_cnt k) 0) as [E|E].
  - exists (k_timing k), pbc, []. rewrite app_nil_r, E. split_and!; try done.
    eapply talks_eq; [|done..]. destruct k; simpl in E; subst. apply talks_ret.
  - set (n := k_result_buf_cnt k) in *. set (bytes := u32 _).
    assert (bytes = 3 + n * 12) as Hb.
    { unfold bytes. rewrite (u32_small (n * 12)), u32_small; unfold is_u32; lia. }
    exists (flush_timing bytes (k_timing k)), (u64 (pbc + bytes)), [FResult (buf_pairs (k_result_buf k) (Z.to_nat n))].
    split_and!.
    + eapply talks_eq; [eapply talks_emit;
        [apply talks_emits, emits_results; consts; lia|apply talks_ret]|done|done].
    + unfold results_of. simpl. by rewrite app_nil_r.
    + repeat constructor; rewrite length_buf_pairs; consts; lia.
    + pose proof (frame_size_result (buf_pairs (k_result_buf k) (Z.to_nat n))) as Hs.
      rewrite length_buf_pairs in Hs. 
      assert (tallied ((k_timing k) <| tm_result_frames ::= add32 1 |>
                 <| tm_bytes_tx ::= add32 bytes |> <| tm_result_emit_cycles ::= add64 bytes |>)
                rxb (fs ++ [FResult (buf_pairs (k_result_buf k) (Z.to_nat n))]) ni no nh) as Ht1.
      { clear -Ht Hs Hb E Hc. tally. }
      unfold flush_timing. destruct (_ <? bytes); [|done]. destruct Ht1; by constructor.
Qed.

(** *** Receive buffers *)

(** The buffers hold the tuples [ts] from index [i] on. *)
Definition buffered (k : kst) (i : Z) (ts : list Tuple) : Prop :=
  forall j t, ts !! j = Some t ->
    aget 0 (k_rx_key_buf k) (i + Z.of_nat j) = key t /\
    aget tid0 (k_rx_tid_buf k) (i + Z.of_nat j) = tid t.

Lemma buffered_cons k i t ts :
  buffered k i (t :: ts) <->
  (aget 0 (k_rx_key_buf k) i = key t /\ aget tid0 (k_rx_tid_buf k) i = tid t) /\
  buffered k (i + 1) ts.
Proof.
  split.
  - intros H. split; [specialize (H 0%nat t eq_refl); by rewrite Z.add_0_r in H|].
    intros j u Hu. specialize (H (S j) u Hu). rewrite Nat2Z.inj_succ in H.
    by replace (i + 1 + Z.of_nat j) with (i + Z.succ (Z.of_nat j)) by lia.
  - intros [H0 H] [|j] u Hu.
    + injection Hu as <-. by rewrite Z.add_0_r.
    + specialize (H j u Hu). rewrite Nat2Z.inj_succ.
      by replace (i + Z.succ (Z.of_nat j)) with (i + 1 + Z.of_nat j) by lia.
Qed.

(** [rx_batch] reads the tuples of a frame of at most [RX_BUF_TUPLES]. *)
Lemma rx_batch_reads ts i k :
  0 <= i -> i + Z.of_nat (length ts) <= RX_BUF_TUPLES ->
  Forall (tuple_wf (k_keytype k)) ts ->
  exists kb tb,
    reads (rx_batch (length ts) i k) (tuples_bytes (k_keytype k) ts)
      (k <| k_rx_key_buf := kb |> <| k_rx_tid_buf := tb |>) /\
    buffered (k <| k_rx_key_buf := kb |> <| k_rx_tid_buf := tb |>) i ts /\
    forall j, j < i -> aget 0 kb j = aget 0 (k_rx_key_buf k) j /\
                       aget tid0 tb j = aget tid0 (k_rx_tid_buf k) j.
Proof.
  revert i k. induction ts as [|t ts IH]; intros i k Hi Hl Hw; cbn [length rx_batch].
  - exists (k_rx_key_buf k), (k_rx_tid_buf k). split_and!; [|by intros ???|done].
    destruct k. apply reads_ret.
  - apply Forall_cons in Hw as [[Hk Ht] Hw]. simpl in Hl.
    destruct (IH (i + 1) (k <| k_rx_key_buf ::= <[i := key t]> |>
                            <| k_rx_tid_buf ::= <[i := tid t]> |>)) as (kb & tb & Hr & Hb & Hlow);
      [lia|lia|done|].
    exists kb, tb. split_and!.
    + unfold tuples_bytes. cbn [fmap list_fmap concat]. unfold tuple_bytes at 1.
      rewrite <- app_assoc. eapply reads_bind; [by apply reads_key|].
      destruct (Z.leb_spec RX_BUF_TUPLES i); [lia|].
      eapply reads_bind; [by apply reads_tid|]. exact Hr.
    + apply buffered_cons. split; [|exact Hb].
      destruct (Hlow i) as [Ha Hc]; [lia|]. rcbn. rewrite Ha, Hc, !aget_insert, !decide_True by done.
      done.
    + intros j Hj. destruct (Hlow j) as [Ha Hc]; [lia|]. rcbn.
      rewrite Ha, Hc, !aget_insert, !decide_False by lia. done.
Qed.

(** *** The build phase *)

Lemma inner_batch_ok ts i bbc rcv k h' w rxb fs ni no nh :
  buffered k i ts -> k_session_done k = false -> build_all ts (k_ht k) = Some h' ->
  tallied (k_timing k) rxb fs ni no nh ->
  exists t' bbc',
    talks g (inner_batch (length ts) i bbc (u32 rcv) k) [] w
      (k <| k_ht := h' |> <| k_timing := t' |>, bbc', u32 (rcv + Z.of_nat (length ts))) [] w /\
    tallied t' rxb fs (ni + Z.of_nat (length ts)) no nh.
Proof.
  revert i bbc rcv k ni. induction ts as [|t ts IH]; intros i bbc rcv k ni Hb Hd Ha Ht;
    cbn [length inner_batch build_all] in *.
  - injection Ha as <-. exists (k_timing k), bbc. rewrite !Z.add_0_r. split; [|done].
    destruct k. apply talks_ret.
  - apply buffered_cons in Hb as [[-> ->] Hb]. rewrite Hd.
    destruct (build (key t) (tid t) (k_ht k)) as [[e st] h1]. destruct (err_ok e); [|done].
    destruct (IH (i + 1) (u64 (bbc + st * 2)) (rcv + 1)
      (k <| k_ht := h1 |> <| k_timing ::= build_timing st |>
         <| k_timing ::= fun t => t <| tm_hash_build_inserts ::= add32 1 |> |>) (ni + 1))
      as (t' & bbc' & Hr & Ht'); [done|done|done| |].
    + by apply tallied_insert.
    + exists t', bbc'. split; [|by replace (ni + Z.of_nat (S (length ts)))
        with (ni + 1 + Z.of_nat (length ts)) by lia].
      replace (u32 (u32 rcv + 1)) with (u32 (rcv + 1)) by (symmetry; apply add32_u32).
      replace (rcv + Z.of_nat (S (length ts))) with (rcv + 1 + Z.of_nat (length ts)) by lia.
      exact Hr.
Qed.

Lemma build_ack_ok k bbc rcv pend w rxb fs ni :
  0 <= pend < ACK_BATCH_FRAMES -> tallied (k_timing k) rxb fs ni 0 0 ->
  exists t',
    talks g (build_ack k bbc rcv pend) [] w
      (k <| k_timing := t' |>, build_pending (k_inner_total k) rcv pend)
      (build_acks (k_inner_total k) (k_session_id k) rcv pend) w /\
    tallied t' rxb (fs ++ build_acks (k_inner_total k) (k_session_id k) rcv pend) ni 0 0.
Proof.
  intros Hp Ht. unfold build_ack, build_pending, build_acks, build_acked. consts.
  rewrite u16_small by (unfold is_u16; lia).
  destruct ((2 <=? pend + 1) || (k_inner_total k <=? rcv)).
  - set (f := FAck _).
    assert (tallied ((k_timing k) <| tm_ack_frames ::= add32 1 |> <| tm_bytes_tx ::= add32 15 |>
                       <| tm_ack_emit_cycles ::= add64 15 |>) rxb (fs ++ [f]) ni 0 0) as Ht1 by by apply tallied_ack.
    eexists. split; [|exact (tallied_max_build _ _ _ _ _ _ (u64 (bbc + 15)) Ht1)].
    eapply talks_eq; [eapply talks_emit; [apply talks_emits, emits_ack|apply talks_ret]|done|done].
  - exists (max_build bbc (k_timing k)). rewrite app_nil_r.
    split; [apply talks_ret|by apply tallied_max_build].
Qed.

(** The DEBUG frame a non-empty data frame triggers. *)
Definition key_debug (code : DbgCodeKernel) (ts : list Tuple) : list fp_frame :=
  match ts with [] => [] | t :: _ => debug_frames dbg DBG_INFO code (u32 (key t)) end.

Lemma emits_key_debug code ts k :
  buffered k 0 ts ->
  emits (mwhen (negb (Z.of_nat (length ts) =? 0))
           (emit_debug dbg DBG_INFO code (u32 (aget 0 (k_rx_key_buf k) 0)))) (key_debug code ts).
Proof.
  intros Hb. destruct ts as [|t ts]; [apply emits_nil|].
  apply buffered_cons in Hb as [[-> _] _]. apply emits_debug.
Qed.

Lemma tallied_key_debug t rxb fs ni no nh code ts :
  tallied t rxb fs ni no nh -> tallied t rxb (fs ++ key_debug code ts) ni no nh.
Proof.
  intros. destruct ts as [|u ts]; [by rewrite app_nil_r|by apply tallied_silent].
Qed.

Lemma build_frame_ok h0 alg kt it ot sid ts0 ts rxb fs k pend w h' :
  ht_rep h0 [] -> loaded h0 (alg, kt, it, ot, sid, false) ts0 rxb fs k ->
  0 <= pend < ACK_BATCH_FRAMES -> frame_ok kt ts -> build_all ts (k_ht k) = Some h' ->
  let rcv := Z.of_nat (length (ts0 ++ ts)) in
  let fs' := key_debug DBG_BUILD_KEY ts ++ build_acks it sid rcv pend in
  exists k',
    talks g (build_frame dbg k (Z.of_nat (length ts0)) pend) (pg_bytes kt (PInner ts)) w
      (k', rcv, build_pending it rcv pend) fs' w /\
    loaded h0 (alg, kt, it, ot, sid, false) (ts0 ++ ts)
      (rxb + Z.of_nat (length (pg_bytes kt (PInner ts)))) (fs ++ fs') k'.
Proof.
  intros H0 [Hsu Hta Hma Hbu Hty] Hp [Hlen Hwf] Hall rcv fs'. pose proof Hsu as Hsu'. unfold setup in Hsu.
  injection Hsu as Halg Hkt Hit Hot Hsid Hsd. consts.
  assert (build_all (ts0 ++ ts) h0 = Some h') as Hta' by (rewrite build_all_app, Hta; done).
  pose proof (build_all_length _ _ _ H0 Hta') as Hmax. consts.
  set (bbc := u64 (3 + u64 (Z.of_nat (length ts) * tuple_bytes_of kt))).
  assert (bbc = Z.of_nat (length (pg_bytes kt (PInner ts)))) as Hbbc.
  { unfold bbc, pg_bytes. rewrite length_app, Nat2Z.inj_add, length_tuples_bytes.
    unfold tuple_bytes_of. destruct (is_int64 kt); rewrite (u64_small (_ * _)), u64_small;
      simpl length; unfold is_u64; lia. }
  set (k1 := k <| k_timing ::= fun t =>
                   t <| tm_inner_frames ::= add32 1 |> <| tm_bytes_rx ::= add32 (u32 bbc) |>
                     <| tm_build_rx_cycles ::= add64 bbc |> |>).
  assert (tallied (k_timing k1) (rxb + bbc) fs (Z.of_nat (length ts0)) 0 0) as Ht1
    by by apply tallied_inner_frame.
  destruct (rx_batch_reads ts 0 k1) as (kb & tb & Hr & Hb & _);
    [done|by consts|by change (k_keytype k1) with (k_keytype k); rewrite Hkt|].
  set (k2 := k1 <| k_rx_key_buf := kb |> <| k_rx_tid_buf := tb |>) in *.
  apply (tallied_key_debug _ _ _ _ _ _ DBG_BUILD_KEY ts) in Ht1.
  destruct (inner_batch_ok ts 0 bbc (Z.of_nat (length ts0)) k2 h' w _ _ _ _ _ Hb Hsd Hall Ht1)
    as (t3 & bbc3 & Hr3 & Ht3).
  set (k3 := k2 <| k_ht := h' |> <| k_timing := t3 |>) in *.
  assert (Z.of_nat (length ts0) + Z.of_nat (length ts) = rcv) as Hrcv
    by (unfold rcv; rewrite length_app; lia).
  rewrite Hrcv in Ht3. rewrite !u32_small in Hr3 by (unfold is_u32; lia). rewrite Hrcv in Hr3.
  destruct (build_ack_ok k3 bbc3 rcv pend w _ _ _ Hp Ht3) as (t4 & Hr4 & Ht4).
  change (k_inner_total k3) with (k_inner_total k) in *. rewrite Hit in *.
  change (k_session_id k3) with (k_session_id k) in *. rewrite Hsid in *.
  exists (k3 <| k_timing := t4 |>). split.
  - unfold build_frame. rewrite Hsid, Hkt.
    eapply (talks_read _ _ [_]); [by apply talks_guarded, msg_code_byte|]. cbn beta iota.
    apply header_read. rewrite u16_small by (unfold is_u16; lia). fold bbc k1.
    codes.
    rewrite <- (app_nil_r (tuples_bytes _ _)), Nat2Z.id, <- Hkt.
    eapply talks_read; [apply talks_reads, Hr|].
    eapply talks_emit; [by apply talks_emits, emits_key_debug|].
    eapply talks_quiet; [exact Hr3|]. cbn beta iota.
    change (k_session_done k3) with (k_session_done k). rewrite Hsd. cbn iota.
    eapply talks_eq; [eapply talks_emit; [exact Hr4|apply talks_ret]|done|by rewrite app_nil_r].
  - rewrite <- Hbbc. unfold fs'. rewrite app_assoc. constructor; try done.
Qed.

(** Replies to the INNER_DATA frames [cs] after [rcv] rows. *)
Fixpoint build_replies (total sid rcv pend : Z) (cs : list (list Tuple)) : list fp_frame :=
  match cs with
  | [] => []
  | ts :: cs =>
      let rcv := rcv + Z.of_nat (length ts) in
      (key_debug DBG_BUILD_KEY ts ++ build_acks total sid rcv pend) ++
      build_replies total sid rcv (build_pending total rcv pend) cs
  end.

Lemma build_pending_range total rcv pend :
  0 <= pend < ACK_BATCH_FRAMES -> 0 <= build_pending total rcv pend < ACK_BATCH_FRAMES.
Proof.
  unfold build_pending, build_acked. consts. intros.
  destruct (Z.leb_spec 2 (pend + 1)); simpl; [lia|]. destruct (total <=? rcv); lia.
Qed.

(** The build loop runs through any sequence of non-empty frames that stays
    within the announced row count. *)
Lemma build_loop_frames h0 alg kt it ot sid cs : forall ts0 rxb fs k pend w h' m,
  ht_rep h0 [] -> loaded h0 (alg, kt, it, ot, sid, false) ts0 rxb fs k ->
  0 <= pend < ACK_BATCH_FRAMES -> Forall (frame_ok kt) cs -> Forall (.≠ []) cs ->
  Z.of_nat (length (ts0 ++ concat cs)) <= it -> build_all (concat cs) (k_ht k) = Some h' ->
  let fs' := build_replies it sid (Z.of_nat (length ts0)) pend cs in
  exists k' pend',
    leads g (build_loop dbg (length cs + m) k (Z.of_nat (length ts0)) pend) (inner_bytes kt cs) w
      (build_loop dbg m k' (Z.of_nat (length (ts0 ++ concat cs))) pend') fs' w /\
    0 <= pend' < ACK_BATCH_FRAMES /\
    loaded h0 (alg, kt, it, ot, sid, false) (ts0 ++ concat cs)
      (rxb + Z.of_nat (length (inner_bytes kt cs))) (fs ++ fs') k'.
Proof.
  induction cs as [|ts cs IH]; intros ts0 rxb fs k pend w h' m H0 Hl Hp Hok Hne Hmax Hall fs'.
  - exists k, pend. unfold fs'. simpl. rewrite !app_nil_r, Z.add_0_r.
    split_and!; [apply leads_refl|lia..|done].
  - apply Forall_cons in Hok as [Hok Hoks]. apply Forall_cons in Hne as [Hn Hnes].
    cbn [concat] in *. rewrite build_all_app in Hall.
    destruct (build_all ts (k_ht k)) as [h1|] eqn:Hts; [|done]. cbn in Hall.
    destruct (build_frame_ok h0 alg kt it ot sid ts0 ts rxb fs k pend w h1) as (k1 & Hr1 & Hl1);
      try done.
    rewrite (app_assoc ts0) in *.
    destruct (IH (ts0 ++ ts) _ _ k1 (build_pending it (Z.of_nat (length (ts0 ++ ts))) pend) w h' m
      H0 Hl1) as (k2 & p2 & Hr2 & Hp2 & Hl2); try done.
    + by apply build_pending_range.
    + destruct Hl1 as [_ Hta1 _ _ _]. destruct Hl as [_ Hta _ _ _].
      rewrite build_all_app, Hta in Hta1. cbn in Hta1. congruence.
    + exists k2, p2. unfold inner_bytes, fs'. cbn [fmap list_fmap concat build_replies].
      replace (Z.of_nat (length ts0) + Z.of_nat (length ts))
        with (Z.of_nat (length (ts0 ++ ts))) by (rewrite length_app; lia).
      rewrite (length_app (pg_bytes kt _)), Nat2Z.inj_add, Z.add_assoc, (app_assoc fs).
      split_and!; [|lia..|exact Hl2]. eapply leads_trans; [|exact Hr2].
      cbn [length Nat.add build_loop]. destruct Hl as [Hsu _ _ _ _]. unfold setup in Hsu.
      injection Hsu as _ _ Hit _ _ Hsd. rewrite Hsd, Hit.
      destruct (Z.leb_spec it (Z.of_nat (length ts0))) as [Hle|_].
      { destruct ts; [done|]. rewrite !length_app in Hmax. simpl in Hmax. lia. }
      exact (leads_bind _ _ _ _ _ _ _ Hr1).
Qed.

(** *** The probe phase *)

(** A hit is buffered, and sent with its batch when the batch is full. *)
Lemma push_match_ok su inner os o it i k pbc w rxb fs t1 :
  probing su inner os rxb fs k -> Z.of_nat (length os) < 2 ^ 32 - 1 ->
  aget tid0 (k_rx_tid_buf k) i = tid o -> first_match (key o) inner = Some it ->
  tallied (t1 <| tm_hash_probe_hits ::= add32 1 |>) rxb fs (Z.of_nat (length inner))
    (Z.of_nat (length os) + 1) (Z.of_nat (length (hash_join inner os)) + 1) ->
  exists k' pbc' fs',
    talks g (push_match it i (k <| k_timing := t1 |>) pbc) [] w (k', pbc') fs' w /\
    probing su inner (os ++ [o]) rxb (fs ++ fs') k' /\ Forall (batch_frame dbg) fs' /\
    k_rx_key_buf k' = k_rx_key_buf k /\ k_rx_tid_buf k' = k_rx_tid_buf k.
Proof.
  intros [Hsu Hta Hcnt Hres Hma Hty] Hlen Htid Hfm Ht1.
  set (cnt := k_result_buf_cnt k) in *. consts.
  set (k2 := k <| k_result_buf ::= <[cnt := mkPair it (tid o)]> |>
               <| k_result_buf_cnt := cnt + 1 |>
               <| k_matched := Z.of_nat (length (hash_join inner (os ++ [o]))) |>
               <| k_timing := t1 <| tm_hash_probe_hits ::= add32 1 |> |>).
  assert (hash_join inner (os ++ [o]) = hash_join inner os ++ [mkPair it (tid o)]) as Hj.
  { rewrite hash_join_app. f_equal. unfold hash_join, match_row. simpl. by rewrite Hfm. }
  assert (results_of fs ++ buf_pairs (k_result_buf k2) (Z.to_nat (k_result_buf_cnt k2)) =
          hash_join inner (os ++ [o])) as Hres'.
  { rewrite Hj, <- Hres, <- app_assoc. f_equal. unfold k2. rcbn.
    replace (Z.to_nat (cnt + 1)) with (S (Z.to_nat cnt)) by lia.
    rewrite <- (Z2Nat.id cnt) at 1 by lia. apply buf_pairs_insert. }
  assert (push_match it i (k <| k_timing := t1 |>) pbc =
          if RESULT_FLUSH_PAIRS <=? cnt + 1 then flush_result_batch k2 pbc else mret (k2, pbc)) as Heq.
  { pose proof (length_hash_join inner os).
    apply (f_equal length), (f_equal Z.of_nat) in Hj. rewrite length_app, Nat2Z.inj_add in Hj.
    unfold k2. rewrite Hj. clear - Hcnt Htid Hma Hlen H. 
    unfold push_match, buf_set. 
    destruct k as [kht kg krb krk krt kalg kkt kit kot kma kK kow kbc ksid ksd ktm].
    unfold cnt in *. clear cnt. cbn in *. subst kma. rewrite Htid. consts.
    replace (0 <=? kbc) with true by lia. replace (kbc <? 256) with true by lia. cbn [andb].
    unfold mbind, M_bind, mret, M_ret, add32.
    rewrite u16_small, u32_small by (unfold is_u16, is_u32; lia). done. }
  assert (Z.of_nat (length (os ++ [o])) = Z.of_nat (length os) + 1) as Hl1
    by (rewrite length_app; simpl; lia).
  assert (Z.of_nat (length (hash_join inner (os ++ [o]))) =
          Z.of_nat (length (hash_join inner os)) + 1) as Hl2
    by (rewrite Hj, length_app; simpl; lia).
  rewrite Heq. consts. destruct (Z.leb_spec 118 (cnt + 1)).
  - destruct (flush_spec k2 pbc w _ _ _ _ _ ltac:(consts; unfold k2; rcbn; lia) Ht1)
      as (t' & pbc' & fs' & Hr & Hres2 & Hpf & Ht').
    exists (k2 <| k_timing := t' |> <| k_result_buf_cnt := 0 |>), pbc', fs'.
    split_and!; try done.
    constructor; try done; rewrite ?Hl1, ?Hl2; try done.
    rewrite results_of_app, Hres2. by rewrite app_nil_r.
  - exists k2, pbc, []. rewrite app_nil_r.
    split_and!; [apply talks_ret| |constructor|done|done].
    constructor; try done; rewrite ?Hl1, ?Hl2; try done. consts. unfold k2; rcbn. lia.
Qed.

Lemma probing_miss su inner os o k rxb fs t1 :
  probing su inner os rxb fs k -> first_match (key o) inner = None ->
  tallied t1 rxb fs (Z.of_nat (length inner)) (Z.of_nat (length os) + 1)
    (Z.of_nat (length (hash_join inner os))) ->
  probing su inner (os ++ [o]) rxb fs (k <| k_timing := t1 |>).
Proof.
  intros [Hsu Hta Hcnt Hres Hma Hty] Hfm Ht1.
  assert (hash_join inner (os ++ [o]) = hash_join inner os) as Hj.
  { rewrite hash_join_app. unfold hash_join at 2, match_row. simpl. rewrite Hfm. apply app_nil_r. }
  constructor; rewrite ?Hj; try done. rewrite length_app, Nat2Z.inj_add. done.
Qed.

Lemma probing_debug su inner os rxb fs k b l c v :
  probing su inner os rxb fs k -> probing su inner os rxb (fs ++ debug_frames b l c v) k.
Proof.
  intros []. constructor; try done.
  - rewrite results_of_app. destruct (debug_silent b l c v) as (-> & _). by rewrite app_nil_r.
  - by apply tallied_silent.
Qed.

(** Rows are probed in order; the results keep that order across batches. *)
Lemma outer_batch_ok su inner ts : forall os i pbc k w rxb fs,
  probing su inner os rxb fs k -> buffered k i ts -> 
  Z.of_nat (length (os ++ ts)) < 2 ^ 32 ->
  exists k' pbc' fs',
    talks g (outer_batch dbg (length ts) i pbc (Z.of_nat (length os)) k) [] w
      (k', pbc', Z.of_nat (length (os ++ ts))) fs' w /\
    probing su inner (os ++ ts) rxb (fs ++ fs') k' /\ Forall (batch_frame dbg) fs'.
Proof.
  induction ts as [|o ts IH]; intros os i pbc k w rxb fs Hpb Hb Hlen.
  - exists k, pbc, []. rewrite !app_nil_r. split_and!; [apply talks_ret|done|constructor].
  - apply buffered_cons in Hb as [[Hk Ht] Hb]. cbn [length outer_batch]. rewrite Hk.
    rewrite length_app in Hlen. simpl in Hlen.
    pose proof (probe_rep _ _ (key o) (pb_table _ _ _ _ _ _ Hpb)) as Hpr.
    destruct (probe (key o) (k_ht k)) as [found steps]. simpl in Hpr. subst found.
    set (dbgs := if i =? 0 then debug_frames dbg DBG_INFO DBG_PROBE_HIT
                   (Z.lor (if first_match (key o) inner is Some _ then 2147483648 else 0)
                      (Z.land (u32 (key o)) 2147483647)) else []).
    assert (probing su inner os rxb (fs ++ dbgs) k) as Hpb1.
    { unfold dbgs. destruct (i =? 0); [by apply probing_debug|by rewrite app_nil_r]. }
    assert (exists k1 pbc1 fs1,
      talks g (match first_match (key o) inner with
               | Some it => push_match it i (k <| k_timing ::= probe_timing steps |>)
                              (u64 (pbc + steps * 2))
               | None => mret (k <| k_timing ::= probe_timing steps |>
                                 <| k_timing ::= fun t => t <| tm_hash_probe_misses ::= add32 1 |> |>,
                               u64 (pbc + steps * 2)) end) [] w (k1, pbc1) fs1 w /\
      probing su inner (os ++ [o]) rxb ((fs ++ dbgs) ++ fs1) k1 /\ Forall (batch_frame dbg) fs1 /\
      k_rx_key_buf k1 = k_rx_key_buf k /\ k_rx_tid_buf k1 = k_rx_tid_buf k)
      as (k1 & pbc1 & fs1 & Hr1 & Hp1 & Hf1 & Hkb & Htb).
    { destruct (first_match (key o) inner) as [it|] eqn:Hfm.
      - eapply (push_match_ok _ _ _ o); try done; [lia|].
        apply tallied_hit. apply Hpb1.
      - eexists _, _, []. rewrite app_nil_r. split_and!; [apply talks_ret| |constructor|done|done].
        exact (probing_miss _ _ _ o k _ _ _ Hpb1 Hfm
                 (tallied_miss _ _ _ _ _ _ steps (pb_tally _ _ _ _ _ _ Hpb1))). }
    destruct (IH (os ++ [o]) (i + 1) pbc1 k1 w rxb _ Hp1) as (k2 & pbc2 & fs2 & Hr2 & Hp2 & Hf2).
    { intros j u Hu. rewrite Hkb, Htb. by apply Hb. }
    { rewrite !length_app. simpl. lia. }
    exists k2, pbc2, (dbgs ++ fs1 ++ fs2). rewrite <- app_assoc in Hp2, Hr2. simpl in Hp2, Hr2.
    split_and!.
    + eapply talks_emit.
      * apply talks_emits. unfold dbgs, mwhen. destruct (i =? 0); [apply emits_debug|apply emits_nil].
      * eapply talks_emit; [exact Hr1|]. cbn beta iota.
        replace (u32 (Z.of_nat (length os) + 1)) with (Z.of_nat (length (os ++ [o])));
          [exact Hr2|]. rewrite u32_small, length_app; simpl; [lia|unfold is_u32; lia].
    + by rewrite <- !app_assoc in Hp2.
    + repeat apply Forall_app_2; try done. unfold dbgs. destruct (i =? 0); [apply batch_debug|done].
Qed.

Lemma probing_key_debug su inner os rxb fs k code ts :
  probing su inner os rxb fs k -> probing su inner os rxb (fs ++ key_debug code ts) k.
Proof. destruct ts; [by rewrite app_nil_r|apply probing_debug]. Qed.

Lemma batch_key_debug code ts : Forall (batch_frame dbg) (key_debug code ts).
Proof. destruct ts; [constructor|apply batch_debug]. Qed.

(** A data frame up to its reply: of the rows [ts], the ones beyond the announced
    outer row count are dropped. *)
Lemma outer_frame_rows r alg kt it ot sid inner os ts k pend ir w rxb fs :
  let su := (alg, kt, it, ot, sid, false) in
  let ps := take (Z.to_nat (ot - Z.of_nat (length os))) ts in
  let bytes := pg_bytes kt (POuter ts) in
  probing su inner os rxb fs k -> frame_ok kt ts ->
  Z.of_nat (length os) < ot -> ot < 2 ^ 32 ->
  exists k' pbc' fs',
    leads g (probe_frame dbg r k ir (Z.of_nat (length os)) pend) bytes w
      (outer_reply r (Z.of_nat (length ts) =? 0) k' pbc' ir (Z.of_nat (length (os ++ ps))) pend)
      fs' w /\
    probing su inner (os ++ ps) (rxb + Z.of_nat (length bytes)) (fs ++ fs') k' /\
    Forall (batch_frame dbg) fs'.
Proof.
  intros su ps bytes Hpb [Hlen Hwf] Hos Hot.
  pose proof (pb_setup _ _ _ _ _ _ Hpb) as Hsu. unfold setup, su in Hsu.
  injection Hsu as Halg Hkt Hit Hotk Hsid Hsd. consts.
  set (pbc := u64 (3 + u64 (Z.of_nat (length ts) * tuple_bytes_of kt))).
  assert (pbc = Z.of_nat (length bytes)) as Hpbc.
  { unfold pbc, bytes, pg_bytes. rewrite length_app, Nat2Z.inj_add, length_tuples_bytes.
    unfold tuple_bytes_of. destruct (is_int64 kt); rewrite (u64_small (_ * _)), u64_small;
      simpl length; unfold is_u64; lia. }
  set (k1 := k <| k_timing ::= fun t =>
                   t <| tm_outer_frames ::= add32 1 |> <| tm_bytes_rx ::= add32 (u32 pbc) |>
                     <| tm_probe_rx_cycles ::= add64 pbc |> |>).
  assert (probing su inner os (rxb + pbc) fs k1) as Hp1
    by (destruct Hpb; constructor; try done; by apply tallied_outer_frame).
  destruct (rx_batch_reads ts 0 k1) as (kb & tb & Hr & Hb & _);
    [done|by consts|by change (k_keytype k1) with (k_keytype k); rewrite Hkt|].
  set (k2 := k1 <| k_rx_key_buf := kb |> <| k_rx_tid_buf := tb |>) in *.
  assert (probing su inner os (rxb + pbc) fs k2) as Hp2 by (by destruct Hp1; constructor).
  apply (probing_key_debug _ _ _ _ _ _ DBG_PROBE_KEY ts) in Hp2.
  assert (buffered k2 0 ps) as Hbp.
  { intros j t Hj. apply Hb. unfold ps in Hj. by apply lookup_take_Some in Hj as [? _]. }
  destruct (outer_batch_ok su inner ps os 0 pbc k2 w _ _ Hp2 Hbp)
    as (k3 & pbc3 & fs3 & Hr3 & Hp3 & Hf3).
  { unfold ps. rewrite length_app, length_take. lia. }
  exists k3, pbc3, (key_debug DBG_PROBE_KEY ts ++ fs3). rewrite <- Hpbc, app_assoc.
  split_and!; [|done|by apply Forall_app_2, Hf3; apply batch_key_debug].
  unfold probe_frame. rewrite Hsid, Hkt. 
  eapply (leads_trans _ _ _ [_] _ _ _ _ []);
    [exact (leads_bind _ _ _ _ _ _ _ (talks_guarded dbg sid _ w timely_g (msg_code_byte MSG_OUTER_DATA)))|].
  cbn beta iota.
  eapply (leads_trans _ _ _ (le_bytes 2 _) _ _ _ _ []);
    [apply leads_bind, talks_reads, reads_u16|].
  cbn beta iota. rewrite u16_small by (unfold is_u16; lia). fold pbc k1. codes.
  unfold outer_frame. rewrite Nat2Z.id. rewrite <- (app_nil_r (tuples_bytes _ _)), <- Hkt.
  eapply (leads_trans _ _ _ (tuples_bytes _ _) _ _ _ _ []);
    [exact (leads_bind _ _ _ _ _ _ _ (talks_reads _ _ _ _ Hr))|].
  cbn beta iota. fold k2.
  eapply (leads_trans _ _ _ [] []);
    [exact (leads_bind _ _ _ _ _ _ _ (talks_emits _ _ w (emits_key_debug _ _ _ Hb)))|].
  cbn beta iota. change (k_outer_total k2) with (k_outer_total k). rewrite Hotk.
  replace (Z.of_nat (length os) <? ot) with true by lia. cbn iota.
  rewrite u32_small by (unfold is_u32; lia).
  replace (Z.to_nat (if ot - Z.of_nat (length os) <? Z.of_nat (length ts)
            then u16 (ot - Z.of_nat (length os)) else Z.of_nat (length ts))) with (length ps).
  2: { unfold ps. rewrite length_take. destruct (Z.ltb_spec (ot - Z.of_nat (length os)) (Z.of_nat (length ts)));
       [rewrite u16_small by (unfold is_u16; lia)|]; lia. }
  exact (leads_bind _ _ _ _ _ _ _ Hr3).
Qed.

Lemma outer_reply_more r alg kt it ot sid inner os k pbc pend ir w rxb fs :
  let su := (alg, kt, it, ot, sid, false) in
  let rcv := Z.of_nat (length os) in
  let acks := probe_acks ot sid rcv (Z.of_nat (length (hash_join inner os))) pend in
  probing su inner os rxb fs k -> rcv < ot -> 0 <= pend < ACK_BATCH_FRAMES ->
  exists k',
    talks g (outer_reply r false k pbc ir rcv pend) [] w (k', rcv, probe_pending pend) acks w /\
    probing su inner os rxb (fs ++ acks) k'.
Proof.
  intros su rcv acks Hpb Hlt Hp. pose proof (pb_setup _ _ _ _ _ _ Hpb) as Hsu.
  unfold setup, su in Hsu. injection Hsu as _ _ _ Hot Hsid _. consts.
  unfold outer_reply, probe_ack, probe_pending, acks, probe_acks. rewrite Hot.
  replace (ot <=? rcv) with false by lia. cbn [orb]. rewrite u16_small by (unfold is_u16; lia).
  consts. destruct (2 <=? pend + 1).
  - set (f := FAck _). eexists. split.
    + eapply talks_quiet; [apply talks_ret|]. cbn beta iota.
      eapply talks_eq; [eapply talks_emit; [eapply talks_emit;
        [apply talks_emits, emits_ack|apply talks_ret]|apply talks_ret]|done|].
      unfold f. by rewrite <- Hsid, <- (pb_matched _ _ _ _ _ _ Hpb), <- Hot.
    + destruct Hpb; constructor; try done.
      * rewrite results_of_app. unfold results_of at 2. simpl. by rewrite app_nil_r.
      * by apply tallied_max_probe, tallied_ack.
  - eexists. rewrite app_nil_r. split.
    + eapply talks_quiet; [apply talks_ret|]. cbn beta iota.
      eapply talks_quiet; [apply talks_ret|]. apply talks_ret.
    + destruct Hpb; constructor; try done. by apply tallied_max_probe.
Qed.

Lemma talks_set_status ph p mm :
  talks g (set_status ph) [] (p, mm) tt [] (p <| status_reg := phase_code ph |>, mm).
Proof. apply talks_ports. Qed.
Lemma talks_set_error e p mm :
  talks g (set_error e) [] (p, mm) tt [] (p <| error_code_reg := err_code e |>, mm).
Proof. apply talks_ports. Qed.
Lemma talks_set_result_count n p mm :
  talks g (set_result_count n) [] (p, mm) tt [] (p <| result_count_reg := n |>, mm).
Proof. apply talks_ports. Qed.

(** The last frame: pending results, the timing summary and STATUS(DONE). *)
Lemma outer_reply_done r e alg kt it ot sid inner os k pbc pend ir p mm rxb fs :
  let su := (alg, kt, it, ot, sid, false) in
  let rcv := Z.of_nat (length os) in
  let matched := Z.of_nat (length (hash_join inner os)) in
  probing su inner os rxb fs k -> e || (ot <=? rcv) = true ->
  exists k' t rs pend',
    let fs' := rs ++ [FTiming (apply_rtl_stream_timing r t);
                      FStatus (status_of PHASE_DONE rcv matched 0 sid)] in
    talks g (outer_reply r e k pbc ir rcv pend) [] (p, mm) (k', rcv, pend') fs'
      (done_regs p matched, mm) /\
    k_session_done k' = true /\ Forall (batch_frame dbg) rs /\
    results_of (fs ++ fs') = hash_join inner os /\
    tm_matched_rows t = matched /\
    tallied t rxb (fs ++ fs') (Z.of_nat (length inner)) rcv matched.
Proof.
  intros su rcv matched Hpb Hdone. pose proof (pb_setup _ _ _ _ _ _ Hpb) as Hsu.
  unfold setup, su in Hsu. injection Hsu as _ _ _ Hot Hsid _.
  destruct Hpb as [_ Hta Hcnt Hres Hma Hty].
  destruct (flush_spec k pbc (p, mm) _ _ _ _ _ ltac:(consts; lia) Hty)
    as (t1 & pbc1 & rs & Hr & Hrs & Hf & Ht1).
  unfold outer_reply. rewrite Hot, Hdone.
  set (k1 := k <| k_timing := t1 |> <| k_result_buf_cnt := 0 |>) in *.
  set (t2 := finish_timing (max_probe (u64 (pbc1 + (15 + 3 + TIMING_SUMMARY_BYTES)))
               (t1 <| tm_inner_rows := ir |> <| tm_outer_rows := rcv |>
                   <| tm_matched_rows := matched |>))).
  exists (k1 <| k_timing := apply_rtl_stream_timing r t2 |> <| k_session_done := true |>),
    t2, rs, (u16 (pend + 1)).
  split_and!; try done.
  - eapply talks_emit; [exact Hr|]. cbn beta iota. unfold probe_done_block.
    eapply talks_eq; [|done|apply app_nil_r]. eapply talks_emit; [|apply talks_ret].
    eapply talks_quiet; [apply talks_set_status|].
    eapply talks_quiet; [apply talks_set_result_count|].
    eapply talks_quiet; [apply talks_set_error|].
    cbn beta iota. change (k_matched k1) with (k_matched k). rewrite Hma.
    change (k_session_id k1) with (k_session_id k). rewrite Hsid. fold matched t2.
    eapply (talks_emit _ _ _ _ _ _ _ [_] [_]); [apply talks_emits, emits_timing|].
    eapply talks_eq; [eapply talks_emit; [apply talks_emits, emits_status|apply talks_ret]|done|done].
  - rewrite !results_of_app, Hrs. unfold results_of at 2. simpl. by rewrite app_nil_r.
  - unfold t2, max_probe. by destruct (_ <? u64 _).
  - rewrite app_assoc. apply tallied_finish; try done.
    apply tallied_max_probe. destruct Ht1; by constructor.
Qed.

Lemma progress_probe_acks total sid rcv matched pend :
  Forall (progress_frame dbg) (probe_acks total sid rcv matched pend).
Proof. unfold probe_acks. destruct (_ <=? _); repeat constructor. Qed.

Lemma probe_pending_range pend :
  0 <= pend < ACK_BATCH_FRAMES -> 0 <= probe_pending pend < ACK_BATCH_FRAMES.
Proof. unfold probe_pending. consts. destruct (Z.leb_spec 2 (pend + 1)); lia. Qed.

(** The probe loop runs through any sequence of non-empty frames that stops short
    of the announced row count. *)
Lemma probe_loop_frames r alg kt it ot sid inner ir cs : forall os rxb fs k pend w m,
  let su := (alg, kt, it, ot, sid, false) in
  probing su inner os rxb fs k -> 0 <= pend < ACK_BATCH_FRAMES ->
  Forall (frame_ok kt) cs -> Forall (.≠ []) cs ->
  Z.of_nat (length (os ++ concat cs)) < ot -> ot < 2 ^ 32 ->
  exists k' pend' fs',
    leads g (probe_loop dbg r (length cs + m) k ir (Z.of_nat (length os)) pend)
      (outer_bytes kt cs) w
      (probe_loop dbg r m k' ir (Z.of_nat (length (os ++ concat cs))) pend') fs' w /\
    0 <= pend' < ACK_BATCH_FRAMES /\ Forall (progress_frame dbg) fs' /\
    probing su inner (os ++ concat cs) (rxb + Z.of_nat (length (outer_bytes kt cs)))
      (fs ++ fs') k' /\
    count_frames is_ack fs' <= Z.of_nat (length cs).
Proof.
  induction cs as [|ts cs IH]; intros os rxb fs k pend w m su Hpb Hp Hok Hne Hlt Hot.
  - exists k, pend, []. simpl. rewrite !app_nil_r, Z.add_0_r.
    split_and!; [apply leads_refl|lia..|constructor|done|done].
  - apply Forall_cons in Hok as [Hok Hoks]. apply Forall_cons in Hne as [Hn Hnes].
    cbn [concat] in *. rewrite (app_assoc os) in *. rewrite !length_app in Hlt.
    destruct (outer_frame_rows r alg kt it ot sid inner os ts k pend ir w rxb fs)
      as (k1 & pbc1 & fs1 & Hr1 & Hp1 & Hf1); try done; [lia|].
    rewrite take_ge in Hr1, Hp1 by lia.
    replace (Z.of_nat (length ts) =? 0) with false in Hr1 by (destruct ts; [done|simpl; lia]).
    destruct (outer_reply_more r alg kt it ot sid inner (os ++ ts) k1 pbc1 pend ir w _ _ Hp1)
      as (k2 & Hr2 & Hp2); [rewrite length_app; lia|done|].
    destruct (IH (os ++ ts) _ _ k2 (probe_pending pend) w m Hp2) as (k3 & p3 & fs3 & Hr3 & Hp3 & Hf3 & Hpb3 & Ha3);
      try done; [by apply probe_pending_range|rewrite !length_app; lia|].
    exists k3, p3, ((fs1 ++ probe_acks ot sid (Z.of_nat (length (os ++ ts)))
                       (Z.of_nat (length (hash_join inner (os ++ ts)))) pend) ++ fs3).
    unfold outer_bytes. cbn [fmap list_fmap concat].
    rewrite (length_app (pg_bytes kt _)), Nat2Z.inj_add, Z.add_assoc, !(app_assoc fs).
    split_and!; [|lia..| |exact Hpb3|].
    + eapply leads_trans; [|exact Hr3]. cbn [length Nat.add probe_loop].
      pose proof (pb_setup _ _ _ _ _ _ Hpb) as Hsu. unfold setup, su in Hsu.
      injection Hsu as _ _ _ Hotk _ Hsd. rewrite Hsd, Hotk.
      replace (ot <=? Z.of_nat (length os)) with false by lia.
      pose proof (leads_talks _ _ _ _ _ _ _ _ _ _ Hr1 Hr2) as Hr. rewrite app_nil_r in Hr.
      exact (leads_bind _ _ _ _ _ _ _ Hr).
    + repeat apply Forall_app_2; [by apply batch_progress|apply progress_probe_acks|done].
    + rewrite !count_frames_app, (acks_batch dbg fs1) by done. unfold probe_acks.
      destruct (_ <=? _); simpl; lia.
Qed.

(** The frame that completes the outer relation, or an empty one, ends the session. *)
Lemma probe_loop_done r alg kt it ot sid inner ir os ts rxb fs k pend p mm m :
  let su := (alg, kt, it, ot, sid, false) in
  let rows := os ++ take (Z.to_nat (ot - Z.of_nat (length os))) ts in
  let matched := Z.of_nat (length (hash_join inner rows)) in
  probing su inner os rxb fs k -> frame_ok kt ts ->
  Z.of_nat (length os) < ot < 2 ^ 32 -> ts = [] \/ ot <= Z.of_nat (length (os ++ ts)) ->
  exists k' t rs,
    let fs' := rs ++ [FTiming (apply_rtl_stream_timing r t);
                      FStatus (status_of PHASE_DONE (Z.of_nat (length rows)) matched 0 sid)] in
    talks g (probe_loop dbg r (S m) k ir (Z.of_nat (length os)) pend) (pg_bytes kt (POuter ts))
      (p, mm) k' fs' (done_regs p matched, mm) /\
    k_session_done k' = true /\ Forall (batch_frame dbg) rs /\
    results_of (fs ++ fs') = hash_join inner rows /\ tm_matched_rows t = matched /\
    tallied t (rxb + Z.of_nat (length (pg_bytes kt (POuter ts)))) (fs ++ fs')
      (Z.of_nat (length inner)) (Z.of_nat (length rows)) matched.
Proof.
  intros su rows matched Hpb Hok [Hlt Hot] Hend.
  destruct (outer_frame_rows r alg kt it ot sid inner os ts k pend ir (p, mm) rxb fs)
    as (k1 & pbc1 & fs1 & Hr1 & Hp1 & Hf1); try done.
  destruct (outer_reply_done r (Z.of_nat (length ts) =? 0) alg kt it ot sid inner rows k1 pbc1
    pend ir p mm _ _ Hp1) as (k2 & t2 & rs2 & p2 & Hr2 & Hsd2 & Hf2 & Hres2 & Hm2 & Ht2).
  { destruct Hend as [->|Hge]; [done|]. apply orb_true_iff. right. apply Z.leb_le. unfold rows.
    rewrite length_app, length_take. rewrite length_app in Hge. lia. }
  exists k2, t2, (fs1 ++ rs2). rewrite <- !app_assoc. rewrite <- !app_assoc in Hres2, Ht2.
  split_and!; try done; [|by apply Forall_app_2].
  cbn [probe_loop]. pose proof (pb_setup _ _ _ _ _ _ Hpb) as Hsu. unfold setup, su in Hsu.
  injection Hsu as _ _ _ Hotk _ Hsd. rewrite Hsd, Hotk.
  replace (ot <=? Z.of_nat (length os)) with false by lia.
  rewrite <- (app_nil_r (pg_bytes _ _)), <- (app_nil_r (fs1 ++ _)).
  eapply talks_bind.
  - rewrite <- (app_nil_r (pg_bytes _ _)). eapply leads_talks; [exact Hr1|exact Hr2].
  - destruct m; cbn [probe_loop]; [|rewrite Hsd2]; apply talks_ret.
Qed.

(** *** Session set-up *)

(** The registers once a CONFIGURE has been accepted. *)
Definition building_regs (p : regs) (c : ConfigurePayload) : regs :=
  p <| result_count_reg := cp_outer_count c |> <| status_reg := phase_code PHASE_BUILDING |>.

Definition configure_replies (c : ConfigurePayload) : list fp_frame :=
  debug_frames dbg DBG_INFO DBG_CONFIGURE (cp_inner_count c) ++
  [FAck (status_of PHASE_BUILDING 0 0 RX_CREDIT_TUPLES (cp_session_id c))].

(** The state with the payload of CONFIGURE recorded. *)
Definition configured (k : kst) (c : ConfigurePayload) : kst :=
  k <| k_algorithm := cp_algorithm c |> <| k_keytype := cp_key_type c |>
    <| k_inner_total := cp_inner_count c |> <| k_outer_total := cp_outer_count c |>
    <| k_session_id := cp_session_id c |>
    <| k_timing ::= fun t =>
         t <| tm_inner_rows := cp_inner_count c |> <| tm_outer_rows := cp_outer_count c |>
           <| tm_bytes_rx ::= add32 16 |> <| tm_config_cycles ::= add64 16 |> |>.

(** CONFIGURE up to the capacity checks. *)
Lemma configure_leads k c p mm :
  configure_wf c ->
  leads g (configure dbg k) (pg_bytes (cp_key_type c) (PConfigure c)) (p, mm)
    (k' ← check_config (configured k c);
     if k_session_done k' then mret k'
     else
       set_status PHASE_BUILDING ;;
       let k' := k' <| k_timing ::= fun t =>
                   t <| tm_ack_frames ::= add32 1 |> <| tm_bytes_tx ::= add32 15 |>
                     <| tm_ack_emit_cycles ::= add64 15 |> <| tm_config_cycles ::= add64 15 |> |> in
       tx_status_frame MSG_ACK PHASE_BUILDING 0 0 RX_CREDIT_TUPLES (k_session_id k') ;;
       mret k')
    (debug_frames dbg DBG_INFO DBG_CONFIGURE (cp_inner_count c))
    (p <| result_count_reg := cp_outer_count c |>, mm).
Proof.
  intros (Ha & Hk & Hs & Hi & Ho & Hd). unfold configure, pg_bytes, header_bytes, configure_bytes.
  eapply (leads_trans _ _ _ [_] _ _ _ _ []); [eapply leads_bind;
    exact (talks_guarded dbg 0 _ _ timely_g (msg_code_byte MSG_CONFIGURE))|]. cbn beta iota.
  eapply (leads_trans _ _ _ (le_bytes 2 1) _ _ _ _ []); [apply leads_bind, talks_reads, reads_u16|].
  cbn beta iota. codes. change (u16 1 =? 1) with true. cbn [negb orb]. unfold configure_payload.
  eapply (leads_trans _ _ _ [_] _ _ _ _ []); [eapply leads_bind, talks_reads, reads_byte, Ha|].
  eapply (leads_trans _ _ _ [_] _ _ _ _ []); [eapply leads_bind, talks_reads, reads_byte, Hk|].
  eapply (leads_trans _ _ _ (le_bytes 2 _) _ _ _ _ []); [apply leads_bind, talks_reads, reads_u16|].
  eapply (leads_trans _ _ _ (le_bytes 4 _) _ _ _ _ []); [apply leads_bind, talks_reads, reads_u32|].
  eapply (leads_trans _ _ _ (le_bytes 4 _) _ _ _ _ []); [apply leads_bind, talks_reads, reads_u32|].
  eapply (leads_trans _ _ _ [_] [] _ _ _ []); [eapply leads_bind, talks_reads, reads_byte, Hd|].
  cbn beta iota. rewrite !u32_small by done. 
  eapply (leads_trans _ _ _ [] [] _ _ _ []); [apply leads_bind, talks_set_result_count|].
  cbn beta iota. exact (leads_bind _ _ _ _ _ _ _ (talks_emits _ _ _ (emits_debug _ _ _ _))).
Qed.

(** An acceptable CONFIGURE for algorithm A is acknowledged. *)
Lemma configure_ok k c p mm rxb fs :
  configure_wf c -> cp_algorithm c = alg_code ALGORITHM_A -> cp_inner_count c <= HT_MAX_ROWS ->
  k_session_done k = false -> tallied (k_timing k) rxb fs 0 0 0 ->
  exists k',
    talks g (configure dbg k) (pg_bytes (cp_key_type c) (PConfigure c)) (p, mm) k'
      (configure_replies c) (building_regs p c, mm) /\
    setup k' = (cp_algorithm c, cp_key_type c, cp_inner_count c, cp_outer_count c,
                cp_session_id c, false) /\
    k_matched k' = k_matched k /\ k_result_buf_cnt k' = k_result_buf_cnt k /\
    k_ht k' = k_ht k /\
    tallied (k_timing k') (rxb + 16) (fs ++ configure_replies c) 0 0 0.
Proof.
  intros Hwf Halg Hmax Hsd Ht.
  set (k1 := (configured k c) <| k_timing ::= fun t =>
                   t <| tm_ack_frames ::= add32 1 |> <| tm_bytes_tx ::= add32 15 |>
                     <| tm_ack_emit_cycles ::= add64 15 |> <| tm_config_cycles ::= add64 15 |> |>).
  exists k1. split_and!; try done.
  - rewrite <- (app_nil_r (pg_bytes _ _)). eapply leads_talks; [by apply configure_leads|].
    assert (check_config (configured k c) = mret (configured k c)) as ->.
    { unfold check_config. change (k_algorithm (configured k c)) with (cp_algorithm c).
      change (k_inner_total (configured k c)) with (cp_inner_count c). rewrite Halg.
      change (alg_code ALGORITHM_A =? alg_code ALGORITHM_A) with true. cbn iota.
      by replace (HT_MAX_ROWS <? cp_inner_count c) with false by lia. }
    eapply talks_quiet; [apply talks_ret|]. cbn beta.
    change (k_session_done (configured k c)) with (k_session_done k). rewrite Hsd. cbn iota.
    eapply talks_quiet; [apply talks_set_status|]. cbn beta iota zeta.
    eapply talks_eq; [eapply talks_emit; [apply talks_emits, emits_ack|apply talks_ret]|done|done].
  - unfold setup. change (k_session_done k1) with (k_session_done k). by rewrite Hsd.
  - unfold configure_replies. rewrite app_assoc.
    apply (tallied_silent _ _ _ _ _ _ dbg DBG_INFO DBG_CONFIGURE (cp_inner_count c)) in Ht.
    by apply tallied_configure.
Qed.

Lemma build_replies_progress total sid rcv pend cs :
  Forall (progress_frame dbg) (build_replies total sid rcv pend cs) /\
  results_of (build_replies total sid rcv pend cs) = [] /\
  count_frames is_ack (build_replies total sid rcv pend cs) <= Z.of_nat (length cs).
Proof.
  revert rcv pend. induction cs as [|ts cs IH]; intros rcv pend; cbn [build_replies]; [done|].
  destruct (IH (rcv + Z.of_nat (length ts))
              (build_pending total (rcv + Z.of_nat (length ts)) pend)) as (Hp & Hr & Ha).
  split_and!.
  - repeat apply Forall_app_2; [apply batch_progress, batch_key_debug| |done].
    unfold build_acks. destruct (build_acked _ _ _); repeat constructor.
  - rewrite !results_of_app, Hr, app_nil_r. unfold key_debug, build_acks.
    destruct (build_acked _ _ _); (destruct ts; [done|]); by destruct dbg.
  - rewrite !count_frames_app, (acks_batch dbg (key_debug _ _)) by apply batch_key_debug.
    unfold build_acks. destruct (build_acked _ _ _); simpl; lia.
Qed.

(** With the inner relation loaded, the probe phase starts with nothing joined. *)
Lemma loaded_probing h0 su ts rxb fs k :
  ht_rep h0 [] -> loaded h0 su ts rxb fs k -> results_of fs = [] ->
  probing su ts [] rxb fs k.
Proof.
  intros H0 [Hsu Hta Hma Hbu Hty] Hfs. constructor; try done.
  - exact (build_all_rep _ _ _ _ H0 Hta).
  - consts. lia.
  - by rewrite Hfs, Hbu.
Qed.

(** *** The probe phase as a whole *)

Lemma split_last {A} (l : list A) : l <> [] -> exists l' x, l = l' ++ [x].
Proof. destruct l using rev_ind; [done|eauto]. Qed.

Lemma outer_bytes_app kt cs cs' : outer_bytes kt (cs ++ cs') = outer_bytes kt cs ++ outer_bytes kt cs'.
Proof. unfold outer_bytes. by rewrite fmap_app, concat_app. Qed.

(** All outer frames, at least one: the session ends with STATUS(DONE). *)
Lemma probe_loop_all r alg kt it sid inner ir outs rxb fs k p mm m :
  let ot := Z.of_nat (length (concat outs)) in
  let matched := Z.of_nat (length (hash_join inner (concat outs))) in
  probing (alg, kt, it, ot, sid, false) inner [] rxb fs k ->
  Forall (frame_ok kt) outs -> Forall (.≠ []) outs -> outs <> [] -> ot < 2 ^ 32 ->
  Z.of_nat (length outs) <= Z.of_nat m ->
  exists k' t ps,
    let fs' := ps ++ [FTiming (apply_rtl_stream_timing r t);
                      FStatus (status_of PHASE_DONE ot matched 0 sid)] in
    talks g (probe_loop dbg r m k ir 0 0) (outer_bytes kt outs) (p, mm) k' fs'
      (done_regs p matched, mm) /\
    k_session_done k' = true /\ Forall (progress_frame dbg) ps /\
    results_of (fs ++ fs') = hash_join inner (concat outs) /\ tm_matched_rows t = matched /\
    tallied t (rxb + Z.of_nat (length (outer_bytes kt outs))) (fs ++ fs')
      (Z.of_nat (length inner)) ot matched /\
    count_frames is_ack ps <= Z.of_nat (length outs).
Proof.
  intros ot matched Hpb Hok Hne Hnil Hot Hm. destruct (split_last _ Hnil) as (cs & ts & ->).
  apply Forall_app in Hok as [Hok Hts], Hne as [Hne Hn]. rewrite Forall_singleton in Hts, Hn.
  assert (concat (cs ++ [ts]) = concat cs ++ ts) as Hc by (by rewrite concat_app; simpl; rewrite app_nil_r).
  assert (Z.of_nat (length (concat cs ++ ts)) = ot) as Hlen by (by unfold ot; rewrite Hc).
  rewrite length_app in Hlen. assert (0 < length ts)%nat as Hpos.
  { destruct ts; [by destruct Hn|simpl; lia]. }
  rewrite length_app in Hm. simpl in Hm.
  destruct (probe_loop_frames r alg kt it ot sid inner ir cs [] rxb fs k 0 (p, mm) (m - length cs)
    Hpb) as (k1 & pend1 & fs1 & Hr1 & Hp1 & Hf1 & Hpb1 & Ha1); [by consts|done|done|rewrite <- Hlen; simpl app; lia|done|].
  simpl app in *. destruct (m - length cs)%nat as [|m'] eqn:Em; [lia|].
  destruct (probe_loop_done r alg kt it ot sid inner ir (concat cs) ts _ _ k1 pend1 p mm m' Hpb1 Hts)
    as (k2 & t2 & rs & Hr2 & Hsd & Hrs & Hres & Hma & Hty); [lia|right; rewrite length_app; lia|].
  rewrite take_ge in Hr2, Hres, Hma, Hty by lia. rewrite <- Hc in Hr2, Hres, Hma, Hty.
  exists k2, t2, (fs1 ++ rs). rewrite <- !app_assoc. rewrite <- !app_assoc in Hres, Hty.
  rewrite outer_bytes_app. unfold outer_bytes at 2 4. cbn [fmap list_fmap concat].
  rewrite !app_nil_r, !length_app, Nat2Z.inj_add, Z.add_assoc.
  split_and!; try done; [|by apply Forall_app_2; [|apply batch_progress]
    |rewrite count_frames_app, (acks_batch dbg rs) by done; simpl length; lia].
  replace m with (length cs + S m')%nat by lia. eapply leads_talks; [exact Hr1|exact Hr2].
Qed.

(** *** Algorithm A and the session *)

Definition probing_regs (p : regs) : regs := p <| status_reg := phase_code PHASE_PROBING |>.

(** The build phase of an accepted request leads to the probe loop. *)
Lemma algorithm_a_build r c ins k p mm rxb fs :
  Forall (frame_ok (cp_key_type c)) ins -> Forall (.≠ []) ins ->
  cp_inner_count c = Z.of_nat (length (concat ins)) -> table_accepts (concat ins) ->
  setup k = (cp_algorithm c, cp_key_type c, cp_inner_count c, cp_outer_count c,
             cp_session_id c, false) ->
  k_matched k = 0 -> k_result_buf_cnt k = 0 -> tallied (k_timing k) rxb fs 0 0 0 ->
  results_of fs = [] ->
  exists k' fs',
    leads g (algorithm_a dbg r k) (inner_bytes (cp_key_type c) ins) (p, mm)
      (probe_loop dbg r (Z.to_nat probe_frame_limit) k' (Z.of_nat (length (concat ins))) 0 0)
      fs' (probing_regs p, mm) /\
    Forall (progress_frame dbg) fs' /\
    probing (setup k) (concat ins) [] (rxb + Z.of_nat (length (inner_bytes (cp_key_type c) ins)))
      (fs ++ fs') k' /\
    count_frames is_ack fs' <= Z.of_nat (length ins).
Proof.
  intros Hins Hne Hic Hta Hsu Hma Hbu Hty Hfs.
  set (h0 := reset (k_ht k)). pose proof (ht_rep_reset (k_ht k)) as H0. fold h0 in H0.
  destruct (table_accepts_reset _ (k_ht k) Hta) as [h1 Hall]. fold h0 in Hall.
  pose proof (build_all_length _ _ _ H0 Hall) as Hmax. pose proof (length_concat_ge _ Hne) as Hlc.
  assert (loaded h0 (setup k) [] rxb fs (k <| k_ht ::= reset |>)) as Hl by (by constructor).
  rewrite Hsu in Hl.
  set (n := Z.to_nat build_frame_limit).
  assert (length ins < n)%nat as Hn by (unfold n, build_frame_limit; consts; lia).
  destruct (build_loop_frames h0 _ _ _ _ _ ins [] rxb fs _ 0 (p, mm) h1 (n - length ins) H0 Hl)
    as (k1 & p1 & Hr1 & Hp1 & Hl1); [by consts|done|done|by rewrite Hic|done|].
  simpl app in *. replace (length ins + (n - length ins))%nat with n in Hr1 by lia.
  set (fs1 := build_replies _ _ _ _ _) in *.
  destruct (build_replies_progress (cp_inner_count c) (cp_session_id c) 0 0 ins) as (Hpr & Hres & Hacks).
  change (build_replies _ _ 0 0 ins) with fs1 in *.
  exists k1, (fs1 ++ debug_frames dbg DBG_INFO DBG_BUILD_DONE (Z.of_nat (length (concat ins)))).
  assert (results_of (fs ++ fs1) = []) as Hres1 by (rewrite results_of_app, Hfs; exact Hres).
  pose proof (loaded_probing _ _ _ _ _ _ H0 Hl1 Hres1) as Hpb.
  split_and!; [|apply Forall_app_2; [done|apply progress_debug]|
    |by rewrite count_frames_app, acks_debug, Z.add_0_r].
  - unfold algorithm_a. fold n. clearbody n h0.
    rewrite <- (app_nil_r (inner_bytes _ _)). eapply leads_trans.
    + eapply leads_bind_l. exact Hr1.
    + destruct (n - length ins)%nat as [|m] eqn:Em; [lia|]. cbn [build_loop].
      pose proof (ld_setup _ _ _ _ _ _ Hl1) as Hsu1. unfold setup in Hsu1.
      injection Hsu1 as _ _ Hit _ _ Hsd. rewrite Hsd, Hit.
      replace (cp_inner_count c <=? Z.of_nat (length (concat ins))) with true by lia.
      eapply (leads_trans _ _ _ [] [] _ _ _ []); [apply leads_bind, talks_ret|].
      cbn beta iota. rewrite Hsd. eapply leads_eq; [|done|apply app_nil_r].
      eapply (leads_trans _ _ _ [] []); [apply leads_bind, talks_emits, emits_debug|].
      exact (leads_bind _ _ _ _ _ _ _ (talks_set_status _ _ _)).
  - rewrite app_assoc. apply probing_debug. rewrite Hsu. exact Hpb.
Qed.

(** An empty outer relation: the session ends without a probe frame. *)
Lemma final_status_ok r kt it sid inner k p mm rxb fs :
  probing (alg_code ALGORITHM_A, kt, it, 0, sid, false) inner [] rxb fs k ->
  exists k' t,
    let fs' := debug_frames dbg DBG_INFO DBG_PROBE_DONE 0 ++
               [FTiming (apply_rtl_stream_timing r t); FStatus (status_of PHASE_DONE 0 0 0 sid)] in
    talks g (final_status dbg r k) [] (p, mm) k' fs' (done_regs p 0, mm) /\
    results_of (fs ++ fs') = [] /\ tm_matched_rows t = 0 /\
    tallied t rxb (fs ++ fs') (Z.of_nat (length inner)) 0 0.
Proof.
  intros [Hsu Hta Hcnt Hres Hma Hty]. unfold setup in Hsu. injection Hsu as Halg _ _ _ Hsid _.
  simpl in Hma, Hty. apply app_eq_nil in Hres as [Hres _].
  eexists _, (finish_timing ((k_timing k) <| tm_matched_rows := 0 |>)). split_and!; try done.
  - unfold final_status. rewrite Hma, Halg, Hsid.
    change (alg_code ALGORITHM_A =? alg_code ALGORITHM_A) with true.
    eapply talks_emit; [apply talks_emits, emits_debug|].
    eapply talks_quiet; [apply talks_set_status|].
    eapply talks_quiet; [apply talks_set_result_count|].
    eapply talks_quiet; [apply talks_set_error|]. cbn beta iota zeta.
    eapply (talks_emit _ _ _ _ _ _ _ [_] [_]); [apply talks_emits, emits_timing|].
    eapply talks_eq; [eapply talks_emit; [apply talks_emits, emits_status|apply talks_ret]|done|done].
  - rewrite !results_of_app, Hres. by destruct dbg.
  - rewrite app_assoc. apply tallied_finish; try done. apply tallied_silent.
    destruct Hty; by constructor.
Qed.

Lemma tallied_init k : tallied (k_timing (session_init k)) 0 [] 0 0 0.
Proof. by constructor. Qed.

Lemma progress_configure c : Forall (progress_frame dbg) (configure_replies c).
Proof. apply Forall_app_2; [apply progress_debug|repeat constructor]. Qed.

Lemma results_configure c : results_of (configure_replies c) = [].
Proof. unfold configure_replies. by destruct dbg. Qed.

(** The session up to algorithm A, for any request it accepts. *)
Lemma session_start r c k p mm :
  configure_wf c -> cp_algorithm c = alg_code ALGORITHM_A -> cp_inner_count c <= HT_MAX_ROWS ->
  exists k' fs,
    leads g (session dbg r k) (pg_bytes (cp_key_type c) (PConfigure c)) (p, mm)
      (k1 ← algorithm_a dbg r k'; if k_session_done k1 then mret k1 else final_status dbg r k1)
      fs (building_regs (p <| status_reg := phase_code PHASE_IDLE |>
                           <| error_code_reg := err_code ERR_NONE |>
                           <| result_count_reg := 0 |>) c, mm) /\
    Forall (progress_frame dbg) fs /\ results_of fs = [] /\
    setup k' = (cp_algorithm c, cp_key_type c, cp_inner_count c, cp_outer_count c,
                cp_session_id c, false) /\
    k_matched k' = 0 /\ k_result_buf_cnt k' = 0 /\ tallied (k_timing k') 16 fs 0 0 0 /\
    count_frames is_ack fs = 1.
Proof.
  intros Hwf Halg Hmax. set (dbg0 := debug_frames dbg DBG_INFO DBG_IDLE_ENTER 0).
  assert (tallied (k_timing (session_init k)) 0 dbg0 0 0 0) as Ht0
    by apply (tallied_silent _ _ []), tallied_init.
  destruct (configure_ok (session_init k) c (p <| status_reg := phase_code PHASE_IDLE |>
    <| error_code_reg := err_code ERR_NONE |> <| result_count_reg := 0 |>) mm 0 dbg0)
    as (k1 & Hr1 & Hsu & Hma & Hbu & _ & Hty); try done.
  exists k1, (dbg0 ++ configure_replies c).
  split_and!; try done.
  - unfold session.
    eapply (leads_trans _ _ _ [] _ _ _ _ []); [apply leads_bind, talks_set_status|].
    eapply (leads_trans _ _ _ [] _ _ _ _ []); [apply leads_bind, talks_set_error|].
    eapply (leads_trans _ _ _ [] _ _ _ _ []); [apply leads_bind, talks_set_result_count|].
    eapply (leads_trans _ _ _ []); [apply leads_bind, talks_emits, emits_debug|].
    eapply leads_eq; [eapply (leads_trans _ _ _ _ []); [exact (leads_bind _ _ _ _ _ _ _ Hr1)|]
      |apply app_nil_r|apply app_nil_r].
    unfold setup in Hsu. injection Hsu as Halg1 _ _ _ _ Hsd1.
    cbn beta. rewrite Hsd1, Halg1, Halg.
    change (alg_code ALGORITHM_A =? alg_code ALGORITHM_B) with false.
    cbn [negb andb].
    eapply (leads_trans _ _ _ [] [] _ _ _ []); [apply leads_bind, talks_ret|].
    cbn beta. rewrite Hsd1, Halg1, Halg.
    change (alg_code ALGORITHM_A =? alg_code ALGORITHM_A) with true. cbn [negb andb].
    apply leads_refl.
  - apply Forall_app_2; [apply progress_debug|apply progress_configure].
  - rewrite results_of_app, results_configure, app_nil_r. unfold dbg0. by destruct dbg.
  - unfold dbg0, configure_replies. by rewrite !count_frames_app, !acks_debug.
Qed.

Lemma probe_frame_limit_S : exists m, Z.to_nat probe_frame_limit = S m.
Proof.
  exists (Z.to_nat 999999). rewrite <- Z2Nat.inj_succ by lia. f_equal.
Qed.

(** The whole session for a correct request. *)
Lemma session_joins r c ins outs k p mm :
  request_ok c ins outs ->
  let outer := concat outs in
  let matched := Z.of_nat (length (hash_join (concat ins) outer)) in
  exists k' t ps,
    let fs := ps ++ [FTiming (apply_rtl_stream_timing r t);
                     FStatus (status_of PHASE_DONE (Z.of_nat (length outer)) matched 0
                                (cp_session_id c))] in
    talks g (session dbg r k) (request_bytes c ins outs) (p, mm) k' fs (done_regs p matched, mm) /\
    Forall (progress_frame dbg) ps /\ results_of ps = hash_join (concat ins) outer /\
    tm_matched_rows t = matched /\
    tallied t (Z.of_nat (length (request_bytes c ins outs))) fs
      (Z.of_nat (length (concat ins))) (Z.of_nat (length outer)) matched /\
    count_frames is_ack ps <= 1 + Z.of_nat (length ins) + Z.of_nat (length outs).
Proof.
  intros Hrq outer matched. pose proof Hrq as [Hwf Halg _ _ Hok Hne Hic Hoc Hta Hlim].
  assert (cp_inner_count c <= HT_MAX_ROWS) as Hmax.
  { rewrite Hic. destruct Hta as [h1 Hall]. exact (build_all_length _ _ _ (ht_rep_reset _) Hall). }
  destruct (session_start r c k p mm Hwf Halg Hmax)
    as (k1 & fs1 & Hr1 & Hp1 & Hres1 & Hsu1 & Hma1 & Hbu1 & Hty1 & Ha1).
  set (p1 := building_regs _ c) in *.
  destruct (algorithm_a_build r c ins k1 p1 mm 16 fs1) as (k2 & fs2 & Hr2 & Hp2 & Hpb2 & Ha2);
    try done; [apply Hrq|apply Hrq|].
  pose proof (leads_trans _ _ _ _ _ _ _ _ _ _ Hr1 (leads_bind_l _ _ _ _ _ _ _ Hr2)) as Hr12.
  set (rxb := Z.of_nat (length (pg_bytes (cp_key_type c) (PConfigure c) ++
                                inner_bytes (cp_key_type c) ins))).
  assert (16 + Z.of_nat (length (inner_bytes (cp_key_type c) ins)) = rxb) as Hrxb
    by (unfold rxb; rewrite length_app; simpl length; lia).
  rewrite Hrxb, Hsu1, Hoc in Hpb2.
  assert (request_bytes c ins outs = (pg_bytes (cp_key_type c) (PConfigure c) ++
    inner_bytes (cp_key_type c) ins) ++ outer_bytes (cp_key_type c) outs) as Hbytes
    by (unfold request_bytes; by rewrite app_assoc).
  rewrite Hbytes.
  assert (forall ps last, results_of (ps ++ last) = results_of ps ++ results_of last) as Happ
    by apply results_of_app.
  destruct (decide (outs = [])) as [->|Hnil].
  - rewrite Halg in Hpb2.
    destruct (final_status_ok r _ _ _ _ k2 (probing_regs p1) mm _ _ Hpb2)
      as (k3 & t & Hr3 & Hres3 & Hm3 & Hty3).
    exists k3, t, ((fs1 ++ fs2) ++ debug_frames dbg DBG_INFO DBG_PROBE_DONE 0).
    rewrite <- (app_assoc (fs1 ++ fs2)). unfold outer_bytes at 1 2. simpl concat. rewrite app_nil_r.
    split_and!; try done.
    + rewrite <- (app_nil_r (_ ++ inner_bytes _ _)). eapply leads_talks; [exact Hr12|].
      destruct probe_frame_limit_S as [m ->].
      cbn [probe_loop]. pose proof (pb_setup _ _ _ _ _ _ Hpb2) as Hsu2. unfold setup in Hsu2.
      injection Hsu2 as _ _ _ Hot2 _ Hsd2. rewrite Hsd2, Hot2. simpl (_ <=? 0). cbn iota.
      eapply talks_quiet; [apply talks_ret|]. cbn beta. rewrite Hsd2. exact Hr3.
    + repeat apply Forall_app_2; try done; apply progress_debug.
    + rewrite !results_of_app in *. apply app_eq_nil in Hres3 as [-> Hd].
      apply app_eq_nil in Hd as [-> _]. done.
    + rewrite !count_frames_app, acks_debug, Ha1. simpl length. lia.
  - destruct (probe_loop_all r _ _ _ _ _ (Z.of_nat (length (concat ins))) outs _ _ k2
      (probing_regs p1) mm (Z.to_nat probe_frame_limit) Hpb2 Hok Hne Hnil)
      as (k3 & t & ps & Hr3 & Hsd3 & Hp3 & Hres3 & Hm3 & Hty3 & Ha3).
    { rewrite <- Hoc. apply Hwf. }
    { rewrite Z2Nat.id; [done|]. unfold probe_frame_limit. lia. }
    exists k3, t, ((fs1 ++ fs2) ++ ps). rewrite <- (app_assoc (fs1 ++ fs2)).
    split_and!; try done.
    + eapply leads_talks; [exact Hr12|]. eapply talks_eq; [|apply app_nil_r|apply app_nil_r].
      eapply talks_bind; [exact Hr3|]. cbn beta. rewrite Hsd3. apply talks_ret.
    + by repeat apply Forall_app_2.
    + rewrite app_assoc, results_of_app in Hres3. unfold results_of at 2 in Hres3. simpl in Hres3.
      by rewrite app_nil_r in Hres3.
    + unfold rxb in Hty3. by rewrite length_app, Nat2Z.inj_add.
    + rewrite !count_frames_app, Ha1. lia.
Qed.
End session.

(** ** Serving a sequence of requests *)

Definition request : Type := ConfigurePayload * list (list Tuple) * list (list Tuple).
Definition rq_bytes (q : request) : list Z := let '(c, ins, outs) := q in request_bytes c ins outs.
Definition rq_ok (q : request) : Prop := let '(c, ins, outs) := q in request_ok c ins outs.
Definition rq_keys_unique (q : request) : Prop :=
  let '(_, ins, _) := q in keys_unique (concat ins).

(** The frames [fs] answer the request: bounded result batches that carry the
    join, interleaved with at most one acknowledgement per frame received, then
    TIMING and STATUS(DONE). *)
Definition answers (dbg : bool) (join : list Tuple -> list Tuple -> list ResultPair) (r : RtlTiming)
    (q : request) (fs : list fp_frame) : Prop :=
  let '(c, ins, outs) := q in
  let rows := join (concat ins) (concat outs) in
  exists t ps,
    fs = ps ++ [FTiming (apply_rtl_stream_timing r t);
                FStatus (status_of PHASE_DONE (Z.of_nat (length (concat outs)))
                           (Z.of_nat (length rows)) 0 (cp_session_id c))] /\
    Forall (progress_frame dbg) ps /\ results_of ps = rows /\
    tm_matched_rows t = Z.of_nat (length rows) /\
    tallied t (Z.of_nat (length (rq_bytes q))) fs (Z.of_nat (length (concat ins)))
      (Z.of_nat (length (concat outs))) (Z.of_nat (length rows)) /\
    count_frames is_ack ps <= 1 + Z.of_nat (length ins) + Z.of_nat (length outs).

Lemma session_answers g dbg r q k p mm :
  timely g -> rq_ok q ->
  exists k' fs p', talks g (session dbg r k) (rq_bytes q) (p, mm) k' fs (p', mm) /\
    answers dbg hash_join r q fs.
Proof.
  intros Hg Hq. destruct q as [[c ins] outs].
  destruct (session_joins g Hg dbg r c ins outs k p mm Hq) as (k' & t & ps & Hr & H).
  eexists k', _, _. split; [exact Hr|]. exists t, ps. tauto.
Qed.

Lemma session_loop_answers g dbg r qs k p mm :
  timely g -> Forall rq_ok qs ->
  exists k' fss p',
    talks g (session_loop dbg r (length qs) k) (concat (rq_bytes <$> qs)) (p, mm) k'
      (concat fss) (p', mm) /\
    Forall2 (answers dbg hash_join r) qs fss.
Proof.
  intros Hg. revert k p. induction qs as [|q qs IH]; intros k p Hq.
  - exists k, [], p. split; [apply talks_ret|constructor].
  - apply Forall_cons in Hq as [Hq Hqs].
    destruct (session_answers g dbg r q k p mm Hg Hq) as (k1 & fs1 & p1 & Hr1 & Ha1).
    destruct (IH k1 p1 Hqs) as (k2 & fs2 & p2 & Hr2 & Ha2).
    exists k2, (fs1 :: fs2), p2. split; [|by constructor].
    cbn [length session_loop fmap list_fmap concat]. eapply talks_bind; [exact Hr1|exact Hr2].
Qed.

Lemma answers_nested dbg r q fs :
  rq_keys_unique q -> answers dbg hash_join r q fs -> answers dbg nested_join r q fs.
Proof.
  destruct q as [[c ins] outs]. unfold answers, rq_keys_unique. intros Hu.
  by rewrite hash_join_nested.
Qed.

(** C2: fed in time with any sequence of correct algorithm-A requests, the kernel
    returns from every session, has consumed exactly their bytes, and its output
    is, for each request in turn, the equi-join of its inner and outer rows in
    outer order, followed by a timing summary with the right counters and
    STATUS(DONE) with the match count; whatever state earlier sessions left. *)
Theorem kernel_serves_requests (g : nat -> Z) (dbg : bool) (r : RtlTiming) (qs : list request)
    (k : kst) (rest : list Z) (tl : list rx_event) (o : list AxisByte) (p : regs) (mm : gmap Z Z) :
  timely g -> Forall rq_ok qs -> Forall rq_keys_unique qs ->
  let bs := concat (rq_bytes <$> qs) in
  exists k' fss p',
    hash_join_kernel dbg r (length qs) k (mkDev (feed g 0 (bs ++ rest) tl) o p mm) =
    Ret k' (mkDev (feed g (length bs) rest tl) (o ++ axis_frames (concat fss)) p' mm) /\
    Forall2 (answers dbg nested_join r) qs fss.
Proof.
  intros Hg Hq Hu bs.
  destruct (session_loop_answers g dbg r qs k
    (p <| ht_capacity_reg := HT_MAX_ROWS |> <| rx_buf_cap_reg := RX_CREDIT_TUPLES |>) mm Hg Hq)
    as (k' & fss & p' & Hr & Ha).
  exists k', fss, p'. split; [exact (Hr 0%nat rest tl o)|].
  apply Forall2_same_length_lookup_2; [by eapply Forall2_length|].
  intros i q fs Hi Hf. apply answers_nested; [by eapply Forall_lookup_1|].
  by eapply Forall2_lookup_lr.
Qed.

(** A request with two inner and three outer rows in three frames. *)
Definition example_request : request :=
  (mkConfigure 0 1 512 2 3 7,
   [[mkTuple 5 (mkTid 10 1); mkTuple (-6) (mkTid 11 1)]],
   [[mkTuple 5 (mkTid 20 1); mkTuple 9 (mkTid 21 1)]; [mkTuple (-6) (mkTid 22 1)]]).

Lemma example_request_ok : rq_ok example_request /\ rq_keys_unique example_request.
Proof.
  split; [|by apply (bool_decide_unpack _)].
  constructor; try (by apply table_accepts_small); try (repeat constructor; done).
Qed.

Lemma kernel_serves_requests_witness :
  exists k' fss p',
    hash_join_kernel true rtl_none 2 kst_static
      (mkDev (feed (fun _ => 3) 0 (concat (rq_bytes <$> [example_request; example_request]) ++ []) [])
         [] (mkRegs 0 0 0 0 0) ∅) =
    Ret k' (mkDev (feed (fun _ => 3) (length (concat (rq_bytes <$> [example_request; example_request])))
              [] []) ([] ++ axis_frames (concat fss)) p' ∅) /\
    Forall2 (answers true nested_join rtl_none) [example_request; example_request] fss.
Proof.
  apply (kernel_serves_requests (fun _ => 3) true rtl_none [example_request; example_request]
           kst_static [] [] [] (mkRegs 0 0 0 0 0) ∅).
  - intros i. unfold RX_WATCHDOG_CYCLES. lia.
  - by repeat (apply Forall_cons; split; [apply example_request_ok|]).
  - by repeat (apply Forall_cons; split; [apply example_request_ok|]).
Defined.
