(* ===== verification/LinearAborts.v ===== *)
(** How a session of the kernel ends early: rejected configurations of either
    algorithm, and in the phases of algorithm A RESET, frames of the wrong type, inner
    rows that do not fit the table, and silence longer than the watchdog.  In each case
    the session ends, so that the next one can be served.  Algorithm B has no
    watchdog in its phases and answers in another way ([GraceJoin]).

    The ACKs of RESET and of the watchdog carry the session's id here as in the code;
    the comment at [StatusPayload] in [hash_join_types.hpp] announces 0.  The error codes are
    the code's as well: BAD_STATE for every wrong type in the build phase, INVALID_CMD
    for every wrong type in the probe phase, whereas the comments at [FpgaError] tell
    known types from unknown ones. *)
From S2P Require Import Prelude Types Stream LinearHashTable Grace Wire Dialogue Join Kernel LinearJoin.

Definition with_table (f : LinearHashTable -> LinearHashTable) (k : kst) : kst :=
  k <| k_ht ::= f |>.

(** ** Stopping a phase *)

(** What [session] does after algorithm A. *)
Definition session_end (dbg : bool) (r : RtlTiming) (m : M dev kst) : M dev kst :=
  k ← m; if k_session_done k then mret k else final_status dbg r k.

(** What [algorithm_a] does after its build loop. *)
Definition after_build (dbg : bool) (r : RtlTiming) (m : M dev (kst * Z)) : M dev kst :=
  '(k, inner_received) ← m;
  if k_session_done k then mret k
  else
    emit_debug dbg DBG_INFO DBG_BUILD_DONE inner_received ;;
    set_status PHASE_PROBING ;;
    probe_loop dbg r (Z.to_nat probe_frame_limit) k inner_received 0 0.

(** A request for algorithm A whose first inner frames [ins] have been sent. *)
Record partial_build (c : ConfigurePayload) (ins : list (list Tuple)) : Prop := {
  pq_wf : configure_wf c;
  pq_alg : cp_algorithm c = alg_code ALGORITHM_A;
  pq_cap : cp_inner_count c <= HT_MAX_ROWS;
  pq_ins : Forall (frame_ok (cp_key_type c)) ins;
  pq_ins_ne : Forall (.≠ []) ins;
  pq_more : Z.of_nat (length (concat ins)) < cp_inner_count c;
  pq_table : table_accepts (concat ins) }.

(** A request for algorithm A whose inner rows and first outer frames [outs] have been sent. *)
Record partial_probe (c : ConfigurePayload) (ins outs : list (list Tuple)) : Prop := {
  pp_wf : configure_wf c;
  pp_alg : cp_algorithm c = alg_code ALGORITHM_A;
  pp_ins : Forall (frame_ok (cp_key_type c)) ins;
  pp_ins_ne : Forall (.≠ []) ins;
  pp_inner : cp_inner_count c = Z.of_nat (length (concat ins));
  pp_table : table_accepts (concat ins);
  pp_outs : Forall (frame_ok (cp_key_type c)) outs;
  pp_outs_ne : Forall (.≠ []) outs;
  pp_more : Z.of_nat (length (concat outs)) < cp_outer_count c;
  pp_limit : Z.of_nat (length outs) < probe_frame_limit }.

Definition configured_setup (c : ConfigurePayload) : Z * Z * Z * Z * Z * bool :=
  (cp_algorithm c, cp_key_type c, cp_inner_count c, cp_outer_count c, cp_session_id c, false).

(** The registers in the build phase of the request [c]. *)
Definition build_phase_regs (p : regs) (c : ConfigurePayload) : regs :=
  building_regs (p <| status_reg := phase_code PHASE_IDLE |>
                   <| error_code_reg := err_code ERR_NONE |> <| result_count_reg := 0 |>) c.

(** Where a list of rows stops fitting. *)
Lemma build_all_fails ts h :
  build_all ts h = None ->
  exists good bad rest h1 steps, ts = good ++ bad :: rest /\ build_all good h = Some h1 /\
    build (key bad) (tid bad) h1 = (ERR_OVERFLOW, steps, h1).
Proof.
  revert h. induction ts as [|t ts IH]; intros h; cbn [build_all]; [done|].
  destruct (build (key t) (tid t) h) as [[e st] h1] eqn:Hb.
  destruct (err_ok e) eqn:He.
  - intros (good & bad & rest & h2 & st2 & -> & Hg & Hbad)%IH.
    exists (t :: good), bad, rest, h2, st2. split_and!; [done| |done].
    cbn [build_all]. by rewrite Hb, He.
  - intros _. exists [], t, ts, h, st. split_and!; [done|done|].
    destruct (build_cases (key t) (tid t) h) as [(_ & d & _ & _ & _ & Hc)|[(_ & _ & Hc)|[_ Hc]]];
      rewrite Hc in Hb; injection Hb as <- <- <-; done.
Qed.

Section aborts.
Context (g : nat -> Z) (timely_g : timely g) (dbg : bool) (rtl : RtlTiming).

(** A session in the middle of the build phase. *)
Lemma session_building c ins k p mm :
  partial_build c ins ->
  exists h0 k' pend m fs rxb,
    leads g (session dbg rtl k)
      (pg_bytes (cp_key_type c) (PConfigure c) ++ inner_bytes (cp_key_type c) ins) (p, mm)
      (session_end dbg rtl (after_build dbg rtl
         (build_loop dbg (S m) k' (Z.of_nat (length (concat ins))) pend)))
      fs (build_phase_regs p c, mm) /\
    Forall (progress_frame dbg) fs /\ results_of fs = [] /\ 0 <= pend < ACK_BATCH_FRAMES /\
    ht_rep h0 [] /\ loaded h0 (configured_setup c) (concat ins) rxb fs k'.
Proof.
  intros [Hwf Halg Hcap Hins Hne Hmore Hta].
  destruct (session_start g timely_g dbg rtl c k p mm Hwf Halg Hcap)
    as (k1 & fs1 & Hr1 & Hp1 & Hres1 & Hsu1 & Hma1 & Hbu1 & Hty1 & _).
  set (k1' := with_table reset k1).
  set (h0 := reset (k_ht k1)). pose proof (ht_rep_reset (k_ht k1)) as H0. fold h0 in H0.
  destruct (table_accepts_reset _ (k_ht k1) Hta) as [h1 Hall]. fold h0 in Hall.
  pose proof (length_concat_ge _ Hne) as Hlc.
  set (n := Z.to_nat build_frame_limit).
  assert (length ins < n)%nat as Hn by (unfold n, build_frame_limit; consts; lia).
  assert (loaded h0 (setup k1) [] 16 fs1 k1') as Hl by (by constructor).
  rewrite Hsu1 in Hl. destruct (n - length ins)%nat as [|m] eqn:Em; [lia|].
  destruct (build_loop_frames g timely_g dbg h0 _ _ _ _ _ ins [] 16 fs1 _ 0
    (build_phase_regs p c, mm) h1 (S m) H0 Hl)
    as (k2 & pend & Hr2 & Hp2 & Hl2); [by consts|done|done|simpl; lia|done|].
  simpl app in Hr2, Hl2. replace (length ins + S m)%nat with n in Hr2 by lia.
  destruct (build_replies_progress dbg (cp_inner_count c) (cp_session_id c) 0 0 ins) as (Hpr & Hres & _).
  set (fs2 := build_replies _ _ _ _ _ _) in *.
  change (build_replies dbg _ _ 0 0 ins) with fs2 in *.
  eexists h0, k2, pend, m, (fs1 ++ fs2), _. split_and!; try done; try lia.
  - eapply leads_trans; [exact Hr1|].
    unfold session_end, after_build, algorithm_a. fold n. clearbody n h0.
    apply leads_bind_l, leads_bind_l. exact Hr2.
  - by apply Forall_app_2.
  - by rewrite results_of_app, Hres1, Hres.
Qed.

(** A frame that sets [session_done] ends the session. *)
Lemma build_stops m k rcv pend bs w k' rcv' pend' fs w' :
  k_session_done k = false -> rcv < k_inner_total k ->
  talks g (build_frame dbg k rcv pend) bs w (k', rcv', pend') fs w' ->
  k_session_done k' = true ->
  talks g (session_end dbg rtl (after_build dbg rtl (build_loop dbg (S m) k rcv pend))) bs w k' fs w'.
Proof.
  intros Hsd Hlt Hf Hsd'. unfold session_end, after_build. cbn [build_loop]. rewrite Hsd.
  replace (k_inner_total k <=? rcv) with false by lia.
  rewrite <- (app_nil_r bs), <- (app_nil_r fs). eapply talks_bind; [|rewrite Hsd'; apply talks_ret].
  rewrite <- (app_nil_r bs), <- (app_nil_r fs).
  eapply (talks_bind _ _ _ _ _ (k', rcv')); [|rewrite Hsd'; apply talks_ret].
  rewrite <- (app_nil_r bs), <- (app_nil_r fs). eapply talks_bind; [exact Hf|]. cbn beta iota.
  destruct m; cbn [build_loop]; [|rewrite Hsd']; apply talks_ret.
Qed.

(** The header of a frame of type [b] in the build phase, past the watchdog. *)
Lemma build_frame_reset k rcv pend p mm :
  exists k',
    talks g (build_frame dbg k rcv pend) (pg_bytes (k_keytype k) PReset) (p, mm) (k', rcv, pend)
      [FAck (status_of PHASE_IDLE 0 0 0 (k_session_id k))]
      (p <| status_reg := phase_code PHASE_IDLE |>, mm) /\
    k_session_done k' = true /\ k_ht k' = reset (k_ht k).
Proof.
  eexists. split; [|split; [|]].
  - unfold build_frame, pg_bytes, header_bytes.
    eapply (talks_read _ _ [_]); [by apply talks_guarded, msg_code_byte|]. cbn beta iota.
    rewrite <- (app_nil_r (le_bytes 2 0)). apply header_read. codes. cbn iota.
    eapply talks_quiet; [apply talks_set_status|].
    eapply talks_eq; [eapply talks_emit; [apply talks_emits, emits_ack|apply talks_ret]|done|done].
  - done.
  - done.
Qed.

Lemma fail_session_talks e k p mm :
  talks g (fail_session e k) [] (p, mm) (k <| k_session_done := true |>) [FError (err_code e)]
    (p <| error_code_reg := err_code e |>, mm).
Proof.
  eapply talks_eq; [eapply talks_emit; [apply talks_emits, emits_error|]|done|apply app_nil_r].
  eapply talks_quiet; [apply talks_set_error|]. apply talks_ret.
Qed.

Lemma build_frame_bad b count k rcv pend p mm :
  is_byte b -> b <> msg_code MSG_RESET -> b <> msg_code MSG_INNER_DATA ->
  exists k',
    talks g (build_frame dbg k rcv pend) (b :: le_bytes 2 count) (p, mm) (k', rcv, pend)
      [FError (err_code ERR_BAD_STATE)] (p <| error_code_reg := err_code ERR_BAD_STATE |>, mm) /\
    k_session_done k' = true.
Proof.
  intros Hb Hr Hi. eexists. split.
  - unfold build_frame.
    eapply (talks_read _ _ [_]); [by apply talks_guarded|]. cbn beta iota.
    rewrite <- (app_nil_r (le_bytes 2 count)). apply header_read. cbn zeta.
    apply Z.eqb_neq in Hr, Hi. rewrite Hr, Hi. cbn [negb].
    eapply talks_eq; [eapply talks_emit|done|apply app_nil_r]; [|apply talks_ret].
    apply fail_session_talks.
  - done.
Qed.

Lemma inner_batch_done n i bbc rcv k w :
  k_session_done k = true -> talks g (inner_batch n i bbc rcv k) [] w (k, bbc, rcv) [] w.
Proof. intros Hd. destruct n; cbn [inner_batch]; [|rewrite Hd]; apply talks_ret. Qed.

(** Rows are inserted up to the first one that does not fit. *)
Lemma inner_batch_overflow bad rest steps ts : forall i bbc rcv k h1 p mm,
  buffered k i (ts ++ bad :: rest) -> k_session_done k = false ->
  build_all ts (k_ht k) = Some h1 ->
  build (key bad) (tid bad) h1 = (ERR_OVERFLOW, steps, h1) ->
  exists k' bbc' rcv',
    talks g (inner_batch (length (ts ++ bad :: rest)) i bbc rcv k) [] (p, mm) (k', bbc', rcv')
      [FError (err_code ERR_OVERFLOW)] (p <| error_code_reg := err_code ERR_OVERFLOW |>, mm) /\
    k_session_done k' = true.
Proof.
  induction ts as [|t ts IH]; intros i bbc rcv k h1 p mm Hb Hsd Hall Hov;
    cbn [app length inner_batch build_all] in *; rewrite Hsd;
    apply buffered_cons in Hb as [[-> ->] Hb].
  - injection Hall as <-. rewrite Hov. cbn [err_ok].
    eexists _, _, _. split.
    + eapply talks_eq; [|done|apply app_nil_r].
      eapply talks_emit; [apply fail_session_talks|].
      by apply inner_batch_done.
    + done.
  - destruct (build (key t) (tid t) (k_ht k)) as [[e st] h2]. destruct (err_ok e); [|done].
    by eapply IH.
Qed.

Lemma build_frame_overflow ts k rcv pend p mm :
  frame_ok (k_keytype k) ts -> k_session_done k = false -> build_all ts (k_ht k) = None ->
  exists k' rcv',
    talks g (build_frame dbg k rcv pend) (pg_bytes (k_keytype k) (PInner ts)) (p, mm)
      (k', rcv', pend) (key_debug dbg DBG_BUILD_KEY ts ++ [FError (err_code ERR_OVERFLOW)])
      (p <| error_code_reg := err_code ERR_OVERFLOW |>, mm) /\
    k_session_done k' = true.
Proof.
  intros [Hlen Hwf] Hsd (good & bad & rest & h1 & st & Hts & Hg & Hov)%build_all_fails. consts.
  set (bbc := u64 (3 + u64 (Z.of_nat (length ts) * tuple_bytes_of (k_keytype k)))).
  set (k1 := k <| k_timing ::= fun t =>
                   t <| tm_inner_frames ::= add32 1 |> <| tm_bytes_rx ::= add32 (u32 bbc) |>
                     <| tm_build_rx_cycles ::= add64 bbc |> |>).
  destruct (rx_batch_reads ts 0 k1) as (kb & tb & Hr & Hb & _); [done|by consts|exact Hwf|].
  set (k2 := k1 <| k_rx_key_buf := kb |> <| k_rx_tid_buf := tb |>) in *.
  pose proof Hb as Hb'. rewrite Hts in Hb'.
  destruct (inner_batch_overflow bad rest st good 0 bbc rcv k2 h1 p mm Hb' Hsd Hg Hov)
    as (k3 & bbc3 & rcv3 & Hr3 & Hsd3). rewrite <- Hts in Hr3.
  exists k3, rcv3. split; [|done]. unfold build_frame.
  eapply (talks_read _ _ [_]); [by apply talks_guarded, msg_code_byte|]. cbn beta iota.
  apply header_read. rewrite u16_small by (unfold is_u16; lia). fold bbc k1. codes.
  rewrite <- (app_nil_r (tuples_bytes _ _)), Nat2Z.id.
  eapply talks_read; [apply talks_reads, Hr|].
  eapply talks_emit; [by apply talks_emits, emits_key_debug|].
  eapply talks_eq; [eapply talks_emit; [exact Hr3|]|done|apply app_nil_r].
  cbn beta iota. rewrite Hsd3. apply talks_ret.
Qed.

(** *** The probe phase *)

Lemma session_probing c ins outs k p mm :
  partial_probe c ins outs ->
  exists k' pend m fs rxb,
    leads g (session dbg rtl k) (request_bytes c ins outs) (p, mm)
      (session_end dbg rtl (probe_loop dbg rtl (S m) k' (Z.of_nat (length (concat ins)))
         (Z.of_nat (length (concat outs))) pend))
      fs (probing_regs (build_phase_regs p c), mm) /\
    Forall (progress_frame dbg) fs /\
    probing (configured_setup c) (concat ins) (concat outs) rxb fs k' /\
    count_frames is_ack fs <= 1 + Z.of_nat (length ins) + Z.of_nat (length outs).
Proof.
  intros [Hwf Halg Hins Hne Hic Hta Hok Hone Hmore Hlim].
  assert (cp_inner_count c <= HT_MAX_ROWS) as Hmax.
  { rewrite Hic. destruct Hta as [h1 Hall]. exact (build_all_length _ _ _ (ht_rep_reset _) Hall). }
  destruct (session_start g timely_g dbg rtl c k p mm Hwf Halg Hmax)
    as (k1 & fs1 & Hr1 & Hp1 & Hres1 & Hsu1 & Hma1 & Hbu1 & Hty1 & Ha1).
  destruct (algorithm_a_build g timely_g dbg rtl c ins k1 (build_phase_regs p c) mm 16 fs1)
    as (k2 & fs2 & Hr2 & Hp2 & Hpb2 & Ha2); try done.
  rewrite Hsu1 in Hpb2. destruct probe_frame_limit_S as [m0 Hm0].
  destruct (Z.to_nat probe_frame_limit - length outs)%nat as [|m] eqn:Em;
    [unfold probe_frame_limit in *; lia|].
  destruct (probe_loop_frames g timely_g dbg rtl _ _ _ _ _ _ (Z.of_nat (length (concat ins))) outs
    [] _ _ k2 0 (probing_regs (build_phase_regs p c), mm) (S m) Hpb2)
    as (k3 & pend & fs3 & Hr3 & _ & Hp3 & Hpb3 & Ha3); [by consts|done|done|done| |].
  { destruct Hwf as (_ & _ & _ & _ & Ho & _). apply Ho. }
  simpl app in Hr3, Hpb3.
  replace (length outs + S m)%nat with (Z.to_nat probe_frame_limit) in Hr3 by lia.
  eexists k3, pend, m, (fs1 ++ fs2 ++ fs3), _. split_and!.
  - unfold request_bytes. eapply leads_trans; [exact Hr1|].
    unfold session_end. apply leads_bind_l. eapply leads_trans; [exact Hr2|exact Hr3].
  - by repeat apply Forall_app_2.
  - rewrite app_assoc. exact Hpb3.
  - rewrite !count_frames_app. lia.
Qed.

Lemma probe_stops m k ir rcv pend bs w k' rcv' pend' fs w' :
  k_session_done k = false -> rcv < k_outer_total k ->
  talks g (probe_frame dbg rtl k ir rcv pend) bs w (k', rcv', pend') fs w' ->
  k_session_done k' = true ->
  talks g (session_end dbg rtl (probe_loop dbg rtl (S m) k ir rcv pend)) bs w k' fs w'.
Proof.
  intros Hsd Hlt Hf Hsd'. unfold session_end. cbn [probe_loop]. rewrite Hsd.
  replace (k_outer_total k <=? rcv) with false by lia.
  rewrite <- (app_nil_r bs), <- (app_nil_r fs). eapply talks_bind; [|rewrite Hsd'; apply talks_ret].
  rewrite <- (app_nil_r bs), <- (app_nil_r fs). eapply talks_bind; [exact Hf|]. cbn beta iota.
  destruct m; cbn [probe_loop]; [|rewrite Hsd']; apply talks_ret.
Qed.

(** RESET in the probe phase sends the buffered results first. *)
Lemma probe_frame_reset su inner os k ir pend p mm rxb fs :
  probing su inner os rxb fs k ->
  let rows := Z.of_nat (length os) in
  let matched := Z.of_nat (length (hash_join inner os)) in
  exists k' rs,
    let fs' := rs ++ [FAck (status_of PHASE_IDLE rows matched 0 (k_session_id k))] in
    talks g (probe_frame dbg rtl k ir rows pend) (pg_bytes (k_keytype k) PReset) (p, mm)
      (k', rows, pend) fs' (p <| status_reg := phase_code PHASE_IDLE |>, mm) /\
    k_session_done k' = true /\ Forall (batch_frame dbg) rs /\
    results_of (fs ++ fs') = hash_join inner os.
Proof.
  intros [_ Hta Hcnt Hres Hma Hty] rows matched.
  set (pbc := u64 (3 + u64 (u16 0 * tuple_bytes_of (k_keytype k)))).
  set (k1 := k <| k_timing ::= fun t =>
                   t <| tm_outer_frames ::= add32 1 |> <| tm_bytes_rx ::= add32 (u32 pbc) |>
                     <| tm_probe_rx_cycles ::= add64 pbc |> |>).
  assert (tallied (k_timing k1) (rxb + pbc) fs (Z.of_nat (length inner)) rows matched) as Ht1
    by (by apply tallied_outer_frame).
  destruct (flush_spec g dbg k1 pbc (p, mm) _ _ _ _ _
              (conj (proj1 Hcnt) (Z.lt_le_incl _ _ (proj2 Hcnt))) Ht1)
    as (t2 & pbc2 & rs & Hr & Hrs & Hf & Ht2).
  eexists _, rs. split_and!.
  - unfold probe_frame, pg_bytes, header_bytes.
    eapply (talks_read _ _ [_]); [by apply talks_guarded, msg_code_byte|]. cbn beta iota.
    rewrite <- (app_nil_r (le_bytes 2 0)). apply header_read. codes. fold pbc k1.
    eapply talks_emit; [exact Hr|]. cbn beta iota.
    eapply talks_quiet; [apply talks_set_status|].
    eapply talks_eq; [eapply talks_emit; [apply talks_emits, emits_ack|apply talks_ret]|done|].
    unfold matched. rewrite <- Hma. done.
  - done.
  - done.
  - rewrite !results_of_app, Hrs. change (results_of [FAck _]) with (@nil ResultPair).
    rewrite app_nil_r. exact Hres.
Qed.

Lemma probe_frame_bad b count k ir rcv pend p mm :
  is_byte b -> b <> msg_code MSG_RESET -> b <> msg_code MSG_OUTER_DATA ->
  exists k',
    talks g (probe_frame dbg rtl k ir rcv pend) (b :: le_bytes 2 count) (p, mm) (k', rcv, pend)
      [FError (err_code ERR_INVALID_CMD)] (p <| error_code_reg := err_code ERR_INVALID_CMD |>, mm) /\
    k_session_done k' = true.
Proof.
  intros Hb Hr Hi. eexists. split.
  - unfold probe_frame.
    eapply (talks_read _ _ [_]); [by apply talks_guarded|]. cbn beta iota.
    rewrite <- (app_nil_r (le_bytes 2 count)). apply header_read. cbn zeta.
    apply Z.eqb_neq in Hr, Hi. rewrite Hr, Hi. cbn [negb].
    eapply talks_eq; [eapply talks_emit|done|apply app_nil_r]; [|apply talks_ret].
    apply fail_session_talks.
  - done.
Qed.

(** *** Rejected configurations *)

Definition idle_regs (p : regs) : regs :=
  p <| status_reg := phase_code PHASE_IDLE |> <| error_code_reg := err_code ERR_NONE |>
    <| result_count_reg := 0 |>.

(** A session whose CONFIGURE step leaves [session_done] set ends there. *)
Lemma session_stops k bs p mm k' fs w' :
  talks g (configure dbg (session_init k)) bs (idle_regs p, mm) k' fs w' ->
  k_session_done k' = true ->
  talks g (session dbg rtl k) bs (p, mm) k'
    (debug_frames dbg DBG_INFO DBG_IDLE_ENTER 0 ++ fs) w'.
Proof.
  intros Hc Hsd. unfold session.
  eapply talks_quiet; [apply talks_set_status|].
  eapply talks_quiet; [apply talks_set_error|].
  eapply talks_quiet; [apply talks_set_result_count|].
  eapply talks_emit; [apply talks_emits, emits_debug|].
  eapply talks_eq; [eapply talks_bind; [exact Hc|]|apply app_nil_r|apply app_nil_r].
  cbn beta. rewrite Hsd. cbn [negb andb].
  eapply talks_quiet; [apply talks_ret|]. cbn beta. rewrite Hsd. cbn [negb andb].
  eapply talks_quiet; [apply talks_ret|]. cbn beta. rewrite Hsd. apply talks_ret.
Qed.

(** *** The watchdog *)

(** What the kernel sends when it gives up on a silent host. *)
Definition watchdog_frames (sid : Z) : list fp_frame :=
  debug_frames dbg DBG_WARN DBG_RESET RX_WATCHDOG_CYCLES ++
  [FAck (status_of PHASE_IDLE 0 0 RX_CREDIT_TUPLES sid)].

(** From the device [d] with silence ahead, [m] ends with the watchdog frames. *)
Definition gives_up (m : M dev kst) (sid : Z) : Prop :=
  forall n tl o p mm, RX_WATCHDOG_CYCLES <= n ->
    exists k', m (mkDev (RxSilence n :: tl) o p mm) =
      Ret k' (mkDev (RxSilence (n - RX_WATCHDOG_CYCLES) :: tl)
                (o ++ axis_frames (watchdog_frames sid)) p mm).

Lemma build_gives_up m k rcv pend :
  k_session_done k = false -> rcv < k_inner_total k ->
  gives_up (session_end dbg rtl (after_build dbg rtl (build_loop dbg (S m) k rcv pend)))
    (k_session_id k).
Proof.
  intros Hsd Hlt n tl o p mm Hn. eexists. unfold session_end, after_build. cbn [build_loop].
  rewrite Hsd. replace (k_inner_total k <=? rcv) with false by lia.
  unfold build_frame, mbind, M_bind. rewrite guarded_timeout by done. cbn.
  destruct m; reflexivity.
Qed.

Lemma probe_gives_up m k ir rcv pend :
  k_session_done k = false -> rcv < k_outer_total k ->
  gives_up (session_end dbg rtl (probe_loop dbg rtl (S m) k ir rcv pend)) (k_session_id k).
Proof.
  intros Hsd Hlt n tl o p mm Hn. eexists. unfold session_end. cbn [probe_loop].
  rewrite Hsd. replace (k_outer_total k <=? rcv) with false by lia.
  unfold probe_frame, mbind, M_bind. rewrite guarded_timeout by done. cbn.
  destruct m; reflexivity.
Qed.

(** A command that leads to one that gives up. *)
Lemma leads_gives_up (m m' : M dev kst) bs p mm fs p' sid n tl o i :
  leads g m bs (p, mm) m' fs (p', mm) -> gives_up m' sid -> RX_WATCHDOG_CYCLES <= n ->
  exists k', m (mkDev (feed g i bs (RxSilence n :: tl)) o p mm) =
    Ret k' (mkDev (RxSilence (n - RX_WATCHDOG_CYCLES) :: tl)
              (o ++ axis_frames (fs ++ watchdog_frames sid)) p' mm).
Proof.
  intros Hl Hg Hn. specialize (Hl i [] (RxSilence n :: tl) o). rewrite app_nil_r in Hl.
  simpl in Hl. rewrite Hl. rewrite axis_frames_app, app_assoc. by apply Hg.
Qed.
End aborts.

(** An empty table accepts what a reset one does. *)
Lemma rejects_empty ts h0 : ht_rep h0 [] -> ~ table_accepts ts -> build_all ts h0 = None.
Proof.
  intros (Hrc & _ & pl & Hlen & _ & Hocc & _) Hn.
  destruct (build_all ts h0) as [h|] eqn:Hb; [|done]. exfalso. apply Hn.
  apply (build_all_same ts h0); [|by eexists].
  pose proof (proj1 (ht_rep_reset ht_static)) as Hrc'. pose proof (occupied_reset ht_static) as Hr.
  unfold table_accepts in *. revert Hrc' Hr. generalize (reset ht_static). clear Hn Hb.
  intros h1 Hrc' Hr. split; [by rewrite Hrc'|]. intros s Hs. destruct pl; [|discriminate Hlen].
  assert (aget 0 (ht_valid h0) s = 0) as ->.
  { destruct (decide (aget 0 (ht_valid h0) s = 0)) as [|Ho]; [done|]. by apply Hocc, elem_of_nil in Ho. }
  specialize (Hr s Hs). unfold occupied in Hr.
  destruct (decide (aget 0 (ht_valid h1) s = 0)); [done|by destruct Hr].
Qed.

(** Why a CONFIGURE is refused, and with which error. *)
Definition refused (c : ConfigurePayload) (e : FpgaError) : Prop :=
  (cp_algorithm c = alg_code ALGORITHM_A /\ HT_MAX_ROWS < cp_inner_count c /\ e = ERR_OVERFLOW) \/
  (cp_algorithm c = alg_code ALGORITHM_B /\ GRACE_MAX_INNER_ROWS < cp_inner_count c /\
     e = ERR_OVERFLOW) \/
  (cp_algorithm c <> alg_code ALGORITHM_A /\ cp_algorithm c <> alg_code ALGORITHM_B /\
     e = ERR_INVALID_CMD).

Lemma configure_refused g dbg rtl c e k p mm :
  timely g -> configure_wf c -> refused c e ->
  exists k',
    talks g (session dbg rtl k) (pg_bytes (cp_key_type c) (PConfigure c)) (p, mm) k'
      ((debug_frames dbg DBG_INFO DBG_IDLE_ENTER 0 ++
        debug_frames dbg DBG_INFO DBG_CONFIGURE (cp_inner_count c)) ++ [FError (err_code e)])
      ((idle_regs p) <| result_count_reg := cp_outer_count c |> <| error_code_reg := err_code e |>, mm).
Proof.
  intros Hg Hwf Hcase.
  assert (check_config (configured (session_init k) c) =
          fail_session e (configured (session_init k) c)) as Hck.
  { unfold check_config. change (k_algorithm (configured _ c)) with (cp_algorithm c).
    change (k_inner_total (configured _ c)) with (cp_inner_count c).
    destruct Hcase as [(Ha & Hm & ->)|[(Ha & Hm & ->)|(Ha & Hb & ->)]].
    - rewrite Ha. change (alg_code ALGORITHM_A =? alg_code ALGORITHM_A) with true. cbn iota.
      by replace (HT_MAX_ROWS <? cp_inner_count c) with true by lia.
    - rewrite Ha. change (alg_code ALGORITHM_B =? alg_code ALGORITHM_A) with false.
      change (alg_code ALGORITHM_B =? alg_code ALGORITHM_B) with true. cbn iota.
      by replace (GRACE_MAX_INNER_ROWS <? cp_inner_count c) with true by lia.
    - apply Z.eqb_neq in Ha, Hb. by rewrite Ha, Hb. }
  eexists. rewrite <- app_assoc. eapply session_stops.
  - rewrite <- (app_nil_r (pg_bytes _ _)). eapply leads_talks; [by apply configure_leads|].
    rewrite Hck.
    eapply talks_eq; [eapply talks_emit; [apply fail_session_talks|]|done|apply app_nil_r].
    apply talks_ret.
  - reflexivity.
Qed.

(** RESET instead of CONFIGURE. *)
Lemma configure_reset g dbg rtl k p mm :
  timely g ->
  exists k',
    talks g (session dbg rtl k) (pg_bytes 0 PReset) (p, mm) k'
      (debug_frames dbg DBG_INFO DBG_IDLE_ENTER 0 ++ debug_frames dbg DBG_INFO DBG_RESET 0 ++
       [FAck (status_of PHASE_IDLE 0 0 RX_CREDIT_TUPLES 0)]) (idle_regs p, mm).
Proof.
  intros Hg. eexists. eapply session_stops.
  - unfold configure. apply (talks_read _ _ [_] _ _ _ _ _ _ _ (talks_guarded _ _ _ _ Hg (msg_code_byte _))).
    cbn beta iota. rewrite <- (app_nil_r (le_bytes 2 0)). apply header_read. codes.
    eapply talks_emit; [apply talks_emits, emits_debug|].
    eapply talks_eq; [eapply talks_emit; [apply talks_emits, emits_ack|apply talks_ret]|done|done].
  - reflexivity.
Qed.

(** ** Properties *)

(** C31: a CONFIGURE whose inner row count exceeds the capacity of its algorithm,
    or whose algorithm is unknown, is answered with one ERROR frame and the
    error register, after exactly its 16 bytes; the session is over. *)
Theorem configure_rejected (g : nat -> Z) (dbg : bool) (rtl : RtlTiming) (c : ConfigurePayload)
    (e : FpgaError) (k : kst) (p : regs) (mm : gmap Z Z) :
  timely g -> configure_wf c -> refused c e ->
  exists k' fs,
    talks g (session dbg rtl k) (pg_bytes (cp_key_type c) (PConfigure c)) (p, mm) k'
      (fs ++ [FError (err_code e)])
      ((idle_regs p) <| result_count_reg := cp_outer_count c |> <| error_code_reg := err_code e |>, mm) /\
    Forall (progress_frame dbg) fs /\ results_of fs = [].
Proof.
  intros Hg Hwf Hr. destruct (configure_refused g dbg rtl c e k p mm Hg Hwf Hr) as [k' H].
  eexists k', _. split_and!; [exact H| |by destruct dbg].
  apply Forall_app_2; apply progress_debug.
Qed.

Lemma configure_rejected_witness :
  exists k' fs,
    talks (fun _ => 0) (session false rtl_none kst_static)
      (pg_bytes 1 (PConfigure (mkConfigure 0 1 512 12289 5 7))) (mkRegs 0 0 0 0 0, ∅) k'
      (fs ++ [FError 1])
      ((idle_regs (mkRegs 0 0 0 0 0)) <| result_count_reg := 5 |> <| error_code_reg := 1 |>, ∅) /\
    Forall (progress_frame false) fs /\ results_of fs = [].
Proof.
  apply (configure_rejected (fun _ => 0) false rtl_none (mkConfigure 0 1 512 12289 5 7)
           ERR_OVERFLOW kst_static (mkRegs 0 0 0 0 0) ∅).
  - intros i. unfold RX_WATCHDOG_CYCLES. lia.
  - repeat split; done.
  - left. repeat split; done.
Defined.

(** C29: in the build phase of algorithm A, after any inner frames that fit, RESET ends
    the session with ACK(IDLE), which carries the session's id, and the status register
    back to IDLE; any other frame that is not INNER_DATA, of a known type or not,
    ends it with ERROR(BAD_STATE) after its 3-byte header; no result is ever sent. *)
Theorem build_phase_aborts (g : nat -> Z) (dbg : bool) (rtl : RtlTiming) (c : ConfigurePayload)
    (ins : list (list Tuple)) (k : kst) (p : regs) (mm : gmap Z Z) :
  timely g -> partial_build c ins ->
  let sent := pg_bytes (cp_key_type c) (PConfigure c) ++ inner_bytes (cp_key_type c) ins in
  exists fs,
    Forall (progress_frame dbg) fs /\ results_of fs = [] /\
    (exists k', talks g (session dbg rtl k) (sent ++ pg_bytes (cp_key_type c) PReset) (p, mm) k'
       (fs ++ [FAck (status_of PHASE_IDLE 0 0 0 (cp_session_id c))])
       ((build_phase_regs p c) <| status_reg := phase_code PHASE_IDLE |>, mm)) /\
    forall b count, is_byte b -> b <> msg_code MSG_RESET -> b <> msg_code MSG_INNER_DATA ->
      exists k', talks g (session dbg rtl k) (sent ++ b :: le_bytes 2 count) (p, mm) k'
        (fs ++ [FError (err_code ERR_BAD_STATE)])
        ((build_phase_regs p c) <| error_code_reg := err_code ERR_BAD_STATE |>, mm).
Proof.
  intros Hg Hpb sent. pose proof (pq_more _ _ Hpb) as Hmore.
  destruct (session_building g Hg dbg rtl c ins k p mm Hpb)
    as (h0 & k1 & pend & m & fs & rxb & Hl & Hp & Hres & _ & _ & Hld).
  pose proof (ld_setup _ _ _ _ _ _ Hld) as Hsu. unfold setup, configured_setup in Hsu.
  injection Hsu as _ Hkt Hit _ Hsid Hsd. exists fs. split_and!; [done|done| |].
  - destruct (build_frame_reset g Hg dbg k1 (Z.of_nat (length (concat ins))) pend
      (build_phase_regs p c) mm) as (k2 & Hr & Hsd2 & _).
    rewrite Hkt, Hsid in Hr. exists k2. eapply leads_talks; [exact Hl|].
    eapply build_stops; try done. by rewrite Hit.
  - intros b count Hb Hnr Hni.
    destruct (build_frame_bad g Hg dbg b count k1 (Z.of_nat (length (concat ins))) pend
      (build_phase_regs p c) mm Hb Hnr Hni) as (k2 & Hr & Hsd2).
    exists k2. eapply leads_talks; [exact Hl|]. eapply build_stops; try done. by rewrite Hit.
Qed.

(** A build phase with one of two announced rows received. *)
Definition example_config : ConfigurePayload := mkConfigure 0 1 512 2 3 7.

Lemma example_partial_build : partial_build example_config [[mkTuple 5 (mkTid 10 1)]].
Proof. constructor; try (by apply table_accepts_small); repeat constructor; done. Qed.

Lemma example_timely : timely (fun _ => 3).
Proof. intros i. unfold RX_WATCHDOG_CYCLES. lia. Qed.

Lemma build_phase_aborts_witness :
  exists fs k', talks (fun _ => 3) (session true rtl_none kst_static)
    ((pg_bytes 1 (PConfigure example_config) ++ inner_bytes 1 [[mkTuple 5 (mkTid 10 1)]]) ++
     pg_bytes 1 PReset) (mkRegs 0 0 0 0 0, ∅) k'
    (fs ++ [FAck (status_of PHASE_IDLE 0 0 0 7)])
    ((build_phase_regs (mkRegs 0 0 0 0 0) example_config) <| status_reg := 0 |>, ∅).
Proof.
  destruct (build_phase_aborts (fun _ => 3) true rtl_none example_config
    [[mkTuple 5 (mkTid 10 1)]] kst_static (mkRegs 0 0 0 0 0) ∅ example_timely
    example_partial_build) as (fs & _ & _ & (k' & Hk) & _).
  exists fs, k'. exact Hk.
Defined.

(** C30: in algorithm A an inner frame with a row that the table cannot take, because
    its probe window is full, is answered with ERROR(OVERFLOW) once its whole payload has
    been read, and the session is over. *)
Theorem build_phase_overflow (g : nat -> Z) (dbg : bool) (rtl : RtlTiming) (c : ConfigurePayload)
    (ins : list (list Tuple)) (ts : list Tuple) (k : kst) (p : regs) (mm : gmap Z Z) :
  timely g -> partial_build c ins -> frame_ok (cp_key_type c) ts ->
  ~ table_accepts (concat ins ++ ts) ->
  exists k' fs,
    talks g (session dbg rtl k)
      ((pg_bytes (cp_key_type c) (PConfigure c) ++ inner_bytes (cp_key_type c) ins) ++
       pg_bytes (cp_key_type c) (PInner ts)) (p, mm) k'
      (fs ++ [FError (err_code ERR_OVERFLOW)])
      ((build_phase_regs p c) <| error_code_reg := err_code ERR_OVERFLOW |>, mm) /\
    Forall (progress_frame dbg) fs /\ results_of fs = [].
Proof.
  intros Hg Hpb Hok Hno. pose proof (pq_more _ _ Hpb) as Hmore.
  destruct (session_building g Hg dbg rtl c ins k p mm Hpb)
    as (h0 & k1 & pend & m & fs & rxb & Hl & Hp & Hres & _ & H0 & Hld).
  pose proof (ld_setup _ _ _ _ _ _ Hld) as Hsu. unfold setup, configured_setup in Hsu.
  injection Hsu as _ Hkt Hit _ Hsid Hsd.
  pose proof (rejects_empty _ _ H0 Hno) as Hnone. rewrite build_all_app in Hnone.
  rewrite (ld_table _ _ _ _ _ _ Hld) in Hnone. cbn in Hnone.
  destruct (build_frame_overflow g Hg dbg ts k1 (Z.of_nat (length (concat ins))) pend
    (build_phase_regs p c) mm) as (k2 & rcv2 & Hr & Hsd2); [by rewrite Hkt|done|done|].
  rewrite Hkt in Hr. exists k2, (fs ++ key_debug dbg DBG_BUILD_KEY ts). split_and!.
  - rewrite <- (app_assoc fs). eapply leads_talks; [exact Hl|].
    eapply build_stops; try done. by rewrite Hit.
  - apply Forall_app_2; [done|apply batch_progress, batch_key_debug].
  - rewrite results_of_app, Hres. destruct ts; [done|]. by destruct dbg.
Qed.

Lemma build_phase_overflow_witness :
  exists k' fs,
    talks (fun _ => 3) (session false rtl_none kst_static)
      ((pg_bytes 1 (PConfigure (mkConfigure 0 1 512 20 0 7)) ++ inner_bytes 1 []) ++
       pg_bytes 1 (PInner (replicate 17 (mkTuple 5 (mkTid 10 1))))) (mkRegs 0 0 0 0 0, ∅) k'
      (fs ++ [FError 1])
      ((build_phase_regs (mkRegs 0 0 0 0 0) (mkConfigure 0 1 512 20 0 7))
         <| error_code_reg := 1 |>, ∅) /\
    Forall (progress_frame false) fs /\ results_of fs = [].
Proof.
  apply (build_phase_overflow (fun _ => 3) false rtl_none (mkConfigure 0 1 512 20 0 7) []
           (replicate 17 (mkTuple 5 (mkTid 10 1))) kst_static (mkRegs 0 0 0 0 0) ∅).
  - exact example_timely.
  - constructor; try (by apply table_accepts_small); repeat constructor; done.
  - split; [done|]. apply Forall_replicate. repeat split; done.
  - intros [h Hb]. assert (17 <= 16) as Hle; [|by apply Hle].
    apply (same_key_bound 5 _ _ (build_all_rep _ _ _ _ (ht_rep_reset _) Hb)).
    by apply Forall_replicate.
Defined.

(** C28: in the probe phase of algorithm A, after any outer frames short of the
    announced row count, RESET ends the session with every result of the rows probed so
    far sent and ACK(IDLE) carrying their number, the match count and the session's id;
    any other frame that is not OUTER_DATA, of a known type or not, ends it with
    ERROR(INVALID_CMD) after its 3-byte header, and what was sent before is a
    prefix of the join. *)
Theorem probe_phase_aborts (g : nat -> Z) (dbg : bool) (rtl : RtlTiming) (c : ConfigurePayload)
    (ins outs : list (list Tuple)) (k : kst) (p : regs) (mm : gmap Z Z) :
  timely g -> partial_probe c ins outs ->
  let sent := request_bytes c ins outs in
  let rows := hash_join (concat ins) (concat outs) in
  let p' := probing_regs (build_phase_regs p c) in
  (exists k' fs,
     talks g (session dbg rtl k) (sent ++ pg_bytes (cp_key_type c) PReset) (p, mm) k'
       (fs ++ [FAck (status_of PHASE_IDLE (Z.of_nat (length (concat outs)))
                      (Z.of_nat (length rows)) 0 (cp_session_id c))])
       (p' <| status_reg := phase_code PHASE_IDLE |>, mm) /\
     Forall (progress_frame dbg) fs /\ results_of fs = rows) /\
  forall b count, is_byte b -> b <> msg_code MSG_RESET -> b <> msg_code MSG_OUTER_DATA ->
    exists k' fs,
      talks g (session dbg rtl k) (sent ++ b :: le_bytes 2 count) (p, mm) k'
        (fs ++ [FError (err_code ERR_INVALID_CMD)])
        (p' <| error_code_reg := err_code ERR_INVALID_CMD |>, mm) /\
      Forall (progress_frame dbg) fs /\ results_of fs `prefix_of` rows.
Proof.
  intros Hg Hpp sent rows p'. pose proof (pp_more _ _ _ Hpp) as Hmore.
  destruct (session_probing g Hg dbg rtl c ins outs k p mm Hpp)
    as (k1 & pend & m & fs & rxb & Hl & Hp & Hpb & _).
  pose proof (pb_setup _ _ _ _ _ _ Hpb) as Hsu. unfold setup, configured_setup in Hsu.
  injection Hsu as _ Hkt _ Hot Hsid Hsd. split.
  - destruct (probe_frame_reset g Hg dbg rtl _ _ _ k1 (Z.of_nat (length (concat ins))) pend p' mm
      _ _ Hpb) as (k2 & rs & Hr & Hsd2 & Hrs & Hres).
    rewrite Hkt, Hsid in Hr. exists k2, (fs ++ rs). rewrite <- (app_assoc fs). split_and!.
    + eapply leads_talks; [exact Hl|]. eapply probe_stops; try done. by rewrite Hot.
    + apply Forall_app_2; [done|by apply batch_progress].
    + unfold rows. rewrite app_assoc, results_of_app in Hres. rewrite <- Hres.
      change (results_of [FAck _]) with (@nil ResultPair). by rewrite app_nil_r.
  - intros b count Hb Hnr Hno.
    destruct (probe_frame_bad g Hg dbg rtl b count k1 (Z.of_nat (length (concat ins)))
      (Z.of_nat (length (concat outs))) pend p' mm Hb Hnr Hno) as (k2 & Hr & Hsd2).
    exists k2, fs. split_and!; [|done|].
    + eapply leads_talks; [exact Hl|]. eapply probe_stops; try done. by rewrite Hot.
    + unfold rows. rewrite <- (pb_results _ _ _ _ _ _ Hpb). by eexists.
Qed.

Lemma example_partial_probe :
  partial_probe example_config [[mkTuple 5 (mkTid 10 1); mkTuple 6 (mkTid 11 1)]]
    [[mkTuple 6 (mkTid 20 1)]].
Proof. constructor; try (by apply table_accepts_small); repeat constructor; done. Qed.

Lemma probe_phase_aborts_witness :
  exists k' fs,
    talks (fun _ => 3) (session true rtl_none kst_static)
      (request_bytes example_config [[mkTuple 5 (mkTid 10 1); mkTuple 6 (mkTid 11 1)]]
         [[mkTuple 6 (mkTid 20 1)]] ++ pg_bytes 1 PReset) (mkRegs 0 0 0 0 0, ∅) k'
      (fs ++ [FAck (status_of PHASE_IDLE 1 1 0 7)])
      ((probing_regs (build_phase_regs (mkRegs 0 0 0 0 0) example_config)) <| status_reg := 0 |>, ∅) /\
    Forall (progress_frame true) fs /\ results_of fs = [mkPair (mkTid 11 1) (mkTid 20 1)].
Proof.
  apply (probe_phase_aborts (fun _ => 3) true rtl_none example_config
    [[mkTuple 5 (mkTid 10 1); mkTuple 6 (mkTid 11 1)]] [[mkTuple 6 (mkTid 20 1)]]
    kst_static (mkRegs 0 0 0 0 0) ∅ example_timely example_partial_probe).
Defined.

(** C27: when the host falls silent for [RX_WATCHDOG_CYCLES] between two frames of
    the build or of the probe phase of algorithm A, the session ends with ACK(IDLE) carrying the
    session's id and the full credit, and nothing further is consumed. *)
Theorem watchdog_ends_session (g : nat -> Z) (dbg : bool) (rtl : RtlTiming) (c : ConfigurePayload)
    (ins outs : list (list Tuple)) (bs : list Z) (k : kst) (i : nat) (n : Z)
    (tl : list rx_event) (o : list AxisByte) (p : regs) (mm : gmap Z Z) :
  timely g -> RX_WATCHDOG_CYCLES <= n ->
  (partial_build c ins /\
     bs = pg_bytes (cp_key_type c) (PConfigure c) ++ inner_bytes (cp_key_type c) ins) \/
  (partial_probe c ins outs /\ bs = request_bytes c ins outs) ->
  exists k' fs p',
    session dbg rtl k (mkDev (feed g i bs (RxSilence n :: tl)) o p mm) =
    Ret k' (mkDev (RxSilence (n - RX_WATCHDOG_CYCLES) :: tl)
              (o ++ axis_frames (fs ++ watchdog_frames dbg (cp_session_id c))) p' mm) /\
    Forall (progress_frame dbg) fs /\ results_of fs `prefix_of` hash_join (concat ins) (concat outs).
Proof.
  intros Hg Hn [[Hpb ->]|[Hpp ->]].
  - destruct (session_building g Hg dbg rtl c ins k p mm Hpb)
      as (h0 & k1 & pend & m & fs & rxb & Hl & Hp & Hres & _ & _ & Hld).
    pose proof (ld_setup _ _ _ _ _ _ Hld) as Hsu. unfold setup, configured_setup in Hsu.
    injection Hsu as _ _ Hit _ Hsid Hsd. pose proof (pq_more _ _ Hpb) as Hmore.
    assert (Z.of_nat (length (concat ins)) < k_inner_total k1) as Hlt by (by rewrite Hit).
    pose proof (build_gives_up dbg rtl m k1 _ pend Hsd Hlt) as Hgu. rewrite Hsid in Hgu.
    destruct (leads_gives_up g dbg _ _ _ _ _ _ _ _ n tl o i Hl Hgu Hn) as [k2 Hk2].
    exists k2, fs, (build_phase_regs p c). split_and!; [done|done|].
    rewrite Hres. apply prefix_nil.
  - destruct (session_probing g Hg dbg rtl c ins outs k p mm Hpp)
      as (k1 & pend & m & fs & rxb & Hl & Hp & Hpb & _).
    pose proof (pb_setup _ _ _ _ _ _ Hpb) as Hsu. unfold setup, configured_setup in Hsu.
    injection Hsu as _ _ _ Hot Hsid Hsd. pose proof (pp_more _ _ _ Hpp) as Hmore.
    assert (Z.of_nat (length (concat outs)) < k_outer_total k1) as Hlt by (by rewrite Hot).
    pose proof (probe_gives_up dbg rtl m k1 (Z.of_nat (length (concat ins))) _ pend Hsd Hlt) as Hgu.
    rewrite Hsid in Hgu.
    destruct (leads_gives_up g dbg _ _ _ _ _ _ _ _ n tl o i Hl Hgu Hn) as [k2 Hk2].
    exists k2, fs, (probing_regs (build_phase_regs p c)). split_and!; [done|done|].
    rewrite <- (pb_results _ _ _ _ _ _ Hpb). by eexists.
Qed.

Lemma watchdog_ends_session_witness :
  exists k' fs p',
    session true rtl_none kst_static
      (mkDev (feed (fun _ => 3) 0 (request_bytes example_config
                [[mkTuple 5 (mkTid 10 1); mkTuple 6 (mkTid 11 1)]] [[mkTuple 6 (mkTid 20 1)]])
                [RxSilence 400000000]) [] (mkRegs 0 0 0 0 0) ∅) =
    Ret k' (mkDev [RxSilence (400000000 - RX_WATCHDOG_CYCLES)]
              ([] ++ axis_frames (fs ++ watchdog_frames true 7)) p' ∅) /\
    Forall (progress_frame true) fs /\
    results_of fs `prefix_of` [mkPair (mkTid 11 1) (mkTid 20 1)].
Proof.
  apply (watchdog_ends_session (fun _ => 3) true rtl_none example_config
    [[mkTuple 5 (mkTid 10 1); mkTuple 6 (mkTid 11 1)]] [[mkTuple 6 (mkTid 20 1)]] _
    kst_static 0 400000000 [] [] (mkRegs 0 0 0 0 0) ∅ example_timely).
  - unfold RX_WATCHDOG_CYCLES. lia.
  - right. split; [exact example_partial_probe|reflexivity].
Defined.

(** ** Oversized frames *)

Lemma rx_batch_overruns g ts : forall i k n rest tl o p mm,
  0 <= i -> RX_BUF_TUPLES < i + Z.of_nat (length ts) -> i <= RX_BUF_TUPLES ->
  Forall (tuple_wf (k_keytype k)) ts ->
  rx_batch (length ts) i k (mkDev (feed g n (tuples_bytes (k_keytype k) ts ++ rest) tl) o p mm) =
  Fault.
Proof.
  induction ts as [|t ts IH]; intros i k n rest tl o p mm Hi Hl Hle Hw; simpl in Hl; [lia|].
  apply Forall_cons in Hw as [[Hk Ht] Hw]. cbn [length rx_batch].
  unfold tuples_bytes. cbn [fmap list_fmap concat]. unfold tuple_bytes at 1.
  rewrite <- !app_assoc. erewrite bind_Ret; [|by apply (reads_key (k_keytype k))]. cbn beta.
  destruct (Z.leb_spec RX_BUF_TUPLES i); [done|].
  erewrite bind_Ret; [|by apply reads_tid]. cbn beta.
  match goal with |- rx_batch _ _ ?k' _ = _ =>
    exact (IH (i + 1) k' _ rest tl o p mm ltac:(lia) ltac:(lia) ltac:(lia) Hw)
  end.
Qed.

Lemma bind_Fault {S A B} (m : M S A) (f : A -> M S B) s : m s = Fault -> (m ≫= f) s = Fault.
Proof. unfold mbind, M_bind. by intros ->. Qed.

(** The receive buffers are overrun by a data frame that announces more than
    [RX_BUF_TUPLES] tuples.  Nothing bounds the count of a frame before its tuples
    are stored, so an INNER_DATA frame with such a count takes the kernel to an
    out-of-bounds write. *)
Theorem oversized_frame_overruns (g : nat -> Z) (dbg : bool) (rtl : RtlTiming)
    (c : ConfigurePayload) (ins : list (list Tuple)) (ts : list Tuple) (k : kst) (i : nat)
    (rest : list Z) (tl : list rx_event) (o : list AxisByte) (p : regs) (mm : gmap Z Z) :
  timely g -> partial_build c ins ->
  RX_BUF_TUPLES < Z.of_nat (length ts) < 2 ^ 16 -> Forall (tuple_wf (cp_key_type c)) ts ->
  session dbg rtl k
    (mkDev (feed g i ((pg_bytes (cp_key_type c) (PConfigure c) ++
                       inner_bytes (cp_key_type c) ins) ++
                      pg_bytes (cp_key_type c) (PInner ts) ++ rest) tl) o p mm) = Fault.
Proof.
  intros Hg Hpb [Hgt Hlt] Hwf.
  destruct (session_building g Hg dbg rtl c ins k p mm Hpb)
    as (h0 & k1 & pend & m & fs & rxb & Hl & _ & _ & _ & _ & Hld).
  pose proof (ld_setup _ _ _ _ _ _ Hld) as Hsu. unfold setup, configured_setup in Hsu.
  injection Hsu as _ Hkt Hit _ Hsid Hsd. pose proof (pq_more _ _ Hpb) as Hmore.
  etransitivity; [apply Hl|]. simpl fst. simpl snd.
  unfold session_end, after_build. do 2 apply bind_Fault. cbn [build_loop]. rewrite Hsd, Hit.
  replace (cp_inner_count c <=? Z.of_nat (length (concat ins))) with false by lia.
  apply bind_Fault. unfold build_frame, pg_bytes, header_bytes.
  erewrite bind_Ret; [|apply guarded_timely; [done|apply msg_code_byte]]. cbn beta iota.
  rewrite <- app_assoc. erewrite bind_Ret; [|apply reads_u16]. cbn beta iota zeta.
  rewrite u16_small by (unfold is_u16; lia). codes. rewrite Nat2Z.id, <- Hkt.
  apply bind_Fault.
  match goal with |- rx_batch _ _ ?k' _ = _ =>
    apply (rx_batch_overruns g ts 0 k'); consts; try lia; change (k_keytype k') with (k_keytype k1)
  end. by rewrite Hkt.
Qed.

Lemma oversized_frame_overruns_witness :
  session false rtl_none kst_static
    (mkDev (feed (fun _ => 3) 0
       ((pg_bytes 1 (PConfigure (mkConfigure 0 1 512 300 0 7)) ++ inner_bytes 1 []) ++
        pg_bytes 1 (PInner (replicate 257 (mkTuple 5 (mkTid 10 1)))) ++ []) [])
       [] (mkRegs 0 0 0 0 0) ∅) = Fault.
Proof.
  apply (oversized_frame_overruns (fun _ => 3) false rtl_none (mkConfigure 0 1 512 300 0 7) []
           (replicate 257 (mkTuple 5 (mkTid 10 1))) kst_static 0 [] [] [] (mkRegs 0 0 0 0 0) ∅).
  - exact example_timely.
  - constructor; try (by apply table_accepts_small); repeat constructor; done.
  - rewrite length_replicate. done.
  - apply Forall_replicate. repeat split; done.
Defined.
