(* ===== verification/GraceSafety.v ===== *)
(** Memory safety of algorithm B: whatever bytes arrive, a session whose
    CONFIGURE the kernel has accepted never indexes DDR2, the partition counters
    or the result buffer out of range.

    [sat m Q] says that [m] does not fault from any device state and that the
    value it returns, if any, satisfies [Q]; DDR2 and stream contents are
    arbitrary. *)
From S2P Require Import Prelude Types Stream LinearHashTable Grace Kernel.

Definition sat {A} (m : M dev A) (Q : A -> Prop) : Prop :=
  forall d, match m d with Ret a _ => Q a | Blocked _ => True | Fault => False end.

(** ** Rules *)

Lemma sat_ret {A} (a : A) (Q : A -> Prop) : Q a -> sat (mret a) Q.
Proof. by intros H d. Qed.

Lemma sat_bind {A B} (m : M dev A) (k : A -> M dev B) (P : A -> Prop) (Q : B -> Prop) :
  sat m P -> (forall a, P a -> sat (k a) Q) -> sat (m ≫= k) Q.
Proof.
  intros Hm Hk d. specialize (Hm d). unfold mbind, M_bind.
  destruct (m d) as [a d'|d'|]; [by apply Hk|done|done].
Qed.

Lemma sat_weaken {A} (m : M dev A) (P Q : A -> Prop) : sat m P -> (forall a, P a -> Q a) -> sat m Q.
Proof. intros Hm Hi d. specialize (Hm d). destruct (m d); auto. Qed.

Lemma sat_modify f : sat (mmodify f) (fun _ => True).
Proof. by intros d. Qed.

Lemma sat_when b m : sat m (fun _ => True) -> sat (mwhen b m) (fun _ => True).
Proof. intros Hm. destruct b; [done|by apply sat_ret]. Qed.

(** Bind with nothing to remember about the first value. *)
Lemma sat_then {A B} (m : M dev A) (k : A -> M dev B) (Q : B -> Prop) :
  sat m (fun _ => True) -> (forall a, sat (k a) Q) -> sat (m ≫= k) Q.
Proof. intros Hm Hk. by apply (sat_bind _ _ (fun _ => True)). Qed.

(** ** The stream layer *)

Lemma sat_rx_byte : sat rx_byte is_byte.
Proof.
  intros d. unfold rx_byte.
  assert (forall l b l', rx_next l = Some (b, l') -> is_byte b) as Hb.
  { induction l as [|[b0|n] l IH]; intros b l'; simpl; [done| |apply IH].
    intros [= <- _]. apply u8_range. }
  destruct (rx_next (rx d)) as [[b l]|] eqn:E; [|done]. by eapply Hb.
Qed.

Ltac sat_steps :=
  repeat first
    [ apply sat_ret; done
    | apply sat_modify
    | apply sat_when
    | apply sat_then; [eapply sat_weaken; [apply sat_rx_byte|done]|intro]
    | apply sat_then; [apply sat_modify|intro]
    | progress cbn beta ].

Lemma sat_rx_u32 : sat rx_u32 (fun _ => True).
Proof. unfold rx_u32. sat_steps. Qed.
Lemma sat_rx_i64 : sat rx_i64 (fun _ => True).
Proof. unfold rx_i64. sat_steps. Qed.
Lemma sat_rx_u16 : sat rx_u16 is_u16.
Proof.
  unfold rx_u16. eapply sat_bind; [apply sat_rx_byte|]. intros b0 H0.
  eapply sat_bind; [apply sat_rx_byte|]. intros b1 H1. apply sat_ret.
  unfold is_byte, is_u16 in *. unfold u16. rewrite Z.shiftl_mul_pow2, Z.mod_small by lia.
  rewrite <- Z.shiftl_mul_pow2, lor_shiftl_add by lia. lia.
Qed.

Lemma sat_rx_tid : sat rx_tid (fun _ => True).
Proof.
  unfold rx_tid. apply sat_then; [apply sat_rx_u32|intro].
  apply sat_then; [eapply sat_weaken; [apply sat_rx_u16|done]|intro]. by apply sat_ret.
Qed.

Lemma sat_rx_tuple kt : sat (rx_tuple kt) (fun _ => True).
Proof.
  unfold rx_tuple, rx_key. apply sat_then; [|intro].
  - destruct (is_int64 kt); [apply sat_rx_i64|]. apply sat_then; [apply sat_rx_u32|intro].
    by apply sat_ret.
  - apply sat_then; [apply sat_rx_tid|intro]. by apply sat_ret.
Qed.

Lemma sat_discard n kt : sat (discard_tuples n kt) (fun _ => True).
Proof.
  induction n as [|n IH]; cbn [discard_tuples]; [by apply sat_ret|].
  apply sat_then; [|intro; exact IH]. unfold rx_discard_tuple. apply sat_then; [|intro].
  - destruct (is_int64 kt); (apply sat_then; [first [apply sat_rx_i64|apply sat_rx_u32]|intro]);
      by apply sat_ret.
  - apply sat_then; [apply sat_rx_tid|intro]. by apply sat_ret.
Qed.

Lemma sat_tx_byte v l : sat (tx_byte v l) (fun _ => True).
Proof. apply sat_modify. Qed.
Lemma sat_tx_u16 v l : sat (tx_u16 v l) (fun _ => True).
Proof. unfold tx_u16. apply sat_then; [apply sat_tx_byte|intro]. apply sat_tx_byte. Qed.
Lemma sat_tx_u32 v l : sat (tx_u32 v l) (fun _ => True).
Proof. unfold tx_u32. do 3 (apply sat_then; [apply sat_tx_byte|intro]). apply sat_tx_byte. Qed.
Lemma sat_tx_header t c : sat (tx_header t c) (fun _ => True).
Proof. unfold tx_header. apply sat_then; [apply sat_tx_byte|intro]. apply sat_tx_u16. Qed.

Lemma sat_tx_status t ph a b c i : sat (tx_status_frame t ph a b c i) (fun _ => True).
Proof.
  unfold tx_status_frame. apply sat_then; [apply sat_tx_header|intro].
  do 2 (apply sat_then; [apply sat_tx_byte|intro]).
  apply sat_then; [apply sat_tx_u16|intro]. apply sat_then; [apply sat_tx_u32|intro].
  apply sat_tx_u32.
Qed.

Lemma sat_tx_error e : sat (tx_error e) (fun _ => True).
Proof. unfold tx_error. apply sat_then; [apply sat_tx_header|intro]. apply sat_tx_byte. Qed.

Lemma sat_tx_result_pairs n i c buf : sat (tx_result_pairs n i c buf) (fun _ => True).
Proof.
  revert i. induction n as [|n IH]; intros i; cbn [tx_result_pairs]; [by apply sat_ret|].
  apply sat_then; [apply sat_tx_u32|intro]. apply sat_then; [apply sat_tx_u16|intro].
  apply sat_then; [apply sat_tx_u32|intro]. apply sat_then; [apply sat_tx_u16|intro]. apply IH.
Qed.

Lemma sat_tx_results buf c : c <= TX_BUF_SIZE -> sat (tx_results buf c) (fun _ => True).
Proof.
  intros Hc. unfold tx_results. destruct (c =? 0); [by apply sat_ret|].
  replace (TX_BUF_SIZE <? c) with false by lia.
  apply sat_then; [apply sat_tx_header|intro]. apply sat_tx_result_pairs.
Qed.

(** ** DDR2 and the counters *)

Lemma sat_ddr2_write idx v :
  0 <= idx < GRACE_DDR2_TOTAL_WORDS -> sat (ddr2_write idx v) (fun _ => True).
Proof.
  intros Hi. unfold ddr2_write, in_ddr2.
  replace (0 <=? idx) with true by lia. replace (idx <? _) with true by lia. apply sat_modify.
Qed.

Lemma sat_ddr2_read idx :
  0 <= idx < GRACE_DDR2_TOTAL_WORDS -> sat (ddr2_read idx) (fun _ => True).
Proof.
  intros Hi. unfold ddr2_read, in_ddr2.
  replace (0 <=? idx) with true by lia. replace (idx <? _) with true by lia. by intros d.
Qed.

(** A tuple slot inside DDR2. *)
Definition slot_in_ddr2 (idx : Z) : Prop := 0 <= idx /\ idx + 1 < GRACE_DDR2_TOTAL_WORDS.

Lemma sat_pack_tuple k t idx : slot_in_ddr2 idx -> sat (pack_tuple k t idx) (fun _ => True).
Proof.
  intros [H0 H1]. unfold pack_tuple. apply sat_then; [apply sat_ddr2_write; lia|intro].
  apply sat_ddr2_write; lia.
Qed.

Lemma sat_unpack_tuple idx : slot_in_ddr2 idx -> sat (unpack_tuple idx) (fun _ => True).
Proof.
  intros [H0 H1]. unfold unpack_tuple. apply sat_then; [apply sat_ddr2_read; lia|intro].
  apply sat_then; [apply sat_ddr2_read; lia|intro]. by apply sat_ret.
Qed.

Lemma sat_count_get c p (Q : Z -> Prop) :
  0 <= p < GRACE_MAX_K -> Q (aget 0 c p) -> sat (count_get c p) Q.
Proof.
  intros Hp HQ. unfold count_get.
  replace (0 <=? p) with true by lia. replace (p <? GRACE_MAX_K) with true by lia. by apply sat_ret.
Qed.

Lemma partition_of_range k K : 0 < K -> 0 <= partition_of k K < K.
Proof. intros HK. by apply Z.mod_pos_bound. Qed.

(** A layout the kernel accepts: [K] inner slots and [K] outer slots of [W] words
    fit DDR2. *)
Definition layout_ok (K W : Z) : Prop :=
  1 <= K <= GRACE_MAX_K /\ 0 <= W /\ GRACE_OUTER_AREA_BASE + K * W <= GRACE_DDR2_TOTAL_WORDS.

Lemma layout_width K W : layout_ok K W -> W < 2 ^ 32.
Proof.
  intros (HK & HW & Hfit). assert (1 * W <= K * W) by (apply Z.mul_le_mono_nonneg_r; lia).
  consts. lia.
Qed.

Definition inner_idx (p c : Z) : Z := u32 (p * GRACE_INNER_SLOT_WORDS + c * GRACE_WORDS_PER_TUPLE).
Definition outer_idx (W p c : Z) : Z :=
  u32 (GRACE_OUTER_AREA_BASE + p * W + c * GRACE_WORDS_PER_TUPLE).

(** The 32-bit index arithmetic does not wrap and stays inside the slot. *)
Lemma inner_idx_eq p c :
  0 <= p < GRACE_MAX_K -> 0 <= c < HT_MAX_ROWS ->
  inner_idx p c = p * GRACE_INNER_SLOT_WORDS + c * 2 /\
  p * GRACE_INNER_SLOT_WORDS <= inner_idx p c /\
  inner_idx p c + 1 < (p + 1) * GRACE_INNER_SLOT_WORDS <= GRACE_OUTER_AREA_BASE.
Proof.
  intros Hp Hc. unfold inner_idx. consts. rewrite u32_small by (unfold is_u32; lia). lia.
Qed.

Lemma outer_idx_eq K W p c :
  layout_ok K W -> 0 <= p < K -> 0 <= c < W / GRACE_WORDS_PER_TUPLE ->
  outer_idx W p c = GRACE_OUTER_AREA_BASE + p * W + c * 2 /\
  GRACE_OUTER_AREA_BASE + p * W <= outer_idx W p c /\
  outer_idx W p c + 1 < GRACE_OUTER_AREA_BASE + (p + 1) * W <= GRACE_DDR2_TOTAL_WORDS.
Proof.
  intros (HK & HW & Hfit) Hp Hc. unfold outer_idx. consts.
  assert (2 * (W / 2) <= W) by (apply Z.mul_div_le; lia).
  assert (p * W + W <= K * W) by nia. assert (0 <= p * W) by nia.
  rewrite u32_small by (unfold is_u32; lia). lia.
Qed.

Lemma inner_slot_in p c :
  0 <= p < GRACE_MAX_K -> 0 <= c < HT_MAX_ROWS -> slot_in_ddr2 (inner_idx p c).
Proof. intros Hp Hc. destruct (inner_idx_eq p c Hp Hc). unfold slot_in_ddr2. consts. lia. Qed.

Lemma outer_slot_in K W p c :
  layout_ok K W -> 0 <= p < K -> 0 <= c < W / GRACE_WORDS_PER_TUPLE ->
  slot_in_ddr2 (outer_idx W p c).
Proof.
  intros Hl Hp Hc. destruct (outer_idx_eq K W p c Hl Hp Hc). destruct Hl as (_ & HW & _).
  unfold slot_in_ddr2. consts. nia.
Qed.

(** ** The loops of the engine *)

Definition counts_within (bound : Z) (c : gmap Z Z) : Prop := forall p, 0 <= aget 0 c p <= bound.

Lemma counts_incr bound c p :
  counts_within bound c -> aget 0 c p < bound -> bound < 2 ^ 32 ->
  counts_within bound (<[p := u32 (aget 0 c p + 1)]> c).
Proof.
  intros Hc Hlt Hb q. rewrite aget_insert. case_decide; [|apply Hc].
  specialize (Hc p). rewrite u32_small by (unfold is_u32; lia). lia.
Qed.

Lemma reset_counts_zero n p g q :
  (aget 0 (inner_counts (reset_counts n p g)) q =
     if decide (p <= q < p + Z.of_nat n) then 0 else aget 0 (inner_counts g) q) /\
  (aget 0 (outer_counts (reset_counts n p g)) q =
     if decide (p <= q < p + Z.of_nat n) then 0 else aget 0 (outer_counts g) q).
Proof.
  revert p g. induction n as [|n IH]; intros p g; cbn [reset_counts].
  - by rewrite !decide_False by lia.
  - destruct (IH (p + 1) (mkGrace (<[p := 0]> (inner_counts g)) (<[p := 0]> (outer_counts g))))
      as [-> ->]. simpl. rewrite !aget_insert. repeat case_decide; done || lia.
Qed.

(** Counters of the partitions in use: the arrays are only read below [GRACE_MAX_K]. *)
Definition engine_ok (W : Z) (g : GraceHashEngine) : Prop :=
  (forall p, 0 <= p < GRACE_MAX_K -> 0 <= aget 0 (inner_counts g) p <= HT_MAX_ROWS) /\
  (forall p, 0 <= p < GRACE_MAX_K -> 0 <= aget 0 (outer_counts g) p <= W / GRACE_WORDS_PER_TUPLE).

Lemma engine_incr_inner W g p :
  engine_ok W g -> 0 <= p < GRACE_MAX_K -> aget 0 (inner_counts g) p < HT_MAX_ROWS ->
  engine_ok W (g <| inner_counts ::= <[p := u32 (aget 0 (inner_counts g) p + 1)]> |>).
Proof.
  intros [Hi Ho] Hp Hlt. split; [|exact Ho]. intros q Hq. pose proof (Hi p Hp) as Hip.
  destruct g. cbn in *. rewrite aget_insert.
  case_decide; [|by apply Hi]. consts. rewrite u32_small by (unfold is_u32; lia). lia.
Qed.

Lemma engine_incr_outer W g p :
  engine_ok W g -> 0 <= p < GRACE_MAX_K -> W < 2 ^ 32 ->
  aget 0 (outer_counts g) p < W / GRACE_WORDS_PER_TUPLE ->
  engine_ok W (g <| outer_counts ::= <[p := u32 (aget 0 (outer_counts g) p + 1)]> |>).
Proof.
  intros [Hi Ho] Hp HW Hlt. split; [exact Hi|]. intros q Hq. pose proof (Ho p Hp) as Hop.
  destruct g. cbn in *. rewrite aget_insert.
  case_decide; [|by apply Ho]. consts.
  assert (W / 2 <= W) by (clear -Hop Hlt; zdm).
  rewrite u32_small by (unfold is_u32; lia). lia.
Qed.

Lemma build_inner_tuple_safe W kt K n rcv g :
  1 <= K <= GRACE_MAX_K -> engine_ok W g ->
  sat (build_inner_tuple_loop n kt K rcv g) (fun r => engine_ok W (snd r)).
Proof.
  intros HK. revert rcv g. induction n as [|n IH]; intros rcv g Hg; cbn [build_inner_tuple_loop].
  { by apply sat_ret. }
  apply sat_then; [apply sat_rx_tuple|intros t]. cbn beta zeta.
  pose proof (partition_of_range (key t) K ltac:(lia)) as Hp. set (p := partition_of (key t) K) in *.
  apply (sat_bind _ _ (fun c => c = aget 0 (inner_counts g) p));
    [by apply sat_count_get; [lia|]|intros c ->].
  destruct (proj1 Hg p ltac:(lia)) as [Hc0 _].
  destruct (Z.leb_spec HT_MAX_ROWS (aget 0 (inner_counts g) p)).
  - apply sat_then; [apply sat_discard|intro]. apply sat_then; [apply sat_tx_error|intro].
    by apply sat_ret.
  - apply sat_then; [apply sat_pack_tuple, inner_slot_in; lia|intro].
    apply IH, engine_incr_inner; [done|lia|done].
Qed.

Lemma build_outer_tuple_safe W kt K n rcv g :
  layout_ok K W -> engine_ok W g ->
  sat (build_outer_tuple_loop n kt K W rcv g) (fun r => engine_ok W (snd r)).
Proof.
  intros HK. pose proof HK as (HK1 & HW & Hfit).
  assert (W < 2 ^ 32) as HW32 by (by eapply layout_width).
  revert rcv g. induction n as [|n IH]; intros rcv g Hg; cbn [build_outer_tuple_loop].
  { by apply sat_ret. }
  apply sat_then; [apply sat_rx_tuple|intros t]. cbn beta zeta.
  pose proof (partition_of_range (key t) K ltac:(lia)) as Hp. set (p := partition_of (key t) K) in *.
  apply (sat_bind _ _ (fun c => c = aget 0 (outer_counts g) p));
    [by apply sat_count_get; [lia|]|intros c ->].
  destruct (proj2 Hg p ltac:(lia)) as [Hc0 _].
  destruct (Z.leb_spec (W / GRACE_WORDS_PER_TUPLE) (aget 0 (outer_counts g) p)).
  - apply sat_then; [apply sat_discard|intro]. apply sat_then; [apply sat_tx_error|intro].
    by apply sat_ret.
  - apply sat_then; [apply sat_pack_tuple, (outer_slot_in K); [done|lia..]|intro].
    apply IH, engine_incr_outer; [done|lia|done|done].
Qed.

Lemma build_inner_frames_safe W it kt K sid n rcv g :
  1 <= K <= GRACE_MAX_K -> engine_ok W g ->
  sat (build_inner_frame_loop n it kt K sid rcv g) (fun r => engine_ok W (snd r)).
Proof.
  intros HK. revert rcv g. induction n as [|n IH]; intros rcv g Hg; cbn [build_inner_frame_loop].
  { by apply sat_ret. }
  destruct (it <=? rcv); [by apply sat_ret|].
  eapply sat_bind; [apply sat_rx_byte|intros ty _]. eapply sat_bind; [apply sat_rx_u16|intros cnt _].
  destruct (ty =? msg_code MSG_RESET).
  { apply sat_then; [apply sat_tx_status|intro]. by apply sat_ret. }
  destruct (negb _).
  { apply sat_then; [apply sat_tx_error|intro]. by apply sat_ret. }
  eapply sat_bind; [by apply (build_inner_tuple_safe W)|intros [[e rcv'] g'] Hg']. simpl in Hg'.
  destruct (err_ok e); [|by apply sat_ret].
  apply sat_then; [apply sat_tx_status|intro]. by apply IH.
Qed.

Lemma build_outer_frames_safe W ot kt K sid n rcv g :
  layout_ok K W -> engine_ok W g ->
  sat (build_outer_frame_loop n ot kt K W sid rcv g) (fun r => engine_ok W (snd r)).
Proof.
  intros HK. revert rcv g. induction n as [|n IH]; intros rcv g Hg; cbn [build_outer_frame_loop].
  { by apply sat_ret. }
  destruct (ot <=? rcv); [by apply sat_ret|].
  eapply sat_bind; [apply sat_rx_byte|intros ty _]. eapply sat_bind; [apply sat_rx_u16|intros cnt _].
  destruct (ty =? msg_code MSG_RESET).
  { apply sat_then; [apply sat_tx_status|intro]. by apply sat_ret. }
  destruct (negb _).
  { apply sat_then; [apply sat_tx_error|intro]. by apply sat_ret. }
  eapply sat_bind; [by apply build_outer_tuple_safe|intros [[e rcv'] g'] Hg']. simpl in Hg'.
  destruct (err_ok e); [|by apply sat_ret].
  apply sat_then; [apply sat_tx_status|intro]. by apply IH.
Qed.

Lemma join_build_safe p n i h :
  0 <= p < GRACE_MAX_K -> 0 <= i -> i + Z.of_nat n <= HT_MAX_ROWS ->
  sat (join_build_loop n p i h) (fun _ => True).
Proof.
  intros Hp. revert i h. induction n as [|n IH]; intros i h Hi Hn; cbn [join_build_loop].
  { by apply sat_ret. }
  apply sat_then; [apply sat_unpack_tuple, inner_slot_in; lia|intros t].
  destruct (build (key t) (tid t) h) as [[e st] h']. destruct (err_ok e); [apply IH; lia|].
  apply sat_then; [apply sat_tx_error|intro]. by apply sat_ret.
Qed.

Lemma join_probe_safe K W p n j h cnt matched buf :
  layout_ok K W -> 0 <= p < K -> 0 <= j -> j + Z.of_nat n <= W / GRACE_WORDS_PER_TUPLE ->
  0 <= cnt < TX_BUF_SIZE ->
  sat (join_probe_loop n p j W h cnt matched buf) (fun r => 0 <= fst (fst r) < TX_BUF_SIZE).
Proof.
  intros HK Hp. revert j cnt matched buf.
  induction n as [|n IH]; intros j cnt matched buf Hj Hn Hc; cbn [join_probe_loop].
  { by apply sat_ret. }
  apply sat_then; [apply sat_unpack_tuple, (outer_slot_in K); [done|lia..]|intros t].
  destruct (fst (probe (key t) h)) as [it|]; [|apply IH; lia].
  apply (sat_bind _ _ (fun _ => True)).
  { unfold buf_set. replace (0 <=? cnt) with true by lia.
    replace (cnt <? TX_BUF_SIZE) with true by lia. by apply sat_ret. }
  intros buf' _. cbn beta zeta. consts. rewrite u16_small by (unfold is_u16; lia).
  change (u16 256) with 256. destruct (Z.eqb_spec (cnt + 1) 256).
  - apply sat_then; [apply sat_tx_results; consts; lia|intro]. apply IH; lia.
  - apply IH; lia.
Qed.

Lemma join_partitions_safe K W n p g h matched buf :
  layout_ok K W -> engine_ok W g -> 0 <= p -> p + Z.of_nat n <= K ->
  sat (join_partition_loop n p W g h matched buf) (fun _ => True).
Proof.
  intros HK Hg. pose proof HK as (HK1 & _). revert p h matched buf.
  induction n as [|n IH]; intros p h matched buf Hp Hn; cbn [join_partition_loop].
  { by apply sat_ret. }
  destruct Hg as [Hi Ho]. specialize (Hi p ltac:(lia)) as Hip. specialize (Ho p ltac:(lia)) as Hop.
  apply (sat_bind _ _ (fun c => c = aget 0 (inner_counts g) p));
    [by apply sat_count_get; [lia|]|intros ni ->].
  apply sat_then; [apply join_build_safe; lia|intros [e h']].
  destruct (err_ok e); [|by apply sat_ret].
  apply (sat_bind _ _ (fun c => c = aget 0 (outer_counts g) p));
    [by apply sat_count_get; [lia|]|intros no ->].
  eapply sat_bind; [apply (join_probe_safe K); [done|lia..|consts; lia]|].
  intros [[cnt m'] buf'] Hc. simpl in Hc.
  apply sat_then; [apply sat_when, sat_tx_results; lia|intro]. apply IH; lia.
Qed.

(** ** Accepted configurations *)

(** The values [check_config] leaves for algorithm B. *)
Lemma check_config_layout k d k' d' :
  k_algorithm k = alg_code ALGORITHM_B -> is_u32 (k_inner_total k) -> is_u32 (k_outer_total k) ->
  k_session_done k = false -> check_config k d = Ret k' d' -> k_session_done k' = false ->
  layout_ok (k_K k') (k_outer_slot_w k') /\ k_keytype k' = k_keytype k /\
  k_inner_total k' = k_inner_total k /\ k_outer_total k' = k_outer_total k /\ d' = d.
Proof.
  intros Ha Hi Ho Hsd. unfold check_config. rewrite Ha.
  change (alg_code ALGORITHM_B =? alg_code ALGORITHM_A) with false.
  change (alg_code ALGORITHM_B =? alg_code ALGORITHM_B) with true. cbn iota.
  assert (forall e k1, k_session_done k' = false -> fail_session e k1 d = Ret k' d' -> False) as Hfail.
  { intros e k1 Hk Hf. unfold fail_session in Hf. apply bind_inv_Ret in Hf as (? & ? & _ & Hf).
    apply bind_inv_Ret in Hf as (? & ? & _ & Hf). injection Hf as <- _. discriminate Hk. }
  destruct (Z.ltb_spec GRACE_MAX_INNER_ROWS (k_inner_total k)) as [_|Hmax];
    [intros Hc Hk; by destruct (Hfail _ _ Hk Hc)|].
  set (K0 := u32 _ / HT_MAX_ROWS). set (K := if K0 =? 0 then 1 else K0).
  set (W := u32 (_ * 2)).
  assert (1 <= K <= GRACE_MAX_K) as HK.
  { unfold K, K0, is_u32 in *. consts.
    pose proof (u32_range (u32 (k_inner_total k + 12288) - 1)) as Hu. unfold is_u32 in Hu.
    assert (u32 (u32 (k_inner_total k + 12288) - 1) = k_inner_total k + 12287) as Hu2.
    { rewrite (u32_small (k_inner_total k + 12288)), u32_small; unfold is_u32; lia. }
    rewrite Hu2. destruct (Z.eqb_spec ((k_inner_total k + 12287) / 12288) 0); [lia|]. zdm. }
  pose proof (u32_range (u32 (u32 (k_outer_total k / K + 1) * GRACE_WORDS_PER_TUPLE) * 2)) as HW.
  fold W in HW. unfold is_u32 in HW.
  assert (0 <= K * W < 2 ^ 40) as HKW by (consts; nia).
  destruct (Z.ltb_spec GRACE_DDR2_TOTAL_WORDS (u64 (GRACE_OUTER_AREA_BASE + u64 (K * W))))
    as [_|Hfit]; [intros Hc Hk; by destruct (Hfail _ _ Hk Hc)|].
  intros Hc Hk. injection Hc as <- <-. split; [|done].
  change (layout_ok K W). split_and!; [lia|lia|lia|].
  rewrite (u64_small (K * W)), u64_small in Hfit; unfold is_u64; consts; lia.
Qed.

(** ** Property *)

(** C6: whatever the host sends and whatever DDR2 and the hash table hold, once
    a CONFIGURE for algorithm B has passed the capacity checks the three phases
    of the Grace join never index DDR2, a counter array or the result buffer out
    of range. *)
Theorem grace_memory_safe (k k' : kst) (d d' : dev) :
  k_algorithm k = alg_code ALGORITHM_B -> is_u32 (k_inner_total k) -> is_u32 (k_outer_total k) ->
  k_session_done k = false -> check_config k d = Ret k' d' -> k_session_done k' = false ->
  forall d1, algorithm_b k' d1 <> Fault.
Proof.
  intros Ha Hi Ho Hsd Hc Hsd' d1.
  destruct (check_config_layout k d k' d' Ha Hi Ho Hsd Hc Hsd') as (HK & _).
  pose proof HK as (HK1 & HW & _).
  assert (0 <= k_outer_slot_w k' / GRACE_WORDS_PER_TUPLE) as HW2 by (consts; apply Z.div_pos; lia).
  assert (engine_ok (k_outer_slot_w k') (reset_counts (Z.to_nat GRACE_MAX_K) 0 (k_grace k'))) as Hg.
  { split; intros p Hp; destruct (reset_counts_zero (Z.to_nat GRACE_MAX_K) 0 (k_grace k') p)
      as [E1 E2]; rewrite ?E1, ?E2, decide_True; consts; lia. }
  enough (sat (algorithm_b k') (fun _ => True)) as Hs
    by (specialize (Hs d1); by destruct (algorithm_b k' d1)).
  assert (forall e k1 (Q : kst -> Prop), (forall b, Q (k1 <| k_session_done := b |>)) ->
    Q k1 -> sat (note_error e k1) Q) as Hnote.
  { intros e k1 Q HQ HQ1. unfold note_error. destruct (err_ok e); [by apply sat_ret|].
    apply sat_then; [apply sat_modify|intro]. by apply sat_ret. }
  unfold algorithm_b.
  eapply sat_bind; [by apply (build_inner_frames_safe (k_outer_slot_w k'))|].
  intros [e g1] Hg1. simpl in Hg1.
  apply (sat_bind _ _ (fun k1 => k_grace k1 = g1 /\ k_K k1 = k_K k' /\
                                 k_outer_slot_w k1 = k_outer_slot_w k')); [by apply Hnote|].
  intros k1 (Hge & HKk & HWk). destruct (k_session_done k1); [by apply sat_ret|].
  apply sat_then; [apply sat_modify|intro].
  eapply sat_bind; [apply build_outer_frames_safe; rewrite ?HKk, ?HWk, ?Hge; done|].
  intros [e2 g2] Hg2. simpl in Hg2. rewrite HWk in Hg2.
  apply (sat_bind _ _ (fun k2 => k_grace k2 = g2 /\ k_K k2 = k_K k' /\
                                 k_outer_slot_w k2 = k_outer_slot_w k')); [by apply Hnote|].
  intros k2 (Hg3 & HKk2 & HWk2). destruct (k_session_done k2); [by apply sat_ret|].
  eapply sat_bind.
  { apply (join_partitions_safe (k_K k')); rewrite ?HWk2, ?Hg3, ?HKk2; try done. lia. }
  intros [[[e3 m] h] buf] _. by apply Hnote.
Qed.

(** A configuration of algorithm B with three inner and five outer rows. *)
Definition example_b : kst :=
  (session_init kst_static) <| k_algorithm := 1 |> <| k_inner_total := 3 |> <| k_outer_total := 5 |>.

Lemma grace_memory_safe_witness :
  algorithm_b (example_b <| k_K := 1 |> <| k_outer_slot_w := 24 |>)
    (mkDev [RxByte 2; RxByte 255; RxByte 255] [] (mkRegs 0 0 0 0 0) ∅) <> Fault.
Proof.
  apply (grace_memory_safe example_b (example_b <| k_K := 1 |> <| k_outer_slot_w := 24 |>)
           (mkDev [] [] (mkRegs 0 0 0 0 0) ∅) (mkDev [] [] (mkRegs 0 0 0 0 0) ∅)); reflexivity || done.
Defined.
