(* ===== verification/GraceJoin.v ===== *)
(** Algorithm B end to end: partitioning both inputs into DDR2 and joining
    partition by partition yields the rows of the join, in partition order.

    [part K p] selects the rows of partition [p]; [partitioned mm B W K ts] says
    that DDR2 holds the partitions of [ts] in [K] slots of [W] words from word
    [B] on, and [counted] that the counters say how many rows each has. *)
From S2P Require Import Prelude Types Stream LinearHashTable Grace Wire Dialogue Join Kernel.
From S2P Require Import LinearJoin GraceSafety.

#[local] Opaque partition_of.

(** ** Partitions *)

Definition part (K p : Z) (ts : list Tuple) : list Tuple :=
  filter (fun t => partition_of (key t) K = p) ts.

Definition grace_join (K : Z) (inner outer : list Tuple) : list ResultPair :=
  concat ((fun p => hash_join (part K p inner) (part K p outer)) <$> seqZ 0 K).

Lemma part_app K p ts ts' : part K p (ts ++ ts') = part K p ts ++ part K p ts'.
Proof. apply filter_app. Qed.

Lemma part_one K p t :
  part K p [t] = if decide (partition_of (key t) K = p) then [t] else [].
Proof. unfold part. rewrite filter_cons. case_decide; by rewrite filter_nil. Qed.

Lemma concat_update {A} (f : Z -> list A) (x : A) (p : Z) (qs : list Z) :
  NoDup qs -> p ∈ qs ->
  concat ((fun q => if decide (p = q) then x :: f q else f q) <$> qs) ≡ₚ
  x :: concat (f <$> qs).
Proof.
  intros Hnd. induction Hnd as [|q qs Hq _ IH]; intros Hp; [by apply elem_of_nil in Hp|].
  rewrite !fmap_cons. cbn [concat]. case_decide as Hd.
  - subst q. cbn. constructor. apply Permutation_app_head.
    rewrite (list_fmap_ext _ f qs); [done|]. intros i q' Hi.
    rewrite decide_False; [done|]. intros <-. apply Hq. by eapply list_elem_of_lookup_2.
  - rewrite IH; [|set_solver]. by rewrite Permutation_middle.
Qed.

(** The partitions of a list are a permutation of it. *)
Lemma concat_parts K ts : 0 < K -> concat ((fun p => part K p ts) <$> seqZ 0 K) ≡ₚ ts.
Proof.
  intros HK. induction ts as [|t ts IH].
  - induction (seqZ 0 K) as [|q qs IHq]; [done|]. rewrite fmap_cons. cbn. exact IHq.
  - rewrite (list_fmap_ext _ (fun q => if decide (partition_of (key t) K = q)
                                       then t :: part K q ts else part K q ts)).
    + rewrite concat_update; [by rewrite IH|apply NoDup_seqZ|].
      apply elem_of_seqZ. pose proof (partition_of_range (key t) K HK). lia.
    + intros i q _. unfold part. rewrite filter_cons. by case_decide.
Qed.

(** Rows that match a key are in the key's partition. *)
Lemma first_match_part K p k inner :
  partition_of k K = p -> first_match k (part K p inner) = first_match k inner.
Proof.
  intros Hp. unfold part. induction inner as [|t inner IH]; [done|]. rewrite filter_cons.
  case_decide as Hd; cbn [first_match]; [by rewrite IH|].
  destruct (Z.eqb_spec (key t) k) as [He|]; [|exact IH]. subst k. done.
Qed.

Lemma omap_ext_in {A B} (f f' : A -> option B) (l : list A) :
  (forall x, x ∈ l -> f x = f' x) -> omap f l = omap f' l.
Proof.
  intros Hf. induction l as [|x l IH]; [done|]. cbn. rewrite Hf by set_solver.
  destruct (f' x); [f_equal|]; apply IH; set_solver.
Qed.

Lemma hash_join_part K p inner outer :
  hash_join (part K p inner) (part K p outer) = hash_join inner (part K p outer).
Proof.
  unfold hash_join. apply omap_ext_in. intros o Ho.
  unfold part in Ho. apply list_elem_of_filter in Ho as [Hp _].
  unfold match_row. by rewrite first_match_part.
Qed.

(** Partitioned joining yields the rows of the join. *)
Lemma grace_join_perm K inner outer : 0 < K -> grace_join K inner outer ≡ₚ hash_join inner outer.
Proof.
  intros HK. unfold grace_join.
  rewrite (list_fmap_ext _ (fun p => omap (match_row inner) (part K p outer)))
    by (intros; apply hash_join_part).
  assert (forall qs, concat ((fun p => omap (match_row inner) (part K p outer)) <$> qs) =
                     omap (match_row inner) (concat ((fun p => part K p outer) <$> qs))) as ->.
  { induction qs as [|q qs IH]; [done|]. rewrite !fmap_cons. cbn [concat].
    by rewrite omap_app, IH. }
  unfold hash_join. by rewrite concat_parts.
Qed.

(** ** Tuples in DDR2 *)

Lemma u64_i64 z : u64 (i64 z) = u64 z.
Proof.
  unfold i64, signed, u64. destruct (_ <? _).
  - by rewrite Z.mod_mod.
  - replace (z mod 2 ^ 64 - 2 ^ 64) with (z mod 2 ^ 64 + (-1) * 2 ^ 64) by lia.
    by rewrite Z.mod_add, Z.mod_mod.
Qed.

Lemma unpack_pack_tid t : tid_wf t -> unpack_tid (pack_tid t) = t.
Proof.
  intros [Hb Ho]. unfold is_u32, is_u16 in *. unfold unpack_tid, pack_tid. rewrite u64_i64.
  rewrite Z.lor_comm, lor_shiftl_add by (rewrite ?Z.shiftl_mul_pow2; lia).
  rewrite Z.shiftl_mul_pow2 by lia.
  rewrite u64_small by (unfold is_u64; lia).
  change 65535 with (Z.ones 16). rewrite Z.land_ones, !Z.shiftr_div_pow2 by lia.
  destruct t as [blk off]. simpl in *. f_equal.
  - replace ((off * 2 ^ 16 + blk * 2 ^ 32) / 2 ^ 32) with blk by zdm.
    apply u32_small. unfold is_u32. lia.
  - replace ((off * 2 ^ 16 + blk * 2 ^ 32) / 2 ^ 16) with (off + blk * 2 ^ 16) by zdm.
    rewrite Z.mod_add, Z.mod_small by lia. apply u16_small. unfold is_u16. lia.
Qed.

(** [t] stored at word [idx]. *)
Definition put (idx : Z) (t : Tuple) (mm : gmap Z Z) : gmap Z Z :=
  <[idx + 1 := pack_tid (tid t)]> (<[idx := key t]> mm).

Definition stored_at (mm : gmap Z Z) (idx : Z) (t : Tuple) : Prop :=
  aget 0 mm idx = key t /\ aget 0 mm (idx + 1) = pack_tid (tid t).

Lemma stored_put idx t mm : stored_at (put idx t mm) idx t.
Proof.
  unfold stored_at, put. rewrite !aget_insert, (decide_False (P := idx + 1 = idx)) by lia.
  by rewrite !decide_True.
Qed.

Lemma stored_put_ne idx idx' t t' mm :
  idx' + 1 < idx \/ idx + 1 < idx' -> stored_at mm idx' t' -> stored_at (put idx t mm) idx' t'.
Proof. unfold stored_at, put. intros Hne. by rewrite !aget_insert, !decide_False by lia. Qed.

Section ddr2.
Context {g : nat -> Z}.

Lemma talks_pack_tuple t idx p mm :
  slot_in_ddr2 idx ->
  talks g (pack_tuple (key t) (tid t) idx) [] (p, mm) tt [] (p, put idx t mm).
Proof.
  intros [H0 H1] n rest tl o. unfold pack_tuple, ddr2_write, in_ddr2. consts.
  replace (0 <=? idx) with true by lia. replace (idx <? 16777216) with true by lia.
  replace (0 <=? idx + 1) with true by lia. replace (idx + 1 <? 16777216) with true by lia.
  unfold axis_frames. simpl. by rewrite Nat.add_0_r, app_nil_r.
Qed.

Lemma talks_unpack_tuple t idx p mm :
  slot_in_ddr2 idx -> stored_at mm idx t -> tid_wf (tid t) ->
  talks g (unpack_tuple idx) [] (p, mm) t [] (p, mm).
Proof.
  intros [H0 H1] [Hk Ht] Hwf n rest tl o. unfold unpack_tuple, ddr2_read, in_ddr2. consts.
  replace (0 <=? idx) with true by lia. replace (idx <? 16777216) with true by lia.
  replace (0 <=? idx + 1) with true by lia. replace (idx + 1 <? 16777216) with true by lia.
  unfold mbind, M_bind, mget, mret, M_ret. cbn. rewrite Hk, Ht, unpack_pack_tid by done.
  unfold axis_frames. simpl. destruct t. by rewrite Nat.add_0_r, app_nil_r.
Qed.
End ddr2.

(** The rows [ts] from word [base] on, two words each. *)
Definition holds (mm : gmap Z Z) (base : Z) (ts : list Tuple) : Prop :=
  forall i t, ts !! i = Some t -> stored_at mm (base + Z.of_nat i * 2) t.

Definition partitioned (mm : gmap Z Z) (B W K : Z) (ts : list Tuple) : Prop :=
  forall p, 0 <= p < K -> holds mm (B + p * W) (part K p ts).

Definition counted (cnt : gmap Z Z) (K : Z) (ts : list Tuple) : Prop :=
  forall p, 0 <= p < GRACE_MAX_K -> aget 0 cnt p = Z.of_nat (length (part K p ts)).

Lemma holds_app mm base ts t :
  holds mm base ts -> stored_at mm (base + Z.of_nat (length ts) * 2) t -> holds mm base (ts ++ [t]).
Proof.
  intros Hh Hs i u Hu. apply lookup_app_Some in Hu as [Hu|[Hge Hu]]; [by apply Hh|].
  apply list_lookup_singleton_Some in Hu as [Hi <-].
  by replace i with (length ts) by lia.
Qed.

Lemma holds_put mm base ts idx t :
  (idx + 1 < base \/ base + Z.of_nat (length ts) * 2 <= idx) ->
  holds mm base ts -> holds (put idx t mm) base ts.
Proof.
  intros Hne Hh i u Hu. apply stored_put_ne; [|by apply Hh].
  apply lookup_lt_Some in Hu. lia.
Qed.

(** Writing outside the slots keeps the partitions. *)
Lemma partitioned_put_out mm B W K ts idx t :
  0 <= W -> (forall p, 0 <= p < K -> Z.of_nat (length (part K p ts)) * 2 <= W) ->
  (idx + 1 < B \/ B + K * W <= idx) ->
  partitioned mm B W K ts -> partitioned (put idx t mm) B W K ts.
Proof.
  intros HW Hl Hout Hp p Hpr. apply holds_put; [|by apply Hp]. specialize (Hl p Hpr).
  assert (0 <= p * W) by nia. assert (p * W + W <= K * W) by nia. lia.
Qed.

(** Appending a row to its partition. *)
Lemma partitioned_put mm B W K ts t :
  let p := partition_of (key t) K in
  0 < K -> 0 <= W -> (forall q, 0 <= q < K -> Z.of_nat (length (part K q ts)) * 2 <= W) ->
  Z.of_nat (length (part K p ts)) * 2 + 2 <= W ->
  partitioned mm B W K ts ->
  partitioned (put (B + p * W + Z.of_nat (length (part K p ts)) * 2) t mm) B W K (ts ++ [t]).
Proof.
  intros p HK HW Hl Hroom Hp q Hq. pose proof (partition_of_range (key t) K HK) as Hpr. fold p in Hpr.
  rewrite part_app, part_one. case_decide as Hd.
  - fold p in Hd. subst q. apply holds_app; [|apply stored_put].
    apply holds_put; [lia|by apply Hp].
  - fold p in Hd. rewrite app_nil_r. apply holds_put; [|by apply Hp]. specialize (Hl q Hq).
    assert (q < p \/ p < q) as [Hlt|Hlt] by lia.
    + assert (q * W + W <= p * W) by nia. lia.
    + assert (p * W + W <= q * W) by nia. lia.
Qed.

Lemma counted_incr cnt K ts t :
  let p := partition_of (key t) K in
  0 < K <= GRACE_MAX_K -> Z.of_nat (length (part K p ts)) + 1 < 2 ^ 32 -> counted cnt K ts ->
  counted (<[p := u32 (Z.of_nat (length (part K p ts)) + 1)]> cnt) K (ts ++ [t]).
Proof.
  intros p HK Hlt Hc q Hq. rewrite aget_insert, part_app, part_one, length_app. fold p.
  case_decide; [subst; rewrite u32_small by (unfold is_u32; lia); simpl; lia|].
  rewrite Hc by done. simpl. lia.
Qed.

(** ** Partitioning the inputs *)

(** Every partition fits a slot of [room] rows. *)
Definition parts_fit (K room : Z) (ts : list Tuple) : Prop :=
  forall p, 0 <= p < K -> Z.of_nat (length (part K p ts)) <= room.

Lemma parts_fit_app K room ts ts' : parts_fit K room (ts ++ ts') -> parts_fit K room ts.
Proof. intros Hf p Hp. specialize (Hf p Hp). rewrite part_app, length_app in Hf. lia. Qed.

Lemma parts_fit_next K room ts t ts' :
  0 < K -> parts_fit K room (ts ++ t :: ts') ->
  Z.of_nat (length (part K (partition_of (key t) K) ts)) + 1 <= room.
Proof.
  intros HK Hf. specialize (Hf _ (partition_of_range (key t) K HK)).
  change (t :: ts') with ([t] ++ ts') in Hf.
  rewrite !part_app, part_one, decide_True, !length_app in Hf by done. simpl in Hf. lia.
Qed.

(** Algorithm B acknowledges every data frame. *)
Fixpoint grace_acks (ph : Phase) (total sid rcv : Z) (cs : list (list Tuple)) : list fp_frame :=
  match cs with
  | [] => []
  | ts :: cs =>
      let rcv := rcv + Z.of_nat (length ts) in
      FAck (status_of ph rcv 0 (frame_credit total rcv) sid) :: grace_acks ph total sid rcv cs
  end.

(** A frame of at most 65535 rows: algorithm B does not buffer frames. *)
Definition wide_frame_ok (kt : Z) (ts : list Tuple) : Prop :=
  Z.of_nat (length ts) < 2 ^ 16 /\ Forall (tuple_wf kt) ts.

(** Frames of an algorithm-B session in progress. *)
Definition grace_frame (f : fp_frame) : Prop :=
  match f with
  | FResult ps => 0 < Z.of_nat (length ps) <= TX_BUF_SIZE
  | FAck _ | FDebug _ _ _ => True
  | _ => False
  end.

Lemma results_single ps : results_of [FResult ps] = ps.
Proof. unfold results_of. simpl. apply app_nil_r. Qed.

Section phases.
Context (g : nat -> Z) (K W : Z) (layout : layout_ok K W).

Lemma layout_K : 0 < K <= GRACE_MAX_K.
Proof using layout. destruct layout. lia. Qed.

(** The rows of one INNER_DATA frame. *)
Lemma inner_tuples_ok kt ts : forall ts0 e mm p rcv,
  counted (inner_counts e) K ts0 -> partitioned mm 0 GRACE_INNER_SLOT_WORDS K ts0 ->
  parts_fit K HT_MAX_ROWS (ts0 ++ ts) -> Forall (tuple_wf kt) ts ->
  exists e' mm',
    talks g (build_inner_tuple_loop (length ts) kt K (u32 rcv) e) (tuples_bytes kt ts) (p, mm)
      (ERR_NONE, u32 (rcv + Z.of_nat (length ts)), e') [] (p, mm') /\
    counted (inner_counts e') K (ts0 ++ ts) /\ outer_counts e' = outer_counts e /\
    partitioned mm' 0 GRACE_INNER_SLOT_WORDS K (ts0 ++ ts).
Proof using layout.
  pose proof layout_K as HK.
  induction ts as [|t ts IH]; intros ts0 e mm p rcv Hc Hp Hfit Hwf.
  - exists e, mm. rewrite app_nil_r, Z.add_0_r. split_and!; try done. apply talks_ret.
  - apply Forall_cons in Hwf as [Ht Hwf].
    pose proof (partition_of_range (key t) K ltac:(lia)) as Hpr.
    pose proof (parts_fit_next K _ ts0 t ts ltac:(lia) Hfit) as Hroom.
    pose proof (parts_fit_app _ _ _ _ Hfit) as Hfit0.
    set (q := partition_of (key t) K) in *. set (c := Z.of_nat (length (part K q ts0))) in *.
    assert (0 <= c) as Hc0 by (unfold c; lia).
    assert (c + 1 < 2 ^ 32) as Hc32 by (consts; lia).
    destruct (inner_idx_eq q c) as [Hidx _]; [lia|lia|].
    destruct (IH (ts0 ++ [t]) (e <| inner_counts ::= <[q := u32 (c + 1)]> |>)
      (put (q * GRACE_INNER_SLOT_WORDS + c * 2) t mm) p (rcv + 1)) as (e' & mm' & Hr & Hc' & Ho' & Hp').
    + exact (counted_incr _ K ts0 t HK Hc32 Hc).
    + apply (partitioned_put mm 0 GRACE_INNER_SLOT_WORDS); consts; try lia; try done.
      * intros x Hx. specialize (Hfit0 x Hx). consts. lia.
      * fold q c. lia.
    + by rewrite <- app_assoc.
    + done.
    + exists e', mm'. rewrite <- app_assoc in Hc', Hp'.
      split_and!; [|done|by rewrite Ho'|done].
      cbn [length build_inner_tuple_loop]. unfold tuples_bytes. cbn [fmap list_fmap concat].
      eapply talks_read; [by apply talks_reads, reads_tuple|]. cbn beta zeta. fold q.
      eapply (talks_quiet _ _ _ _ _ c).
      { unfold count_get. replace (0 <=? q) with true by lia.
        replace (q <? GRACE_MAX_K) with true by lia. cbn [andb]. rewrite (Hc q) by lia.
        apply talks_ret. }
      cbn beta. replace (HT_MAX_ROWS <=? c) with false by lia.
      fold (inner_idx q c). rewrite Hidx.
      eapply talks_quiet; [apply talks_pack_tuple; rewrite <- Hidx; apply inner_slot_in; lia|].
      replace (u32 (u32 rcv + 1)) with (u32 (rcv + 1)) by (symmetry; apply add32_u32).
      replace (rcv + Z.of_nat (S (length ts))) with (rcv + 1 + Z.of_nat (length ts)) by lia.
      exact Hr.
Qed.

(** The rows of one OUTER_DATA frame; the inner partitions stay. *)
Lemma outer_tuples_ok kt inner ts : forall ts0 e mm p rcv,
  counted (outer_counts e) K ts0 -> partitioned mm GRACE_OUTER_AREA_BASE W K ts0 ->
  partitioned mm 0 GRACE_INNER_SLOT_WORDS K inner -> parts_fit K HT_MAX_ROWS inner ->
  parts_fit K (W / GRACE_WORDS_PER_TUPLE) (ts0 ++ ts) -> Forall (tuple_wf kt) ts ->
  exists e' mm',
    talks g (build_outer_tuple_loop (length ts) kt K W (u32 rcv) e) (tuples_bytes kt ts) (p, mm)
      (ERR_NONE, u32 (rcv + Z.of_nat (length ts)), e') [] (p, mm') /\
    counted (outer_counts e') K (ts0 ++ ts) /\ inner_counts e' = inner_counts e /\
    partitioned mm' GRACE_OUTER_AREA_BASE W K (ts0 ++ ts) /\
    partitioned mm' 0 GRACE_INNER_SLOT_WORDS K inner.
Proof using layout.
  pose proof layout_K as HK. pose proof layout as (_ & HW & _).
  pose proof (layout_width _ _ layout) as HW32.
  assert (2 * (W / 2) <= W) as HW2 by (apply Z.mul_div_le; lia).
  induction ts as [|t ts IH]; intros ts0 e mm p rcv Hc Hp Hin Hif Hfit Hwf.
  - exists e, mm. rewrite app_nil_r, Z.add_0_r. split_and!; try done. apply talks_ret.
  - apply Forall_cons in Hwf as [Ht Hwf].
    pose proof (partition_of_range (key t) K ltac:(lia)) as Hpr.
    pose proof (parts_fit_next K _ ts0 t ts ltac:(lia) Hfit) as Hroom.
    pose proof (parts_fit_app _ _ _ _ Hfit) as Hfit0.
    set (q := partition_of (key t) K) in *. set (c := Z.of_nat (length (part K q ts0))) in *.
    assert (0 <= c) as Hc0 by (unfold c; lia).
    assert (c + 1 < 2 ^ 32) as Hc32 by (consts; lia).
    destruct (outer_idx_eq K W q c) as [Hidx [Hlo Hhi]]; [done|lia|lia|].
    destruct (IH (ts0 ++ [t]) (e <| outer_counts ::= <[q := u32 (c + 1)]> |>)
      (put (GRACE_OUTER_AREA_BASE + q * W + c * 2) t mm) p (rcv + 1))
      as (e' & mm' & Hr & Hc' & Ho' & Hp' & Hin').
    + exact (counted_incr _ K ts0 t HK Hc32 Hc).
    + apply (partitioned_put mm GRACE_OUTER_AREA_BASE W); consts; try lia; try done.
      * intros x Hx. specialize (Hfit0 x Hx). consts. lia.
      * fold q c. lia.
    + apply partitioned_put_out; try done.
      * intros x Hx. specialize (Hif x Hx). consts. lia.
      * rewrite Hidx in Hlo. consts. lia.
    + done.
    + by rewrite <- app_assoc.
    + done.
    + exists e', mm'. rewrite <- app_assoc in Hc', Hp'.
      split_and!; [|done|by rewrite Ho'|done|done].
      cbn [length build_outer_tuple_loop]. unfold tuples_bytes. cbn [fmap list_fmap concat].
      eapply talks_read; [by apply talks_reads, reads_tuple|]. cbn beta zeta. fold q.
      eapply (talks_quiet _ _ _ _ _ c).
      { unfold count_get. replace (0 <=? q) with true by lia.
        replace (q <? GRACE_MAX_K) with true by lia. cbn [andb]. rewrite (Hc q) by lia.
        apply talks_ret. }
      cbn beta. replace (W / GRACE_WORDS_PER_TUPLE <=? c) with false by lia.
      fold (outer_idx W q c). rewrite Hidx.
      eapply talks_quiet; [apply talks_pack_tuple; rewrite <- Hidx; apply (outer_slot_in K); [done|lia..]|].
      replace (u32 (u32 rcv + 1)) with (u32 (rcv + 1)) by (symmetry; apply add32_u32).
      replace (rcv + Z.of_nat (S (length ts))) with (rcv + 1 + Z.of_nat (length ts)) by lia.
      exact Hr.
Qed.

Lemma inner_frames_ok kt it sid cs : forall ts0 e mm p m,
  counted (inner_counts e) K ts0 -> partitioned mm 0 GRACE_INNER_SLOT_WORDS K ts0 ->
  parts_fit K HT_MAX_ROWS (ts0 ++ concat cs) ->
  Forall (wide_frame_ok kt) cs -> Forall (.≠ []) cs ->
  Z.of_nat (length (ts0 ++ concat cs)) = it -> it < 2 ^ 32 ->
  exists e' mm',
    talks g (build_inner_frame_loop (length cs + S m) it kt K sid (Z.of_nat (length ts0)) e)
      (inner_bytes kt cs) (p, mm) (ERR_NONE, e')
      (grace_acks PHASE_BUILDING it sid (Z.of_nat (length ts0)) cs) (p, mm') /\
    counted (inner_counts e') K (ts0 ++ concat cs) /\ outer_counts e' = outer_counts e /\
    partitioned mm' 0 GRACE_INNER_SLOT_WORDS K (ts0 ++ concat cs).
Proof using layout.
  induction cs as [|ts cs IH]; intros ts0 e mm p m Hc Hp Hfit Hok Hne Hit Hmax.
  - simpl in *. rewrite app_nil_r in *. exists e, mm. split_and!; try done.
    cbn [length Nat.add build_inner_frame_loop].
    replace (it <=? Z.of_nat (length ts0)) with true by lia. apply talks_ret.
  - apply Forall_cons in Hok as [[Hlen Hwf] Hok]. apply Forall_cons in Hne as [Hn Hne].
    cbn [concat] in *. rewrite (app_assoc ts0) in *.
    assert (0 < length ts)%nat as Hpos by (destruct ts; [done|simpl; lia]).
    destruct (inner_tuples_ok kt ts ts0 e mm p (Z.of_nat (length ts0)))
      as (e1 & mm1 & Hr1 & Hc1 & Ho1 & Hp1); try done; [by eapply parts_fit_app|].
    destruct (IH (ts0 ++ ts) e1 mm1 p m) as (e2 & mm2 & Hr2 & Hc2 & Ho2 & Hp2); try done.
    exists e2, mm2. split_and!; try done; [|by rewrite Ho2].
    rewrite !length_app in Hit. unfold inner_bytes. cbn [fmap list_fmap concat grace_acks].
    rewrite !u32_small in Hr1 by (unfold is_u32; lia).
    replace (Z.of_nat (length ts0) + Z.of_nat (length ts))
      with (Z.of_nat (length (ts0 ++ ts))) in * by (rewrite length_app; lia).
    cbn [length Nat.add build_inner_frame_loop].
    replace (it <=? Z.of_nat (length ts0)) with false by lia.
    unfold pg_bytes at 1, header_bytes. rewrite <- !app_assoc.
    eapply (talks_read _ _ [_]); [apply talks_reads, reads_byte, msg_code_byte|]. cbn beta.
    apply header_read. rewrite u16_small by (unfold is_u16; lia). codes. rewrite Nat2Z.id.
    eapply talks_read; [exact Hr1|]. cbn [err_ok].
    eapply (talks_emit _ _ _ _ _ _ _ [_]); [apply talks_emits, emits_ack|]. exact Hr2.
Qed.

Lemma outer_frames_ok kt inner ot sid cs : forall ts0 e mm p m,
  counted (outer_counts e) K ts0 -> partitioned mm GRACE_OUTER_AREA_BASE W K ts0 ->
  partitioned mm 0 GRACE_INNER_SLOT_WORDS K inner -> parts_fit K HT_MAX_ROWS inner ->
  parts_fit K (W / GRACE_WORDS_PER_TUPLE) (ts0 ++ concat cs) ->
  Forall (wide_frame_ok kt) cs -> Forall (.≠ []) cs ->
  Z.of_nat (length (ts0 ++ concat cs)) = ot -> ot < 2 ^ 32 ->
  exists e' mm',
    talks g (build_outer_frame_loop (length cs + S m) ot kt K W sid (Z.of_nat (length ts0)) e)
      (outer_bytes kt cs) (p, mm) (ERR_NONE, e')
      (grace_acks PHASE_PROBING ot sid (Z.of_nat (length ts0)) cs) (p, mm') /\
    counted (outer_counts e') K (ts0 ++ concat cs) /\ inner_counts e' = inner_counts e /\
    partitioned mm' GRACE_OUTER_AREA_BASE W K (ts0 ++ concat cs) /\
    partitioned mm' 0 GRACE_INNER_SLOT_WORDS K inner.
Proof using layout.
  induction cs as [|ts cs IH]; intros ts0 e mm p m Hc Hp Hin Hif Hfit Hok Hne Hit Hmax.
  - simpl in *. rewrite app_nil_r in *. exists e, mm. split_and!; try done.
    cbn [length Nat.add build_outer_frame_loop].
    replace (ot <=? Z.of_nat (length ts0)) with true by lia. apply talks_ret.
  - apply Forall_cons in Hok as [[Hlen Hwf] Hok]. apply Forall_cons in Hne as [Hn Hne].
    cbn [concat] in *. rewrite (app_assoc ts0) in *.
    assert (0 < length ts)%nat as Hpos by (destruct ts; [done|simpl; lia]).
    destruct (outer_tuples_ok kt inner ts ts0 e mm p (Z.of_nat (length ts0)))
      as (e1 & mm1 & Hr1 & Hc1 & Ho1 & Hp1 & Hin1); try done; [by eapply parts_fit_app|].
    destruct (IH (ts0 ++ ts) e1 mm1 p m) as (e2 & mm2 & Hr2 & Hc2 & Ho2 & Hp2 & Hin2); try done.
    exists e2, mm2. split_and!; try done; [|by rewrite Ho2].
    rewrite !length_app in Hit. unfold outer_bytes. cbn [fmap list_fmap concat grace_acks].
    rewrite !u32_small in Hr1 by (unfold is_u32; lia).
    replace (Z.of_nat (length ts0) + Z.of_nat (length ts))
      with (Z.of_nat (length (ts0 ++ ts))) in * by (rewrite length_app; lia).
    cbn [length Nat.add build_outer_frame_loop].
    replace (ot <=? Z.of_nat (length ts0)) with false by lia.
    unfold pg_bytes at 1, header_bytes. rewrite <- !app_assoc.
    eapply (talks_read _ _ [_]); [apply talks_reads, reads_byte, msg_code_byte|]. cbn beta.
    apply header_read. rewrite u16_small by (unfold is_u16; lia). codes. rewrite Nat2Z.id.
    eapply talks_read; [exact Hr1|]. cbn [err_ok].
    eapply (talks_emit _ _ _ _ _ _ _ [_]); [apply talks_emits, emits_ack|]. exact Hr2.
Qed.

(** *** Joining one partition *)

Lemma join_build_ok q ts : forall ts0 h h' p mm,
  0 <= q < GRACE_MAX_K -> holds mm (q * GRACE_INNER_SLOT_WORDS) (ts0 ++ ts) ->
  Z.of_nat (length (ts0 ++ ts)) <= HT_MAX_ROWS -> Forall (fun t => tid_wf (tid t)) ts ->
  build_all ts h = Some h' ->
  talks g (join_build_loop (length ts) q (Z.of_nat (length ts0)) h) [] (p, mm) (ERR_NONE, h') []
    (p, mm).
Proof.
  induction ts as [|t ts IH]; intros ts0 h h' p mm Hq Hh Hl Hwf Hb;
    cbn [length join_build_loop build_all] in *.
  - injection Hb as <-. apply talks_ret.
  - apply Forall_cons in Hwf as [Ht Hwf]. rewrite length_app in Hl. simpl in Hl.
    destruct (inner_idx_eq q (Z.of_nat (length ts0))) as [Hidx _]; [done|lia|].
    eapply (talks_quiet _ _ _ _ _ t).
    + fold (inner_idx q (Z.of_nat (length ts0))). apply talks_unpack_tuple; [|rewrite Hidx|done].
      * apply inner_slot_in; [done|lia].
      * apply Hh. by rewrite list_lookup_middle.
    + cbn beta. destruct (build (key t) (tid t) h) as [[e st] h1]. destruct (err_ok e); [|done].
      replace (Z.of_nat (length ts0) + 1) with (Z.of_nat (length (ts0 ++ [t])))
        by (rewrite length_app; simpl; lia).
      apply IH; try done; rewrite <- app_assoc; [done|]. rewrite length_app. simpl. lia.
Qed.

Lemma join_probe_ok q inner h ts : forall ts0 cnt matched buf p mm,
  0 <= q < K -> holds mm (GRACE_OUTER_AREA_BASE + q * W) (ts0 ++ ts) ->
  Z.of_nat (length (ts0 ++ ts)) <= W / GRACE_WORDS_PER_TUPLE ->
  Forall (fun t => tid_wf (tid t)) ts -> ht_rep h inner ->
  0 <= cnt < TX_BUF_SIZE -> 0 <= matched -> matched + Z.of_nat (length ts) < 2 ^ 32 ->
  exists cnt' buf' fs',
    talks g (join_probe_loop (length ts) q (Z.of_nat (length ts0)) W h cnt matched buf) [] (p, mm)
      (cnt', matched + Z.of_nat (length (hash_join inner ts)), buf') fs' (p, mm) /\
    0 <= cnt' < TX_BUF_SIZE /\ Forall grace_frame fs' /\
    results_of fs' ++ buf_pairs buf' (Z.to_nat cnt') =
      buf_pairs buf (Z.to_nat cnt) ++ hash_join inner ts.
Proof using layout.
  induction ts as [|t ts IH]; intros ts0 cnt matched buf p mm Hq Hh Hl Hwf Hr Hc Hm0 Hm;
    cbn [length join_probe_loop] in *.
  - exists cnt, buf, []. rewrite Z.add_0_r, app_nil_r. split_and!; try done; try lia. apply talks_ret.
  - apply Forall_cons in Hwf as [Ht Hwf]. rewrite length_app in Hl. simpl in Hl. 
    destruct (outer_idx_eq K W q (Z.of_nat (length ts0)) layout) as [Hidx _]; [done|lia|].
    assert (Z.of_nat (length ts0) + 1 = Z.of_nat (length (ts0 ++ [t]))) as Hn
      by (rewrite length_app; simpl; lia).
    assert (forall A (k : Tuple -> M dev A) b fs,
      talks g (k t) [] (p, mm) b fs (p, mm) ->
      talks g (unpack_tuple (outer_idx W q (Z.of_nat (length ts0))) ≫= k) [] (p, mm) b fs (p, mm))
      as Hread.
    { intros A k b fs Hk. eapply talks_quiet; [|exact Hk].
      apply talks_unpack_tuple; [by apply (outer_slot_in K); [|lia|lia]|rewrite Hidx|done].
      apply Hh. by rewrite list_lookup_middle. }
    assert (holds mm (GRACE_OUTER_AREA_BASE + q * W) ((ts0 ++ [t]) ++ ts)) as Hh'
      by (by rewrite <- app_assoc).
    assert (Z.of_nat (length ((ts0 ++ [t]) ++ ts)) <= W / GRACE_WORDS_PER_TUPLE) as Hl'
      by (rewrite !length_app; simpl; lia).
    pose proof (probe_rep h inner (key t) Hr) as Hpr.
    change (t :: ts) with ([t] ++ ts). rewrite hash_join_app.
    unfold hash_join at 1 3, match_row. cbn [omap list_omap].
    destruct (first_match (key t) inner) as [it|]; cbn [mbind option_bind list_omap omap].
    + set (pr := mkPair it (tid t)).
      assert (buf_pairs (<[cnt := pr]> buf) (Z.to_nat (cnt + 1)) =
              buf_pairs buf (Z.to_nat cnt) ++ [pr]) as Hbuf.
      { replace (Z.to_nat (cnt + 1)) with (S (Z.to_nat cnt)) by lia.
        rewrite <- (Z2Nat.id cnt) at 1 by lia. apply buf_pairs_insert. }
      set (cnt1 := if cnt + 1 =? TX_BUF_SIZE then 0 else cnt + 1).
      set (fs1 := if cnt + 1 =? TX_BUF_SIZE
                  then [FResult (buf_pairs (<[cnt := pr]> buf) (Z.to_nat (cnt + 1)))] else []).
      destruct (IH (ts0 ++ [t]) cnt1 (matched + 1) (<[cnt := pr]> buf) p mm)
        as (cnt' & buf' & fs' & Hrun & Hc' & Hf' & Hres); try done; try lia.
      { unfold cnt1. consts. destruct (Z.eqb_spec (cnt + 1) 256); lia. }
      exists cnt', buf', (fs1 ++ fs'). split_and!; try lia.
      * apply Hread. rewrite Hpr. unfold buf_set.
        replace (0 <=? cnt) with true by lia. replace (cnt <? TX_BUF_SIZE) with true by lia.
        cbn [andb]. eapply talks_quiet; [apply talks_ret|]. cbn beta zeta.
        rewrite u16_small by (unfold is_u16; consts; lia). rewrite u32_small by (unfold is_u32; lia).
        change (u16 TX_BUF_SIZE) with TX_BUF_SIZE.
        replace (matched + Z.of_nat (length ([pr] ++ hash_join inner ts)))
          with (matched + 1 + Z.of_nat (length (hash_join inner ts))) by (simpl; lia).
        unfold fs1, cnt1 in *. rewrite Hn.
        destruct (Z.eqb_spec (cnt + 1) TX_BUF_SIZE) as [He|].
        -- eapply talks_emit; [apply talks_emits, emits_results; lia|]. exact Hrun.
        -- exact Hrun.
      * apply Forall_app_2; [|done]. unfold fs1. destruct (Z.eqb_spec (cnt + 1) TX_BUF_SIZE); [|done].
        constructor; [|done]. simpl. rewrite length_buf_pairs. lia.
      * rewrite results_of_app, <- app_assoc, Hres. unfold fs1, cnt1.
        rewrite (app_assoc _ [pr]), <- Hbuf.
        destruct (Z.eqb_spec (cnt + 1) TX_BUF_SIZE); [|done]. by rewrite results_single.
    + destruct (IH (ts0 ++ [t]) cnt matched buf p mm)
        as (cnt' & buf' & fs' & Hrun & Hc' & Hf' & Hres); try done; try lia.
      exists cnt', buf', fs'. split_and!; try done; try lia.
      apply Hread. rewrite Hpr, Hn. exact Hrun.
Qed.

(** *** All partitions *)

Lemma part_wf (Q : Tuple -> Prop) q ts : Forall Q ts -> Forall Q (part K q ts).
Proof.
  intros HQ. apply Forall_forall. intros t Ht. apply list_elem_of_filter in Ht as [_ Ht].
  by eapply Forall_forall in HQ.
Qed.

Lemma join_partitions_ok inner outer e mm p n : forall q h matched buf,
  counted (inner_counts e) K inner -> partitioned mm 0 GRACE_INNER_SLOT_WORDS K inner ->
  parts_fit K HT_MAX_ROWS inner ->
  counted (outer_counts e) K outer -> partitioned mm GRACE_OUTER_AREA_BASE W K outer ->
  parts_fit K (W / GRACE_WORDS_PER_TUPLE) outer ->
  Forall (fun t => tid_wf (tid t)) inner -> Forall (fun t => tid_wf (tid t)) outer ->
  (forall x, 0 <= x < K -> table_accepts (part K x inner)) ->
  0 <= q -> q + Z.of_nat n <= K -> 0 <= matched ->
  matched + Z.of_nat (length (concat ((fun x => part K x outer) <$> seqZ q (Z.of_nat n)))) < 2 ^ 32 ->
  let rows := concat ((fun x => hash_join (part K x inner) (part K x outer)) <$> seqZ q (Z.of_nat n)) in
  exists h' buf' fs',
    talks g (join_partition_loop n q W e h matched buf) [] (p, mm)
      (ERR_NONE, matched + Z.of_nat (length rows), h', buf') fs' (p, mm) /\
    Forall grace_frame fs' /\ results_of fs' = rows.
Proof using layout.
  pose proof layout_K as HK. induction n as [|n IH];
    intros q h matched buf Hci Hpi Hfi Hco Hpo Hfo Hwi Hwo Hta Hq Hqn Hm0 Hm rows;
    cbn [join_partition_loop].
  - exists h, buf, []. unfold rows. simpl. rewrite Z.add_0_r. split_and!; [apply talks_ret|done|done].
  - unfold rows. rewrite Nat2Z.inj_succ in *. rewrite seqZ_cons in * by lia.
    rewrite Z.pred_succ in *. rewrite !fmap_cons in *. cbn [concat] in *. rewrite length_app in Hm.
    destruct (table_accepts_reset _ h (Hta q ltac:(lia))) as [h1 Hb].
    pose proof (build_all_rep _ _ _ _ (ht_rep_reset h) Hb) as Hrep. simpl in Hrep.
    specialize (Hfi q ltac:(lia)) as Hfiq. specialize (Hfo q ltac:(lia)) as Hfoq.
    destruct (join_probe_ok q (part K q inner) h1 (part K q outer) [] 0 matched buf p mm)
      as (cnt1 & buf1 & fs1 & Hr1 & Hc1 & Hf1 & Hres1); [lia|apply (Hpo q); lia|done|by apply part_wf|done|by consts|lia|lia|].
    set (fs2 := if 0 <? cnt1 then [FResult (buf_pairs buf1 (Z.to_nat cnt1))] else []).
    pose proof (length_hash_join (part K q inner) (part K q outer)) as Hlj.
    destruct (IH (Z.succ q) h1 (matched + Z.of_nat (length (hash_join (part K q inner) (part K q outer)))) buf1)
      as (h' & buf' & fs3 & Hr3 & Hf3 & Hres3); try done; try lia.
    exists h', buf', (fs1 ++ fs2 ++ fs3). split_and!.
    + eapply (talks_quiet _ _ _ _ _ (Z.of_nat (length (part K q inner)))).
      { unfold count_get. replace (0 <=? q) with true by lia.
        replace (q <? GRACE_MAX_K) with true by lia. cbn [andb]. rewrite Hci by lia. apply talks_ret. }
      cbn beta. rewrite Nat2Z.id.
      eapply talks_quiet.
      { apply (join_build_ok q _ [] (reset h) h1); try done; try lia; [|by apply part_wf].
        specialize (Hpi q ltac:(lia)). exact Hpi. }
      cbn [err_ok].
      eapply (talks_quiet _ _ _ _ _ (Z.of_nat (length (part K q outer)))).
      { unfold count_get. replace (0 <=? q) with true by lia.
        replace (q <? GRACE_MAX_K) with true by lia. cbn [andb]. rewrite Hco by lia. apply talks_ret. }
      cbn beta. rewrite Nat2Z.id.
      eapply talks_emit; [exact Hr1|]. cbn beta iota.
      eapply talks_emit.
      { apply talks_emits. unfold mwhen, fs2. destruct (Z.ltb_spec 0 cnt1);
          [apply emits_results; lia|apply emits_nil]. }
      rewrite length_app, Nat2Z.inj_add, Z.add_assoc. exact Hr3.
    + repeat apply Forall_app_2; try done. unfold fs2.
      destruct (Z.ltb_spec 0 cnt1); [|done]. constructor; [|done]. simpl. rewrite length_buf_pairs. lia.
    + rewrite !results_of_app, Hres3, app_assoc. f_equal. rewrite <- (app_nil_l (hash_join _ _)).
      change [] with (buf_pairs buf (Z.to_nat 0)). rewrite <- Hres1. f_equal. unfold fs2.
      destruct (Z.ltb_spec 0 cnt1); [by rewrite results_single|].
      by replace cnt1 with 0 by lia.
Qed.
End phases.

(** ** The session *)

(** Partition count and outer slot width, without wrap-around. *)
Definition grace_K (inner_count : Z) : Z := Z.max 1 ((inner_count + HT_MAX_ROWS - 1) / HT_MAX_ROWS).
Definition grace_W (inner_count outer_count : Z) : Z :=
  (outer_count / grace_K inner_count + 1) * GRACE_WORDS_PER_TUPLE * 2.

(** An algorithm-B request that fits DDR2, whose partitions fit their slots and
    the hash table. *)
Record grace_request_ok (c : ConfigurePayload) (ins outs : list (list Tuple)) : Prop := {
  gq_wf : configure_wf c;
  gq_alg : cp_algorithm c = alg_code ALGORITHM_B;
  gq_ins : Forall (wide_frame_ok (cp_key_type c)) ins;
  gq_ins_ne : Forall (.≠ []) ins;
  gq_outs : Forall (wide_frame_ok (cp_key_type c)) outs;
  gq_outs_ne : Forall (.≠ []) outs;
  gq_inner : cp_inner_count c = Z.of_nat (length (concat ins));
  gq_outer : cp_outer_count c = Z.of_nat (length (concat outs));
  gq_capacity : cp_inner_count c <= GRACE_MAX_INNER_ROWS;
  gq_ddr2 : layout_ok (grace_K (cp_inner_count c)) (grace_W (cp_inner_count c) (cp_outer_count c));
  gq_inner_fit : parts_fit (grace_K (cp_inner_count c)) HT_MAX_ROWS (concat ins);
  gq_outer_fit : parts_fit (grace_K (cp_inner_count c))
    (grace_W (cp_inner_count c) (cp_outer_count c) / GRACE_WORDS_PER_TUPLE) (concat outs);
  gq_table : forall p, 0 <= p < grace_K (cp_inner_count c) ->
    table_accepts (part (grace_K (cp_inner_count c)) p (concat ins)) }.

(** The capacity checks let such a request through. *)
Lemma check_config_grace k c :
  let K := grace_K (cp_inner_count c) in
  let W := grace_W (cp_inner_count c) (cp_outer_count c) in
  configure_wf c -> cp_algorithm c = alg_code ALGORITHM_B ->
  cp_inner_count c <= GRACE_MAX_INNER_ROWS -> layout_ok K W ->
  check_config (configured k c) = mret ((configured k c) <| k_K := K |> <| k_outer_slot_w := W |>).
Proof.
  intros K W (_ & _ & _ & Hi & Ho & _) Ha Hcap Hl. pose proof Hl as (HK & HW & Hfit).
  pose proof (layout_width _ _ Hl) as HW32. unfold is_u32 in *.
  unfold check_config. change (k_algorithm (configured k c)) with (cp_algorithm c).
  change (k_inner_total (configured k c)) with (cp_inner_count c).
  change (k_outer_total (configured k c)) with (cp_outer_count c). rewrite Ha.
  change (alg_code ALGORITHM_B =? alg_code ALGORITHM_A) with false.
  change (alg_code ALGORITHM_B =? alg_code ALGORITHM_B) with true. cbn iota.
  replace (GRACE_MAX_INNER_ROWS <? cp_inner_count c) with false by lia. cbn zeta. consts.
  rewrite (u32_small (cp_inner_count c + 12288)), (u32_small (cp_inner_count c + 12288 - 1))
    by (unfold is_u32; lia).
  assert ((if (cp_inner_count c + 12288 - 1) / 12288 =? 0 then 1
           else (cp_inner_count c + 12288 - 1) / 12288) = K) as ->.
  { unfold K, grace_K. consts.
    assert (0 <= (cp_inner_count c + 12288 - 1) / 12288) by (apply Z.div_pos; lia).
    destruct (Z.eqb_spec ((cp_inner_count c + 12288 - 1) / 12288) 0); lia. }
  assert (0 <= cp_outer_count c / K) as Hq by (apply Z.div_pos; lia).
  assert (W = (cp_outer_count c / K + 1) * 2 * 2) as HWe by done.
  rewrite (u32_small (cp_outer_count c / K + 1)), (u32_small ((_ + 1) * 2)), (u32_small (_ * 2 * 2))
    by (unfold is_u32; lia).
  rewrite <- HWe.
  assert (0 <= K * W) by nia.
  rewrite (u64_small (K * W)), u64_small by (unfold is_u64; lia).
  replace (16777216 <? 6291456 + K * W) with false by lia. done.
Qed.

(** A correct request has fewer outer rows than DDR2 has words. *)
Lemma outer_rows_bound ic oc :
  0 <= oc -> layout_ok (grace_K ic) (grace_W ic oc) -> oc < 2 ^ 24.
Proof.
  intros Ho (HK & HW & Hfit). unfold grace_W in *. consts. set (K := grace_K ic) in *.
  assert (oc < K * (oc / K + 1)) by (pose proof (Z.mul_succ_div_gt oc K); lia). nia.
Qed.

Section session.
Context (g : nat -> Z) (timely_g : timely g) (dbg : bool) (rtl : RtlTiming).

Lemma grace_acks_frames ph total sid rcv cs :
  Forall grace_frame (grace_acks ph total sid rcv cs) /\ results_of (grace_acks ph total sid rcv cs) = [].
Proof.
  revert rcv. induction cs as [|ts cs IH]; intros rcv; cbn [grace_acks]; [done|].
  destruct (IH (rcv + Z.of_nat (length ts))) as [Hf Hr]. split; [by constructor|exact Hr].
Qed.

Lemma counted_reset e :
  counted (inner_counts (reset_counts (Z.to_nat GRACE_MAX_K) 0 e)) 1 [] /\
  counted (outer_counts (reset_counts (Z.to_nat GRACE_MAX_K) 0 e)) 1 [].
Proof.
  split; intros q Hq; destruct (reset_counts_zero (Z.to_nat GRACE_MAX_K) 0 e q) as [E1 E2];
    rewrite ?E1, ?E2, decide_True; consts; try done; lia.
Qed.

Lemma counted_nil cnt K K' : counted cnt K [] -> counted cnt K' [].
Proof. done. Qed.

Lemma partitioned_nil mm B W K : partitioned mm B W K [].
Proof. by intros q Hq i t Hi. Qed.

Lemma wide_frames_tids kt cs :
  Forall (wide_frame_ok kt) cs -> Forall (fun t => tid_wf (tid t)) (concat cs).
Proof.
  induction 1 as [|ts cs [_ Hwf] _ IH]; [constructor|]. apply Forall_app_2; [|done].
  eapply Forall_impl; [exact Hwf|]. by intros t [].
Qed.

Lemma build_inner_ok K W kt it sid ins e p mm :
  layout_ok K W -> it = Z.of_nat (length (concat ins)) -> it < 2 ^ 32 - 2 ->
  Forall (wide_frame_ok kt) ins -> Forall (.≠ []) ins -> parts_fit K HT_MAX_ROWS (concat ins) ->
  exists e' mm',
    talks g (build_inner_partitions it kt K sid e) (inner_bytes kt ins) (p, mm) (ERR_NONE, e')
      (grace_acks PHASE_BUILDING it sid 0 ins) (p, mm') /\
    counted (inner_counts e') K (concat ins) /\ counted (outer_counts e') K [] /\
    partitioned mm' 0 GRACE_INNER_SLOT_WORDS K (concat ins).
Proof.
  intros Hl Hit Hmax Hok Hne Hfit. unfold build_inner_partitions.
  destruct (counted_reset e) as [Hci Hco].
  set (e0 := reset_counts _ 0 e) in *. clearbody e0.
  pose proof (length_concat_ge _ Hne) as Hlc.
  assert (exists m, Z.to_nat (u32 (it + 1) + 1) = (length ins + S m)%nat) as [m ->].
  { exists (Z.to_nat (it + 1) - length ins)%nat. rewrite u32_small by (unfold is_u32; lia). lia. }
  destruct (inner_frames_ok g K W Hl kt it sid ins [] e0 mm p m) as (e1 & mm1 & Hr & Hc & Ho & Hp);
    [exact Hci|apply partitioned_nil|done|done|done|done|lia|].
  exists e1, mm1. split_and!; [done|done| |done]. rewrite Ho. exact Hco.
Qed.

Lemma build_outer_ok K W kt ot sid inner outs e p mm :
  layout_ok K W -> ot = Z.of_nat (length (concat outs)) -> ot < 2 ^ 32 - 2 ->
  counted (outer_counts e) K [] -> partitioned mm 0 GRACE_INNER_SLOT_WORDS K inner ->
  parts_fit K HT_MAX_ROWS inner ->
  Forall (wide_frame_ok kt) outs -> Forall (.≠ []) outs ->
  parts_fit K (W / GRACE_WORDS_PER_TUPLE) (concat outs) ->
  exists e' mm',
    talks g (build_outer_partitions ot kt K W sid e) (outer_bytes kt outs) (p, mm) (ERR_NONE, e')
      (grace_acks PHASE_PROBING ot sid 0 outs) (p, mm') /\
    counted (outer_counts e') K (concat outs) /\ inner_counts e' = inner_counts e /\
    partitioned mm' GRACE_OUTER_AREA_BASE W K (concat outs) /\
    partitioned mm' 0 GRACE_INNER_SLOT_WORDS K inner.
Proof.
  intros Hl Hot Hmax Hco Hp Hif Hok Hne Hfit. unfold build_outer_partitions.
  pose proof (length_concat_ge _ Hne) as Hlc.
  assert (exists m, Z.to_nat (u32 (ot + 1) + 1) = (length outs + S m)%nat) as [m ->].
  { exists (Z.to_nat (ot + 1) - length outs)%nat. rewrite u32_small by (unfold is_u32; lia). lia. }
  destruct (outer_frames_ok g K W Hl kt inner ot sid outs [] e mm p m)
    as (e1 & mm1 & Hr & Hc & Ho & Hpo & Hpi);
    [exact Hco|apply partitioned_nil|done|done|done|done|done|done|lia|].
  exists e1, mm1. by split_and!.
Qed.

(** The three phases of algorithm B. *)
Lemma algorithm_b_ok c ins outs k p mm :
  let K := grace_K (cp_inner_count c) in
  let W := grace_W (cp_inner_count c) (cp_outer_count c) in
  let rows := grace_join K (concat ins) (concat outs) in
  grace_request_ok c ins outs ->
  setup k = (cp_algorithm c, cp_key_type c, cp_inner_count c, cp_outer_count c, cp_session_id c, false) ->
  k_K k = K -> k_outer_slot_w k = W ->
  exists k' fs mm',
    talks g (algorithm_b k) (inner_bytes (cp_key_type c) ins ++ outer_bytes (cp_key_type c) outs)
      (p, mm) k' fs (probing_regs p, mm') /\
    Forall grace_frame fs /\ results_of fs = rows /\
    setup k' = setup k /\ k_matched k' = Z.of_nat (length rows).
Proof.
  intros K W rows Hrq Hsu HK HW.
  destruct Hrq as [Hwf Halg Hins Hine Houts Hone Hic Hoc Hcap Hl Hifit Hofit Hta].
  fold K W in Hl, Hifit, Hofit, Hta. pose proof Hsu as Hsu'. unfold setup in Hsu'.
  injection Hsu' as _ Hkt Hit Hot Hsid Hsd. destruct Hwf as (_ & _ & _ & Hi32 & Ho32 & _).
  pose proof (outer_rows_bound _ _ (proj1 Ho32) Hl) as Hob. pose proof (layout_K _ _ Hl) as HKr.
  destruct (build_inner_ok K W (cp_key_type c) (cp_inner_count c) (cp_session_id c) ins (k_grace k) p mm)
    as (e1 & mm1 & Hr1 & Hci & Hco & Hp1); try done; [consts; lia|].
  destruct (build_outer_ok K W (cp_key_type c) (cp_outer_count c) (cp_session_id c) (concat ins) outs e1
    (probing_regs p) mm1) as (e2 & mm2 & Hr2 & Hco2 & Hie & Hpo & Hpi); try done; [lia|].
  assert (Z.of_nat (Z.to_nat K) = K) as HKn by lia.
  destruct (join_partitions_ok g K W Hl (concat ins) (concat outs) e2 mm2 (probing_regs p) (Z.to_nat K)
    0 (k_ht k) 0 (k_result_buf k)) as (h3 & buf3 & fs3 & Hr3 & Hf3 & Hres3);
    [by rewrite Hie|done|done|done|done|done|by eapply wide_frames_tids|by eapply wide_frames_tids
    |done|lia|lia|lia| |].
  { rewrite HKn, concat_parts by lia. lia. }
  rewrite HKn, Z.add_0_l in Hr3. rewrite HKn in Hres3.
  destruct (grace_acks_frames PHASE_BUILDING (cp_inner_count c) (cp_session_id c) 0 ins) as [Hf1 Hres1].
  destruct (grace_acks_frames PHASE_PROBING (cp_outer_count c) (cp_session_id c) 0 outs) as [Hf2 Hres2].
  set (fs1 := grace_acks PHASE_BUILDING _ _ _ _) in *. set (fs2 := grace_acks PHASE_PROBING _ _ _ _) in *.
  set (k1 := k <| k_grace := e1 |>). set (k2 := k1 <| k_grace := e2 |>).
  exists (k2 <| k_matched := Z.of_nat (length rows) |> <| k_ht := h3 |> <| k_result_buf := buf3 |>),
    (fs1 ++ fs2 ++ fs3), mm2.
  split_and!; [|by repeat apply Forall_app_2|by rewrite !results_of_app, Hres1, Hres2, Hres3|done|done].
  unfold algorithm_b. rewrite Hit, Hkt, HK, Hsid.
  eapply talks_bind; [exact Hr1|]. cbn beta iota. fold k1.
  eapply talks_quiet; [apply talks_ret|]. cbn beta.
  change (k_session_done k1) with (k_session_done k). rewrite Hsd. cbn iota.
  eapply talks_quiet; [apply talks_set_status|]. cbn beta.
  change (k_outer_total k1) with (k_outer_total k). change (k_keytype k1) with (k_keytype k).
  change (k_K k1) with (k_K k). change (k_outer_slot_w k1) with (k_outer_slot_w k).
  change (k_session_id k1) with (k_session_id k). change (k_grace k1) with e1.
  rewrite Hot, Hkt, HK, HW, Hsid.
  eapply talks_eq; [eapply talks_bind; [exact Hr2|]|apply app_nil_r|done]. cbn beta iota. fold k2.
  eapply talks_quiet; [apply talks_ret|]. cbn beta.
  change (k_session_done k2) with (k_session_done k). rewrite Hsd. cbn iota.
  change (k_K k2) with (k_K k). change (k_outer_slot_w k2) with (k_outer_slot_w k).
  change (k_grace k2) with e2. rewrite HK, HW. unfold join_all_partitions.
  eapply talks_eq; [eapply talks_emit; [exact Hr3|]|done|apply app_nil_r]. cbn beta iota.
  apply talks_ret.
Qed.

Lemma configure_b k c p mm :
  let K := grace_K (cp_inner_count c) in
  let W := grace_W (cp_inner_count c) (cp_outer_count c) in
  configure_wf c -> cp_algorithm c = alg_code ALGORITHM_B ->
  cp_inner_count c <= GRACE_MAX_INNER_ROWS -> layout_ok K W -> k_session_done k = false ->
  exists k',
    talks g (configure dbg k) (pg_bytes (cp_key_type c) (PConfigure c)) (p, mm) k'
      (configure_replies dbg c) (building_regs p c, mm) /\
    setup k' = (cp_algorithm c, cp_key_type c, cp_inner_count c, cp_outer_count c,
                cp_session_id c, false) /\ k_K k' = K /\ k_outer_slot_w k' = W.
Proof using timely_g.
  intros K W Hwf Halg Hcap Hl Hsd.
  set (k1 := (configured k c) <| k_K := K |> <| k_outer_slot_w := W |>).
  eexists. split.
  - rewrite <- (app_nil_r (pg_bytes _ _)). eapply leads_talks; [by apply configure_leads|].
    rewrite (check_config_grace k c) by done. fold K W k1.
    eapply talks_quiet; [apply talks_ret|]. cbn beta.
    change (k_session_done k1) with (k_session_done k). rewrite Hsd. cbn iota.
    eapply talks_quiet; [apply talks_set_status|]. cbn beta iota zeta.
    eapply talks_eq; [eapply talks_emit; [apply talks_emits, emits_ack|apply talks_ret]|done|done].
  - split_and!; try done. unfold setup. by rewrite <- Hsd at 1.
Qed.

(** The whole session for a correct request. *)
Lemma session_grace_joins c ins outs k p mm :
  let rows := grace_join (grace_K (cp_inner_count c)) (concat ins) (concat outs) in
  grace_request_ok c ins outs ->
  exists k' fs mm',
    talks g (session dbg rtl k) (request_bytes c ins outs) (p, mm) k'
      (fs ++ [FStatus (status_of PHASE_DONE 0 (Z.of_nat (length rows)) 0 (cp_session_id c))])
      (done_regs p (Z.of_nat (length rows)), mm') /\
    Forall grace_frame fs /\ results_of fs = rows.
Proof using timely_g.
  intros rows Hrq. pose proof Hrq as [Hwf Halg _ _ _ _ _ _ Hcap Hl _ _ _].
  set (p0 := p <| status_reg := phase_code PHASE_IDLE |>
               <| error_code_reg := err_code ERR_NONE |> <| result_count_reg := 0 |>).
  destruct (configure_b (session_init k) c p0 mm Hwf Halg Hcap Hl eq_refl)
    as (k1 & Hr1 & Hsu1 & HK1 & HW1).
  destruct (algorithm_b_ok c ins outs k1 (building_regs p0 c) mm Hrq Hsu1 HK1 HW1)
    as (k2 & fs2 & mm2 & Hr2 & Hf2 & Hres2 & Hsu2 & Hm2).
  fold rows in Hres2, Hm2. rewrite Hsu1 in Hsu2. unfold setup in Hsu1, Hsu2.
  injection Hsu1 as Ha1 _ _ _ _ Hsd1. injection Hsu2 as Ha2 _ _ _ Hsid2 Hsd2.
  set (d0 := debug_frames dbg DBG_INFO DBG_IDLE_ENTER 0).
  set (d1 := debug_frames dbg DBG_INFO DBG_PROBE_DONE (Z.of_nat (length rows))).
  assert (forall l cd v, Forall grace_frame (debug_frames dbg l cd v) /\
    results_of (debug_frames dbg l cd v) = []) as Hdbg by (intros; destruct dbg; by repeat constructor).
  exists (k2 <| k_timing := k_timing k2 |>), (d0 ++ configure_replies dbg c ++ fs2 ++ d1), mm2.
  split_and!.
  - unfold session, request_bytes.
    eapply talks_quiet; [apply talks_set_status|]. eapply talks_quiet; [apply talks_set_error|].
    eapply talks_quiet; [apply talks_set_result_count|].
    rewrite <- !(app_assoc d0), <- !app_assoc.
    eapply talks_emit; [apply talks_emits, emits_debug|].
    eapply talks_bind; [exact Hr1|]. cbn beta. rewrite Hsd1, Ha1, Halg.
    change (alg_code ALGORITHM_B =? alg_code ALGORITHM_B) with true. cbn [negb andb].
    eapply talks_eq; [eapply talks_bind; [exact Hr2|]|apply app_nil_r|done]. cbn beta.
    rewrite Hsd2, Ha2, Halg. change (alg_code ALGORITHM_B =? alg_code ALGORITHM_A) with false.
    cbn [negb andb]. eapply talks_quiet; [apply talks_ret|]. cbn beta. rewrite Hsd2.
    unfold final_status. rewrite Hm2, Ha2, Halg, Hsid2.
    change (alg_code ALGORITHM_B =? alg_code ALGORITHM_A) with false. cbn iota zeta.
    eapply talks_emit; [apply talks_emits, emits_debug|].
    eapply talks_quiet; [apply talks_set_status|].
    eapply talks_quiet; [apply talks_set_result_count|].
    eapply talks_quiet; [apply talks_set_error|].
    eapply talks_quiet; [apply talks_ret|].
    eapply talks_eq; [eapply talks_emit; [apply talks_emits, emits_status|apply talks_ret]|done|done].
  - repeat apply Forall_app_2; try apply Hdbg; try done. repeat constructor.
  - unfold configure_replies, d0, d1. rewrite !results_of_app, Hres2.
    rewrite (proj2 (Hdbg DBG_INFO DBG_IDLE_ENTER 0)), (proj2 (Hdbg DBG_INFO DBG_CONFIGURE _)),
      (proj2 (Hdbg DBG_INFO DBG_PROBE_DONE _)).
    change (results_of [FAck _]) with (@nil ResultPair). apply app_nil_r.
Qed.
End session.

(** ** Properties *)

(** C5: fed in time with a correct algorithm-B request, a session consumes
    exactly its bytes and emits acknowledgements and result batches whose pairs
    are a permutation of the equi-join of the inner and outer rows, then
    STATUS(DONE) with the match count. *)
Theorem grace_session_joins (g : nat -> Z) (dbg : bool) (rtl : RtlTiming) (c : ConfigurePayload)
    (ins outs : list (list Tuple)) (k : kst) (p : regs) (mm : gmap Z Z) :
  timely g -> grace_request_ok c ins outs -> keys_unique (concat ins) ->
  exists k' fs mm' rows,
    talks g (session dbg rtl k) (request_bytes c ins outs) (p, mm) k'
      (fs ++ [FStatus (status_of PHASE_DONE 0 (Z.of_nat (length rows)) 0 (cp_session_id c))])
      (done_regs p (Z.of_nat (length rows)), mm') /\
    Forall grace_frame fs /\ results_of fs = rows /\
    rows ≡ₚ nested_join (concat ins) (concat outs).
Proof.
  intros Hg Hrq Hu. pose proof (gq_ddr2 _ _ _ Hrq) as Hl.
  destruct (session_grace_joins g Hg dbg rtl c ins outs k p mm Hrq) as (k' & fs & mm' & Hr & Hf & Hres).
  eexists k', fs, mm', _. split_and!; [exact Hr|done|done|].
  rewrite grace_join_perm by (pose proof (layout_K _ _ Hl); lia).
  by rewrite hash_join_nested.
Qed.

(** A request of algorithm B: K = 1, rows in two frames each way. *)
Definition example_grace : ConfigurePayload := mkConfigure 1 2 512 3 2 9.
Definition example_grace_ins : list (list Tuple) :=
  [[mkTuple 5 (mkTid 10 1); mkTuple (-6) (mkTid 11 1)]; [mkTuple (2 ^ 40) (mkTid 12 1)]].
Definition example_grace_outs : list (list Tuple) :=
  [[mkTuple (2 ^ 40) (mkTid 20 1)]; [mkTuple 9 (mkTid 21 1)]].

Lemma length_part K p ts : (length (part K p ts) <= length ts)%nat.
Proof. unfold part. apply length_filter. Qed.

Lemma example_grace_ok : grace_request_ok example_grace example_grace_ins example_grace_outs.
Proof.
  constructor; try (repeat constructor; done).
  - intros q _. pose proof (length_part (grace_K 3) q (concat example_grace_ins)) as Hl.
    simpl in *. consts. lia.
  - intros q _. change (grace_W _ _ / GRACE_WORDS_PER_TUPLE) with 6.
    pose proof (length_part (grace_K 3) q (concat example_grace_outs)) as Hl. simpl in *. lia.
  - intros q _. apply table_accepts_small.
    pose proof (length_part (grace_K 3) q (concat example_grace_ins)) as Hl. simpl in *. consts. lia.
Qed.

Lemma grace_session_joins_witness :
  exists k' fs mm' rows,
    talks (fun _ => 3) (session true rtl_none kst_static)
      (request_bytes example_grace example_grace_ins example_grace_outs) (mkRegs 0 0 0 0 0, ∅) k'
      (fs ++ [FStatus (status_of PHASE_DONE 0 (Z.of_nat (length rows)) 0 9)])
      (done_regs (mkRegs 0 0 0 0 0) (Z.of_nat (length rows)), mm') /\
    Forall grace_frame fs /\ results_of fs = rows /\ rows ≡ₚ [mkPair (mkTid 12 1) (mkTid 20 1)].
Proof.
  apply (grace_session_joins (fun _ => 3) true rtl_none example_grace example_grace_ins
           example_grace_outs kst_static (mkRegs 0 0 0 0 0) ∅).
  - intros i. unfold RX_WATCHDOG_CYCLES. lia.
  - exact example_grace_ok.
  - by apply (bool_decide_unpack _).
Defined.

(** C32: DDR2 keeps tuples exactly.  A tuple packed at an in-range word is read
    back unchanged, and unpacking it elsewhere is not affected: slots two words
    apart do not overlap. *)
Theorem pack_unpack_roundtrip (t t' : Tuple) (idx idx' : Z) (d : dev) :
  tid_wf (tid t) -> tid_wf (tid t') -> slot_in_ddr2 idx -> slot_in_ddr2 idx' ->
  idx + 1 < idx' \/ idx' + 1 < idx ->
  (pack_tuple (key t) (tid t) idx ;; pack_tuple (key t') (tid t') idx' ;;
   a ← unpack_tuple idx; b ← unpack_tuple idx'; mret (a, b)) d =
  Ret (t, t') (d <| ddr2 := put idx' t' (put idx t (ddr2 d)) |>).
Proof.
  intros Ht Ht' [H0 H1] [H0' H1'] Hne. destruct d as [i o p mm].
  unfold pack_tuple, unpack_tuple, ddr2_write, ddr2_read, in_ddr2, mbind, M_bind, mret, M_ret. consts.
  replace (0 <=? idx) with true by lia. replace (idx <? 16777216) with true by lia.
  replace (0 <=? idx + 1) with true by lia. replace (idx + 1 <? 16777216) with true by lia.
  replace (0 <=? idx') with true by lia. replace (idx' <? 16777216) with true by lia.
  replace (0 <=? idx' + 1) with true by lia. replace (idx' + 1 <? 16777216) with true by lia.
  cbn. fold (put idx t mm). fold (put idx' t' (put idx t mm)).
  destruct (stored_put_ne idx' idx t' t (put idx t mm) ltac:(lia) (stored_put _ _ _)) as [-> ->].
  destruct (stored_put idx' t' (put idx t mm)) as [-> ->].
  rewrite !unpack_pack_tid by done. by destruct t, t'.
Qed.

Lemma pack_unpack_roundtrip_witness :
  exists d',
    (pack_tuple (-7) (mkTid 4294967295 65535) 10 ;; pack_tuple 8 (mkTid 1 2) 12 ;;
     a ← unpack_tuple 10; b ← unpack_tuple 12; mret (a, b)) (mkDev [] [] (mkRegs 0 0 0 0 0) ∅) =
    Ret (mkTuple (-7) (mkTid 4294967295 65535), mkTuple 8 (mkTid 1 2)) d'.
Proof.
  eexists.
  apply (pack_unpack_roundtrip (mkTuple (-7) (mkTid 4294967295 65535)) (mkTuple 8 (mkTid 1 2)) 10 12
           (mkDev [] [] (mkRegs 0 0 0 0 0) ∅)).
  - split; done.
  - split; done.
  - split; done.
  - split; done.
  - left. lia.
Defined.

(** The DDR2 capacity check of CONFIGURE can be passed by wrap-around.  With
    one inner row and an announced outer count of 2^32 - 1 the 32-bit slot width
    wraps to 0 and the request is accepted, although its outer slot would need
    far more words than DDR2 has. *)
Theorem capacity_check_wraps (k : kst) (d : dev) :
  let k1 := k <| k_algorithm := alg_code ALGORITHM_B |> <| k_inner_total := 1 |>
              <| k_outer_total := 2 ^ 32 - 1 |> in
  check_config k1 d = Ret (k1 <| k_K := 1 |> <| k_outer_slot_w := 0 |>) d /\
  ~ layout_ok (grace_K 1) (grace_W 1 (2 ^ 32 - 1)).
Proof.
  split; [reflexivity|]. intros (_ & _ & Hfit). by apply Hfit.
Qed.

(** Algorithm B has no watchdog inside a session: after CONFIGURE, and again after the
    build rows, it waits through a silence of any length, where algorithm A gives up
    after [RX_WATCHDOG_CYCLES]. *)
Definition grace_config : ConfigurePayload := mkConfigure (alg_code ALGORITHM_B) 1 512 1 1 7.

Theorem grace_has_no_watchdog (n : Z) :
  Forall (fun bs => exists d,
      session false rtl_none kst_static
        (mkDev (feed (fun _ => 0) 0 bs [RxSilence n]) [] (mkRegs 0 0 0 0 0) ∅) = Blocked d /\ rx d = [RxSilence n])
    [pg_bytes 1 (PConfigure grace_config);
     pg_bytes 1 (PConfigure grace_config) ++ inner_bytes 1 [[mkTuple 5 (mkTid 10 1)]]].
Proof.
  repeat (apply Forall_cons_2); [..|apply Forall_nil_2].
  all: eexists; split; [vm_compute; reflexivity|reflexivity].
Qed.

(** In its probe phase RESET is answered with ACK(IDLE) with zero counters, and
    CONFIGURE with ERROR(BAD_STATE). *)
Lemma grace_probe_aborts :
  Forall (fun '(bs, f) =>
      match session false rtl_none kst_static
        (mkDev (feed (fun _ => 0) 0 (pg_bytes 1 (PConfigure grace_config) ++
           inner_bytes 1 [[mkTuple 5 (mkTid 10 1)]] ++ bs) []) [] (mkRegs 0 0 0 0 0) ∅) with
      | Ret _ d => drop (length (tx d) - length (axis_frames [f])) (tx d) = axis_frames [f]
      | _ => False
      end)
    [(pg_bytes 1 PReset, FAck (status_of PHASE_IDLE 0 0 0 7));
     (msg_code MSG_CONFIGURE :: le_bytes 2 1, FError (err_code ERR_BAD_STATE))].
Proof. repeat (apply Forall_cons_2); [..|apply Forall_nil_2]; vm_compute; reflexivity. Qed.
