(* ===== verification/Serializer.v ===== *)
(** The host's frame writer, [host/src/tuple_serializer.cpp], and the proof that
    the kernel's stream readers get back what it wrote.

    [JoinConfig] is the host structure of [host/include/fpga_types.hpp]; its
    [InputTuple] is [Tuple].  The key type is kept as the byte it is cast from. *)
From S2P Require Import Prelude Types Stream Wire.

Record JoinConfig := mkJoinConfig { algorithm : Z; key_type : Z }.

(** ** Byte helpers *)

Definition put_u8 (out : list Z) (v : Z) : list Z := out ++ [u8 v].

Definition put_u16 (out : list Z) (v : Z) : list Z :=
  let out := out ++ [u8 v] in
  out ++ [u8 (Z.shiftr v 8)].

Definition put_u32 (out : list Z) (v : Z) : list Z :=
  let out := out ++ [u8 v] in
  let out := out ++ [u8 (Z.shiftr v 8)] in
  let out := out ++ [u8 (Z.shiftr v 16)] in
  out ++ [u8 (Z.shiftr v 24)].

Definition put_i32 (out : list Z) (v : Z) : list Z := put_u32 out (u32 v).

Definition put_i64 (out : list Z) (v : Z) : list Z :=
  let u := u64 v in
  foldl (fun out i => out ++ [u8 (Z.shiftr u (8 * i))]) out (seqZ 0 8).

Definition put_tid (out : list Z) (t : Tid) : list Z :=
  put_u16 (put_u32 out (blkno t)) (offno t).

Definition put_tuple (kt : Z) (out : list Z) (t : Tuple) : list Z :=
  let out := if kt =? key_code KEY_INT32 then put_i32 out (i32 (key t)) else put_i64 out (key t) in
  put_tid out (tid t).

(** ** Frames *)

Definition serialize_configure (cfg : JoinConfig) (inner_count outer_count session_id : Z)
  : list Z :=
  let out := put_u8 [] (msg_code MSG_CONFIGURE) in
  let out := put_u16 out 1 in
  let out := put_u8 out (algorithm cfg) in
  let out := put_u8 out (u8 (key_type cfg)) in
  let out := put_u16 out (u16 RX_CREDIT_TUPLES) in
  let out := put_u32 out inner_count in
  let out := put_u32 out outer_count in
  put_u8 out session_id.

(** [for (i = 0; i < limit; ++i) put_tuple(payload, tuples[i])]: [None] when the
    array is shorter than [limit]. *)
Fixpoint put_tuples (kt : Z) (payload : list Z) (limit : nat) (tuples : list Tuple)
  : option (list Z) :=
  match limit, tuples with
  | O, _ => Some payload
  | S limit, t :: tuples => put_tuples kt (put_tuple kt payload t) limit tuples
  | S _, [] => None
  end.

Definition serialize_batch (kt : Z) (msg : MsgType) (tuples : list Tuple) (count max_count : nat)
  : option (list Z) :=
  let limit := (count `min` max_count)%nat in
  if (limit =? 0)%nat then Some []
  else
    payload ← put_tuples kt [] limit tuples;
    let out := put_u8 [] (msg_code msg) in
    let out := put_u16 out (u16 (Z.of_nat limit)) in
    Some (out ++ payload).

(** ** Against the wire format *)

(** The key a tuple carries on the wire. *)
Definition narrow (kt k : Z) : Z := if kt =? key_code KEY_INT32 then i32 k else i64 k.
Definition narrow_tuple (kt : Z) (t : Tuple) : Tuple := mkTuple (narrow kt (key t)) (tid t).

Definition known_key_type (kt : Z) : Prop := kt = key_code KEY_INT32 \/ kt = key_code KEY_INT64.

Lemma put_u8_bytes out v : put_u8 out v = out ++ le_bytes 1 v.
Proof. done. Qed.

Lemma put_u16_bytes out v : put_u16 out v = out ++ le_bytes 2 v.
Proof.
  unfold put_u16, u8. simpl. rewrite <- app_assoc, Z.shiftr_div_pow2 by lia. done.
Qed.

Lemma put_u32_bytes out v : put_u32 out v = out ++ le_bytes 4 v.
Proof.
  unfold put_u32, u8. simpl. rewrite <- !app_assoc, !Z.shiftr_div_pow2, !Z.div_div by lia. done.
Qed.

Lemma put_i32_bytes out v : put_i32 out v = out ++ le_bytes 4 v.
Proof.
  unfold put_i32. rewrite put_u32_bytes. unfold u32.
  change (2 ^ 32) with (256 ^ Z.of_nat 4). by rewrite le_bytes_mod.
Qed.

Lemma put_i64_bytes out v : put_i64 out v = out ++ le_bytes 8 v.
Proof.
  rewrite <- (le_bytes_mod 8 v). change (256 ^ Z.of_nat 8) with (2 ^ 64). fold (u64 v).
  unfold put_i64. generalize (u64 v). intros u. change (seqZ 0 8) with [0;1;2;3;4;5;6;7].
  unfold u8. simpl. rewrite <- !app_assoc, !Z.shiftr_div_pow2, !Z.div_div by lia.
  simpl. by rewrite Z.div_1_r.
Qed.

Lemma put_tid_bytes out t : put_tid out t = out ++ tid_bytes t.
Proof. unfold put_tid, tid_bytes. by rewrite put_u32_bytes, put_u16_bytes, <- app_assoc. Qed.

Lemma le_bytes_i32 k : le_bytes 4 (i32 k) = le_bytes 4 k.
Proof.
  rewrite <- (le_bytes_mod 4 k), <- (le_bytes_mod 4 (i32 k)). f_equal.
  unfold i32, signed. change (256 ^ Z.of_nat 4) with (2 ^ 32).
  destruct (_ <? _); [by rewrite Z.mod_mod|].
  rewrite <- (Z.mod_add _ 1), Z.mul_1_l, Z.sub_add, Z.mod_mod by lia. done.
Qed.

Lemma le_bytes_i64 k : le_bytes 8 (i64 k) = le_bytes 8 k.
Proof.
  rewrite <- (le_bytes_mod 8 k), <- (le_bytes_mod 8 (i64 k)). f_equal.
  unfold i64, signed. change (256 ^ Z.of_nat 8) with (2 ^ 64).
  destruct (_ <? _); [by rewrite Z.mod_mod|].
  rewrite <- (Z.mod_add _ 1), Z.mul_1_l, Z.sub_add, Z.mod_mod by lia. done.
Qed.

Lemma put_tuple_bytes kt out t :
  known_key_type kt -> put_tuple kt out t = out ++ tuple_bytes kt (narrow_tuple kt t).
Proof.
  intros [-> | ->]; unfold put_tuple, tuple_bytes, narrow_tuple, narrow, key_bytes, is_int64;
    cbn -[le_bytes i32 i64 put_tid put_i32 put_i64 tid_bytes].
  - by rewrite put_tid_bytes, put_i32_bytes, <- app_assoc.
  - by rewrite put_tid_bytes, put_i64_bytes, <- app_assoc, le_bytes_i64.
Qed.

Lemma put_tuples_bytes kt ts : forall limit payload,
  known_key_type kt -> (limit <= length ts)%nat ->
  put_tuples kt payload limit ts =
  Some (payload ++ tuples_bytes kt (narrow_tuple kt <$> take limit ts)).
Proof.
  induction ts as [|t ts IH]; intros [|limit] payload Hkt Hl; simpl in *; try lia.
  - by rewrite app_nil_r.
  - by rewrite app_nil_r.
  - rewrite IH by (done || lia). rewrite put_tuple_bytes, <- app_assoc by done. done.
Qed.

Lemma narrow_wf kt k : known_key_type kt -> key_wf kt (narrow kt k).
Proof. intros [-> | ->]; [apply i32_range|apply i64_range]. Qed.

Lemma narrow_id kt k : known_key_type kt -> key_wf kt k -> narrow kt k = k.
Proof. intros [-> | ->] Hk; [by apply i32_small|by apply i64_small]. Qed.

Lemma narrow_tuple_wf kt t : known_key_type kt -> tid_wf (tid t) -> tuple_wf kt (narrow_tuple kt t).
Proof. intros. split; [by apply narrow_wf|done]. Qed.

Lemma narrow_tuples_id kt ts :
  known_key_type kt -> Forall (tuple_wf kt) ts -> narrow_tuple kt <$> ts = ts.
Proof.
  intros Hkt. induction 1 as [|[k t] ts [Hk _] _ IH]; [done|].
  rewrite fmap_cons, IH. unfold narrow_tuple. simpl in *. by rewrite narrow_id.
Qed.

(** A batch is the data frame of its first [count] tuples. *)
Lemma serialize_batch_bytes kt m ts n :
  known_key_type kt -> (0 < n <= length ts)%nat -> Z.of_nat n < 2 ^ 16 ->
  serialize_batch kt m ts n n =
  Some (header_bytes m (Z.of_nat n) ++ tuples_bytes kt (narrow_tuple kt <$> take n ts)).
Proof.
  intros Hkt Hn Hm. unfold serialize_batch. rewrite Nat.min_id.
  destruct (Nat.eqb_spec n 0); [lia|]. rewrite put_tuples_bytes by (done || lia).
  cbn [mbind option_bind app]. rewrite put_u16_bytes, u16_small by (unfold is_u16; lia). unfold put_u8, u8.
  rewrite Z.mod_small by (destruct m; simpl; lia). done.
Qed.

Lemma serialize_configure_bytes cfg ic oc sid :
  is_byte (algorithm cfg) -> is_byte (key_type cfg) -> is_byte sid ->
  serialize_configure cfg ic oc sid =
  pg_bytes (key_type cfg)
    (PConfigure (mkConfigure (algorithm cfg) (key_type cfg) RX_CREDIT_TUPLES ic oc sid)).
Proof.
  intros Ha Hk Hs. unfold serialize_configure.
  rewrite !put_u32_bytes, !put_u16_bytes. unfold put_u8.
  rewrite !(u8_small (key_type cfg)), !(u8_small (algorithm cfg)), !(u8_small sid) by done.
  done.
Qed.

(** ** Claims *)

(** The kernel's view of a data frame: type, count and that many tuples. *)
Fixpoint rx_tuples (kt : Z) (n : nat) : M dev (list Tuple) :=
  match n with
  | O => mret []
  | S n => t ← rx_tuple kt; ts ← rx_tuples kt n; mret (t :: ts)
  end.

Definition rx_data_frame (kt : Z) : M dev (Z * list Tuple) :=
  ty ← rx_byte; n ← rx_u16; ts ← rx_tuples kt (Z.to_nat n); mret (ty, ts).

Lemma reads_tuples kt ts :
  Forall (tuple_wf kt) ts -> reads (rx_tuples kt (length ts)) (tuples_bytes kt ts) ts.
Proof.
  unfold tuples_bytes. induction 1 as [|t ts Ht _ IH]; [apply reads_ret|]. simpl.
  eapply reads_bind; [by apply reads_tuple|].
  rewrite <- (app_nil_r (concat _)). eapply reads_bind; [apply IH|apply reads_ret].
Qed.

(** C10: whatever rows the host passes, a non-empty batch of [count] of them is
    read back by the kernel's readers, byte for byte and whatever the arrival
    times, as the message type and those rows, with the key reduced to the width
    of the configured key type; a batch of no rows is the empty string, and a
    CONFIGURE frame is read back as the configuration with the host's credit. *)
Theorem serialized_frames_read_back kt m ts n cfg ic oc sid :
  known_key_type kt -> Forall (fun t => tid_wf (tid t)) ts ->
  (0 < n <= length ts)%nat -> Z.of_nat n < 2 ^ 16 ->
  is_byte (algorithm cfg) -> is_byte (key_type cfg) -> is_byte sid ->
  (exists bs, serialize_batch kt m ts n n = Some bs /\
     reads (rx_data_frame kt) bs (msg_code m, narrow_tuple kt <$> take n ts)) /\
  serialize_batch kt m ts n 0 = Some [] /\
  serialize_configure cfg ic oc sid =
    header_bytes MSG_CONFIGURE 1 ++
    configure_bytes (mkConfigure (algorithm cfg) (key_type cfg) RX_CREDIT_TUPLES ic oc sid).
Proof.
  intros Hkt Hts Hn Hm Ha Hk Hs. split_and!; [| |by apply serialize_configure_bytes].
  2: { unfold serialize_batch. by rewrite Nat.min_0_r. }
  rewrite serialize_batch_bytes by done. eexists; split; [done|].
  unfold header_bytes. rewrite <- app_comm_cons.
  apply reads_byte_cons; [destruct m; unfold is_byte; simpl; lia|].
  eapply reads_bind; [apply reads_u16|]. rewrite u16_small, Nat2Z.id by (unfold is_u16; lia).
  rewrite <- (app_nil_r (tuples_bytes _ _)). eapply reads_bind; [|apply reads_ret].
  assert (n = length (narrow_tuple kt <$> take n ts)) as Hl
    by (rewrite length_fmap, length_take; lia).
  rewrite Hl at 1. apply reads_tuples, Forall_fmap.
  eapply Forall_impl; [apply Forall_take, Hts|]. intros. by apply narrow_tuple_wf.
Qed.

Lemma serialized_frames_read_back_witness :
  exists bs, serialize_batch (key_code KEY_INT32) MSG_INNER_DATA
               [mkTuple (2 ^ 32 + 5) (mkTid 7 1); mkTuple (-1) (mkTid 8 2)] 2 2 = Some bs /\
    reads (rx_data_frame (key_code KEY_INT32)) bs
      (2, [mkTuple 5 (mkTid 7 1); mkTuple (-1) (mkTid 8 2)]).
Proof.
  refine (proj1 (serialized_frames_read_back (key_code KEY_INT32) MSG_INNER_DATA
    [mkTuple (2 ^ 32 + 5) (mkTid 7 1); mkTuple (-1) (mkTid 8 2)] 2
    (mkJoinConfig 0 1) 1 1 1 _ _ _ _ _ _ _)).
  - by left.
  - repeat constructor; simpl; unfold is_u32, is_u16; lia.
  - simpl. lia.
  - simpl. lia.
  - unfold is_byte; simpl; lia.
  - unfold is_byte; simpl; lia.
  - unfold is_byte; lia.
Defined.
