(* ===== verification/Transport.v ===== *)
(** The transport interface of the host library ([host/include/transport.hpp])
    and its test double ([host/include/mock_transport.hpp]).

    Host code runs in the monad [H S A]: a value, a C++ exception with the state
    reached, or [Spin], a loop whose step bound was used up.  [Transport] is
    [ITransport]; [LawfulTransport] states the contract of its header comment for
    the bytes still to be delivered ([incoming]), and [PromptTransport] adds that
    a receive fails only when there is nothing to deliver.  The decoder and the
    client are proved against these classes. *)
From stdpp Require Import strings.
From S2P Require Import Prelude Types.

(** ** Exceptions and the host monad *)

(** The [FpgaException]s the client throws itself. *)
Inductive fpga_failure :=
| ZeroCreditBuild | ZeroCreditProbe | BuildAckStalled | ProbeAckStalled
| FinalDrainNotDone | MatchedMismatch (status results : Z) | ResetNotIdle
| AdapterFailure (what : string).

Inductive exn :=
| TransportError
| PartialFrame
| BadCount (m : MsgType) (got : Z)
| OversizedResult (got : Z)
| UnknownMsgType (b : Z)
| FpgaException (what : fpga_failure)
| FpgaTimeoutException
| FpgaErrorException (code : Z)
| ArrayOverrun.

Inductive hres (S A : Type) : Type :=
| Done (a : A) (s : S)
| Throw (e : exn) (s : S)
| Spin.
Arguments Done {S A} a s.
Arguments Throw {S A} e s.
Arguments Spin {S A}.

Definition H (S A : Type) : Type := S -> hres S A.

#[global] Instance H_ret {S} : MRet (H S) := fun A a s => Done a s.
#[global] Instance H_bind {S} : MBind (H S) := fun A B k m s =>
  match m s with
  | Done a s' => k a s'
  | Throw e s' => Throw e s'
  | Spin => Spin
  end.

Definition throw {S A} (e : exn) : H S A := fun s => Throw e s.
Definition spin {S A} : H S A := fun _ => Spin.
Definition hget {S} : H S S := fun s => Done s s.
Definition hmodify {S} (f : S -> S) : H S unit := fun s => Done tt (f s).
Definition hwhen {S} (b : bool) (m : H S unit) : H S unit := if b then m else mret tt.

Section host_monad.
Context {S A B : Type}.

Lemma hbind_Done (m : H S A) (k : A -> H S B) s a s' :
  m s = Done a s' -> (m ≫= k) s = k a s'.
Proof. unfold mbind, H_bind. by intros ->. Qed.

Lemma hbind_Throw (m : H S A) (k : A -> H S B) s e s' :
  m s = Throw e s' -> (m ≫= k) s = Throw e s'.
Proof. unfold mbind, H_bind. by intros ->. Qed.

Lemma hbind_assoc {C} (m : H S A) (k : A -> H S B) (k' : B -> H S C) s :
  ((m ≫= k) ≫= k') s = (m ≫= (fun a => k a ≫= k')) s.
Proof. unfold mbind, H_bind. by destruct (m s). Qed.
End host_monad.

(** [hrun H] rewrites the head command of the goal with the equation [H]. *)
Tactic Notation "hrun" uconstr(H) :=
  erewrite hbind_Done; [|eapply H; try done]; cbn beta iota.

(** ** The interface *)

Class Transport (T : Type) := {
  send : list Z -> H T unit;
  recv : nat -> H T (list Z);
  treset : H T unit }.

(** [recv] delivers the pending bytes in order, at most [n] at a time, and may
    deliver none. *)
Class LawfulTransport (T : Type) `{Transport T} := {
  incoming : T -> list Z;
  recv_lawful n t :
    (0 < n)%nat ->
    match recv n t with
    | Done bs t' => (length bs <= n)%nat /\ bs ++ incoming t' = incoming t
    | Throw e t' => e = TransportError
    | Spin => False
    end }.

Class PromptTransport (T : Type) `{LawfulTransport T} :=
  recv_prompt n t :
    (0 < n)%nat -> exists bs t', recv n t = Done bs t' /\ (bs = [] -> incoming t = []).

(** ** MockTransport *)

Record MockTransport := mkMock {
  response_queue : list (list Z);
  recv_buf : list Z;
  sent : list Z;
  send_lengths : list nat }.

Definition mock_send (data : list Z) : H MockTransport unit :=
  hmodify (fun t => t <| sent ::= (fun s => s ++ data) |>
                      <| send_lengths ::= (fun l => l ++ [length data]) |>).

(** [while (recv_buf_.empty()) ...]: the next response that is not empty. *)
Fixpoint refill (buf : list Z) (queue : list (list Z)) : option (list Z * list (list Z)) :=
  match buf with
  | _ :: _ => Some (buf, queue)
  | [] => match queue with [] => None | front :: queue => refill front queue end
  end.

Definition mock_recv (max_len : nat) : H MockTransport (list Z) := fun t =>
  match refill (recv_buf t) (response_queue t) with
  | None => Done [] (t <| recv_buf := [] |> <| response_queue := [] |>)
  | Some (buf, queue) =>
      let n := (max_len `min` length buf)%nat in
      Done (take n buf) (t <| recv_buf := drop n buf |> <| response_queue := queue |>)
  end.

Definition mock_reset : H MockTransport unit := hmodify (fun _ => mkMock [] [] [] []).

Definition push_response (frame : list Z) : H MockTransport unit :=
  hmodify (fun t => t <| response_queue ::= (fun q => q ++ [frame]) |>).

Definition clear_sent : H MockTransport unit :=
  hmodify (fun t => t <| sent := [] |> <| send_lengths := [] |>).

Definition all_responses_consumed (t : MockTransport) : bool :=
  bool_decide (response_queue t = []) && bool_decide (recv_buf t = []).

#[global] Instance mock_transport : Transport MockTransport := {
  send := mock_send; recv := mock_recv; treset := mock_reset }.

Lemma refill_some buf queue b q :
  refill buf queue = Some (b, q) -> b <> [] /\ b ++ concat q = buf ++ concat queue.
Proof.
  revert buf. induction queue as [|f queue IH]; intros [|x buf]; simpl; intros He; simplify_eq/=;
    auto.
Qed.

Lemma refill_none buf queue : refill buf queue = None -> buf ++ concat queue = [].
Proof.
  revert buf. induction queue as [|f queue IH]; intros [|x buf]; simpl; intros He; simplify_eq/=;
    auto.
Qed.

#[global] Program Instance mock_lawful : LawfulTransport MockTransport := {
  incoming t := recv_buf t ++ concat (response_queue t) }.
Next Obligation.
  intros n t Hn. simpl. unfold mock_recv. destruct (refill _ _) as [[b q]|] eqn:He.
  - apply refill_some in He as [_ He]. split; [rewrite length_take; lia|].
    rcbn. by rewrite app_assoc, take_drop.
  - apply refill_none in He. rcbn. split; [lia|done].
Qed.

#[global] Instance mock_prompt : PromptTransport MockTransport.
Proof.
  intros n t Hn. simpl in *. unfold mock_recv. destruct (refill _ _) as [[b q]|] eqn:He.
  - apply refill_some in He as [Hb _]. destruct b as [|x b], n as [|n]; try done; try lia.
    simpl. by eexists _, _.
  - apply refill_none in He. eauto.
Qed.
