(* ===== verification/Decoder.v ===== *)
(** The host's frame reader, [host/src/result_decoder.cpp], and the proof that it
    is the inverse of the kernel's frame format over any transport, however the
    transport cuts the byte stream into pieces.

    [recv_frame] returns [None] for [MSG_NONE]; the out-parameters and the decoder
    object are passed and returned as values (an exception leaves them
    unobservable, every caller owns them locally).  [dec_log] collects the records
    the DEBUG handler passes to the logger. *)
From stdpp Require Import strings.
From S2P Require Import Prelude Types Stream Wire Transport Logger.

(** ** Data *)

Record AckInfo := mkAck {
  ack_phase : Z;
  ack_session_id : Z;
  ack_credit : Z;
  ack_rows_processed : Z;
  ack_rows_matched : Z }.
Definition ack0 : AckInfo := mkAck (phase_code PHASE_IDLE) 0 0 0 0.

Record log_entry := mkLog { log_level : LogLevel; log_code : string; log_value : Z }.

Definition dbg_code_name (c : Z) : string :=
  if c =? 1 then "IDLE_ENTER" else if c =? 2 then "CONFIGURE"
  else if c =? 3 then "BUILD_BATCH" else if c =? 4 then "BUILD_DONE"
  else if c =? 5 then "PROBE_BATCH" else if c =? 6 then "PROBE_DONE"
  else if c =? 7 then "RESET" else if c =? 8 then "BUILD_KEY"
  else if c =? 9 then "PROBE_KEY" else if c =? 10 then "PROBE_HIT"
  else if c =? 255 then "ERROR" else "UNKNOWN".

Record ResultDecoder := mkDecoder {
  has_timing : bool;
  timing_frames : Z;
  dec_timing : TimingSummaryPayload;
  dec_log : list log_entry }.
Definition decoder0 : ResultDecoder := mkDecoder false 0 timing0 [].

(** The out-parameters of [recv_frame]. *)
Record frame_out := mkOut { out_pairs : list ResultPair; out_ack : AckInfo; out_error : Z }.
Definition out0 : frame_out := mkOut [] ack0 (err_code ERR_NONE).

(** ** Field readers *)

Definition at_byte (p : list Z) (i : nat) : Z := nth i p 0.

Definition read_u16 (p : list Z) : Z :=
  Z.lor (at_byte p 0) (u16 (Z.shiftl (at_byte p 1) 8)).

Definition read_u32 (p : list Z) : Z :=
  Z.lor (Z.lor (Z.lor (at_byte p 0) (Z.shiftl (at_byte p 1) 8)) (Z.shiftl (at_byte p 2) 16))
    (Z.shiftl (at_byte p 3) 24).

Definition read_u64 (p : list Z) : Z :=
  foldl (fun v i => Z.lor v (Z.shiftl (at_byte p i) (8 * Z.of_nat i))) 0 (seq 0 8).

Definition read_tid (p : list Z) : Tid := mkTid (read_u32 p) (read_u16 (drop 4 p)).

(** [field = read_uN(p); p += N/8;] *)
Definition get16 {A} (p : list Z) (k : Z -> list Z -> A) : A := k (read_u16 p) (drop 2 p).
Definition get32 {A} (p : list Z) (k : Z -> list Z -> A) : A := k (read_u32 p) (drop 4 p).
Definition get64 {A} (p : list Z) (k : Z -> list Z -> A) : A := k (read_u64 p) (drop 8 p).

Definition parse_timing (p : list Z) : TimingSummaryPayload :=
  get16 p (fun version p =>
  get16 p (fun flags p =>
  get32 p (fun clock_hz p =>
  get32 p (fun inner_rows p =>
  get32 p (fun outer_rows p =>
  get32 p (fun matched_rows p =>
  get32 p (fun inner_frames p =>
  get32 p (fun outer_frames p =>
  get32 p (fun result_frames p =>
  get32 p (fun ack_frames p =>
  get32 p (fun debug_frames p =>
  get32 p (fun bytes_rx p =>
  get32 p (fun bytes_tx p =>
  get64 p (fun session_total_cycles p =>
  get64 p (fun config_cycles p =>
  get64 p (fun build_rx_cycles p =>
  get64 p (fun build_compute_cycles p =>
  get64 p (fun build_total_cycles p =>
  get64 p (fun probe_rx_cycles p =>
  get64 p (fun probe_compute_cycles p =>
  get64 p (fun result_emit_cycles p =>
  get64 p (fun probe_total_cycles p =>
  get64 p (fun ack_emit_cycles p =>
  get64 p (fun rx_wait_cycles p =>
  get64 p (fun tx_blocked_cycles p =>
  get64 p (fun protocol_wait_cycles p =>
  get32 p (fun max_build_batch_cycles p =>
  get32 p (fun max_probe_batch_cycles p =>
  get32 p (fun max_result_frame_cycles p =>
  get32 p (fun hash_build_inserts p =>
  get32 p (fun hash_probe_lookups p =>
  get32 p (fun hash_probe_hits p =>
  get32 p (fun hash_probe_misses p =>
  get32 p (fun hash_overflow_errors p =>
  get32 p (fun hash_build_collision_steps p =>
  get32 p (fun hash_probe_collision_steps p =>
  get16 p (fun hash_max_build_probe_distance p =>
  get16 p (fun hash_max_probe_distance p =>
  get32 p (fun hash_table_load_factor_ppm p =>
  mkTiming version flags clock_hz inner_rows outer_rows matched_rows inner_frames
    outer_frames result_frames ack_frames debug_frames bytes_rx bytes_tx
    session_total_cycles config_cycles build_rx_cycles build_compute_cycles
    build_total_cycles probe_rx_cycles probe_compute_cycles result_emit_cycles
    probe_total_cycles ack_emit_cycles rx_wait_cycles tx_blocked_cycles
    protocol_wait_cycles max_build_batch_cycles max_probe_batch_cycles
    max_result_frame_cycles hash_build_inserts hash_probe_lookups hash_probe_hits
    hash_probe_misses hash_overflow_errors hash_build_collision_steps
    hash_probe_collision_steps hash_max_build_probe_distance hash_max_probe_distance
    hash_table_load_factor_ppm))))))))))))))))))))))))))))))))))))))).

(** ** Frames *)

Section decoder.
Context `{Transport T}.

(** Every iteration receives at least one byte, so [n] of them are enough. *)
Fixpoint recv_exact_loop (fuel n : nat) : H T (list Z) :=
  if (n =? 0)%nat then mret []
  else
    match fuel with
    | O => spin
    | S fuel =>
        got ← recv n;
        match got with
        | [] => throw PartialFrame
        | _ => rest ← recv_exact_loop fuel (n - length got); mret (got ++ rest)
        end
    end.
Definition recv_exact (n : nat) : H T (list Z) := recv_exact_loop n n.

Definition require_count (got expected : Z) (m : MsgType) : H T unit :=
  hwhen (negb (got =? expected)) (throw (BadCount m got)).

Definition recv_result (count : Z) (d : ResultDecoder) (o : frame_out)
  : H T (option MsgType * ResultDecoder * frame_out) :=
  hwhen (TX_BUF_SIZE <? count) (throw (OversizedResult count)) ;;
  let n := Z.to_nat count in
  payload ← (if (12 * n =? 0)%nat then mret [] else recv_exact (12 * n));
  let pairs := (fun i => let buf := drop (12 * i) payload in
                         mkPair (read_tid buf) (read_tid (drop 6 buf))) <$> seq 0 n in
  mret (Some MSG_RESULT, d, o <| out_pairs := pairs |>).

Definition recv_status (m : MsgType) (count : Z) (d : ResultDecoder) (o : frame_out)
  : H T (option MsgType * ResultDecoder * frame_out) :=
  require_count count 1 m ;;
  buf ← recv_exact 12;
  let ack := mkAck (at_byte buf 0) (at_byte buf 1) (read_u16 (drop 2 buf))
               (read_u32 (drop 4 buf)) (read_u32 (drop 8 buf)) in
  mret (Some m, d, o <| out_ack := ack |>).

Definition recv_error (count : Z) (d : ResultDecoder) (o : frame_out)
  : H T (option MsgType * ResultDecoder * frame_out) :=
  require_count count 1 MSG_ERROR ;;
  buf ← recv_exact 1;
  mret (Some MSG_ERROR, d, o <| out_error := at_byte buf 0 |>).

Definition host_level (level : Z) : LogLevel :=
  if level =? 0 then DEBUG else if level =? 2 then WARN
  else if level =? 3 then ERROR else INFO.

Definition recv_debug (count : Z) (d : ResultDecoder) (o : frame_out)
  : H T (option MsgType * ResultDecoder * frame_out) :=
  require_count count 1 MSG_DEBUG ;;
  buf ← recv_exact 7;
  let level := at_byte buf 0 in
  let code := Z.lor (at_byte buf 1) (u16 (Z.shiftl (at_byte buf 2) 8)) in
  let value := Z.lor (Z.lor (Z.lor (at_byte buf 3) (Z.shiftl (at_byte buf 4) 8))
                 (Z.shiftl (at_byte buf 5) 16)) (Z.shiftl (at_byte buf 6) 24) in
  let entry := mkLog (host_level level) (dbg_code_name code) value in
  mret (Some MSG_DEBUG, d <| dec_log ::= (fun l => l ++ [entry]) |>, o).

Definition recv_timing (count : Z) (d : ResultDecoder) (o : frame_out)
  : H T (option MsgType * ResultDecoder * frame_out) :=
  require_count count TIMING_SUMMARY_COUNT MSG_TIMING ;;
  buf ← recv_exact (Z.to_nat TIMING_SUMMARY_BYTES);
  mret (Some MSG_TIMING,
        d <| dec_timing := parse_timing buf |> <| has_timing := true |>
          <| timing_frames ::= (fun n => u32 (n + 1)) |>, o).

(** [switch (msg)] *)
Definition recv_payload (b count : Z) (d : ResultDecoder) (o : frame_out)
  : H T (option MsgType * ResultDecoder * frame_out) :=
  if b =? msg_code MSG_RESULT then recv_result count d o
  else if b =? msg_code MSG_ACK then recv_status MSG_ACK count d o
  else if b =? msg_code MSG_STATUS then recv_status MSG_STATUS count d o
  else if b =? msg_code MSG_ERROR then recv_error count d o
  else if b =? msg_code MSG_DEBUG then recv_debug count d o
  else if b =? msg_code MSG_TIMING then recv_timing count d o
  else throw (UnknownMsgType b).

Definition recv_frame (d : ResultDecoder) (o : frame_out)
  : H T (option MsgType * ResultDecoder * frame_out) :=
  msg_type ← recv 1;
  match msg_type with
  | [] => mret (None, d, o)
  | b :: _ =>
      count_bytes ← recv_exact 2;
      recv_payload b (read_u16 count_bytes) d o
  end.
End decoder.

(** ** What a frame decodes to *)

(** The fields of a timing summary at their wire width. *)
Definition timing_norm (t : TimingSummaryPayload) : TimingSummaryPayload :=
  mkTiming (u16 (tm_version t)) (u16 (tm_flags t)) (u32 (tm_clock_hz t)) (u32 (tm_inner_rows t))
    (u32 (tm_outer_rows t)) (u32 (tm_matched_rows t)) (u32 (tm_inner_frames t)) (u32
    (tm_outer_frames t)) (u32 (tm_result_frames t)) (u32 (tm_ack_frames t)) (u32
    (tm_debug_frames t)) (u32 (tm_bytes_rx t)) (u32 (tm_bytes_tx t)) (u64
    (tm_session_total_cycles t)) (u64 (tm_config_cycles t)) (u64 (tm_build_rx_cycles t)) (u64
    (tm_build_compute_cycles t)) (u64 (tm_build_total_cycles t)) (u64 (tm_probe_rx_cycles t))
    (u64 (tm_probe_compute_cycles t)) (u64 (tm_result_emit_cycles t)) (u64
    (tm_probe_total_cycles t)) (u64 (tm_ack_emit_cycles t)) (u64 (tm_rx_wait_cycles t)) (u64
    (tm_tx_blocked_cycles t)) (u64 (tm_protocol_wait_cycles t)) (u32 (tm_max_build_batch_cycles
    t)) (u32 (tm_max_probe_batch_cycles t)) (u32 (tm_max_result_frame_cycles t)) (u32
    (tm_hash_build_inserts t)) (u32 (tm_hash_probe_lookups t)) (u32 (tm_hash_probe_hits t)) (u32
    (tm_hash_probe_misses t)) (u32 (tm_hash_overflow_errors t)) (u32
    (tm_hash_build_collision_steps t)) (u32 (tm_hash_probe_collision_steps t)) (u16
    (tm_hash_max_build_probe_distance t)) (u16 (tm_hash_max_probe_distance t)) (u32
    (tm_hash_table_load_factor_ppm t)).

Definition ack_of (s : StatusPayload) : AckInfo :=
  mkAck (sp_phase s) (sp_session_id s) (sp_credit s) (sp_rows_processed s) (sp_rows_matched s).

Definition frame_type (f : fp_frame) : MsgType :=
  match f with
  | FResult _ => MSG_RESULT | FAck _ => MSG_ACK | FStatus _ => MSG_STATUS
  | FError _ => MSG_ERROR | FDebug _ _ _ => MSG_DEBUG | FTiming _ => MSG_TIMING
  end.

Definition deliver (f : fp_frame) (d : ResultDecoder) (o : frame_out)
  : option MsgType * ResultDecoder * frame_out :=
  match f with
  | FResult ps => (Some MSG_RESULT, d, o <| out_pairs := ps |>)
  | FAck s => (Some MSG_ACK, d, o <| out_ack := ack_of s |>)
  | FStatus s => (Some MSG_STATUS, d, o <| out_ack := ack_of s |>)
  | FError e => (Some MSG_ERROR, d, o <| out_error := e |>)
  | FDebug l c v =>
      (Some MSG_DEBUG,
       d <| dec_log ::= (fun es => es ++ [mkLog (host_level l) (dbg_code_name (u16 c)) (u32 v)]) |>,
       o)
  | FTiming t =>
      (Some MSG_TIMING,
       d <| dec_timing := timing_norm t |> <| has_timing := true |>
         <| timing_frames ::= (fun n => u32 (n + 1)) |>, o)
  end.

Definition status_wf (s : StatusPayload) : Prop :=
  is_byte (sp_phase s) /\ is_byte (sp_session_id s) /\ is_u16 (sp_credit s) /\
  is_u32 (sp_rows_processed s) /\ is_u32 (sp_rows_matched s).

(** A frame the kernel can put on the wire. *)
Definition frame_wire (f : fp_frame) : Prop :=
  match f with
  | FResult ps => Z.of_nat (length ps) <= TX_BUF_SIZE /\ Forall pair_wf ps
  | FAck s | FStatus s => status_wf s
  | FError e => is_byte e
  | FDebug l _ _ => is_byte l
  | FTiming _ => True
  end.

(** Header count and payload of a frame. *)
Definition frame_count (f : fp_frame) : Z :=
  match f with FResult ps => Z.of_nat (length ps) | _ => 1 end.
Definition frame_payload (f : fp_frame) : list Z :=
  match f with
  | FResult ps => concat (pair_bytes <$> ps)
  | FAck s | FStatus s => status_bytes s
  | FError e => [e]
  | FDebug l c v => [l] ++ le_bytes 2 c ++ le_bytes 4 v
  | FTiming t => timing_bytes t
  end.

(** ** Lemmas on field readers *)

Lemma read_u16_app v rest : read_u16 (le_bytes 2 v ++ rest) = u16 v.
Proof.
  pose proof (le_bytes_byte 2 v) as Hb. pose proof (le_value_bytes 2 v) as Hv.
  unfold u16 at 1. change (2 ^ 16) with (256 ^ Z.of_nat 2). rewrite <- Hv.
  cbn [le_bytes] in *. rewrite !Forall_cons in Hb. destruct Hb as (?&?&_).
  unfold read_u16, at_byte. cbn [app nth]. by rewrite join_2.
Qed.

Lemma read_u32_app v rest : read_u32 (le_bytes 4 v ++ rest) = u32 v.
Proof.
  pose proof (le_bytes_byte 4 v) as Hb. pose proof (le_value_bytes 4 v) as Hv.
  unfold u32. change (2 ^ 32) with (256 ^ Z.of_nat 4). rewrite <- Hv.
  cbn [le_bytes] in *. unfold read_u32, at_byte. cbn [app nth]. by rewrite join_4.
Qed.

Lemma read_u64_app v rest : read_u64 (le_bytes 8 v ++ rest) = u64 v.
Proof.
  pose proof (le_bytes_byte 8 v) as Hb. pose proof (le_value_bytes 8 v) as Hv.
  unfold u64. change (2 ^ 64) with (256 ^ Z.of_nat 8). rewrite <- Hv.
  cbn [le_bytes] in *. unfold read_u64, at_byte. cbn -[Z.shiftl le_value Z.mul Z.lor].
  by rewrite <- join_8.
Qed.

Lemma get16_app {A} v rest (k : Z -> list Z -> A) : get16 (le_bytes 2 v ++ rest) k = k (u16 v) rest.
Proof. unfold get16. by rewrite read_u16_app, (drop_app_length' (le_bytes 2 v)). Qed.
Lemma get32_app {A} v rest (k : Z -> list Z -> A) : get32 (le_bytes 4 v ++ rest) k = k (u32 v) rest.
Proof. unfold get32. by rewrite read_u32_app, (drop_app_length' (le_bytes 4 v)). Qed.
Lemma get64_app {A} v rest (k : Z -> list Z -> A) : get64 (le_bytes 8 v ++ rest) k = k (u64 v) rest.
Proof. unfold get64. by rewrite read_u64_app, (drop_app_length' (le_bytes 8 v)). Qed.

Lemma parse_timing_bytes t : parse_timing (timing_bytes t) = timing_norm t.
Proof.
  rewrite <- (app_nil_r (timing_bytes t)). unfold parse_timing, timing_bytes.
  rewrite <- !app_assoc.
  repeat first [rewrite get16_app | rewrite get32_app | rewrite get64_app]. done.
Qed.

Lemma length_timing_bytes t : length (timing_bytes t) = Z.to_nat TIMING_SUMMARY_BYTES.
Proof. unfold timing_bytes. rewrite !length_app, !length_le_bytes. done. Qed.

Lemma read_tid_app t rest : tid_wf t -> read_tid (tid_bytes t ++ rest) = t.
Proof.
  intros [Hb Ho]. unfold read_tid, tid_bytes. rewrite <- app_assoc.
  rewrite read_u32_app, (drop_app_length' (le_bytes 4 _)), read_u16_app by done.
  rewrite u32_small, u16_small by done. by destruct t.
Qed.

Lemma length_tid_bytes t : length (tid_bytes t) = 6%nat.
Proof. done. Qed.

Lemma read_pairs ps :
  Forall pair_wf ps ->
  (fun i => let buf := drop (12 * i) (concat (pair_bytes <$> ps)) in
            mkPair (read_tid buf) (read_tid (drop 6 buf))) <$> seq 0 (length ps) = ps.
Proof.
  induction 1 as [|p ps [Hi Ho] _ IH]; [done|].
  cbn [length]. rewrite <- cons_seq, <- fmap_S_seq, fmap_cons, <- list_fmap_compose. f_equal.
  - rewrite fmap_cons. cbv zeta. cbn [concat]. rewrite Nat.mul_0_r, drop_0.
    change (pair_bytes p) with (tid_bytes (inner_tid p) ++ tid_bytes (outer_tid p)).
    rewrite <- !app_assoc, read_tid_app, (drop_app_length' (tid_bytes _)), read_tid_app by done.
    by destruct p.
  - rewrite <- IH at 2. apply list_fmap_ext. intros _ i _. unfold compose.
    rewrite fmap_cons. cbn [concat].
    replace (12 * S i)%nat with (length (pair_bytes p) + 12 * i)%nat
      by (unfold pair_bytes; rewrite length_app, !length_tid_bytes; lia).
    by rewrite drop_app_add.
Qed.

(** ** Receiving *)

Section receive.
Context `{LawfulTransport T}.
(** Whether a receive may fail although bytes are pending. *)
Context (lossy : Prop) (Hprompt : lossy \/ PromptTransport T).

(** [m] consumes [bs] from the transport and returns [a], or, over a lossy
    transport, throws. *)
Definition receives {A} (m : H T A) (bs : list Z) (a : A) : Prop :=
  forall t rest, incoming t = bs ++ rest ->
    match m t with
    | Done a' t' => a' = a /\ incoming t' = rest
    | Throw e _ => lossy /\ (e = TransportError \/ e = PartialFrame)
    | Spin => False
    end.

Lemma receives_bind {A B} (m : H T A) (k : A -> H T B) bs bs' a b :
  receives m bs a -> receives (k a) bs' b -> receives (m ≫= k) (bs ++ bs') b.
Proof.
  intros Hm Hk t rest Hi. rewrite <- app_assoc in Hi. specialize (Hm _ _ Hi).
  unfold mbind, H_bind. destruct (m t) as [a' t'|e t'|]; [|done..].
  destruct Hm as [-> Ht]. exact (Hk _ _ Ht).
Qed.

Lemma receives_ret {A} (a : A) : receives (mret a) [] a.
Proof. intros t rest Hi. done. Qed.

Lemma receives_last {A B} (m : H T A) (k : A -> B) bs a :
  receives m bs a -> receives (x ← m; mret (k x)) bs (k a).
Proof. intros. rewrite <- (app_nil_r bs). eapply receives_bind; [done|apply receives_ret]. Qed.

Lemma receives_exact_loop fuel bs :
  (length bs <= fuel)%nat -> receives (recv_exact_loop fuel (length bs)) bs bs.
Proof using Hprompt.
  revert bs. induction fuel as [|fuel IH]; intros [|b bs] Hf; simpl in Hf; try lia;
    try apply receives_ret.
  intros t rest Hi. change (length (b :: bs)) with (S (length bs)). cbn [recv_exact_loop].
  replace (S (length bs) =? 0)%nat with false by done.
  unfold mbind at 1, H_bind at 1.
  pose proof (recv_lawful (S (length bs)) t ltac:(lia)) as Hr.
  destruct (recv (S (length bs)) t) as [got t'|e t'|] eqn:Hg; [| |done].
  - destruct Hr as [Hlen Hc]. destruct got as [|x got].
    + simpl. destruct Hprompt as [?|Hp]; [by split; [|right]|].
      destruct (Hp (S (length bs)) t ltac:(lia)) as (? & ? & He & Hn). rewrite Hg in He.
      simplify_eq. specialize (Hn eq_refl). rewrite Hn in Hi. done.
    + rewrite Hi in Hc. assert (x :: got = take (length (x :: got)) (b :: bs)) as Hx.
      { rewrite <- (take_app_le _ rest) by (simpl in *; lia). rewrite <- Hc.
        by rewrite take_app_length. }
      set (n := length (x :: got)) in *.
      assert (incoming t' = drop n (b :: bs) ++ rest) as Ht'.
      { apply (app_inv_head (x :: got)). rewrite Hc, Hx at 1. by rewrite app_assoc, take_drop. }
      specialize (IH (drop n (b :: bs))). rewrite length_drop in IH. cbn [length] in IH.
      assert (1 <= n)%nat by (unfold n; simpl; lia).
      specialize (IH ltac:(simpl in *; lia) _ _ Ht'). unfold mbind, H_bind.
      destruct (recv_exact_loop fuel (S (length bs) - n) t') as [r t''|e t''|]; [|done..].
      destruct IH as [-> ?]. split; [|done]. by rewrite Hx, take_drop.
  - simpl. destruct Hprompt as [?|Hp]; [by split; [|left]|].
    destruct (Hp (S (length bs)) t ltac:(lia)) as (? & ? & He & _). by rewrite Hg in He.
Qed.

Lemma receives_exact n bs : length bs = n -> receives (recv_exact n) bs bs.
Proof using Hprompt. intros <-. by apply receives_exact_loop. Qed.

Lemma receives_require c m : receives (require_count c c m) [] tt.
Proof. unfold require_count. rewrite Z.eqb_refl. apply receives_ret. Qed.

Lemma receives_status m s d o :
  status_wf s ->
  receives (recv_status m 1 d o) (status_bytes s) (Some m, d, o <| out_ack := ack_of s |>).
Proof using Hprompt.
  intros (Hp & Hs & Hc & Hr & Hm). unfold recv_status.
  apply (receives_bind _ _ [] _ tt); [apply receives_require|].
  assert (mkAck (at_byte (status_bytes s) 0) (at_byte (status_bytes s) 1)
            (read_u16 (drop 2 (status_bytes s))) (read_u32 (drop 4 (status_bytes s)))
            (read_u32 (drop 8 (status_bytes s))) = ack_of s) as <-.
  { unfold ack_of. f_equal.
    - change (drop 2 (status_bytes s)) with (le_bytes 2 (sp_credit s) ++
        le_bytes 4 (sp_rows_processed s) ++ le_bytes 4 (sp_rows_matched s)).
      by rewrite read_u16_app, u16_small.
    - change (drop 4 (status_bytes s)) with (le_bytes 4 (sp_rows_processed s) ++
        le_bytes 4 (sp_rows_matched s)).
      by rewrite read_u32_app, u32_small.
    - change (drop 8 (status_bytes s)) with (le_bytes 4 (sp_rows_matched s) ++ []).
      by rewrite read_u32_app, u32_small. }
  apply (receives_last _ (fun buf => (Some m, d, o <| out_ack :=
    mkAck (at_byte buf 0) (at_byte buf 1) (read_u16 (drop 2 buf)) (read_u32 (drop 4 buf))
      (read_u32 (drop 8 buf)) |>))).
  by apply receives_exact.
Qed.

Lemma receives_result ps d o :
  frame_wire (FResult ps) ->
  receives (recv_result (Z.of_nat (length ps)) d o) (concat (pair_bytes <$> ps))
    (Some MSG_RESULT, d, o <| out_pairs := ps |>).
Proof using Hprompt.
  intros [Hl Hw]. unfold recv_result. rewrite Nat2Z.id.
  destruct (Z.ltb_spec TX_BUF_SIZE (Z.of_nat (length ps))); [lia|].
  apply (receives_bind _ _ [] _ tt); [apply receives_ret|]. cbv zeta.
  rewrite <- (read_pairs ps Hw) at 4.
  eapply (receives_last _ (fun payload => (Some MSG_RESULT, d, o <| out_pairs :=
    (fun i => mkPair (read_tid (drop (12 * i) payload)) (read_tid (drop 6 (drop (12 * i) payload))))
      <$> seq 0 (length ps) |>))).
  destruct (Nat.eqb_spec (12 * length ps) 0) as [Hz|Hz].
  - replace ps with (@nil ResultPair) by (destruct ps; [done|simpl in Hz; lia]).
    apply receives_ret.
  - apply receives_exact. clear. induction ps as [|p ps IH]; [done|].
    rewrite fmap_cons. cbn [concat length]. rewrite length_app, IH.
    change (length (pair_bytes p)) with 12%nat. lia.
Qed.

Lemma receives_debug l c v d o :
  is_byte l ->
  receives (recv_debug 1 d o) ([l] ++ le_bytes 2 c ++ le_bytes 4 v) (deliver (FDebug l c v) d o).
Proof using Hprompt.
  intros Hl. unfold recv_debug. apply (receives_bind _ _ [] _ tt); [apply receives_require|].
  rewrite <- (app_nil_r (_ ++ _)).
  eapply (receives_bind _ _ (l :: le_bytes 2 c ++ le_bytes 4 v)); [by apply receives_exact|].
  unfold deliver. rewrite <- (read_u16_app c (le_bytes 4 v)), <- (read_u32_app v []).
  apply receives_ret.
Qed.

Lemma receives_payload f d o :
  frame_wire f ->
  receives (recv_payload (msg_code (frame_type f)) (frame_count f) d o)
    (frame_payload f) (deliver f d o).
Proof using Hprompt.
  destruct f; simpl frame_wire; intros Hf; unfold recv_payload; cbn [frame_type msg_code Z.eqb Pos.eqb].
  - by apply receives_result.
  - by apply receives_status.
  - by apply receives_status.
  - apply (receives_bind _ _ [] _ tt); [apply receives_require|].
    apply (receives_last _ (fun buf => (Some MSG_ERROR, d, o <| out_error := at_byte buf 0 |>)) [e] [e]).
    by apply receives_exact.
  - by apply receives_debug.
  - apply (receives_bind _ _ [] _ tt); [apply receives_require|].
    unfold deliver. rewrite <- parse_timing_bytes.
    eapply (receives_last _ (fun buf => (Some MSG_TIMING,
      d <| dec_timing := parse_timing buf |> <| has_timing := true |>
        <| timing_frames ::= (fun n => u32 (n + 1)) |>, o))).
    apply receives_exact, length_timing_bytes.
Qed.

Lemma fp_bytes_split f :
  fp_bytes f = msg_code (frame_type f) :: le_bytes 2 (frame_count f) ++ frame_payload f.
Proof. by destruct f. Qed.

Lemma frame_count_u16 f : frame_wire f -> u16 (frame_count f) = frame_count f.
Proof.
  intros Hf. apply u16_small. destruct f; unfold is_u16; simpl; try lia.
  destruct Hf. consts. lia.
Qed.

(** One call of [recv_frame] when the frame [f] is next in line. *)
Lemma recv_frame_next f d o t rest :
  frame_wire f -> incoming t = fp_bytes f ++ rest ->
  match recv_frame d o t with
  | Done r t' =>
      (r = deliver f d o /\ incoming t' = rest) \/
      (lossy /\ r = (None, d, o) /\ incoming t' = incoming t)
  | Throw e _ => lossy /\ (e = TransportError \/ e = PartialFrame)
  | Spin => False
  end.
Proof using Hprompt.
  intros Hf Hi. unfold recv_frame. unfold mbind at 1, H_bind at 1.
  pose proof (recv_lawful 1 t ltac:(lia)) as Hr.
  destruct (recv 1 t) as [got t'|e t'|] eqn:Hg; [| |done].
  - destruct Hr as [Hlen Hc]. destruct got as [|x got].
    + destruct Hprompt as [?|Hp]; [right; simpl; auto|].
      destruct (Hp 1%nat t ltac:(lia)) as (? & ? & He & Hn). rewrite Hg in He. simplify_eq.
      specialize (Hn eq_refl). rewrite Hn, fp_bytes_split in Hi. done.
    + destruct got; [|simpl in Hlen; lia].
      rewrite Hi, fp_bytes_split in Hc. cbn [app] in Hc. injection Hc as -> Hc.
      assert (receives (count_bytes ← recv_exact 2;
        recv_payload (msg_code (frame_type f)) (read_u16 count_bytes) d o)
        (le_bytes 2 (frame_count f) ++ frame_payload f) (deliver f d o)) as HR.
      { eapply receives_bind; [apply receives_exact, length_le_bytes|].
        rewrite <- (app_nil_r (le_bytes 2 _)), read_u16_app, frame_count_u16 by done.
        by apply receives_payload. }
      specialize (HR _ _ Hc). revert HR. case_match; [by left|done..].
  - destruct Hprompt as [?|Hp]; [auto|].
    destruct (Hp 1%nat t ltac:(lia)) as (? & ? & He & _). by rewrite Hg in He.
Qed.
End receive.

(** ** Prompt transports *)

Section prompt.
Context `{PromptTransport T}.

Lemma recv_frame_prompt f d o t rest :
  frame_wire f -> incoming t = fp_bytes f ++ rest ->
  exists t', recv_frame d o t = Done (deliver f d o) t' /\ incoming t' = rest.
Proof.
  intros Hf Hi. pose proof (recv_frame_next False (or_intror _) f d o t rest Hf Hi) as Hr.
  destruct (recv_frame d o t) as [r t'|e t'|]; [|by destruct Hr..].
  destruct Hr as [[-> Hr]|[[] _]]. eauto.
Qed.

Lemma recv_empty n t :
  (0 < n)%nat -> incoming t = [] -> exists t', recv n t = Done [] t' /\ incoming t' = [].
Proof.
  intros Hn Hi. destruct (recv_prompt n t Hn) as (bs & t' & Hr & _).
  pose proof (recv_lawful n t Hn) as Hl. rewrite Hr, Hi in Hl. destruct Hl as [_ Hl].
  apply app_nil in Hl as [-> Hl]. eauto.
Qed.

Lemma recv_frame_none d o t :
  incoming t = [] -> exists t', recv_frame d o t = Done (None, d, o) t' /\ incoming t' = [].
Proof.
  intros Hi. destruct (recv_empty 1 t) as (t' & Hr & Ht'); [lia|done|].
  exists t'. split; [|done]. unfold recv_frame. by hrun Hr.
Qed.

Lemma recv_exact_loop_short fuel n t :
  (n <= fuel)%nat -> (length (incoming t) < n)%nat ->
  exists t', recv_exact_loop fuel n t = Throw PartialFrame t'.
Proof.
  revert n t. induction fuel as [|fuel IH]; intros [|n] t Hf Hn; try lia.
  cbn [recv_exact_loop]. replace (S n =? 0)%nat with false by done.
  destruct (recv_prompt (S n) t ltac:(lia)) as (bs & t' & Hr & Hb).
  pose proof (recv_lawful (S n) t ltac:(lia)) as Hl. rewrite Hr in Hl. destruct Hl as [Hlen Hl].
  hrun Hr. destruct bs as [|b bs]; [by eexists|].
  rewrite <- Hl, length_app in Hn. destruct (IH (S n - length (b :: bs))%nat t') as [t'' He].
  - simpl. lia.
  - simpl in *. lia.
  - exists t''. by apply hbind_Throw.
Qed.

Lemma recv_exact_short n t :
  (length (incoming t) < n)%nat -> exists t', recv_exact n t = Throw PartialFrame t'.
Proof. intros. by apply recv_exact_loop_short. Qed.

Lemma length_frame_payload_result ps :
  length (frame_payload (FResult ps)) = (12 * length ps)%nat.
Proof.
  simpl. induction ps as [|p ps IH]; [done|]. rewrite fmap_cons. cbn [concat length].
  rewrite length_app, IH. change (length (pair_bytes p)) with 12%nat. lia.
Qed.

(** A payload cut short. *)
Lemma recv_payload_short f d o t :
  frame_wire f -> (length (incoming t) < length (frame_payload f))%nat ->
  exists t', recv_payload (msg_code (frame_type f)) (frame_count f) d o t = Throw PartialFrame t'.
Proof.
  intros Hf Hn.
  assert (forall n A (k : list Z -> H T A), n = length (frame_payload f) ->
    exists t', (recv_exact n ≫= k) t = Throw PartialFrame t') as Hshort.
  { intros n A k ->. destruct (recv_exact_short _ _ Hn) as [t' He].
    exists t'. by apply hbind_Throw. }
  destruct f as [ps|s|s|e|l c v|ti]; unfold recv_payload; cbn [frame_type msg_code Z.eqb Pos.eqb];
    try by apply Hshort.
  rewrite length_frame_payload_result in *. unfold recv_result. simpl frame_count.
  destruct Hf as [Hl _]. destruct (Z.ltb_spec TX_BUF_SIZE (Z.of_nat (length ps))); [lia|].
  rewrite Nat2Z.id. destruct (Nat.eqb_spec (12 * length ps) 0); [lia|].
  by apply Hshort.
Qed.

Lemma recv_frame_truncated f d o t k :
  frame_wire f -> incoming t <> [] -> k <> [] -> incoming t ++ k = fp_bytes f ->
  exists t', recv_frame d o t = Throw PartialFrame t'.
Proof.
  intros Hf Hne Hk Hi. rewrite fp_bytes_split in Hi.
  destruct (recv_prompt 1 t ltac:(lia)) as (bs & t' & Hr & Hb).
  pose proof (recv_lawful 1 t ltac:(lia)) as Hl. rewrite Hr in Hl. destruct Hl as [Hlen Hl].
  destruct bs as [|b [|? bs]]; [naive_solver| |simpl in Hlen; lia].
  rewrite <- Hl in Hi. cbn [app] in Hi. injection Hi as -> Hi.
  unfold recv_frame. hrun Hr.
  destruct (decide (length (incoming t') < 2)%nat) as [Hs|Hs].
  { destruct (recv_exact_short _ _ Hs) as [t'' He]. exists t''. by apply hbind_Throw. }
  set (p := drop 2 (incoming t')).
  assert (incoming t' = le_bytes 2 (frame_count f) ++ p) as Hi'.
  { unfold p. rewrite <- (take_drop 2 (incoming t')) at 1. f_equal.
    rewrite <- (take_app_le (incoming t') k), Hi by lia. done. }
  pose proof (receives_exact False (or_intror _) 2 _ (length_le_bytes 2 (frame_count f)) t' p Hi')
    as Hx.
  destruct (recv_exact 2 t') as [cb t''|e t''|] eqn:He; [|by destruct Hx..].
  destruct Hx as [-> Hx]. hrun He.
  rewrite <- (app_nil_r (le_bytes 2 _)), read_u16_app, frame_count_u16 by done.
  apply recv_payload_short; [done|].
  rewrite Hi', <- app_assoc in Hi. apply (app_inv_head (le_bytes 2 (frame_count f))) in Hi. rewrite <- Hi, Hx, length_app. destruct k; [done|simpl; lia].
Qed.
End prompt.

(** ** Claims *)

(** C9: over any transport that keeps the contract of [ITransport], however it
    cuts the stream and whenever it times out, a call of [recv_frame] with a
    kernel frame next in line decodes exactly that frame and leaves the
    following bytes, or reports no data and consumes nothing, or throws; it
    never delivers anything else and never loops. *)
Theorem recv_frame_faithful `{LawfulTransport T} f d o t rest :
  frame_wire f -> incoming t = fp_bytes f ++ rest ->
  match recv_frame d o t with
  | Done r t' =>
      (r = deliver f d o /\ incoming t' = rest) \/
      (r = (None, d, o) /\ incoming t' = incoming t)
  | Throw e _ => e = TransportError \/ e = PartialFrame
  | Spin => False
  end.
Proof.
  intros Hf Hi. pose proof (recv_frame_next True (or_introl I) f d o t rest Hf Hi).
  destruct (recv_frame d o t); naive_solver.
Qed.

Definition example_mock : MockTransport :=
  mkMock [[4; 1]; []; [0; 7; 0; 0; 0; 1; 0; 9; 0]; [0; 0; 2; 0; 6]] [] [] [].
Definition example_result : fp_frame := FResult [mkPair (mkTid 7 1) (mkTid 9 2)].

Lemma recv_frame_faithful_witness :
  match recv_frame decoder0 out0 example_mock with
  | Done r t' =>
      (r = deliver example_result decoder0 out0 /\ incoming t' = [6]) \/
      (r = (None, decoder0, out0) /\ incoming t' = incoming example_mock)
  | Throw e _ => e = TransportError \/ e = PartialFrame
  | Spin => False
  end.
Proof.
  apply (recv_frame_faithful example_result decoder0 out0 example_mock [6]).
  - split; [simpl; consts; lia|]. repeat constructor; simpl; unfold is_u32, is_u16; lia.
  - reflexivity.
Defined.

(** C33: over a transport that times out only when nothing is pending,
    [recv_frame] decodes the next kernel frame for certain, reports no data
    exactly when there is none, and a frame cut off anywhere after its first
    byte raises the partial-frame error instead of blocking. *)
Theorem recv_frame_total `{PromptTransport T} f d o :
  frame_wire f ->
  (forall t rest, incoming t = fp_bytes f ++ rest ->
     exists t', recv_frame d o t = Done (deliver f d o) t' /\ incoming t' = rest) /\
  (forall t, incoming t = [] ->
     exists t', recv_frame d o t = Done (None, d, o) t' /\ incoming t' = []) /\
  (forall t k, incoming t <> [] -> k <> [] -> incoming t ++ k = fp_bytes f ->
     exists t', recv_frame d o t = Throw PartialFrame t').
Proof.
  intros Hf. split_and!.
  - intros. by apply recv_frame_prompt.
  - intros. by apply recv_frame_none.
  - intros. by eapply recv_frame_truncated.
Qed.

Lemma recv_frame_total_witness :
  (exists t', recv_frame decoder0 out0 example_mock = Done (deliver example_result decoder0 out0) t'
              /\ incoming t' = [6]) /\
  (exists t', recv_frame decoder0 out0 (mkMock [[4; 1]; [0; 7]] [] [] []) = Throw PartialFrame t').
Proof.
  assert (frame_wire example_result) as Hf.
  { split; [simpl; consts; lia|]. repeat constructor; simpl; unfold is_u32, is_u16; lia. }
  destruct (recv_frame_total (T := MockTransport) example_result decoder0 out0 Hf)
    as (H1 & _ & H3).
  split; [by apply H1|].
  by apply (H3 (mkMock [[4; 1]; [0; 7]] [] [] []) [0; 0; 0; 1; 0; 9; 0; 0; 0; 2; 0]).
Defined.
