(* ===== verification/Hoare.v ===== *)
(** A program logic for host code.

    [triple sp P m Q E]: from a state in [P] the command [m] ends with a value and
    a state in [Q], or throws an exception in a state as [E] says; [sp] tells
    whether it may use up its fuel.  With [sp := False] a triple is a statement of
    total correctness. *)
From S2P Require Import Prelude Types Transport.

Definition triple {S A} (sp : Prop) (P : S -> Prop) (m : H S A) (Q : A -> S -> Prop)
    (E : exn -> S -> Prop) : Prop :=
  forall s, P s ->
    match m s with
    | Done a s' => Q a s'
    | Throw e s' => E e s'
    | Spin => sp
    end.

Section rules.
Context {S : Type} (sp : Prop).
Implicit Types P : S -> Prop.

Lemma t_ret {A} (a : A) P Q E : (forall s, P s -> Q a s) -> triple sp P (mret a) Q E.
Proof. intros HQ s Hs. by apply HQ. Qed.

Lemma t_throw {A} e P (Q : A -> S -> Prop) E : (forall s, P s -> E e s) -> triple sp P (throw e) Q E.
Proof. intros HE s Hs. by apply HE. Qed.

Lemma t_bind {A B} (m : H S A) (k : A -> H S B) P Q R E :
  triple sp P m Q E -> (forall a, triple sp (Q a) (k a) R E) -> triple sp P (m ≫= k) R E.
Proof.
  intros Hm Hk s Hs. specialize (Hm s Hs). unfold mbind, H_bind.
  destruct (m s) as [a s'|e s'|]; [|done..]. exact (Hk a s' Hm).
Qed.

Lemma t_conseq {A} (m : H S A) P P' Q Q' E E' :
  triple sp P' m Q' E' -> (forall s, P s -> P' s) -> (forall a s, Q' a s -> Q a s) ->
  (forall e s, E' e s -> E e s) -> triple sp P m Q E.
Proof.
  intros Hm HP HQ HE s Hs. specialize (Hm s (HP s Hs)). destruct (m s); auto.
Qed.

Lemma t_pre {A} (m : H S A) P P' Q E :
  triple sp P' m Q E -> (forall s, P s -> P' s) -> triple sp P m Q E.
Proof. intros. by eapply t_conseq. Qed.

Lemma t_post {A} (m : H S A) P (Q Q' : A -> S -> Prop) E :
  triple sp P m Q' E -> (forall a s, Q' a s -> Q a s) -> triple sp P m Q E.
Proof. intros. by eapply t_conseq. Qed.

(** Reading the state names it. *)
Lemma t_get {B} (k : S -> H S B) P Q E :
  (forall s, P s -> triple sp (fun s' => s' = s) (k s) Q E) -> triple sp P (hget ≫= k) Q E.
Proof. intros Hk s Hs. exact (Hk s Hs s eq_refl). Qed.

Lemma t_modify f P (Q : unit -> S -> Prop) E :
  (forall s, P s -> Q tt (f s)) -> triple sp P (hmodify f) Q E.
Proof. intros HQ s Hs. by apply HQ. Qed.

(** Facts of the precondition as hypotheses. *)
Lemma t_pure {A} (phi : Prop) (m : H S A) P Q E :
  (forall s, P s -> phi) -> (phi -> triple sp P m Q E) -> triple sp P m Q E.
Proof. intros Hphi Hm s Hs. by apply Hm; [eapply Hphi|]. Qed.

Lemma t_drop {A} (phi : Prop) (m : H S A) P Q E :
  (phi -> triple sp P m Q E) -> triple sp (fun s => P s /\ phi) m Q E.
Proof. intros Hm s [Hs Hphi]. by apply Hm. Qed.

Lemma t_exists {A X} (m : H S A) (P : X -> S -> Prop) Q E :
  (forall x, triple sp (P x) m Q E) -> triple sp (fun s => exists x, P x s) m Q E.
Proof. intros Hm s [x Hs]. exact (Hm x s Hs). Qed.

(** What is true in every state of [P] and [P'] may be assumed one by one. *)
Lemma t_state {A} (m : H S A) P Q E :
  (forall s, P s -> triple sp (fun s' => s' = s) m Q E) -> triple sp P m Q E.
Proof. intros Hm s Hs. exact (Hm s Hs s eq_refl). Qed.
End rules.
