(* ===== verification/Client.v ===== *)
(** The session driver of the host, [host/src/fpga_client.cpp], over any transport.

    Time is an oracle: [clock n] is what the [n]-th call of
    [steady_clock::now()] returns, in nanoseconds, and [ticks] counts the calls;
    sleeping is covered by the oracle.  The millisecond buckets of the metrics are
    kept in microseconds (the source divides by 1000.0).  The only loops without a
    bound of their own are the receive loops of [collect_until_ack]; [fuel] bounds
    each of them and [Spin] reports that it was used up.  Log lines are left out.

    Row counts and batch sizes ([size_t]) are [nat]; [credit] and the fields of
    the configuration are unsigned values in [Z]. *)
From S2P Require Import Prelude Types Stream Wire Transport Serializer Decoder.

(** ** Configuration and metrics *)

Record ClientConfig := mkClientConfig {
  warn_timeout_ms : Z;
  hard_timeout_ms : Z;
  max_batch_tuples : Z;
  ack_window_frames : Z;
  inter_batch_gap_ms : Z;
  session_id_override : Z;
  coalesce_config_first_inner : bool;
  infer_done_from_probe_ack : bool;
  reset_after_run : bool }.
Definition client_config0 : ClientConfig :=
  mkClientConfig 2000 30000 RX_BUF_TUPLES 15 0 0 false false false.

Record HostSessionMetrics := mkMetrics {
  config_send_us : Z;
  config_ack_wait_us : Z;
  build_send_us : Z;
  build_ack_wait_us : Z;
  probe_send_us : Z;
  probe_ack_wait_us : Z;
  final_status_wait_us : Z;
  reset_wait_us : Z;
  result_recv_us : Z;
  adapter_total_us : Z;
  protocol_frames_sent : Z;
  protocol_frames_recv : Z;
  transport_sends : Z;
  bytes_sent : Z;
  bytes_recv : Z;
  config_frames_sent : Z;
  inner_frames_sent : Z;
  outer_frames_sent : Z;
  reset_frames_sent : Z;
  ack_frames_recv : Z;
  status_frames_recv : Z;
  result_frames_recv : Z;
  debug_frames_recv : Z;
  timing_frames_recv : Z;
  error_frames_recv : Z;
  result_pairs_recv : Z;
  has_board_timing : bool;
  board_timing : TimingSummaryPayload }.
Definition metrics0 : HostSessionMetrics :=
  mkMetrics 0 0 0 0 0 0 0 0 0 0 0 0 0 0 0 0 0 0 0 0 0 0 0 0 0 0 false timing0.

(** [n += k] on a [uint64_t] counter. *)
Definition plus64 (k n : Z) : Z := u64 (n + k).

Inductive AckWaitKind := WaitConfig | WaitBuild | WaitProbe | WaitFinalStatus | WaitReset.
Definition is_wait_reset (kind : AckWaitKind) : bool :=
  match kind with WaitReset => true | _ => false end.

(** ** The client *)

(** The object, and the process state its methods use: the clock readings so far,
    the counter of [next_session_id] and the [SessionCleanup] of the current run. *)
Record FpgaClient (T : Type) := mkClient {
  transport : T;
  cfg : ClientConfig;
  decoder : ResultDecoder;
  credit : Z;
  active_session_id : Z;
  metrics : HostSessionMetrics;
  ticks : nat;
  session_counter : Z;
  cleanup_enabled : bool }.
Arguments mkClient {T}.
Arguments transport {T}.
Arguments cfg {T}.
Arguments decoder {T}.
Arguments credit {T}.
Arguments active_session_id {T}.
Arguments metrics {T}.
Arguments ticks {T}.
Arguments session_counter {T}.
Arguments cleanup_enabled {T}.

(** The constructor's corrections of the configuration. *)
Definition checked_config (c : ClientConfig) : ClientConfig :=
  let c := if (max_batch_tuples c =? 0) || (RX_BUF_TUPLES <? max_batch_tuples c)
           then c <| max_batch_tuples := RX_BUF_TUPLES |> else c in
  if ack_window_frames c =? 0 then c <| ack_window_frames := ACK_BATCH_FRAMES |> else c.

Definition new_client {T} (t : T) (c : ClientConfig) (ticks : nat) (counter : Z) : FpgaClient T :=
  mkClient t (checked_config c) decoder0 0 0 metrics0 ticks counter false.

(** ** Cumulative acknowledgement *)

(** The loop of [apply_cumulative_ack]: frames acknowledged, frames kept, rows
    acknowledged. *)
Fixpoint pop_acked (inflight : list nat) (acked target : nat) : nat * list nat * nat :=
  match inflight with
  | [] => (0%nat, [], acked)
  | front :: rest =>
      if (acked + front <=? target)%nat then
        let '(n, kept, acked') := pop_acked rest (acked + front) target in (S n, kept, acked')
      else (0%nat, inflight, acked)
  end.

Definition apply_cumulative_ack (inflight : list nat) (acked : nat) (rows_processed : Z)
  : nat * list nat * nat :=
  if rows_processed <=? Z.of_nat acked then (0%nat, inflight, acked)
  else pop_acked inflight acked (Z.to_nat rows_processed).

(** Rows sent, frames in flight and rows acknowledged of one phase. *)
Record window := mkWindow { w_sent : nat; w_inflight : list nat; w_acked : nat }.

Definition elapsed_us (from to : Z) : Z := Z.quot (to - from) 1000.

Section client.
Context `{Transport T} (clock : nat -> Z) (fuel : nat).
Local Abbreviation client := (FpgaClient T).

Definition now : H client Z := fun c => Done (clock (ticks c)) (c <| ticks ::= S |>).

Definition lift {A} (m : H T A) : H client A := fun c =>
  match m (transport c) with
  | Done a t => Done a (c <| transport := t |>)
  | Throw e t => Throw e (c <| transport := t |>)
  | Spin => Spin
  end.

Definition next_session_id : H client Z := fun c =>
  let id := session_counter c mod 255 in
  Done (u8 (id + 1)) (c <| session_counter ::= (fun n => u32 (n + 1)) |>).

(** The counter of the frame's type. *)
Definition count_sent (m : MsgType) (mt : HostSessionMetrics) : HostSessionMetrics :=
  match m with
  | MSG_CONFIGURE => mt <| config_frames_sent ::= plus64 1 |>
  | MSG_INNER_DATA => mt <| inner_frames_sent ::= plus64 1 |>
  | MSG_OUTER_DATA => mt <| outer_frames_sent ::= plus64 1 |>
  | MSG_RESET => mt <| reset_frames_sent ::= plus64 1 |>
  | _ => mt
  end.

(** [bucket] adds a duration to one time field of the metrics. *)
Definition send_counted (data : list Z) (primary : MsgType)
    (bucket : Z -> HostSessionMetrics -> HostSessionMetrics) : H client unit :=
  t0 ← now;
  lift (send data) ;;
  t1 ← now;
  hmodify (fun c => c <| metrics ::= bucket (elapsed_us t0 t1) |>) ;;
  hmodify (fun c => c <| metrics ::= fun m =>
    count_sent primary (m <| transport_sends ::= plus64 1 |> <| protocol_frames_sent ::= plus64 1 |>
                          <| bytes_sent ::= plus64 (Z.of_nat (length data)) |>) |>).

Definition add_config_send (us : Z) (m : HostSessionMetrics) := m <| config_send_us ::= Z.add us |>.
Definition add_build_send (us : Z) (m : HostSessionMetrics) := m <| build_send_us ::= Z.add us |>.
Definition add_probe_send (us : Z) (m : HostSessionMetrics) := m <| probe_send_us ::= Z.add us |>.
(** A local variable the caller drops. *)
Definition add_nowhere (us : Z) (m : HostSessionMetrics) := m.

Definition account_coalesced_inner_frame : H client unit :=
  hmodify (fun c => c <| metrics ::= fun m =>
    m <| protocol_frames_sent ::= plus64 1 |> <| inner_frames_sent ::= plus64 1 |> |>).

Definition account_wait (kind : AckWaitKind) (us : Z) : H client unit :=
  hmodify (fun c => c <| metrics ::= fun m =>
    match kind with
    | WaitConfig => m <| config_ack_wait_us ::= Z.add us |>
    | WaitBuild => m <| build_ack_wait_us ::= Z.add us |>
    | WaitProbe => m <| probe_ack_wait_us ::= Z.add us |>
    | WaitFinalStatus => m <| final_status_wait_us ::= Z.add us |>
    | WaitReset => m <| reset_wait_us ::= Z.add us |>
    end |>).

Definition reset_frame : list Z := [msg_code MSG_RESET; 0; 0].

Definition send_reset : H client unit := send_counted reset_frame MSG_RESET add_nowhere.

(** ** Receiving *)

(** What the metrics record of a received frame. *)
Definition count_received (m : MsgType) (pairs : list ResultPair) (us : Z) (d : ResultDecoder)
    (mt : HostSessionMetrics) : HostSessionMetrics :=
  let mt := mt <| protocol_frames_recv ::= plus64 1 |> in
  match m with
  | MSG_RESULT =>
      mt <| result_frames_recv ::= plus64 1 |>
         <| result_pairs_recv ::= plus64 (Z.of_nat (length pairs)) |>
         <| bytes_recv ::= plus64 (3 + 12 * Z.of_nat (length pairs)) |>
         <| result_recv_us ::= Z.add us |>
  | MSG_ACK => mt <| ack_frames_recv ::= plus64 1 |> <| bytes_recv ::= plus64 15 |>
  | MSG_STATUS => mt <| status_frames_recv ::= plus64 1 |> <| bytes_recv ::= plus64 15 |>
  | MSG_ERROR => mt <| error_frames_recv ::= plus64 1 |> <| bytes_recv ::= plus64 4 |>
  | MSG_DEBUG => mt <| debug_frames_recv ::= plus64 1 |> <| bytes_recv ::= plus64 10 |>
  | MSG_TIMING =>
      mt <| timing_frames_recv ::= plus64 1 |>
         <| bytes_recv ::= plus64 (3 + TIMING_SUMMARY_BYTES) |>
         <| has_board_timing := has_timing d |> <| board_timing := dec_timing d |>
  | _ => mt
  end.

(** The loop of [collect_until_ack]; [out] is [out_results]. *)
Fixpoint collect_loop (n : nat) (start : Z) (kind : AckWaitKind) (out : list ResultPair)
  : H client (AckInfo * list ResultPair) :=
  match n with
  | O => spin
  | S n =>
      t ← now;
      c ← hget;
      if hard_timeout_ms (cfg c) <=? Z.quot (t - start) 1000000 then throw FpgaTimeoutException
      else
        recv_start ← now;
        '(msg, d, o) ← lift (recv_frame (decoder c) out0);
        hmodify (fun c => c <| decoder := d |>) ;;
        recv_end ← now;
        match msg with
        | None => collect_loop n start kind out
        | Some m =>
            hmodify (fun c => c <| metrics ::=
              count_received m (out_pairs o) (elapsed_us recv_start recv_end) d |>) ;;
            match m with
            | MSG_RESULT => collect_loop n start kind (out ++ out_pairs o)
            | MSG_ACK | MSG_STATUS =>
                c ← hget;
                if negb (is_wait_reset kind) &&
                   negb (ack_session_id (out_ack o) =? active_session_id c)
                then collect_loop n start kind out
                else account_wait kind (elapsed_us start recv_end) ;; mret (out_ack o, out)
            | MSG_ERROR => throw (FpgaErrorException (out_error o))
            | _ => collect_loop n start kind out
            end
        end
  end.

Definition collect_until_ack (out : list ResultPair) (kind : AckWaitKind)
  : H client (AckInfo * list ResultPair) :=
  start ← now; collect_loop fuel start kind out.

Definition verify_matched_count (results : list ResultPair) (a : AckInfo) : H client unit :=
  hwhen (negb (ack_rows_matched a =? Z.of_nat (length results)))
    (throw (FpgaException (MatchedMismatch (ack_rows_matched a) (Z.of_nat (length results))))).

(** ** Sending within the window *)

Definition take_credit (batch : nat) (credit : Z) : Z :=
  if Z.of_nat batch <? credit then u16 (credit - Z.of_nat batch) else 0.

(** [auto frame = ser.serialize_batch(msg, rows + sent, batch, batch)] *)
Definition serialize (kt : Z) (msg : MsgType) (rows : list Tuple) (sent batch : nat)
  : H client (list Z) :=
  match serialize_batch kt msg (drop sent rows) batch batch with
  | Some frame => mret frame
  | None => throw ArrayOverrun
  end.

(** The inner [while] of a phase; every round sends at least one row, so the
    number of rows bounds it. *)
Fixpoint send_window (n : nat) (kt : Z) (msg : MsgType)
    (bucket : Z -> HostSessionMetrics -> HostSessionMetrics) (rows : list Tuple) (w : window)
  : H client window :=
  c ← hget;
  if (w_sent w <? length rows)%nat && (Z.of_nat (length (w_inflight w)) <? ack_window_frames (cfg c))
     && negb (credit c =? 0)
  then
    match n with
    | O => spin
    | S n =>
        let remaining := (length rows - w_sent w)%nat in
        if (credit c <? max_batch_tuples (cfg c)) && (credit c <? Z.of_nat remaining)
        then mret w
        else
          let batch := ((Z.to_nat (credit c) `min` Z.to_nat (max_batch_tuples (cfg c)))
                        `min` remaining)%nat in
          frame ← serialize kt msg rows (w_sent w) batch;
          let w := w <| w_sent ::= Nat.add batch |> in
          hmodify (fun c => c <| credit ::= take_credit batch |>) ;;
          let w := w <| w_inflight ::= fun l => l ++ [batch] |> in
          send_counted frame msg bucket ;;
          send_window n kt msg bucket rows w
    end
  else mret w.

Definition set_credit (v : Z) : H client unit := hmodify (fun c => c <| credit := v |>).

(** ** CONFIGURE *)

(** The whole CONFIGURE block; the size of the coalesced first inner batch (0
    when there is none). *)
Definition configure_step (config : JoinConfig) (inner outer : list Tuple) : H client nat :=
  c ← hget;
  let frame := serialize_configure config (u32 (Z.of_nat (length inner)))
                 (u32 (Z.of_nat (length outer))) (active_session_id c) in
  '(frame, batch) ←
    (if coalesce_config_first_inner (cfg c) && negb (length inner =? 0)%nat then
       let batch := ((Z.to_nat RX_BUF_TUPLES `min` Z.to_nat (max_batch_tuples (cfg c)))
                     `min` length inner)%nat in
       first_inner ← serialize (key_type config) MSG_INNER_DATA inner 0 batch;
       account_coalesced_inner_frame ;;
       mret (frame ++ first_inner, batch)
     else mret (frame, 0%nat));
  send_counted frame MSG_CONFIGURE add_config_send ;;
  '(ack, _) ← collect_until_ack [] WaitConfig;
  set_credit (ack_credit ack) ;;
  mret batch.

(** ** Build phase *)

(** One round of the build loop. *)
Definition build_round (kt : Z) (inner : list Tuple) (w : window) : H client window :=
  w ← send_window (length inner) kt MSG_INNER_DATA add_build_send inner w;
  if bool_decide (w_inflight w = []) then throw (FpgaException ZeroCreditBuild)
  else
    '(ack, _) ← collect_until_ack [] WaitBuild;
    set_credit (ack_credit ack) ;;
    let '(acked_frames, kept, acked) :=
      apply_cumulative_ack (w_inflight w) (w_acked w) (ack_rows_processed ack) in
    let w := w <| w_inflight := kept |> <| w_acked := acked |> in
    if (acked_frames =? 0)%nat && negb (bool_decide (kept = []))
    then throw (FpgaException BuildAckStalled)
    else mret w.

Fixpoint build_rounds (n : nat) (kt : Z) (inner : list Tuple) (w : window) : H client window :=
  if (w_sent w <? length inner)%nat || negb (bool_decide (w_inflight w = [])) then
    match n with
    | O => spin
    | S n => w ← build_round kt inner w; build_rounds n kt inner w
    end
  else mret w.

(** Each round acknowledges at least one frame, and no frame is empty. *)
Definition build_phase (kt : Z) (inner : list Tuple) (first_batch : nat) : H client unit :=
  hwhen (negb (first_batch =? 0)%nat) (hmodify (fun c => c <| credit ::= take_credit first_batch |>)) ;;
  let w := mkWindow first_batch (if (first_batch =? 0)%nat then [] else [first_batch]) 0 in
  _ ← build_rounds (length inner) kt inner w;
  mret tt.

(** ** Probe phase *)

(** The variables of the probe loop. *)
Record probe_vars := mkProbe {
  pv_window : window;
  pv_results : list ResultPair;
  pv_ack : AckInfo;
  pv_done : bool }.

Definition probe_round (kt : Z) (outer : list Tuple) (v : probe_vars) : H client probe_vars :=
  w ← send_window (length outer) kt MSG_OUTER_DATA add_probe_send outer (pv_window v);
  if bool_decide (w_inflight w = []) then throw (FpgaException ZeroCreditProbe)
  else
    '(ack, results) ← collect_until_ack (pv_results v) WaitProbe;
    set_credit (ack_credit ack) ;;
    let '(acked_frames, kept, acked) :=
      apply_cumulative_ack (w_inflight w) (w_acked w) (ack_rows_processed ack) in
    let w := w <| w_inflight := kept |> <| w_acked := acked |> in
    if ack_phase ack =? phase_code PHASE_DONE
    then mret (mkProbe (w <| w_inflight := [] |>) results ack true)
    else if (acked_frames =? 0)%nat && negb (bool_decide (kept = []))
    then throw (FpgaException ProbeAckStalled)
    else mret (mkProbe w results ack false).

Fixpoint probe_rounds (n : nat) (kt : Z) (outer : list Tuple) (v : probe_vars) : H client probe_vars :=
  if ((w_sent (pv_window v) <? length outer)%nat ||
      negb (bool_decide (w_inflight (pv_window v) = []))) && negb (pv_done v)
  then
    match n with
    | O => spin
    | S n => v ← probe_round kt outer v; probe_rounds n kt outer v
    end
  else mret v.

(** The explicit end of the probe phase, when the kernel still expects rows. *)
Definition probe_end (config : JoinConfig) (outer : list Tuple) (v : probe_vars)
  : H client probe_vars :=
  let a := pv_ack v in
  if (algorithm config =? alg_code ALGORITHM_A) && negb (length outer =? 0)%nat &&
     (ack_phase a =? phase_code PHASE_PROBING) && negb (ack_credit a =? 0) &&
     (Z.of_nat (length outer) <=? ack_rows_processed a)
  then
    send_counted [msg_code MSG_OUTER_DATA; 0; 0] MSG_OUTER_DATA add_probe_send ;;
    '(ack, results) ← collect_until_ack (pv_results v) WaitProbe;
    set_credit (ack_credit ack) ;;
    mret (v <| pv_results := results |> <| pv_ack := ack |>)
  else mret v.

(** ** End of the session *)

(** [try { ... } catch (const FpgaTimeoutException&)] *)
Definition catch_timeout {A} (m : H client A) : H client (option A) := fun c =>
  match m c with
  | Done a c => Done (Some a) c
  | Throw FpgaTimeoutException c => Done None c
  | Throw e c => Throw e c
  | Spin => Spin
  end.

(** The waiting loop after the reset, [n] attempts left. *)
Fixpoint await_idle (n : nat) : H client unit :=
  match n with
  | O => mret tt
  | S n =>
      r ← catch_timeout (collect_until_ack [] WaitReset);
      match r with
      | None => mret tt
      | Some (ack, _) =>
          if ack_phase ack =? phase_code PHASE_IDLE then mret tt
          else if (n =? 0)%nat then throw (FpgaException ResetNotIdle)
          else await_idle n
      end
  end.

Definition final_probe_ack (c : ClientConfig) (config : JoinConfig) (outer : list Tuple)
    (v : probe_vars) : bool :=
  let a := pv_ack v in
  infer_done_from_probe_ack c && (algorithm config =? alg_code ALGORITHM_A) &&
  (ack_phase a =? phase_code PHASE_PROBING) && (ack_credit a =? 0) &&
  (Z.of_nat (length outer) <=? ack_rows_processed a) &&
  (ack_rows_matched a =? Z.of_nat (length (pv_results v))).

Definition finish (config : JoinConfig) (outer : list Tuple) (v : probe_vars)
  : H client (list ResultPair) :=
  c ← hget;
  let a := pv_ack v in
  if negb (ack_phase a =? phase_code PHASE_DONE) && final_probe_ack (cfg c) config outer v then
    verify_matched_count (pv_results v) a ;;
    send_reset ;;
    hmodify (fun c => c <| cleanup_enabled := false |>) ;;
    await_idle 8 ;;
    mret (pv_results v)
  else if negb (ack_phase a =? phase_code PHASE_DONE) then
    '(final_ack, tail) ← collect_until_ack [] WaitFinalStatus;
    let results := pv_results v ++ tail in
    if negb (ack_phase final_ack =? phase_code PHASE_DONE)
    then throw (FpgaException FinalDrainNotDone)
    else verify_matched_count results final_ack ;; mret results
  else verify_matched_count (pv_results v) a ;; mret (pv_results v).

(** ** The join *)

(** Run [m], then the destructor of [SessionCleanup], whose exceptions are
    swallowed, on both exits. *)
Definition with_cleanup {A} (m : H client A) : H client A :=
  let destroy c :=
    if cleanup_enabled c then
      match lift (send reset_frame) c with Done _ c => c | Throw _ c => c | Spin => c end
    else c in
  fun c =>
    match m c with
    | Done a c => Done a (destroy c)
    | Throw e c => Throw e (destroy c)
    | Spin => Spin
    end.

Definition begin_session : H client unit :=
  set_credit 0 ;;
  c ← hget;
  sid ← (if negb (session_id_override (cfg c) =? 0) then mret (session_id_override (cfg c))
         else next_session_id);
  hmodify (fun c => c <| active_session_id := sid |> <| metrics := metrics0 |>
                      <| cleanup_enabled := reset_after_run (cfg c) |>).

Definition join_session (config : JoinConfig) (inner outer : list Tuple) : H client (list ResultPair) :=
  t_start ← now;
  batch ← configure_step config inner outer;
  _ ← now;
  build_phase (key_type config) inner batch ;;
  _ ← now;
  set_credit (u16 RX_CREDIT_TUPLES) ;;
  v ← probe_rounds (length outer) (key_type config) outer
        (mkProbe (mkWindow 0 [] 0) [] ack0 false);
  v ← probe_end config outer v;
  results ← finish config outer v;
  t_done ← now;
  hmodify (fun c => c <| metrics -> adapter_total_us := elapsed_us t_start t_done |>) ;;
  mret results.

Definition run_hash_join (config : JoinConfig) (inner outer : list Tuple)
  : H client (list ResultPair) :=
  begin_session ;; with_cleanup (join_session config inner outer).
End client.
