(* ===== verification/Protocol.v ===== *)
(** The contract between host and accelerator for one algorithm-A session, as an
    abstract state machine.

    A [job] fixes the rows of a session as they appear on the wire.  [pstate] is
    the server's side: how many rows of the current phase have arrived, the sizes
    of the data frames that are not acknowledged yet and the results sent so far.
    [protocol_step j a f fs a'] says that [fs] is an allowed reply to the frame
    [f]; which debug frames are sent and how results are cut into batches is left
    open, and how data frames are grouped into acknowledgements is a parameter, a
    [grouping].  The kernel acknowledges every second frame ([kernel_grouping]).

    [JoinServer] is the interface of a transport whose far end keeps this
    contract.  The client is proved correct against it ([ClientJoin]); the kernel
    behind an ideal byte link implements it ([Board]). *)
From S2P Require Import Prelude Types Stream Wire Dialogue Join LinearHashTable Grace Kernel Transport Decoder.

(** ** Jobs *)

Record job := mkJob {
  j_key_type : Z;
  j_sid : Z;
  j_inner : list Tuple;
  j_outer : list Tuple }.

Definition n_inner (j : job) : nat := length (j_inner j).
Definition n_outer (j : job) : nat := length (j_outer j).
Definition joined (j : job) : list ResultPair := hash_join (j_inner j) (j_outer j).
(** Matches among the first [n] outer rows. *)
Definition matched (j : job) (n : nat) : Z :=
  Z.of_nat (length (hash_join (j_inner j) (take n (j_outer j)))).

Definition job_configure (j : job) : ConfigurePayload :=
  mkConfigure (alg_code ALGORITHM_A) (j_key_type j) RX_CREDIT_TUPLES
    (Z.of_nat (n_inner j)) (Z.of_nat (n_outer j)) (j_sid j).

(** ** Server states and steps *)

Inductive pstate :=
| AIdle
| ABuild (rows : nat) (unacked : list nat)
| AProbe (rows frames : nat) (unacked : list nat) (results : list ResultPair)
| ADone.

(** Frames that acknowledge nothing and report no error. *)
Definition quiet (f : fp_frame) : Prop :=
  frame_wire f /\
  match f with FResult _ | FDebug _ _ _ | FTiming _ => True | _ => False end.
(** The same, without results. *)
Definition silent (f : fp_frame) : Prop := quiet f /\ frame_pairs f = [].

Lemma silent_quiet fs : Forall silent fs -> Forall quiet fs.
Proof. intros Hf. eapply Forall_impl; [exact Hf|]. by intros f []. Qed.

Lemma silent_results fs : Forall silent fs -> results_of fs = [].
Proof.
  induction 1 as [|f fs [_ Hf] _ IH]; [done|].
  change (results_of (f :: fs)) with (frame_pairs f ++ results_of fs). by rewrite Hf.
Qed.

(** When a server acknowledges data frames: with [n] frames of the phase received and
    not acknowledged before it, a frame that is not the last of its phase may be
    left unacknowledged if [gr_waits n] and may be acknowledged if [gr_acks n]. *)
Record grouping := mkGrouping { gr_waits : nat -> Prop; gr_acks : nat -> Prop }.

(** Every second frame. *)
Definition kernel_grouping : grouping := mkGrouping (fun n => n = 0%nat) (fun n => n <> 0%nat).

Section protocol.
Variable j : job.
Variable gr : grouping.

Definition configure_ack : fp_frame :=
  FAck (status_of PHASE_BUILDING 0 0 RX_CREDIT_TUPLES (j_sid j)).
Definition build_ack_at (rows : nat) : fp_frame :=
  FAck (status_of PHASE_BUILDING (Z.of_nat rows) 0
          (frame_credit (Z.of_nat (n_inner j)) (Z.of_nat rows)) (j_sid j)).
Definition probe_ack_at (rows : nat) : fp_frame :=
  FAck (status_of PHASE_PROBING (Z.of_nat rows) (matched j rows)
          (frame_credit (Z.of_nat (n_outer j)) (Z.of_nat rows)) (j_sid j)).
Definition done_status : fp_frame :=
  FStatus (status_of PHASE_DONE (Z.of_nat (n_outer j)) (Z.of_nat (length (joined j))) 0 (j_sid j)).

(** The end of the session: pending results, then STATUS(DONE). *)
Definition ends_with_status (results : list ResultPair) (fs : list fp_frame) : Prop :=
  exists pre post, fs = pre ++ done_status :: post /\ Forall quiet pre /\ Forall silent post /\
    results ++ results_of pre = joined j.

(** What follows the last acknowledgement of the build phase. *)
Definition starts_probe (fs : list fp_frame) (a : pstate) : Prop :=
  if (n_outer j =? 0)%nat then a = ADone /\ ends_with_status [] fs
  else a = AProbe 0 0 [] [] /\ Forall silent fs.

(** A data frame with the [b] rows of [rows] that follow the first [n]. *)
Definition slice (rows : list Tuple) (n b : nat) : list Tuple := take b (drop n rows).

Definition batch_ok (rows : list Tuple) (n b : nat) : Prop :=
  (0 < b)%nat /\ Z.of_nat b <= RX_BUF_TUPLES /\ (n + b <= length rows)%nat.

Inductive protocol_step : pstate -> pg_frame -> list fp_frame -> pstate -> Prop :=
| PS_configure pre post a :
    Forall silent pre ->
    (if (n_inner j =? 0)%nat then starts_probe post a
     else a = ABuild 0 [] /\ Forall silent post) ->
    protocol_step AIdle (PConfigure (job_configure j)) (pre ++ configure_ack :: post) a
| PS_inner_wait n b unacked fs :
    batch_ok (j_inner j) n b -> (n + b < n_inner j)%nat -> gr_waits gr (length unacked) ->
    Forall silent fs ->
    protocol_step (ABuild n unacked) (PInner (slice (j_inner j) n b)) fs
      (ABuild (n + b) (unacked ++ [b]))
| PS_inner_ack n b unacked pre :
    batch_ok (j_inner j) n b -> (n + b < n_inner j)%nat -> gr_acks gr (length unacked) ->
    Forall silent pre ->
    protocol_step (ABuild n unacked) (PInner (slice (j_inner j) n b))
      (pre ++ [build_ack_at (n + b)]) (ABuild (n + b) [])
| PS_inner_last n b unacked pre post a :
    batch_ok (j_inner j) n b -> (n + b = n_inner j)%nat -> Forall silent pre ->
    starts_probe post a ->
    protocol_step (ABuild n unacked) (PInner (slice (j_inner j) n b))
      (pre ++ build_ack_at (n + b) :: post) a
| PS_outer_wait n m b unacked r fs :
    batch_ok (j_outer j) n b -> (n + b < n_outer j)%nat -> gr_waits gr (length unacked) ->
    Forall quiet fs ->
    protocol_step (AProbe n m unacked r) (POuter (slice (j_outer j) n b)) fs
      (AProbe (n + b) (S m) (unacked ++ [b]) (r ++ results_of fs))
| PS_outer_ack n m b unacked r pre :
    batch_ok (j_outer j) n b -> (n + b < n_outer j)%nat -> gr_acks gr (length unacked) ->
    Forall quiet pre ->
    protocol_step (AProbe n m unacked r) (POuter (slice (j_outer j) n b))
      (pre ++ [probe_ack_at (n + b)]) (AProbe (n + b) (S m) [] (r ++ results_of pre))
| PS_outer_last n m b unacked r fs :
    batch_ok (j_outer j) n b -> (n + b = n_outer j)%nat -> ends_with_status r fs ->
    protocol_step (AProbe n m unacked r) (POuter (slice (j_outer j) n b)) fs ADone.

(** Frames a server in state [a] must take.  The probe phase takes at most
    [probe_frame_limit] frames, the one that completes the rows included. *)
Inductive may_send : pstate -> pg_frame -> Prop :=
| MS_configure : may_send AIdle (PConfigure (job_configure j))
| MS_inner n unacked b :
    batch_ok (j_inner j) n b -> may_send (ABuild n unacked) (PInner (slice (j_inner j) n b))
| MS_outer n m unacked r b :
    batch_ok (j_outer j) n b -> Z.of_nat m < probe_frame_limit ->
    ((n + b < n_outer j)%nat -> Z.of_nat (S m) < probe_frame_limit) ->
    may_send (AProbe n m unacked r) (POuter (slice (j_outer j) n b)).

(** Several frames in one go. *)
Inductive protocol_steps : pstate -> list pg_frame -> list fp_frame -> pstate -> Prop :=
| PSS_nil a : protocol_steps a [] [] a
| PSS_cons a f fs a' l fs' a'' :
    protocol_step a f fs a' -> protocol_steps a' l fs' a'' ->
    protocol_steps a (f :: l) (fs ++ fs') a''.
End protocol.

(** The byte string of a list of reply frames. *)
Definition replies_bytes (fs : list fp_frame) : list Z := concat (fp_bytes <$> fs).
Definition request_frames_bytes (kt : Z) (l : list pg_frame) : list Z := concat (pg_bytes kt <$> l).

(** ** The interface *)

(** [serves a t]: the far end of [t] is in state [a].  Receiving does not change
    it; a send of a frame it must take is answered by the protocol, with the reply
    behind what is still to be delivered.  The host may put CONFIGURE and the
    first data frame into one send. *)
Class JoinServer (T : Type) `{PromptTransport T} (j : job) (gr : grouping) := {
  serves : pstate -> T -> Prop;
  serves_recv a n t bs t' : serves a t -> recv n t = Done bs t' -> serves a t';
  serves_send a f t :
    serves a t -> may_send j a f ->
    exists t' fs a', send (pg_bytes (j_key_type j) f) t = Done tt t' /\
      protocol_step j gr a f fs a' /\ serves a' t' /\
      incoming t' = incoming t ++ replies_bytes fs;
  serves_send_first b t :
    serves AIdle t -> batch_ok (j_inner j) 0 b ->
    exists t' fs a',
      send (request_frames_bytes (j_key_type j)
              [PConfigure (job_configure j); PInner (slice (j_inner j) 0 b)]) t = Done tt t' /\
      protocol_steps j gr AIdle [PConfigure (job_configure j); PInner (slice (j_inner j) 0 b)] fs a' /\
      serves a' t' /\ incoming t' = incoming t ++ replies_bytes fs }.
