(* ===== verification/ClientJoin.v ===== *)
(** The client of [Client] against any server that keeps the protocol of
    [Protocol]: with enough fuel and no timeout, [run_hash_join] returns exactly
    the join, whatever batches and debug frames the server chooses to send.

    [evals P m Q] is the total-correctness triple used here: from every state of
    [P] the command ends with a value and a state in [Q], for all fuel from some
    bound on. *)
From S2P Require Import Prelude Types Stream Wire Dialogue Join LinearHashTable Grace Kernel.
From S2P Require Import Transport Serializer Decoder Hoare Client Protocol.

Definition evals {S A} (P : S -> Prop) (m : nat -> H S A) (Q : A -> S -> Prop) : Prop :=
  forall s, P s -> exists a s' F, Q a s' /\ forall fuel, (F <= fuel)%nat -> m fuel s = Done a s'.

Section rules.
Context {S : Type}.

Lemma e_ret {A} (a : A) (P : S -> Prop) (Q : A -> S -> Prop) :
  (forall s, P s -> Q a s) -> evals P (fun _ => mret a) Q.
Proof. intros HQ s Hs. exists a, s, 0%nat. auto. Qed.

Lemma e_bind {A B} (m : nat -> H S A) (k : nat -> A -> H S B) P Q R :
  evals P m Q -> (forall a, evals (Q a) (fun n => k n a) R) ->
  evals P (fun n => m n ≫= k n) R.
Proof.
  intros Hm Hk s Hs. destruct (Hm s Hs) as (a & s1 & F1 & Hq & H1).
  destruct (Hk a s1 Hq) as (b & s2 & F2 & Hr & H2).
  exists b, s2, (F1 `max` F2)%nat. split; [done|]. intros fuel Hf.
  rewrite (hbind_Done _ _ _ _ _ (H1 fuel ltac:(lia))). apply H2. lia.
Qed.

Lemma e_pre {A} (m : nat -> H S A) (P P' : S -> Prop) Q :
  evals P' m Q -> (forall s, P s -> P' s) -> evals P m Q.
Proof. intros Hm HP s Hs. by apply Hm, HP. Qed.

Lemma e_post {A} (m : nat -> H S A) (P : S -> Prop) (Q Q' : A -> S -> Prop) :
  evals P m Q' -> (forall a s, Q' a s -> Q a s) -> evals P m Q.
Proof. intros Hm HQ s Hs. destruct (Hm s Hs) as (a & s' & F & ? & ?). exists a, s', F. auto. Qed.

Lemma e_get {B} (k : nat -> S -> H S B) (P : S -> Prop) Q :
  (forall s, P s -> evals (fun s' => s' = s) (fun n => k n s) Q) ->
  evals P (fun n => hget ≫= k n) Q.
Proof. intros Hk s Hs. exact (Hk s Hs s eq_refl). Qed.

Lemma e_modify f (P : S -> Prop) (Q : unit -> S -> Prop) :
  (forall s, P s -> Q tt (f s)) -> evals P (fun _ => hmodify f) Q.
Proof. intros HQ s Hs. exists tt, (f s), 0%nat. auto. Qed.

Lemma e_exists {A X} (m : nat -> H S A) (P : X -> S -> Prop) Q :
  (forall x, evals (P x) m Q) -> evals (fun s => exists x, P x s) m Q.
Proof. intros Hm s [x Hs]. exact (Hm x s Hs). Qed.

Lemma e_pure {A} (phi : Prop) (m : nat -> H S A) (P : S -> Prop) Q :
  (forall s, P s -> phi) -> (phi -> evals P m Q) -> evals P m Q.
Proof. intros Hphi Hm s Hs. by apply Hm; [eapply Hphi|]. Qed.

(** A command that does not use the fuel. *)
Lemma e_run {A} (m : H S A) (P : S -> Prop) (Q : A -> S -> Prop) :
  (forall s, P s -> exists a s', m s = Done a s' /\ Q a s') -> evals P (fun _ => m) Q.
Proof. intros Hm s Hs. destruct (Hm s Hs) as (a & s' & He & Hq). exists a, s', 0%nat. auto. Qed.
End rules.

(** ** Acknowledgements in flight *)

Definition total (l : list nat) : nat := foldr Nat.add 0%nat l.

Lemma total_app l l' : total (l ++ l') = (total l + total l')%nat.
Proof. induction l; simpl; lia. Qed.

Lemma sum_pos (l : list nat) : Forall (Nat.lt 0) l -> l <> [] -> (0 < total l)%nat.
Proof. intros Hl Hn. destruct l as [|b l]; [done|]. apply Forall_cons in Hl as [? _]. simpl. lia. Qed.

(** [in_flight ack base gs tr pend]: the frames [pend] hold one acknowledgement
    per group of [gs], the [i]-th at the rows of the first [i] groups counted from
    [base], and then [tr]. *)
Inductive in_flight (ack : nat -> fp_frame) : nat -> list (list nat) -> list fp_frame ->
    list fp_frame -> Prop :=
| IF_nil base tr : in_flight ack base [] tr tr
| IF_cons base g gs tr pre post :
    Forall quiet pre -> in_flight ack (base + total g) gs tr post ->
    in_flight ack base (g :: gs) tr (pre ++ ack (base + total g)%nat :: post).

(** More frames arrive behind the trailing ones. *)
Lemma in_flight_app ack base gs tr pend fs :
  in_flight ack base gs tr pend -> in_flight ack base gs (tr ++ fs) (pend ++ fs).
Proof.
  induction 1 as [|base g gs tr pre post Hq _ IH]; [constructor|].
  rewrite <- app_assoc, <- app_comm_cons. by constructor.
Qed.

(** The trailing frames end in a new acknowledgement. *)
Lemma in_flight_snoc ack base gs g tr pend pre post :
  in_flight ack base gs tr pend -> Forall quiet (tr ++ pre) ->
  in_flight ack base (gs ++ [g]) post
    (pend ++ pre ++ ack (base + total (concat gs) + total g)%nat :: post).
Proof.
  intros Hf. revert pre. induction Hf as [base tr|base h gs tr pre' post' Hq Hf IH]; intros pre Hpre.
  - cbn [concat total foldr app]. rewrite Nat.add_0_r, app_assoc. constructor; [done|constructor].
  - cbn [concat app]. rewrite <- app_assoc, <- app_comm_cons. constructor; [done|].
    rewrite total_app, !Nat.add_assoc. by apply IH.
Qed.

Lemma pop_acked_exact g rest acked :
  Forall (Nat.lt 0) rest ->
  pop_acked (g ++ rest) acked (acked + total g) = (length g, rest, (acked + total g)%nat).
Proof.
  intros Hr. revert acked. induction g as [|b g IH]; intros acked; cbn [total foldr app].
  - destruct rest as [|x rest]; simpl; rewrite Nat.add_0_r; [done|].
    apply Forall_cons in Hr as [Hx _]. destruct (Nat.leb_spec (acked + x) acked); [lia|done].
  - cbn [pop_acked]. fold (total g). destruct (Nat.leb_spec (acked + b) (acked + (b + total g))); [|lia].
    rewrite Nat.add_assoc, IH. done.
Qed.

(** An acknowledgement of exactly the first group. *)
Lemma ack_pops_group g rest acked :
  g <> [] -> Forall (Nat.lt 0) g -> Forall (Nat.lt 0) rest ->
  apply_cumulative_ack (g ++ rest) acked (Z.of_nat (acked + total g)) =
  (length g, rest, (acked + total g)%nat).
Proof.
  intros Hne Hg Hr. unfold apply_cumulative_ack.
  destruct (Z.leb_spec (Z.of_nat (acked + total g)) (Z.of_nat acked)).
  - destruct g as [|b g]; [done|]. apply Forall_cons in Hg as [Hb _]. simpl in *. lia.
  - rewrite Nat2Z.id. by apply pop_acked_exact.
Qed.

Lemma frame_credit_min (n r : nat) :
  (r <= n)%nat -> Z.of_nat n < 2 ^ 32 ->
  frame_credit (Z.of_nat n) (Z.of_nat r) = Z.of_nat (n - r) `min` RX_CREDIT_TUPLES.
Proof.
  intros Hr Hn. unfold frame_credit. rewrite u32_small by (unfold is_u32; lia). consts.
  destruct (Z.ltb_spec (Z.of_nat n - Z.of_nat r) 512); rewrite u16_small by (unfold is_u16; lia); lia.
Qed.

(** ** Receiving leaves the far end alone *)

Section recv_only.
Context `{Transport T} (P : T -> Prop).
Hypothesis recv_P : forall n t bs t', P t -> recv n t = Done bs t' -> P t'.
Local Abbreviation keeps m := (triple True P m (fun _ => P) (fun _ _ => True)).

Lemma keeps_recv n : keeps (recv n).
Proof using recv_P. intros t Ht. destruct (recv n t) eqn:He; eauto. Qed.

Lemma keeps_bind {A B} (m : H T A) (k : A -> H T B) : keeps m -> (forall a, keeps (k a)) -> keeps (m ≫= k).
Proof. intros Hm Hk. eapply t_bind; [exact Hm|exact Hk]. Qed.

Lemma keeps_ret {A} (a : A) : keeps (mret a).
Proof. by apply t_ret. Qed.

Lemma keeps_throw {A} e : keeps (throw (A := A) e).
Proof. by apply t_throw. Qed.

Lemma keeps_exact n : keeps (recv_exact n).
Proof using recv_P.
  unfold recv_exact. generalize n at 1. intros fuel. revert n.
  induction fuel as [|fuel IH]; intros n; cbn [recv_exact_loop]; (destruct (n =? 0)%nat; [apply keeps_ret|]).
  - intros t _. done.
  - apply keeps_bind; [apply keeps_recv|]. intros [|x got]; [apply keeps_throw|].
    apply keeps_bind; [apply IH|]. intros rest. apply keeps_ret.
Qed.

Lemma keeps_require c e m : keeps (require_count c e m).
Proof. unfold require_count, hwhen. destruct (negb _); [apply keeps_throw|apply keeps_ret]. Qed.

Lemma keeps_frame d o : keeps (recv_frame d o).
Proof using recv_P.
  unfold recv_frame. apply keeps_bind; [apply keeps_recv|]. intros [|b bs]; [apply keeps_ret|].
  apply keeps_bind; [apply keeps_exact|]. intros cb. unfold recv_payload.
  repeat (destruct (_ =? _); [|]).
  all: unfold recv_result, recv_status, recv_error, recv_debug, recv_timing.
  all: repeat first [apply keeps_ret|apply keeps_throw|apply keeps_require|apply keeps_exact
    |apply keeps_bind; [|intros ?]].
  - unfold hwhen. destruct (_ <? _); [apply keeps_throw|apply keeps_ret].
  - destruct (_ =? _)%nat; [apply keeps_ret|apply keeps_exact].
Qed.
End recv_only.

(** ** Pacing *)

(** A server that groups acknowledgements as [gr] acknowledges at the latest every
    [group] frames, which the client's window and the credit leave room for. *)
Record paced (gr : grouping) (cf : ClientConfig) (group : nat) : Prop := {
  pc_pos : (0 < group)%nat;
  pc_bound n : gr_waits gr n -> (S n < group)%nat;
  pc_window : Z.of_nat group <= ack_window_frames cf;
  pc_credit : Z.of_nat group * max_batch_tuples cf <= RX_CREDIT_TUPLES }.

(** The kernel's groups of two. *)
Lemma kernel_paced cf :
  ACK_BATCH_FRAMES <= ack_window_frames cf -> max_batch_tuples cf <= RX_BUF_TUPLES ->
  paced kernel_grouping cf 2.
Proof. intros Hw Hb. consts. constructor; consts; cbn [kernel_grouping gr_waits]; lia. Qed.

(** ** Sessions *)

Section session.
Context {T : Type} {HT : Transport T} {HL : LawfulTransport T} {HP : PromptTransport T}.
Context {j : job} {gr : grouping} {HJ : JoinServer T j gr} {group : nat}.
Context (clock : nat -> Z) (cf : ClientConfig) (inner outer : list Tuple).
Local Abbreviation client := (FpgaClient T).
Local Abbreviation kt := (j_key_type j).

Hypothesis in_time : forall i k, (i <= k)%nat -> Z.quot (clock k - clock i) 1000000 < hard_timeout_ms cf.
Hypothesis batch_size : 0 < max_batch_tuples cf <= RX_BUF_TUPLES.
Hypothesis pace : paced gr cf group.
Hypothesis key_known : known_key_type kt.
Hypothesis sid_byte : is_byte (j_sid j).
Hypothesis inner_rows : j_inner j = narrow_tuple kt <$> inner.
Hypothesis outer_rows : j_outer j = narrow_tuple kt <$> outer.
Hypothesis inner_u32 : Z.of_nat (n_inner j) < 2 ^ 32.
Hypothesis outer_u32 : Z.of_nat (n_outer j) < 2 ^ 32.

(** The client in the middle of a session: far end in state [a], the frames
    [pend] still to be received, [cr] credit. *)
Record sees (a : pstate) (pend : list fp_frame) (cr : Z) (c : client) : Prop := {
  see_cfg : cfg c = cf;
  see_sid : active_session_id c = j_sid j;
  see_credit : credit c = cr;
  see_server : serves a (transport c);
  see_pending : incoming (transport c) = replies_bytes pend }.

Definition same_session (c c' : client) : Prop :=
  cfg c' = cfg c /\ active_session_id c' = active_session_id c /\ credit c' = credit c /\
  transport c' = transport c.

Lemma sees_same a pend cr c c' : same_session c c' -> sees a pend cr c -> sees a pend cr c'.
Proof. intros (H1 & H2 & H3 & H4) []. constructor; by rewrite ?H1, ?H2, ?H3, ?H4. Qed.

(** Reception of the next frame. *)
Lemma receive_next a f pend cr d c :
  sees a (f :: pend) cr c -> frame_wire f ->
  exists c', lift (recv_frame d out0) c = Done (deliver f d out0) c' /\
    sees a pend cr c' /\ ticks c' = ticks c.
Proof using HP.
  intros [H1 H2 H3 H4 H5] Hf.
  destruct (recv_frame_prompt f d out0 (transport c) (replies_bytes pend) Hf H5) as (t' & Hr & Hi).
  exists (c <| transport := t' |>). unfold lift. rewrite Hr. split_and!; [done| |done].
  constructor; try done.
  pose proof (keeps_frame (serves a) (fun n t bs t' Hs => serves_recv a n t bs t' Hs) d out0 _ H4) as Hk.
  by rewrite Hr in Hk.
Qed.

Definition same_place (c c' : client) : Prop := same_session c c' /\ (ticks c <= ticks c')%nat.

(** One round of the receive loop, up to the dispatch on the frame's type. *)
Lemma collect_round a f pend cr kind start c :
  sees a (f :: pend) cr c -> frame_wire f ->
  (exists i, (i <= ticks c)%nat /\ start = clock i) ->
  let '(msg, d, o) := deliver f (decoder c) out0 in
  exists c' us uw, sees a pend cr c' /\ (ticks c <= ticks c')%nat /\ forall n out,
    collect_loop clock (S n) start kind out c =
    (hmodify (fun c => c <| metrics ::= count_received (frame_type f) (out_pairs o) us d |>) ;;
     match frame_type f with
     | MSG_RESULT => collect_loop clock n start kind (out ++ out_pairs o)
     | MSG_ACK | MSG_STATUS =>
         c ← hget;
         if negb (is_wait_reset kind) && negb (ack_session_id (out_ack o) =? active_session_id c)
         then collect_loop clock n start kind out
         else account_wait kind uw ;; mret (out_ack o, out)
     | MSG_ERROR => throw (FpgaErrorException (out_error o))
     | _ => collect_loop clock n start kind out
     end) c'.
Proof using HP in_time.
  intros Hs Hf (i & Hi & ->).
  assert (sees a (f :: pend) cr (c <| ticks := S (S (ticks c)) |>)) as Hs1 by by destruct Hs.
  destruct (receive_next a f pend cr (decoder c) _ Hs1 Hf) as (c1 & Hr & Hs2 & Ht).
  assert (forall (dd : ResultDecoder) m oo, deliver f (decoder c) out0 = (m, dd, oo) -> m = Some (frame_type f)) as Hty
    by (destruct f; simpl; congruence).
  destruct (deliver f (decoder c) out0) as [[m d] o] eqn:Hd.
  pose proof (Hty _ _ _ eq_refl) as ->. clear Hty.
  exists (c1 <| decoder := d |> <| ticks := S (ticks c1) |>),
    (elapsed_us (clock (S (ticks c))) (clock (ticks c1))), (elapsed_us (clock i) (clock (ticks c1))).
  split_and!; [by destruct Hs2|rcbn; lia|]. intros n out.
  cbn [collect_loop].
  rewrite (hbind_Done (now clock) _ c (clock (ticks c)) (c <| ticks := S (ticks c) |>)) by done.
  rewrite (hbind_Done hget _ _ (c <| ticks := S (ticks c) |>) (c <| ticks := S (ticks c) |>)) by done.
  change (cfg (c <| ticks := S (ticks c) |>)) with (cfg c). rewrite (see_cfg _ _ _ _ Hs).
  specialize (in_time i (ticks c) Hi).
  destruct (Z.leb_spec (hard_timeout_ms cf) (Z.quot (clock (ticks c) - clock i) 1000000)); [lia|].
  rewrite (hbind_Done (now clock) _ _ (clock (S (ticks c))) (c <| ticks := S (S (ticks c)) |>)) by done.
  change (decoder (c <| ticks := S (ticks c) |>)) with (decoder c).
  rewrite (hbind_Done _ _ _ _ _ Hr). cbn beta iota.
  by destruct (frame_type f).
Qed.

(** A frame that acknowledges the session. *)
Definition acknowledges (f : fp_frame) (s : StatusPayload) : Prop :=
  (f = FAck s \/ f = FStatus s) /\ status_wf s /\ sp_session_id s = j_sid j.

Lemma collect_loop_ok a f s post cr kind start pre : forall out c,
  sees a (pre ++ f :: post) cr c -> Forall quiet pre -> acknowledges f s ->
  (exists i, (i <= ticks c)%nat /\ start = clock i) ->
  exists c', sees a post cr c' /\ forall n, (length pre < n)%nat ->
    collect_loop clock n start kind out c = Done (ack_of s, out ++ results_of pre) c'.
Proof using HP in_time.
  induction pre as [|q pre IH]; intros out c Hs Hq Hf Hst.
  - destruct Hf as (Hf & Hwf & Hsid).
    assert (frame_wire f) as Hw by (by destruct Hf as [-> | ->]).
    pose proof (collect_round a f post cr kind start c Hs Hw Hst) as Hc.
    assert (deliver f (decoder c) out0 = (Some (frame_type f), decoder c, mkOut [] (ack_of s) 0)) as Hd
      by (by destruct Hf as [-> | ->]).
    rewrite Hd in Hc. destruct Hc as (c1 & us & uw & Hs1 & _ & Hc).
    change (results_of []) with (@nil ResultPair). rewrite app_nil_r.
    assert ((ack_session_id (ack_of s) =? active_session_id c1) = true) as Hb.
    { rewrite (see_sid _ _ _ _ Hs1). simpl. rewrite Hsid. apply Z.eqb_refl. }
    destruct Hf as [-> | ->]; cbn [frame_type] in Hc;
      (eexists; split; [|intros [|n] Hn; [simpl in Hn; lia|]; rewrite Hc;
        unfold mbind, H_bind, hmodify, hget; cbn [out_ack];
        change (active_session_id (_ <| metrics ::= _ |>)) with (active_session_id c1);
        rewrite Hb, andb_false_r; reflexivity]; by destruct Hs1).
  - apply Forall_cons in Hq as [[Hw Hk] Hq].
    pose proof (collect_round a q (pre ++ f :: post) cr kind start c Hs Hw Hst) as Hc.
    destruct (deliver q (decoder c) out0) as [[m d] o] eqn:Hd.
    destruct Hc as (c1 & us & uw & Hs1 & Ht1 & Hc).
    set (c2 := c1 <| metrics ::= count_received (frame_type q) (out_pairs o) us d |>).
    assert (sees a (pre ++ f :: post) cr c2) as Hs2 by by destruct Hs1.
    assert (exists i, (i <= ticks c2)%nat /\ start = clock i) as Hst2.
    { destruct Hst as (i & Hi & ->). exists i. split; [|done].
      change (ticks c2) with (ticks c1). lia. }
    assert (results_of (q :: pre) = frame_pairs q ++ results_of pre) as -> by done.
    assert (out_pairs o = frame_pairs q \/ frame_pairs q = [] /\ frame_type q <> MSG_RESULT) as Hp.
    { destruct q; simpl in Hd; injection Hd as _ _ <-; simpl; auto. }
    destruct (IH (out ++ frame_pairs q) c2 Hs2 Hq Hf Hst2) as (c3 & Hs3 & He).
    exists c3. split; [done|]. intros [|n] Hn; [simpl in Hn; lia|].
    rewrite app_assoc, <- (He n) by (simpl in Hn; lia).
    rewrite Hc. unfold mbind, H_bind, hmodify. fold c2.
    destruct q; try done; simpl in Hp |- *; rewrite ?app_nil_r; try done.
    destruct Hp as [-> | [_ ?]]; done.
Qed.

Lemma collect_ok a f s post cr kind pre out :
  Forall quiet pre -> acknowledges f s ->
  evals (sees a (pre ++ f :: post) cr)
    (fun n => collect_until_ack clock n out kind)
    (fun r c => r = (ack_of s, out ++ results_of pre) /\ sees a post cr c).
Proof using HP in_time.
  intros Hq Hf c Hs. unfold collect_until_ack.
  destruct (collect_loop_ok a f s post cr kind (clock (ticks c)) pre out (c <| ticks := S (ticks c) |>))
    as (c2 & Hs2 & Hc); try done.
  { by destruct Hs. }
  { exists (ticks c). split; [rcbn; lia|done]. }
  eexists _, c2, (S (length pre)). split; [split; [reflexivity|exact Hs2]|].
  intros n Hn. by apply Hc.
Qed.

(** *** Sending *)

Lemma send_counted_sees a pend cr data m bucket t' fs a' c :
  sees a pend cr c -> send data (transport c) = Done tt t' -> serves a' t' ->
  incoming t' = incoming (transport c) ++ replies_bytes fs ->
  exists c', send_counted clock data m bucket c = Done tt c' /\ sees a' (pend ++ fs) cr c'.
Proof.
  intros [H1 H2 H3 H4 H5] Hsd Hsv Hi. unfold send_counted.
  rewrite (hbind_Done (now clock) _ c (clock (ticks c)) (c <| ticks := S (ticks c) |>)) by done.
  assert (lift (send data) (c <| ticks := S (ticks c) |>) =
    Done tt (c <| ticks := S (ticks c) |> <| transport := t' |>)) as Hl.
  { unfold lift. change (transport (c <| ticks := S (ticks c) |>)) with (transport c). by rewrite Hsd. }
  rewrite (hbind_Done _ _ _ _ _ Hl). eexists. split; [reflexivity|].
  constructor; try done. rcbn. rewrite Hi, H5. unfold replies_bytes. by rewrite fmap_app, concat_app.
Qed.

(** One frame the server must take. *)
Lemma send_frame_sees a pend cr f m bucket c :
  sees a pend cr c -> may_send j a f ->
  exists c' fs a', send_counted clock (pg_bytes kt f) m bucket c = Done tt c' /\
    protocol_step j gr a f fs a' /\ sees a' (pend ++ fs) cr c'.
Proof.
  intros Hs Hm. destruct (serves_send a f (transport c) (see_server _ _ _ _ Hs) Hm)
    as (t' & fs & a' & Hsd & Hst & Hsv & Hi).
  destruct (send_counted_sees a pend cr _ m bucket t' fs a' c Hs Hsd Hsv Hi) as (c' & Hc & Hs').
  exists c', fs, a'. auto.
Qed.

Lemma slice_narrow rows b n :
  slice (narrow_tuple kt <$> rows) n b = narrow_tuple kt <$> take b (drop n rows).
Proof. unfold slice. by rewrite <- fmap_drop, <- fmap_take. Qed.

(** What [serialize] yields is the data frame of the rows. *)
Lemma serialize_slice rows msg mk n b c :
  (forall ts, pg_bytes kt (mk ts) = header_bytes msg (Z.of_nat (length ts)) ++ tuples_bytes kt ts) ->
  batch_ok (narrow_tuple kt <$> rows) n b ->
  serialize (T := T) kt msg rows n b c =
  Done (pg_bytes kt (mk (slice (narrow_tuple kt <$> rows) n b))) c.
Proof using key_known.
  intros Hmk (Hb & Hmax & Hle). rewrite length_fmap in Hle. unfold serialize. consts.
  rewrite serialize_batch_bytes by (rewrite ?length_drop; done || lia).
  rewrite Hmk, slice_narrow, length_fmap, length_take, length_drop.
  by replace (b `min` (length rows - n))%nat with b by lia.
Qed.

(** The rounds of [send_window] keep any invariant that the protocol steps keep. *)
Section window.
Context (rows : list Tuple) (msg : MsgType) (mk : list Tuple -> pg_frame)
  (bucket : Z -> HostSessionMetrics -> HostSessionMetrics).
Hypothesis mk_bytes :
  forall ts, pg_bytes kt (mk ts) = header_bytes msg (Z.of_nat (length ts)) ++ tuples_bytes kt ts.
Local Abbreviation wire := (narrow_tuple kt <$> rows).
Context (Inv : window -> pstate -> list fp_frame -> Z -> Prop).

Definition advance (w : window) (b : nat) : window :=
  mkWindow (w_sent w + b) (w_inflight w ++ [b]) (w_acked w).

(** The batch the client chooses. *)
Definition chosen (w : window) (cr : Z) (b : nat) : Prop :=
  batch_ok wire (w_sent w) b /\ 0 < cr /\ Z.of_nat b <= cr /\
  (Z.of_nat b = max_batch_tuples cf \/ (w_sent w + b = length rows)%nat) /\
  Z.of_nat b <= max_batch_tuples cf.

Hypothesis Inv_step : forall w a pend cr b,
  Inv w a pend cr -> chosen w cr b ->
  may_send j a (mk (slice wire (w_sent w) b)) /\
  forall fs a', protocol_step j gr a (mk (slice wire (w_sent w) b)) fs a' ->
    Inv (advance w b) a' (pend ++ fs) (cr - Z.of_nat b).

(** Why the loop stops. *)
Definition stopped (w : window) (cr : Z) : Prop :=
  (length rows <= w_sent w)%nat \/ ack_window_frames cf <= Z.of_nat (length (w_inflight w)) \/
  cr = 0 \/ (cr < max_batch_tuples cf /\ cr < Z.of_nat (length rows - w_sent w)).

Lemma send_window_ok n : forall w a pend cr c,
  sees a pend cr c -> Inv w a pend cr -> 0 <= cr < 2 ^ 16 -> (length rows - w_sent w <= n)%nat ->
  exists w' a' pend' cr' c',
    send_window clock n kt msg bucket rows w c = Done w' c' /\ sees a' pend' cr' c' /\
    Inv w' a' pend' cr' /\ 0 <= cr' < 2 ^ 16 /\ stopped w' cr'.
Proof using Inv_step mk_bytes batch_size key_known.
  induction n as [|n IH]; intros w a pend cr c Hs HI Hcr Hn; cbn [send_window];
    rewrite (hbind_Done hget _ c c c) by done; rewrite (see_cfg _ _ _ _ Hs), (see_credit _ _ _ _ Hs).
  { destruct (Nat.ltb_spec (w_sent w) (length rows)); [lia|]. cbn [andb].
    exists w, a, pend, cr, c. split_and!; try done; try lia. by left. }
  destruct (Nat.ltb_spec (w_sent w) (length rows)) as [Hlt|Hge]; cbn [andb].
  2: { exists w, a, pend, cr, c. split_and!; try done; try lia. by left. }
  destruct (Z.ltb_spec (Z.of_nat (length (w_inflight w))) (ack_window_frames cf)) as [Hw|Hw]; cbn [andb].
  2: { exists w, a, pend, cr, c. split_and!; try done; try lia. by right; left. }
  destruct (Z.eqb_spec cr 0) as [Hz|Hz]; cbn [negb].
  { exists w, a, pend, cr, c. split_and!; try done; try lia. by right; right; left. }
  destruct ((cr <? max_batch_tuples cf) && (cr <? Z.of_nat (length rows - w_sent w))) eqn:Hbr.
  { apply andb_true_iff in Hbr as [?%Z.ltb_lt ?%Z.ltb_lt].
    exists w, a, pend, cr, c. split_and!; try done; try lia. right; right; right. done. }
  set (b := ((Z.to_nat cr `min` Z.to_nat (max_batch_tuples cf)) `min` (length rows - w_sent w))%nat).
  assert (chosen w cr b) as Hch.
  { apply andb_false_iff in Hbr. rewrite !Z.ltb_ge in Hbr. unfold chosen, batch_ok.
    rewrite length_fmap. consts. unfold b. lia. }
  destruct (Inv_step w a pend cr b HI Hch) as [Hms Hst].
  rewrite (hbind_Done _ _ _ _ _ (serialize_slice rows msg mk _ b c mk_bytes (proj1 Hch))).
  rewrite (hbind_Done _ _ c tt (c <| credit ::= take_credit b |>)) by done.
  assert (take_credit b cr = cr - Z.of_nat b) as Htc.
  { destruct Hch as (_ & ? & ? & _). unfold take_credit. destruct (Z.ltb_spec (Z.of_nat b) cr); [|lia].
    rewrite u16_small by (unfold is_u16; lia). lia. }
  assert (sees a pend (cr - Z.of_nat b) (c <| credit ::= take_credit b |>)) as Hs1.
  { destruct Hs as [? ? Hc ? ?]. constructor; try done.
    change (take_credit b (credit c) = cr - Z.of_nat b). by rewrite Hc. }
  destruct (send_frame_sees a pend _ (mk (slice wire (w_sent w) b)) msg bucket _ Hs1 Hms)
    as (c2 & fs & a2 & Hc2 & Hp2 & Hs2).
  rewrite (hbind_Done _ _ _ _ _ Hc2).
  destruct (IH (advance w b) a2 (pend ++ fs) (cr - Z.of_nat b) c2 Hs2 (Hst fs a2 Hp2))
    as (w' & a' & pend' & cr' & c' & He & ?).
  { destruct Hch as (_ & ? & ? & _). lia. }
  { cbn [advance w_sent]. destruct Hch as ((? & _) & _). lia. }
  exists w', a', pend', cr', c'. split; [|done]. rewrite <- He. f_equal.
  unfold advance. destruct w; cbn. by rewrite Nat.add_comm.
Qed.
End window.

(** *** Credit *)

(** Either the credit not used by the frames in flight is left, or there is credit for
    all remaining rows. *)
Definition funded (rows : nat) (w : window) (cr : Z) : Prop :=
  0 <= cr < 2 ^ 16 /\
  (RX_CREDIT_TUPLES <= cr + max_batch_tuples cf * Z.of_nat (length (w_inflight w)) \/
   Z.of_nat (rows - w_sent w) <= cr).

Lemma funded_advance rows w cr b :
  funded (length rows) w cr -> chosen rows w cr b -> funded (length rows) (advance w b) (cr - Z.of_nat b).
Proof.
  intros [Hr Hf] ((? & ? & Hl) & ? & ? & ?). rewrite length_fmap in Hl. split; [lia|].
  unfold advance. simpl. rewrite length_app. simpl. consts. lia.
Qed.

(** When the loop stops and rows are left, a whole group is in flight. *)
Lemma stopped_group rows w cr :
  funded (length rows) w cr -> stopped rows w cr -> (w_sent w < length rows)%nat ->
  (group <= length (w_inflight w))%nat.
Proof using j batch_size pace.
  intros [Hr Hf] Hs Hlt. destruct pace as [_ _ ? ?]. unfold stopped in Hs. consts. nia.
Qed.

(** A frame left unacknowledged does not complete a group. *)
Lemma paced_wait (unacked : list nat) b :
  gr_waits gr (length unacked) -> (length (unacked ++ [b]) < group)%nat.
Proof using j pace. intros Hw%(pc_bound _ _ _ pace). rewrite length_app. simpl. lia. Qed.

Lemma group_pos : (0 < group)%nat.
Proof using pace. apply (pc_pos _ _ _ pace). Qed.

(** *** Build phase *)

(** Rows sent, acknowledged and in flight; [gs] are the acknowledged groups whose
    acknowledgement has not been received, [unacked] the frames after them. *)
Record balanced (rows : nat) (w : window) (gs : list (list nat)) (unacked : list nat) : Prop := {
  ba_inflight : w_inflight w = concat gs ++ unacked;
  ba_sum : (w_acked w + total (w_inflight w) = w_sent w)%nat;
  ba_sent : (w_sent w <= rows)%nat;
  ba_groups : Forall (.≠ []) gs;
  ba_pos : Forall (Nat.lt 0) (w_inflight w) }.

Lemma balanced_advance rows w gs unacked b :
  balanced rows w gs unacked -> (0 < b)%nat -> (w_sent w + b <= rows)%nat ->
  balanced rows (advance w b) gs (unacked ++ [b]) /\ balanced rows (advance w b) (gs ++ [unacked ++ [b]]) [].
Proof.
  intros [Hi Hs Hl Hg Hp] Hb Hle. unfold advance.
  split; constructor; simpl; try done.
  - by rewrite Hi, <- app_assoc.
  - rewrite total_app. simpl. lia.
  - apply Forall_app_2; [done|]. by constructor.
  - rewrite concat_app. simpl. by rewrite Hi, !app_nil_r, <- app_assoc.
  - rewrite total_app. simpl. lia.
  - apply Forall_app_2; [done|]. constructor; [|done]. by destruct unacked.
  - apply Forall_app_2; [done|]. by constructor.
Qed.

(** An acknowledgement of the first group is received. *)
Lemma balanced_ack rows w g gs unacked :
  balanced rows w (g :: gs) unacked ->
  apply_cumulative_ack (w_inflight w) (w_acked w) (Z.of_nat (w_acked w + total g)) =
    (length g, concat gs ++ unacked, (w_acked w + total g)%nat) /\
  (0 < length g)%nat /\
  balanced rows (mkWindow (w_sent w) (concat gs ++ unacked) (w_acked w + total g)) gs unacked.
Proof.
  intros [Hi Hs Hl Hg Hp]. apply Forall_cons in Hg as [Hg Hgs]. cbn [concat] in Hi.
  rewrite <- app_assoc in Hi. rewrite Hi in *. apply Forall_app in Hp as [Hpg Hpr].
  split_and!.
  - by apply ack_pops_group.
  - destruct g; [done|simpl; lia].
  - constructor; simpl; try done. rewrite total_app in Hs. lia.
Qed.

Definition build_inv (w : window) (a : pstate) (pend : list fp_frame) (cr : Z) : Prop :=
  funded (n_inner j) w cr /\
  exists gs unacked tr,
    balanced (n_inner j) w gs unacked /\ in_flight (build_ack_at j) (w_acked w) gs tr pend /\
    if (w_sent w <? n_inner j)%nat
    then a = ABuild (w_sent w) unacked /\ (length unacked < group)%nat /\ Forall silent tr
    else unacked = [] /\ starts_probe j tr a.

Lemma n_inner_length : n_inner j = length inner.
Proof using inner_rows. unfold n_inner. by rewrite inner_rows, length_fmap. Qed.
Lemma n_outer_length : n_outer j = length outer.
Proof using outer_rows. unfold n_outer. by rewrite outer_rows, length_fmap. Qed.

Lemma build_inv_step w a pend cr b :
  build_inv w a pend cr -> chosen inner w cr b ->
  may_send j a (PInner (slice (narrow_tuple kt <$> inner) (w_sent w) b)) /\
  forall fs a', protocol_step j gr a (PInner (slice (narrow_tuple kt <$> inner) (w_sent w) b)) fs a' ->
    build_inv (advance w b) a' (pend ++ fs) (cr - Z.of_nat b).
Proof using inner_rows pace.
  intros [Hfu (gs & unacked & tr & Hba & Hif & Hst)] Hch.
  pose proof (funded_advance inner w cr b) as Hfu'. rewrite <- n_inner_length in Hfu'.
  specialize (Hfu' Hfu Hch). destruct Hch as (Hok & Hcr & Hbc & _). rewrite <- inner_rows in *.
  assert (w_sent w + b <= n_inner j)%nat as Hle by apply Hok.
  destruct (Nat.ltb_spec (w_sent w) (n_inner j)); [|destruct Hok; lia].
  destruct Hst as (-> & Hlen & Htr). split; [by constructor|].
  destruct (balanced_advance _ _ _ _ b Hba (proj1 Hok) Hle) as [Hb1 Hb2].
  assert (w_acked w + total (concat gs) + total (unacked ++ [b]) = w_sent w + b)%nat as Hsum.
  { destruct Hba as [Hi Hs _ _ _]. rewrite Hi in Hs. rewrite !total_app in *. simpl. lia. }
  assert (forall n' b', slice (j_inner j) (w_sent w) b = slice (j_inner j) (w_sent w) b' ->
    (w_sent w + b' <= n_inner j)%nat -> n' = b' -> n' = b) as Hsl.
  { intros n' b' He Hb' ->. apply (f_equal length) in He. unfold slice in He.
    rewrite !length_take, !length_drop in He. unfold n_inner in *. lia. }
  intros fs a' Hp. inversion Hp as [|? b' ? ? Hok' Hlt' Hwt Hfs He1 He2|? b' ? ? Hok' Hlt' Hne Hfs He1 He2
    |? b' ? ? ? ? Hok' Heq' Hfs Hsp He1 He2| | |]; subst; split; try done.
  all: assert (b' = b) as -> by (eapply Hsl; [symmetry; eassumption|apply Hok'|done]).
  - exists gs, (unacked ++ [b]), (tr ++ fs). split_and!; [done|by apply in_flight_app|].
    cbn [advance w_sent]. destruct (Nat.ltb_spec (w_sent w + b) (n_inner j)); [|lia].
    split_and!; [done|by apply paced_wait|by apply Forall_app_2].
  - exists (gs ++ [unacked ++ [b]]), [], []. split_and!; [done| |].
    + rewrite <- Hsum. apply in_flight_snoc with tr; [done|].
      apply Forall_app_2; by apply silent_quiet.
    + cbn [advance w_sent]. destruct (Nat.ltb_spec (w_sent w + b) (n_inner j)); [|lia].
      split_and!; [done|apply group_pos|done].
  - exists (gs ++ [unacked ++ [b]]), [], post. split_and!; [done| |].
    + rewrite <- Hsum. apply in_flight_snoc with tr; [done|].
      apply Forall_app_2; by apply silent_quiet.
    + cbn [advance w_sent]. destruct (Nat.ltb_spec (w_sent w + b) (n_inner j)); [lia|]. done.
Qed.

(** A loop with something to wait for. *)
Definition busy (rows : nat) (w : window) : Prop := (w_sent w < rows)%nat \/ w_inflight w <> [].

Lemma busy_advance rows w b : busy rows (advance w b).
Proof. right. unfold advance. simpl. by destruct (w_inflight w). Qed.

(** After sending, an acknowledgement is on its way. *)
Lemma group_waiting rows w cr gs unacked :
  funded (length rows) w cr -> stopped rows w cr -> busy (length rows) w ->
  balanced (length rows) w gs unacked ->
  (if (w_sent w <? length rows)%nat then (length unacked < group)%nat else unacked = []) -> gs <> [].
Proof using j batch_size pace.
  intros Hf Hs Hb [Hi _ _ _ _] Hu ->. simpl in Hi.
  destruct (Nat.ltb_spec (w_sent w) (length rows)) as [Hlt|Hge].
  - pose proof (stopped_group _ _ _ Hf Hs Hlt) as H2. rewrite Hi in H2. lia.
  - destruct Hb as [?|Hb]; [lia|]. by rewrite Hi, Hu in Hb.
Qed.

(** Credit after an acknowledgement of [r] rows. *)
Lemma funded_ack rows w r :
  (r <= w_sent w)%nat -> (w_sent w <= rows)%nat -> Z.of_nat rows < 2 ^ 32 ->
  funded rows w (frame_credit (Z.of_nat rows) (Z.of_nat r)).
Proof.
  intros Hr Hs Hu. rewrite frame_credit_min by lia. consts. split; [lia|]. consts. lia.
Qed.

Lemma build_acknowledges r :
  (r <= n_inner j)%nat -> exists s, acknowledges (build_ack_at j r) s /\
    ack_of s = mkAck (phase_code PHASE_BUILDING) (j_sid j)
                 (frame_credit (Z.of_nat (n_inner j)) (Z.of_nat r)) (Z.of_nat r) 0.
Proof using sid_byte inner_u32.
  intros Hr. eexists. split; [split; [by left|split; [|done]]|done].
  unfold status_wf, status_of. simpl. rewrite frame_credit_min by lia. consts.
  unfold is_byte, is_u16, is_u32 in *. lia.
Qed.

Lemma build_round_ok w a pend cr :
  build_inv w a pend cr -> busy (n_inner j) w ->
  evals (sees a pend cr) (fun n => build_round clock n kt inner w)
    (fun w' c => exists a' pend' cr', sees a' pend' cr' c /\ build_inv w' a' pend' cr' /\
       (w_acked w < w_acked w')%nat).
Proof using All.
  intros HI Hbusy c Hs.
  destruct (send_window_ok inner MSG_INNER_DATA PInner add_build_send ltac:(done)
    (fun w' a pend cr => build_inv w' a pend cr /\ busy (n_inner j) w' /\ w_acked w' = w_acked w))
    with (n := length inner) (w := w) (a := a) (pend := pend) (cr := cr) (c := c)
    as (w1 & a1 & pend1 & cr1 & c1 & He1 & Hs1 & (HI1 & Hb1 & Hack1) & Hcr1 & Hst1).
  { intros w0 a0 pend0 cr0 b (HI0 & Hb0 & Ha0) Hch. destruct (build_inv_step _ _ _ _ _ HI0 Hch) as [Hm Hp].
    split; [done|]. intros fs a' Hps. split_and!; [by apply Hp|apply busy_advance|done]. }
  { done. }
  { done. }
  { apply HI. }
  { lia. }
  destruct HI1 as [Hfu (gs & unacked & tr & Hba & Hif & Hst)].
  assert (gs <> []) as Hgs.
  { rewrite n_inner_length in *. eapply group_waiting; try done. destruct (w_sent w1 <? _)%nat; tauto. }
  destruct gs as [|g gs]; [done|]. inversion Hif as [|? ? ? ? pre post Hq Hif']; subst.
  destruct (balanced_ack _ _ _ _ _ Hba) as (Hpop & Hlg & Hba').
  assert (w_acked w1 + total g <= w_sent w1)%nat as Hle.
  { destruct Hba' as [_ Hsum _ _ _]. simpl in Hsum. lia. }
  assert (w_sent w1 <= n_inner j)%nat as Hn by apply Hba.
  destruct (build_acknowledges (w_acked w1 + total g)) as (s & Hack & Has); [lia|].
  destruct (collect_ok a1 _ s post cr1 WaitBuild pre [] Hq Hack c1 Hs1) as (r & c2 & F & [-> Hs2] & He2).
  set (cr2 := frame_credit (Z.of_nat (n_inner j)) (Z.of_nat (w_acked w1 + total g))).
  exists (mkWindow (w_sent w1) (concat gs ++ unacked) (w_acked w1 + total g)), (c2 <| credit := cr2 |>), F.
  split.
  - exists a1, post, cr2. split_and!.
    + by destruct Hs2.
    + split; [by apply (funded_ack _ (mkWindow _ _ _))|]. exists gs, unacked, tr. done.
    + cbn [w_acked]. rewrite <- Hack1. pose proof (Forall_inv (ba_groups _ _ _ _ Hba)) as Hne.
      assert (0 < total g)%nat; [|lia]. apply sum_pos; [|done].
      pose proof (ba_pos _ _ _ _ Hba) as Hp. rewrite (ba_inflight _ _ _ _ Hba) in Hp. cbn [concat] in Hp.
      by apply Forall_app in Hp as [Hp%Forall_app _]; destruct Hp.
  - intros fuel Hf. unfold build_round. rewrite (hbind_Done _ _ _ _ _ He1).
    rewrite bool_decide_eq_false_2.
    2: { rewrite (ba_inflight _ _ _ _ Hba). cbn [concat]. destruct g; [simpl in Hlg; lia|done]. }
    rewrite (hbind_Done _ _ _ _ _ (He2 fuel Hf)). cbn beta iota. rewrite Has.
    rewrite (hbind_Done _ _ c2 tt (c2 <| credit := cr2 |>)) by done. cbn [ack_rows_processed].
    rewrite Hpop. cbn beta iota zeta. destruct (length g) eqn:Hl; [lia|]. cbn [Nat.eqb andb].
    by destruct w1.
Qed.

Lemma build_rounds_ok n : forall w a pend cr,
  build_inv w a pend cr -> (n_inner j - w_acked w <= n)%nat ->
  evals (sees a pend cr) (fun fuel => build_rounds clock fuel n kt inner w)
    (fun w' c => exists a' pend' cr', sees a' pend' cr' c /\ starts_probe j pend' a').
Proof using All.
  assert (forall w a pend cr, build_inv w a pend cr -> ~ busy (n_inner j) w ->
    starts_probe j pend a) as Hend.
  { intros w a pend cr [_ (gs & unacked & tr & Hba & Hif & Hst)] Hnb.
    destruct (Nat.ltb_spec (w_sent w) (n_inner j)) as [?|_]; [by destruct Hnb; left|].
    destruct Hst as [-> Hsp]. destruct gs as [|g gs]; [by inversion Hif; subst|].
    destruct Hnb. right. rewrite (ba_inflight _ _ _ _ Hba). cbn [concat].
    pose proof (Forall_inv (ba_groups _ _ _ _ Hba)). by destruct g. }
  assert (forall w, (if (w_sent w <? length inner)%nat || negb (bool_decide (w_inflight w = []))
    then busy (n_inner j) w else ~ busy (n_inner j) w)) as Hdec.
  { intros w. unfold busy. rewrite n_inner_length. destruct (Nat.ltb_spec (w_sent w) (length inner)); [by left|].
    case_bool_decide; simpl; [|tauto]. intros [?|?]; [lia|done]. }
  induction n as [|n IH]; intros w a pend cr HI Hn c Hs; cbn [build_rounds]; specialize (Hdec w);
    destruct ((w_sent w <? length inner)%nat || _) eqn:Hc.
  - exfalso. destruct HI as [_ (gs & unacked & tr & Hba & _ & _)].
    pose proof (ba_sum _ _ _ _ Hba) as Hsum. pose proof (ba_sent _ _ _ _ Hba). destruct Hdec as [?|Hne]; [lia|].
    pose proof (sum_pos _ (ba_pos _ _ _ _ Hba) Hne). lia.
  - exists w, c, 0%nat. split; [|done]. exists a, pend, cr. split; [done|]. by eapply Hend.
  - revert c Hs. eapply e_bind; [by apply build_round_ok|]. intros w'. cbn beta.
    apply e_exists. intros a'. apply e_exists. intros pend'. apply e_exists. intros cr'.
    intros c (Hs & HI' & Hlt). revert c Hs. apply IH; [done|lia].
  - exists w, c, 0%nat. split; [|done]. exists a, pend, cr. split; [done|]. by eapply Hend.
Qed.

(** *** Opening the session *)

Lemma configure_acknowledges : exists s, acknowledges (configure_ack j) s /\
  ack_of s = mkAck (phase_code PHASE_BUILDING) (j_sid j) RX_CREDIT_TUPLES 0 0.
Proof using sid_byte.
  eexists. split; [split; [by left|split; [|done]]|done].
  unfold status_wf, status_of. simpl. consts. unfold is_byte, is_u16, is_u32 in *. lia.
Qed.

(** The build loop's variables after CONFIGURE with [b] rows sent along. *)
Definition first_window (b : nat) : window := mkWindow b (if (b =? 0)%nat then [] else [b]) 0.

Definition opened (b : nat) (a : pstate) (pend : list fp_frame) : Prop :=
  build_inv (first_window b) a pend (RX_CREDIT_TUPLES - Z.of_nat b) /\ Z.of_nat b < RX_CREDIT_TUPLES.

(** After CONFIGURE alone. *)
Lemma opened_alone post a :
  (if (n_inner j =? 0)%nat then starts_probe j post a else a = ABuild 0 [] /\ Forall silent post) ->
  opened 0 a post.
Proof using pace.
  intros Hp. split; [|consts; lia]. split; [split; [consts; lia|consts; simpl; lia]|].
  exists [], [], post. split_and!; [constructor; simpl; auto; lia|constructor|]. simpl.
  destruct (Nat.eqb_spec (n_inner j) 0), (Nat.ltb_spec 0 (n_inner j)); try lia; [done|].
  destruct Hp. pose proof group_pos. by split_and!.
Qed.

(** The acknowledgement of the first frame, behind silent ones. *)
Lemma first_ack b pre pre' post :
  Forall silent pre -> Forall silent pre' ->
  in_flight (build_ack_at j) 0 [[b]] post (pre ++ pre' ++ build_ack_at j b :: post).
Proof.
  intros Hp Hp'. rewrite app_assoc.
  pose proof (IF_cons (build_ack_at j) 0 [b] [] post (pre ++ pre') post) as Hi.
  simpl in Hi. rewrite !Nat.add_0_r in Hi. apply Hi; [|constructor].
  apply Forall_app_2; by apply silent_quiet.
Qed.

(** After CONFIGURE and the first [b] rows. *)
Lemma opened_with_rows post fs b a :
  batch_ok (j_inner j) 0 b -> Z.of_nat b <= max_batch_tuples cf -> Forall silent post ->
  protocol_step j gr (ABuild 0 []) (PInner (slice (j_inner j) 0 b)) fs a ->
  opened b a (post ++ fs).
Proof using pace.
  intros Hok Hbm Hpost Hp. pose proof Hok as (Hb & Hmax & Hle). fold (n_inner j) in Hle. consts.
  split; [|consts; lia].
  unfold first_window. destruct (Nat.eqb_spec b 0) as [?|_]; [lia|].
  assert (funded (n_inner j) (mkWindow b [b] 0) (RX_CREDIT_TUPLES - Z.of_nat b)) as Hf.
  { split; consts; simpl; lia. }
  split; [done|].
  assert (forall b', (0 + b' <= n_inner j)%nat ->
    slice (j_inner j) 0 b' = slice (j_inner j) 0 b -> b' = b) as Hsl.
  { intros b' Hb' He. apply (f_equal length) in He. unfold slice in He.
    rewrite !length_take, !length_drop in He. unfold n_inner in *. lia. }
  inversion Hp as [|? b' ? ? Hok' Hlt' Hwt Hfs He1 He2|? b' ? ? Hok' Hlt' Hne Hfs He1 He2
    |? b' ? ? ? ? Hok' Heq' Hfs Hsp He1 He2| | |]; subst; try done.
  all: assert (b' = b) as -> by (apply Hsl; [apply Hok'|done]).
  all: simpl in *.
  - exists [], [b], (post ++ fs). split_and!.
    + constructor; simpl; auto; lia.
    + constructor.
    + simpl. destruct (Nat.ltb_spec b (n_inner j)); [|lia].
      split_and!; [done|by apply (paced_wait [] b)|by apply Forall_app_2].
  - exists [[b]], [], []. split_and!.
    + constructor; simpl; auto; lia.
    + by apply first_ack.
    + simpl. destruct (Nat.ltb_spec b (n_inner j)); [|lia]. split_and!; [done|apply group_pos|done].
  - exists [[b]], [], post0. split_and!.
    + constructor; simpl; auto; lia.
    + by apply first_ack.
    + simpl. destruct (Nat.ltb_spec b (n_inner j)); [lia|]. done.
Qed.

Context (config : JoinConfig).
Hypothesis config_alg : algorithm config = alg_code ALGORITHM_A.
Hypothesis config_key : key_type config = kt.

Lemma configure_frame :
  serialize_configure config (u32 (Z.of_nat (length inner))) (u32 (Z.of_nat (length outer))) (j_sid j) =
  pg_bytes kt (PConfigure (job_configure j)).
Proof using All.
  rewrite serialize_configure_bytes.
  - unfold job_configure. rewrite config_alg, config_key, n_inner_length, n_outer_length.
    rewrite !u32_small; [done| |]; rewrite <- ?n_inner_length, <- ?n_outer_length; unfold is_u32; lia.
  - rewrite config_alg. unfold is_byte. simpl. lia.
  - rewrite config_key. destruct key_known as [-> | ->]; unfold is_byte; simpl; lia.
  - done.
Qed.

(** The reply to CONFIGURE is received; [b] rows were sent with it. *)
Lemma await_configure b a pre post fs cr :
  Forall silent pre -> opened b a (post ++ fs) ->
  evals (sees a (pre ++ configure_ack j :: post ++ fs) cr)
    (fun n => '(ack, _) ← collect_until_ack clock n [] WaitConfig; set_credit (ack_credit ack) ;; mret b)
    (fun b' c => exists a pend, sees a pend RX_CREDIT_TUPLES c /\ opened b' a pend).
Proof using All.
  intros Hpre Ho. destruct configure_acknowledges as (s & Hack & Has).
  eapply e_bind; [apply collect_ok; [by apply silent_quiet|exact Hack]|].
  intros [ack res] c [He Hs]. injection He as -> ->. rewrite Has.
  exists b, (c <| credit := RX_CREDIT_TUPLES |>), 0%nat. split; [|done].
  exists a, (post ++ fs). split; [by destruct Hs|done].
Qed.

Lemma configure_step_ok pend0 cr :
  Forall silent pend0 ->
  evals (sees AIdle pend0 cr) (fun n => configure_step clock n config inner outer)
    (fun b c => exists a pend, sees a pend RX_CREDIT_TUPLES c /\ opened b a pend).
Proof using All.
  intros Hp0. unfold configure_step. apply e_get. intros c Hs c' ->.
  rewrite (see_sid _ _ _ _ Hs), (see_cfg _ _ _ _ Hs), configure_frame. cbn zeta.
  destruct (coalesce_config_first_inner cf && negb (length inner =? 0)%nat) eqn:Hco.
  - apply andb_true_iff in Hco as [_ Hne]. apply negb_true_iff, Nat.eqb_neq in Hne.
    set (b := ((Z.to_nat RX_BUF_TUPLES `min` Z.to_nat (max_batch_tuples cf)) `min` length inner)%nat).
    assert (batch_ok (j_inner j) 0 b) as Hok.
    { unfold batch_ok. fold (n_inner j). rewrite n_inner_length. unfold b. consts. lia. }
    rewrite config_key.
    pose proof (serialize_slice inner MSG_INNER_DATA PInner 0 b c ltac:(done)) as Hse.
    rewrite <- inner_rows in Hse. specialize (Hse Hok).
    set (c1 := c <| metrics ::= fun m =>
      m <| protocol_frames_sent ::= plus64 1 |> <| inner_frames_sent ::= plus64 1 |> |>).
    assert (sees AIdle pend0 cr c1) as Hs1 by by destruct Hs.
    destruct (serves_send_first b (transport c1) (see_server _ _ _ _ Hs1) Hok)
      as (t' & fs & a' & Hsd & Hst & Hsv & Hi).
    unfold request_frames_bytes in Hsd. simpl in Hsd. rewrite app_nil_r in Hsd.
    destruct (send_counted_sees AIdle pend0 cr _ MSG_CONFIGURE add_config_send t' fs a' c1 Hs1 Hsd Hsv Hi)
      as (c2 & Hc2 & Hs2).
    inversion Hst as [|? ? fs1 a1 ? fs2 ? Hst1 Hst2]; subst. clear Hst.
    inversion Hst2 as [|? ? fs3 a3 ? fs4 ? Hst3 Hst4]; subst. clear Hst2.
    inversion Hst4; subst. clear Hst4.
    inversion Hst1 as [pre post ? Hpre Hpost| | | | | |]; subst.
    destruct (Nat.eqb_spec (n_inner j) 0) as [?|_]; [rewrite n_inner_length in *; lia|].
    destruct Hpost as [-> Hpost]. rewrite app_nil_r in *.
    replace (pend0 ++ (pre ++ configure_ack j :: post) ++ fs3)
      with ((pend0 ++ pre) ++ configure_ack j :: post ++ fs3) in Hs2
      by (rewrite <- !app_assoc; done).
    destruct (await_configure b a' (pend0 ++ pre) post fs3 cr) with (s := c2)
      as (b' & c3 & F & HQ & HF); [by apply Forall_app_2|apply opened_with_rows; try done; unfold b; lia|done|].
    exists b', c3, F. split; [done|]. intros fuel Hfu. rewrite <- (HF fuel Hfu).
    erewrite hbind_Done.
    2: { rewrite (hbind_Done _ _ _ _ _ Hse). rewrite (hbind_Done _ _ c tt c1) by done. reflexivity. }
    cbn beta iota. by rewrite (hbind_Done _ _ _ _ _ Hc2).
  - destruct (send_frame_sees AIdle pend0 cr _ MSG_CONFIGURE add_config_send c Hs (MS_configure j))
      as (c2 & fs & a2 & Hc2 & Hst & Hs2).
    inversion Hst as [pre post ? Hpre Hpost| | | | | |]; subst.
    replace (pend0 ++ (pre ++ configure_ack j :: post))
      with ((pend0 ++ pre) ++ configure_ack j :: post ++ []) in Hs2
      by (rewrite <- !app_assoc, app_nil_r; done).
    destruct (await_configure 0 a2 (pend0 ++ pre) post [] cr) with (s := c2)
      as (b' & c3 & F & HQ & HF); [by apply Forall_app_2|rewrite app_nil_r; by apply opened_alone|done|].
    exists b', c3, F. split; [done|]. intros fuel Hfu. rewrite <- (HF fuel Hfu).
    erewrite (hbind_Done (mret _)); [|reflexivity]. cbn beta iota. by rewrite (hbind_Done _ _ _ _ _ Hc2).
Qed.

Lemma build_phase_ok b a pend :
  opened b a pend ->
  evals (sees a pend RX_CREDIT_TUPLES) (fun n => build_phase clock n kt inner b)
    (fun _ c => exists a' pend' cr', sees a' pend' cr' c /\ starts_probe j pend' a').
Proof using All.
  intros [HI Hb]. unfold build_phase.
  eapply (e_bind _ _ _ (fun _ => sees a pend (RX_CREDIT_TUPLES - Z.of_nat b))).
  { apply e_run. intros c Hs. unfold hwhen. destruct (Nat.eqb_spec b 0) as [->|Hne]; cbn [negb].
    - exists tt, c. split; [done|]. by rewrite Z.sub_0_r.
    - eexists tt, _. split; [reflexivity|]. destruct Hs as [? ? Hc ? ?]. constructor; try done.
      change (take_credit b (credit c) = RX_CREDIT_TUPLES - Z.of_nat b). rewrite Hc. unfold take_credit.
      destruct (Z.ltb_spec (Z.of_nat b) RX_CREDIT_TUPLES); [|lia].
      apply u16_small. unfold is_u16. consts. lia. }
  intros _. cbn beta zeta. eapply e_bind; [apply build_rounds_ok; [exact HI|]|].
  { rewrite n_inner_length. lia. }
  intros w. by apply e_ret.
Qed.

(** *** Probe phase *)

Hypothesis frame_limit : Z.of_nat (n_outer j) <= probe_frame_limit * max_batch_tuples cf.

(** [res] is what the client has collected. *)
Definition probe_inv (res : list ResultPair) (w : window) (a : pstate) (pend : list fp_frame) (cr : Z)
  : Prop :=
  funded (n_outer j) w cr /\
  exists gs unacked tr,
    balanced (n_outer j) w gs unacked /\ in_flight (probe_ack_at j) (w_acked w) gs tr pend /\
    if (w_sent w <? n_outer j)%nat
    then exists m, a = AProbe (w_sent w) m unacked (res ++ results_of pend) /\
           (length unacked < group)%nat /\ Forall quiet tr /\
           Z.of_nat (w_sent w) = Z.of_nat m * max_batch_tuples cf
    else unacked <> [] /\ res ++ results_of pend = joined j /\
         exists pre post, tr = pre ++ done_status j :: post /\ Forall quiet pre /\ Forall silent post.

Lemma probe_inv_step res w a pend cr b :
  probe_inv res w a pend cr -> chosen outer w cr b ->
  may_send j a (POuter (slice (narrow_tuple kt <$> outer) (w_sent w) b)) /\
  forall fs a', protocol_step j gr a (POuter (slice (narrow_tuple kt <$> outer) (w_sent w) b)) fs a' ->
    probe_inv res (advance w b) a' (pend ++ fs) (cr - Z.of_nat b).
Proof using batch_size outer_rows frame_limit pace.
  intros [Hfu (gs & unacked & tr & Hba & Hif & Hst)] Hch.
  pose proof (funded_advance outer w cr b) as Hfu'. rewrite <- n_outer_length in Hfu'.
  specialize (Hfu' Hfu Hch). destruct Hch as (Hok & Hcr & Hbc & Hfull & _). rewrite <- outer_rows in *.
  assert (w_sent w + b <= n_outer j)%nat as Hle by apply Hok. rewrite <- n_outer_length in Hfull.
  destruct (Nat.ltb_spec (w_sent w) (n_outer j)); [|destruct Hok; lia].
  destruct Hst as (m & -> & Hlen & Htr & Hm).
  split; [constructor; [done|nia|]; intros; destruct Hfull; nia|].
  destruct (balanced_advance _ _ _ _ b Hba (proj1 Hok) Hle) as [Hb1 Hb2].
  assert (w_acked w + total (concat gs) + total (unacked ++ [b]) = w_sent w + b)%nat as Hsum.
  { destruct Hba as [Hi Hs _ _ _]. rewrite Hi in Hs. rewrite !total_app in *. simpl. lia. }
  assert (forall n' b', slice (j_outer j) (w_sent w) b = slice (j_outer j) (w_sent w) b' ->
    (w_sent w + b' <= n_outer j)%nat -> n' = b' -> n' = b) as Hsl.
  { intros n' b' He Hb' ->. apply (f_equal length) in He. unfold slice in He.
    rewrite !length_take, !length_drop in He. unfold n_outer in *. lia. }
  intros fs a' Hp. inversion Hp as [| | | |? ? b' ? ? ? Hok' Hlt' Hwt Hfs He1 He2
    |? ? b' ? ? pre Hok' Hlt' Hne Hfs He1 He2
    |? ? b' ? ? ? Hok' Heq' (pre & post & -> & Hpre & Hpost & Hr) He1 He2]; subst; split; try done.
  all: assert (b' = b) as -> by (eapply Hsl; [symmetry; eassumption|apply Hok'|done]).
  - exists gs, (unacked ++ [b]), (tr ++ fs). split_and!; [done|by apply in_flight_app|].
    cbn [advance w_sent]. destruct (Nat.ltb_spec (w_sent w + b) (n_outer j)); [|lia].
    exists (S m). rewrite results_of_app, app_assoc.
    split_and!; [done|by apply paced_wait|by apply Forall_app_2|].
    destruct Hfull; nia.
  - exists (gs ++ [unacked ++ [b]]), [], []. split_and!; [done| |].
    + rewrite <- Hsum. apply in_flight_snoc with tr; [done|]. by apply Forall_app_2.
    + cbn [advance w_sent]. destruct (Nat.ltb_spec (w_sent w + b) (n_outer j)); [|lia].
      exists (S m). rewrite !results_of_app. unfold results_of at 4. simpl. rewrite app_nil_r, app_assoc.
      split_and!; [done|apply group_pos|done|]. destruct Hfull; nia.
  - exists gs, (unacked ++ [b]), (tr ++ pre ++ done_status j :: post).
    split_and!; [done|by apply in_flight_app|].
    cbn [advance w_sent]. destruct (Nat.ltb_spec (w_sent w + b) (n_outer j)); [lia|]. split_and!.
    + by destruct unacked.
    + rewrite !results_of_app, app_assoc.
      change (results_of (done_status j :: post)) with (results_of post).
      by rewrite (silent_results post), app_nil_r.
    + exists (tr ++ pre), post. rewrite <- app_assoc. split_and!; [done|by apply Forall_app_2|done].
Qed.

Lemma matched_bound r : 0 <= matched j r <= Z.of_nat (n_outer j).
Proof.
  unfold matched. pose proof (length_hash_join (j_inner j) (take r (j_outer j))) as Hl.
  rewrite length_take in Hl. unfold n_outer. lia.
Qed.

Lemma probe_acknowledges r :
  (r <= n_outer j)%nat -> exists s, acknowledges (probe_ack_at j r) s /\
    ack_of s = mkAck (phase_code PHASE_PROBING) (j_sid j)
                 (frame_credit (Z.of_nat (n_outer j)) (Z.of_nat r)) (Z.of_nat r) (matched j r).
Proof using sid_byte outer_u32.
  intros Hr. eexists. split; [split; [by left|split; [|done]]|done].
  unfold status_wf, status_of. simpl. rewrite frame_credit_min by lia. consts.
  pose proof (matched_bound r). unfold is_byte, is_u16, is_u32 in *. lia.
Qed.

Definition done_ack : AckInfo :=
  mkAck (phase_code PHASE_DONE) (j_sid j) 0 (Z.of_nat (n_outer j)) (Z.of_nat (length (joined j))).

Lemma done_acknowledges : exists s, acknowledges (done_status j) s /\ ack_of s = done_ack.
Proof using sid_byte outer_u32.
  eexists. split; [split; [by right|split; [|done]]|done].
  unfold status_wf, status_of. simpl. pose proof (length_hash_join (j_inner j) (j_outer j)) as Hl.
  fold (joined j) (n_outer j) in Hl. unfold is_byte, is_u16, is_u32 in *. lia.
Qed.

(** A round that receives an acknowledgement, or STATUS(DONE). *)
Lemma probe_round_ok v a pend cr :
  probe_inv (pv_results v) (pv_window v) a pend cr -> busy (n_outer j) (pv_window v) ->
  evals (sees a pend cr) (fun n => probe_round clock n kt outer v)
    (fun v' c => exists a' pend' cr', sees a' pend' cr' c /\
       if pv_done v' then pv_results v' = joined j /\ pv_ack v' = done_ack
       else probe_inv (pv_results v') (pv_window v') a' pend' cr' /\
            (w_acked (pv_window v) < w_acked (pv_window v'))%nat).
Proof using All.
  intros HI Hbusy c Hs. set (res := pv_results v) in *. set (w := pv_window v) in *.
  destruct (send_window_ok outer MSG_OUTER_DATA POuter add_probe_send ltac:(done)
    (fun w' a pend cr => probe_inv res w' a pend cr /\ busy (n_outer j) w' /\ w_acked w' = w_acked w))
    with (n := length outer) (w := w) (a := a) (pend := pend) (cr := cr) (c := c)
    as (w1 & a1 & pend1 & cr1 & c1 & He1 & Hs1 & (HI1 & Hb1 & Hack1) & Hcr1 & Hst1).
  { intros w0 a0 pend0 cr0 b (HI0 & Hb0 & Ha0) Hch. destruct (probe_inv_step _ _ _ _ _ _ HI0 Hch) as [Hm Hp].
    split; [done|]. intros fs a' Hps. split_and!; [by apply Hp|apply busy_advance|done]. }
  { done. }
  { done. }
  { apply HI. }
  { lia. }
  destruct HI1 as [Hfu (gs & unacked & tr & Hba & Hif & Hst)].
  assert (w_inflight w1 <> []) as Hne.
  { intros He. destruct (Nat.ltb_spec (w_sent w1) (n_outer j)) as [Hlt|Hge].
    - rewrite n_outer_length in *. pose proof (stopped_group _ _ _ Hfu Hst1 Hlt) as H2. rewrite He in H2.
      simpl in H2. pose proof group_pos. lia.
    - destruct Hst as (Hu & _). rewrite (ba_inflight _ _ _ _ Hba) in He.
      by apply app_eq_nil in He as [_ ?]. }
  destruct gs as [|g gs].
  - (* STATUS(DONE) *)
    assert ((w_sent w1 <? n_outer j)%nat = false) as Hall.
    { apply Nat.ltb_ge, Nat.le_ngt. intros Hlt. destruct (Nat.ltb_spec (w_sent w1) (n_outer j)); [|lia].
      destruct Hst as (m & _ & Hlu & _). rewrite n_outer_length in *.
      pose proof (stopped_group _ _ _ Hfu Hst1 Hlt) as H2. rewrite (ba_inflight _ _ _ _ Hba) in H2. simpl in H2. lia. }
    rewrite Hall in Hst. destruct Hst as (Hu & Hres & pre & post & -> & Hpre & Hpost).
    inversion Hif; subst. destruct done_acknowledges as (s & Hack & Has).
    destruct (collect_ok a1 _ s post cr1 WaitProbe pre res Hpre Hack c1 Hs1) as (r & c2 & F & [-> Hs2] & He2).
    rewrite Has in He2.
    destruct (apply_cumulative_ack (w_inflight w1) (w_acked w1) (ack_rows_processed done_ack))
      as [[nf kept] acked] eqn:Hpop.
    exists (mkProbe (mkWindow (w_sent w1) [] acked) (res ++ results_of pre) done_ack true),
      (c2 <| credit := ack_credit done_ack |>), F. split.
    + exists a1, post, (ack_credit done_ack). split; [by destruct Hs2|]. split; [|done]. cbn [pv_results].
      rewrite results_of_app in Hres.
      change (results_of (done_status j :: post)) with (results_of post) in Hres.
      by rewrite (silent_results post), app_nil_r in Hres.
    + intros fuel Hf. unfold probe_round. fold w. rewrite (hbind_Done _ _ _ _ _ He1).
      rewrite bool_decide_eq_false_2 by done. fold res.
      rewrite (hbind_Done _ _ _ _ _ (He2 fuel Hf)). cbn beta iota.
      rewrite (hbind_Done _ _ c2 tt (c2 <| credit := ack_credit done_ack |>)) by done.
      rewrite Hpop. by destruct w1.
  - inversion Hif as [|? ? ? ? pre post Hq Hif']; subst.
    destruct (balanced_ack _ _ _ _ _ Hba) as (Hpop & Hlg & Hba').
    assert (w_acked w1 + total g <= w_sent w1)%nat as Hle.
    { destruct Hba' as [_ Hsum _ _ _]. simpl in Hsum. lia. }
    assert (w_sent w1 <= n_outer j)%nat as Hn by apply Hba.
    destruct (probe_acknowledges (w_acked w1 + total g)) as (s & Hack & Has); [lia|].
    destruct (collect_ok a1 _ s post cr1 WaitProbe pre res Hq Hack c1 Hs1) as (r & c2 & F & [-> Hs2] & He2).
    set (cr2 := frame_credit (Z.of_nat (n_outer j)) (Z.of_nat (w_acked w1 + total g))).
    exists (mkProbe (mkWindow (w_sent w1) (concat gs ++ unacked) (w_acked w1 + total g))
              (res ++ results_of pre) (ack_of s) false), (c2 <| credit := cr2 |>), F. split.
    + exists a1, post, cr2. split; [by destruct Hs2|]. split; [split|].
      * by apply (funded_ack _ (mkWindow _ _ _)).
      * exists gs, unacked, tr. split_and!; [done|done|]. cbn [w_sent pv_window pv_results].
        rewrite results_of_app in Hst. change (results_of (probe_ack_at j _ :: post)) with (results_of post) in Hst.
        rewrite app_assoc in Hst. done.
      * cbn [w_acked pv_window]. rewrite <- Hack1. pose proof (Forall_inv (ba_groups _ _ _ _ Hba)) as Hg.
        assert (0 < total g)%nat; [|lia]. apply sum_pos; [|done].
        pose proof (ba_pos _ _ _ _ Hba) as Hp. rewrite (ba_inflight _ _ _ _ Hba) in Hp. cbn [concat] in Hp.
        by apply Forall_app in Hp as [Hp%Forall_app _]; destruct Hp.
    + intros fuel Hf. unfold probe_round. fold w. rewrite (hbind_Done _ _ _ _ _ He1).
      rewrite bool_decide_eq_false_2 by done. fold res.
      rewrite (hbind_Done _ _ _ _ _ (He2 fuel Hf)). cbn beta iota. rewrite Has.
      rewrite (hbind_Done _ _ c2 tt (c2 <| credit := cr2 |>)) by done. cbn [ack_rows_processed ack_phase].
      rewrite Hpop. cbn beta iota zeta. destruct (length g) eqn:Hl; [lia|]. cbn [Nat.eqb andb].
      by destruct w1.
Qed.

(** The variables after the probe loop. *)
Definition probed (v : probe_vars) (pend : list fp_frame) : Prop :=
  (pv_results v = joined j /\ pv_ack v = done_ack) \/
  (length outer = 0%nat /\ v = mkProbe (mkWindow 0 [] 0) [] ack0 false /\ ends_with_status j [] pend).

Lemma probe_rounds_ok n : forall v a pend cr,
  probe_inv (pv_results v) (pv_window v) a pend cr -> busy (n_outer j) (pv_window v) ->
  pv_done v = false -> (n_outer j - w_acked (pv_window v) <= n)%nat ->
  evals (sees a pend cr) (fun fuel => probe_rounds clock fuel n kt outer v)
    (fun v' c => exists a' pend' cr', sees a' pend' cr' c /\ probed v' pend').
Proof using All.
  assert (forall v a pend cr, probe_inv (pv_results v) (pv_window v) a pend cr ->
    (w_acked (pv_window v) < n_outer j)%nat /\ busy (n_outer j) (pv_window v)) as Hmore.
  { intros v a pend cr [_ (gs & unacked & tr & Hba & _ & Hst)].
    pose proof (ba_sum _ _ _ _ Hba). pose proof (ba_sent _ _ _ _ Hba).
    destruct (Nat.ltb_spec (w_sent (pv_window v)) (n_outer j)); [by split; [lia|left]|].
    destruct Hst as (Hu & _). assert (w_inflight (pv_window v) <> []) as Hne.
    { rewrite (ba_inflight _ _ _ _ Hba). by destruct (concat gs), unacked. }
    pose proof (sum_pos _ (ba_pos _ _ _ _ Hba) Hne). split; [lia|by right]. }
  induction n as [|n IH]; intros v a pend cr HI Hb Hd Hn;
    [pose proof (proj1 (Hmore _ _ _ _ HI)); lia|].
  cbn [probe_rounds]. rewrite Hd. cbn [negb].
  assert ((w_sent (pv_window v) <? length outer)%nat || negb (bool_decide (w_inflight (pv_window v) = []))
    = true) as ->.
  { rewrite <- n_outer_length. destruct Hb as [Hb|Hb]; [by apply Nat.ltb_lt in Hb as ->|].
    rewrite bool_decide_eq_false_2 by done. apply orb_true_r. }
  cbn [andb]. eapply e_bind; [by apply probe_round_ok|]. intros v'. cbn beta.
  apply e_exists. intros a'. apply e_exists. intros pend'. apply e_exists. intros cr'.
  intros c [Hs Hv']. destruct (pv_done v') eqn:Hd'.
  - exists v', c, 0%nat. split; [|].
    + exists a', pend', cr'. split; [done|]. by left.
    + intros fuel _. destruct n; cbn [probe_rounds]; rewrite Hd'; by rewrite andb_false_r.
  - destruct Hv' as [HI' Hlt]. revert c Hs. apply IH; [done| |done|lia].
    by apply (Hmore _ _ _ _ HI').
Qed.

Lemma probe_phase_ok a pend :
  starts_probe j pend a ->
  evals (sees a pend RX_CREDIT_TUPLES)
    (fun n => probe_rounds clock n (length outer) kt outer (mkProbe (mkWindow 0 [] 0) [] ack0 false))
    (fun v' c => exists a' pend' cr', sees a' pend' cr' c /\ probed v' pend').
Proof using All.
  unfold starts_probe. destruct (Nat.eqb_spec (n_outer j) 0) as [Hz|Hz].
  - intros [-> Hend] c Hs. exists (mkProbe (mkWindow 0 [] 0) [] ack0 false), c, 0%nat.
    rewrite n_outer_length in Hz. split; [|intros fuel _; rewrite Hz; cbn [probe_rounds]; by rewrite Hz].
    exists ADone, pend, RX_CREDIT_TUPLES. split; [done|]. by right.
  - intros [-> Hsil]. apply probe_rounds_ok; [|left; simpl; lia|done|cbn; rewrite n_outer_length; lia].
    split; [split; consts; simpl; lia|]. exists [], [], pend.
    split_and!; [constructor; simpl; auto; lia|constructor|]. cbn [w_sent pv_window pv_results].
    destruct (Nat.ltb_spec 0 (n_outer j)); [|lia]. exists 0%nat.
    rewrite (silent_results _ Hsil). split_and!; [done|apply group_pos|by apply silent_quiet|lia].
Qed.

Lemma verify_ok res a c :
  ack_rows_matched a = Z.of_nat (length res) -> verify_matched_count (T := T) res a c = Done tt c.
Proof. intros He. unfold verify_matched_count. by rewrite He, Z.eqb_refl. Qed.

Lemma finish_ok v a pend cr :
  probed v pend ->
  evals (sees a pend cr)
    (fun n => v ← probe_end clock n config outer v; finish clock n config outer v)
    (fun res c => res = joined j).
Proof using All.
  intros [[Hres Hack]|(Hz & -> & pre & post & -> & Hpre & Hpost & Hr)] c Hs.
  - exists (joined j), c, 0%nat. split; [done|]. intros fuel _.
    assert (probe_end clock fuel config outer v c = Done v c) as He.
    { unfold probe_end. rewrite Hack. cbn [ack_phase done_ack]. cbn -[alg_code Z.of_nat].
      by rewrite andb_false_r. }
    rewrite (hbind_Done _ _ _ _ _ He). unfold finish.
    rewrite (hbind_Done hget _ c c c) by done. rewrite Hack. cbn [ack_phase done_ack].
    rewrite Z.eqb_refl. cbn [negb andb].
    rewrite (hbind_Done _ _ c tt c); [by rewrite Hres|]. apply verify_ok. by rewrite Hres.
  - destruct done_acknowledges as (s & Hack & Has).
    destruct (collect_ok a _ s post cr WaitFinalStatus pre [] Hpre Hack c Hs) as (r & c2 & F & [-> Hs2] & He2).
    exists (joined j), c2, F. split; [done|]. intros fuel Hf.
    assert (probe_end clock fuel config outer (mkProbe (mkWindow 0 [] 0) [] ack0 false) c =
      Done (mkProbe (mkWindow 0 [] 0) [] ack0 false) c) as He.
    { unfold probe_end. rewrite Hz. cbn [Nat.eqb negb]. by rewrite andb_false_r. }
    rewrite (hbind_Done _ _ _ _ _ He). unfold finish.
    rewrite (hbind_Done hget _ c c c) by done. cbn [pv_ack ack0 ack_phase].
    assert (final_probe_ack (cfg c) config outer (mkProbe (mkWindow 0 [] 0) [] ack0 false) = false) as ->.
    { unfold final_probe_ack. cbn -[alg_code Z.of_nat]. by rewrite !andb_false_r. }
    cbn [phase_code Z.eqb negb andb].
    rewrite (hbind_Done _ _ _ _ _ (He2 fuel Hf)), Has. cbn beta iota zeta.
    cbn [ack_phase done_ack phase_code Z.eqb Pos.eqb negb pv_results app].
    simpl in Hr. rewrite Hr. by rewrite (hbind_Done _ _ c2 tt c2 (verify_ok (joined j) done_ack c2 eq_refl)).
Qed.

Lemma join_session_ok pend0 cr :
  Forall silent pend0 ->
  evals (sees AIdle pend0 cr) (fun n => join_session clock n config inner outer)
    (fun res c => res = joined j).
Proof using All.
  intros Hp0. unfold join_session.
  assert (forall a pend cr, evals (sees a pend cr) (fun _ => now clock) (fun _ => sees a pend cr)) as Hnow.
  { intros a pend cr0. apply e_run. intros c Hs. eexists _, _. split; [reflexivity|]. by destruct Hs. }
  eapply e_bind; [apply Hnow|]. intros t0.
  eapply e_bind; [by apply configure_step_ok|]. intros b. cbn beta.
  apply e_exists. intros a1. apply e_exists. intros pend1. cbn beta.
  apply (e_pure (opened b a1 pend1)); [by intros ? []|]. intros Ho.
  eapply e_pre; [|intros c [Hs _]; exact Hs].
  eapply e_bind; [apply Hnow|]. intros t1. cbn beta. rewrite config_key.
  eapply e_bind; [by apply build_phase_ok|]. intros u1. cbn beta.
  apply e_exists. intros a2. apply e_exists. intros pend2. apply e_exists. intros cr2.
  apply (e_pure (starts_probe j pend2 a2)); [by intros ? []|]. intros Hsp.
  eapply e_pre; [|intros c [Hs _]; exact Hs].
  eapply e_bind; [apply Hnow|]. intros t2. cbn beta.
  eapply (e_bind _ _ _ (fun _ => sees a2 pend2 RX_CREDIT_TUPLES)).
  { apply e_modify. intros c Hs. by destruct Hs. }
  intros u2. cbn beta. eapply e_bind; [by apply probe_phase_ok|]. intros v. cbn beta.
  apply e_exists. intros a3. apply e_exists. intros pend3. apply e_exists. intros cr3.
  intros c [Hs Hpr]. destruct (finish_ok v a3 pend3 cr3 Hpr c Hs) as (res & c' & F & -> & He).
  exists (joined j), (c' <| ticks := S (ticks c') |>
    <| metrics -> adapter_total_us := elapsed_us t0 (clock (ticks c')) |>), F.
  split; [done|]. intros fuel Hf. specialize (He fuel Hf). revert He. unfold mbind, H_bind.
  destruct (probe_end clock fuel config outer v c) as [v1 c1| |]; [|done..]. intros ->. reflexivity.
Qed.
End session.

(** ** Runs *)

(** The id the next session of a client gets. *)
Definition next_sid {T} (c : FpgaClient T) : Z :=
  if session_id_override (cfg c) =? 0 then u8 (session_counter c mod 255 + 1)
  else session_id_override (cfg c).

Lemma begin_session_ok {T} {HT : Transport T} (c : FpgaClient T) :
  exists c1, begin_session c = Done tt c1 /\ cfg c1 = cfg c /\ active_session_id c1 = next_sid c /\
    transport c1 = transport c.
Proof.
  unfold begin_session, next_sid.
  rewrite (hbind_Done _ _ c tt (c <| credit := 0 |>)) by done.
  rewrite (hbind_Done hget _ _ (c <| credit := 0 |>) (c <| credit := 0 |>)) by done.
  change (cfg (c <| credit := 0 |>)) with (cfg c).
  destruct (Z.eqb_spec (session_id_override (cfg c)) 0); cbn [negb];
    (eexists; split; [reflexivity|done]).
Qed.

Lemma begin_session_credit {T} {HT : Transport T} (c c1 : FpgaClient T) :
  begin_session c = Done tt c1 -> credit c1 = 0.
Proof.
  unfold begin_session, mbind, H_bind, set_credit, hmodify, hget, mret, H_ret, next_session_id.
  destruct (negb _); by intros [= <-].
Qed.

(** A client, a configuration and two relations that fit the job [j] and the pace of its
    server. *)
Record job_fits {T} (j : job) (gr : grouping) (group : nat) (c : FpgaClient T) (config : JoinConfig) (inner outer : list Tuple)
  : Prop := {
  jf_batch : 0 < max_batch_tuples (cfg c) <= RX_BUF_TUPLES;
  jf_pace : paced gr (cfg c) group;
  jf_alg : algorithm config = alg_code ALGORITHM_A;
  jf_key : key_type config = j_key_type j;
  jf_known : known_key_type (j_key_type j);
  jf_sid : j_sid j = next_sid c;
  jf_byte : is_byte (j_sid j);
  jf_inner : j_inner j = narrow_tuple (j_key_type j) <$> inner;
  jf_outer : j_outer j = narrow_tuple (j_key_type j) <$> outer;
  jf_inner_u32 : Z.of_nat (n_inner j) < 2 ^ 32;
  jf_outer_u32 : Z.of_nat (n_outer j) < 2 ^ 32;
  jf_frames : Z.of_nat (n_outer j) <= probe_frame_limit * max_batch_tuples (cfg c) }.

Lemma run_hash_join_ok {T} {HT : Transport T} {HL : LawfulTransport T} {HP : PromptTransport T}
    {j : job} {gr : grouping} {HJ : JoinServer T j gr} {group : nat} clock c config inner outer pend0 :
  (forall i k, (i <= k)%nat -> Z.quot (clock k - clock i) 1000000 < hard_timeout_ms (cfg c)) ->
  job_fits j gr group c config inner outer ->
  serves AIdle (transport c) -> incoming (transport c) = replies_bytes pend0 -> Forall silent pend0 ->
  exists c' F, forall fuel, (F <= fuel)%nat ->
    run_hash_join clock fuel config inner outer c = Done (joined j) c'.
Proof.
  intros Hclock [] Hsv Hin Hp0.
  assert (exists c1, begin_session c = Done tt c1 /\ sees (cfg c) AIdle pend0 0 c1) as (c1 & Hb & Hs1).
  { destruct (begin_session_ok c) as (c1 & Hb & Hc & Hs & Ht). exists c1. split; [done|].
    constructor; rewrite ?Ht; try done. { by rewrite Hs. } by apply begin_session_credit in Hb. }
  destruct (join_session_ok clock (cfg c) inner outer Hclock jf_batch0 jf_pace0 jf_known0 jf_byte0
    jf_inner0 jf_outer0 jf_inner_u33 jf_outer_u33 config jf_alg0 jf_key0 jf_frames0 pend0 0 Hp0 c1 Hs1)
    as (res & c2 & F & -> & He).
  eexists _, F. intros fuel Hf. unfold run_hash_join. rewrite (hbind_Done _ _ _ _ _ Hb).
  unfold with_cleanup. rewrite (He fuel Hf). reflexivity.
Qed.
