(* ===== verification/ClientSafety.v ===== *)
(** The client against an arbitrary peer.

    [ClientJoin] assumes a peer that keeps the protocol.  Here nothing is assumed
    of what the peer sends: the client hands well-formed frames of consecutive rows to
    the transport, stays within the window and the credit it was granted, and every
    run ends, with a result or an exception, once the clock passes the hard timeout.
    The transport's calls return and keep an invariant [I] of its states.

    [settles G P m Q]: from a state of [P] the fuelled command [m] has one outcome
    for all fuel from some bound on; it is a value and a state in [Q], or an
    exception as [G] says, never the end of the fuel. *)
From S2P Require Import Prelude Types Stream Wire Dialogue Join LinearHashTable Grace Kernel.
From S2P Require Import Transport Serializer Decoder Hoare Client Protocol ClientJoin.

Definition outcome_in {S A} (G : exn -> S -> Prop) (Q : A -> S -> Prop) (r : hres S A) : Prop :=
  match r with Done a s => Q a s | Throw e s => G e s | Spin => False end.

Definition settles {S A} (G : exn -> S -> Prop) (P : S -> Prop) (m : nat -> H S A) (Q : A -> S -> Prop)
  : Prop :=
  forall s, P s -> exists F r, (forall fuel, (F <= fuel)%nat -> m fuel s = r) /\ outcome_in G Q r.

Section rules.
Context {S : Type} (G : exn -> S -> Prop).

Lemma s_run {A} (m : H S A) (P : S -> Prop) (Q : A -> S -> Prop) :
  triple False P m Q G -> settles G P (fun _ => m) Q.
Proof. intros Hm s Hs. exists 0%nat, (m s). split; [done|]. specialize (Hm s Hs). by destruct (m s). Qed.

Lemma s_bind {A B} (m : nat -> H S A) (k : nat -> A -> H S B) P Q R :
  settles G P m Q -> (forall a, settles G (Q a) (fun n => k n a) R) ->
  settles G P (fun n => m n ≫= k n) R.
Proof.
  intros Hm Hk s Hs. destruct (Hm s Hs) as (F & r & Hr & Ho).
  destruct r as [a s1|e s1|]; [|exists F, (Throw e s1)|done].
  - destruct (Hk a s1 Ho) as (F2 & r2 & Hr2 & Ho2). exists (F `max` F2)%nat, r2.
    split; [|done]. intros fuel Hf. rewrite (hbind_Done _ _ _ _ _ (Hr fuel ltac:(lia))).
    apply Hr2. lia.
  - split; [|done]. intros fuel Hf. exact (hbind_Throw _ _ _ _ _ (Hr fuel Hf)).
Qed.

Lemma s_weaken {A} (m : nat -> H S A) (P P' : S -> Prop) (Q Q' : A -> S -> Prop) :
  settles G P' m Q' -> (forall s, P s -> P' s) -> (forall a s, Q' a s -> Q a s) -> settles G P m Q.
Proof.
  intros Hm HP HQ s Hs. destruct (Hm s (HP s Hs)) as (F & r & Hr & Ho). exists F, r.
  split; [done|]. destruct r; simpl in *; auto.
Qed.

Lemma s_ret {A} (a : A) (P : S -> Prop) (Q : A -> S -> Prop) :
  (forall s, P s -> Q a s) -> settles G P (fun _ => mret a) Q.
Proof. intros. by apply s_run, t_ret. Qed.

Lemma s_throw {A} e (P : S -> Prop) (Q : A -> S -> Prop) :
  (forall s, P s -> G e s) -> settles G P (fun _ => throw e) Q.
Proof. intros. by apply s_run, t_throw. Qed.

Lemma s_get {B} (k : nat -> S -> H S B) (P : S -> Prop) Q :
  (forall s, P s -> settles G (fun s' => s' = s) (fun n => k n s) Q) ->
  settles G P (fun n => hget ≫= k n) Q.
Proof. intros Hk s Hs. exact (Hk s Hs s eq_refl). Qed.

Lemma s_pure {A} (phi : Prop) (m : nat -> H S A) (P : S -> Prop) Q :
  (forall s, P s -> phi) -> (phi -> settles G P m Q) -> settles G P m Q.
Proof. intros Hphi Hm s Hs. by apply Hm; [eapply Hphi|]. Qed.

Lemma s_drop {A} (phi : Prop) (m : nat -> H S A) (P : S -> Prop) Q :
  (phi -> settles G P m Q) -> settles G (fun s => P s /\ phi) m Q.
Proof. intros Hm s [Hs Hphi]. by apply Hm. Qed.
End rules.

(** ** The frames a client sends *)

(** The bytes of a tuple with key type [kt]. *)
Definition tuple_width (kt : Z) : nat := if kt =? key_code KEY_INT32 then 10 else 14.

(** A request: bytes that start with a header, followed by at least the payload the
    header announces. *)
Definition request (kt : Z) (data : list Z) : Prop :=
  Forall is_byte data /\
  match data with
  | m :: lo :: hi :: payload =>
      (m = msg_code MSG_CONFIGURE -> (13 <= length payload)%nat /\ at_byte payload 1 = u8 kt) /\
      (m = msg_code MSG_INNER_DATA \/ m = msg_code MSG_OUTER_DATA ->
       (Z.to_nat (lo + 256 * hi) * tuple_width kt <= length payload)%nat)
  | _ => False
  end.

Lemma u8_byte z : is_byte (u8 z).
Proof. apply Z.mod_pos_bound. lia. Qed.

Lemma put_tuple_width kt out t :
  exists bs, put_tuple kt out t = out ++ bs /\ length bs = tuple_width kt /\
    Forall is_byte bs.
Proof.
  unfold put_tuple, tuple_width, put_tid, put_i64, put_i32, put_u32, put_u16.
  change (seqZ 0 8) with [0; 1; 2; 3; 4; 5; 6; 7]. cbn [foldl].
  destruct (kt =? key_code KEY_INT32);
    rewrite <- !app_assoc; (eexists; split; [reflexivity|split; [done|]]);
    repeat (apply Forall_app_2 || apply Forall_cons_2 || apply Forall_nil_2 || apply u8_byte).
Qed.

Lemma put_tuples_width kt ts : forall limit out,
  (limit <= length ts)%nat -> Forall is_byte out ->
  exists bs, put_tuples kt out limit ts = Some (out ++ bs) /\
    length bs = (limit * tuple_width kt)%nat /\ Forall is_byte bs.
Proof.
  induction ts as [|t ts IH]; intros [|limit] out Hl Ho; simpl in Hl; try lia.
  1,2: exists []; split; [simpl; by rewrite app_nil_r|by split; [|constructor]].
  destruct (put_tuple_width kt out t) as (b1 & He & Hb1 & Hf1). cbn [put_tuples]. rewrite He.
  destruct (IH limit (out ++ b1)) as (b2 & -> & Hb2 & Hf2); [lia|by apply Forall_app_2|].
  exists (b1 ++ b2). rewrite <- app_assoc, length_app, Hb1, Hb2. split_and!; [done|lia|by apply Forall_app_2].
Qed.

(** A batch of rows that are there is serialized to a request. *)
Lemma serialize_request {T} kt msg rows sent n (c : FpgaClient T) :
  (0 < n)%nat -> (sent + n <= length rows)%nat -> msg = MSG_INNER_DATA \/ msg = MSG_OUTER_DATA ->
  exists frame, serialize kt msg rows sent n c = Done frame c /\ request kt frame.
Proof.
  intros Hn Hl Hmsg. unfold serialize, serialize_batch. rewrite Nat.min_id.
  destruct (Nat.eqb_spec n 0); [lia|].
  destruct (put_tuples_width kt (drop sent rows) n []) as (bs & -> & Hb & Hf); [rewrite length_drop; lia|done|].
  cbn [mbind option_bind app]. eexists. split; [reflexivity|]. unfold put_u16, put_u8. cbn [app].
  split.
  - repeat (apply Forall_app_2 || apply Forall_cons_2 || apply Forall_nil_2 || apply u8_byte || done).
  - assert (u8 (msg_code msg) = msg_code msg) as -> by (apply u8_small, msg_code_byte).
    split; [by destruct Hmsg as [-> | ->]|]. intros _. rewrite Hb. apply Nat.mul_le_mono_r.
    unfold u8, u16. rewrite shiftr_8 by lia. change (2 ^ 8) with 256. change (2 ^ 16) with 65536. zdm.
Qed.

Lemma serialize_configure_request config ic oc sid rest :
  Forall is_byte rest -> request (key_type config) (serialize_configure config ic oc sid ++ rest).
Proof.
  intros Hr. unfold serialize_configure, put_u32, put_u16, put_u8. cbn [app]. split.
  - repeat (apply Forall_app_2 || apply Forall_cons_2 || apply Forall_nil_2 || apply u8_byte || done).
  - cbn [app]. split; [|by intros [[=]|[=]]]. intros _. split; [cbn [length]; lia|].
    cbn. unfold u8. by rewrite Z.mod_mod by lia.
Qed.

(** ** The decoder never loops *)

Section decoder.
Context {T : Type} {HT : Transport T} (I : T -> Prop) (benign : exn -> Prop).
(** Exceptions other than an access outside an array are benign, and [recv] returns at
    most the bytes asked for, or throws a benign exception. *)
Hypothesis own_benign : forall e, e <> ArrayOverrun -> benign e.
Hypothesis recv_ok : forall n t, (0 < n)%nat -> I t ->
  match recv n t with
  | Done bs t' => I t' /\ ((length bs <= n)%nat /\ Forall is_byte bs)
  | Throw e t' => benign e /\ I t'
  | Spin => False
  end.

Local Abbreviation fails := (fun (e : exn) (t : T) => benign e /\ I t).
Local Abbreviation bytes := (fun (bs : list Z) (t : T) => I t /\ Forall is_byte bs).

Lemma recv_throw {A} e (P : T -> Prop) (Q : A -> T -> Prop) :
  e <> ArrayOverrun -> (forall t, P t -> I t) -> triple False P (throw e) Q fails.
Proof using own_benign. intros He HP. apply t_throw. auto. Qed.

Lemma recv_exact_bytes fuel n : (n <= fuel)%nat ->
  triple False I (recv_exact_loop fuel n) bytes fails.
Proof using own_benign recv_ok.
  revert n. induction fuel as [|fuel IH]; intros n Hn; cbn [recv_exact_loop].
  { destruct (Nat.eqb_spec n 0%nat); [|lia]. by apply t_ret. }
  destruct (Nat.eqb_spec n 0%nat); [by apply t_ret|].
  eapply t_bind; [intros t; apply recv_ok; lia|]. intros [|b bs]; apply t_drop; intros [_ Hb];
    [by apply recv_throw|].
  eapply t_bind; [apply IH; simpl; lia|]. intros bs'. apply t_drop. intros Hb'.
  apply t_ret. intros t Ht. split; [done|by apply Forall_app_2].
Qed.

Lemma at_byte_range bs i : Forall is_byte bs -> is_byte (at_byte bs i).
Proof.
  intros Hb. unfold at_byte. destruct (nth_in_or_default i bs 0) as [Hi| ->]; [|done].
  apply list_elem_of_In in Hi. rewrite Forall_forall in Hb. by apply Hb.
Qed.

Lemma read_u16_range bs : Forall is_byte bs -> is_u16 (read_u16 bs).
Proof.
  intros Hb. unfold read_u16.
  pose proof (at_byte_range bs 0 Hb) as H0. pose proof (at_byte_range bs 1 Hb) as H1.
  rewrite join_2 by done. unfold is_byte, is_u16 in *. simpl. lia.
Qed.

(** A frame's credit has 16 bits; a frame reader returns or throws. *)
Definition credit_ok (r : option MsgType * ResultDecoder * frame_out) : Prop :=
  is_u16 (ack_credit (out_ack r.2)).
Local Abbreviation framed := (fun r (t : T) => I t /\ credit_ok r).

Lemma require_count_ok c e m : triple False I (require_count c e m) (fun _ => I) fails.
Proof using own_benign.
  unfold require_count, hwhen. destruct (negb _); [by apply recv_throw|by apply t_ret].
Qed.

Lemma recv_exact_ok n : triple False I (recv_exact n) bytes fails.
Proof using own_benign recv_ok. by apply recv_exact_bytes. Qed.

Lemma recv_counted_ok c e m n (f : list Z -> option MsgType * ResultDecoder * frame_out) :
  (forall bs, Forall is_byte bs -> credit_ok (f bs)) ->
  triple False I (require_count c e m ;; buf ← recv_exact n; mret (f buf)) framed fails.
Proof using own_benign recv_ok.
  intros Hf. eapply t_bind; [apply require_count_ok|]. intros [].
  eapply t_bind; [apply recv_exact_ok|]. intros bs. apply t_drop. intros Hb. apply t_ret. auto.
Qed.

Lemma recv_frame_settles d o :
  is_u16 (ack_credit (out_ack o)) -> triple False I (recv_frame d o) framed fails.
Proof using own_benign recv_ok.
  intros Ho. unfold recv_frame. eapply t_bind; [intros t; apply recv_ok; lia|].
  intros [|b bs]; apply t_drop; intros [_ Hb]; [by apply t_ret|].
  eapply t_bind; [apply recv_exact_ok|]. intros cb. apply t_drop. intros Hcb. unfold recv_payload.
  repeat case_match.
  - unfold recv_result. eapply (t_bind _ _ _ _ (fun _ => I)).
    { unfold hwhen. destruct (_ <? _); [by apply recv_throw|by apply t_ret]. }
    intros []. eapply (t_bind _ _ _ _ (fun _ => I)).
    + destruct (_ =? 0)%nat; [by apply t_ret|]. eapply t_post; [apply recv_exact_ok|by intros ? ? []].
    + intros. by apply t_ret.
  - apply (recv_counted_ok _ _ _ _ (fun buf => _)). intros buf Hbuf.
    apply read_u16_range. by apply Forall_drop.
  - apply (recv_counted_ok _ _ _ _ (fun buf => _)). intros buf Hbuf.
    apply read_u16_range. by apply Forall_drop.
  - by apply (recv_counted_ok _ _ _ _ (fun buf => _)).
  - by apply (recv_counted_ok _ _ _ _ (fun buf => _)).
  - by apply (recv_counted_ok _ _ _ _ (fun buf => _)).
  - by apply recv_throw.
Qed.
End decoder.

(** ** Windows *)

(** The rows still to be acknowledged. *)
Definition outstanding (rows : list Tuple) (w : window) : nat :=
  (length rows - w_sent w + total (w_inflight w))%nat.

Definition window_wf (rows : list Tuple) (w : window) : Prop :=
  (w_sent w <= length rows)%nat /\ Forall (Nat.lt 0) (w_inflight w).

Lemma pop_acked_split l : forall acked target n kept acked',
  pop_acked l acked target = (n, kept, acked') ->
  exists popped, l = popped ++ kept /\ length popped = n.
Proof.
  induction l as [|b l IH]; intros acked target n kept acked'; cbn [pop_acked].
  - intros [= <- <- <-]. by exists [].
  - destruct (_ <=? _)%nat.
    + destruct (pop_acked l _ _) as [[n1 k1] a1] eqn:Hp. intros [= <- <- <-].
      destruct (IH _ _ _ _ _ Hp) as (popped & -> & <-). by exists (b :: popped).
    + intros [= <- <- <-]. by exists [].
Qed.

(** A round that is not stalled acknowledges at least one row. *)
Lemma ack_progress rows w p n kept acked :
  apply_cumulative_ack (w_inflight w) (w_acked w) p = (n, kept, acked) ->
  window_wf rows w -> w_inflight w <> [] -> (n =? 0)%nat && negb (bool_decide (kept = [])) = false ->
  let w' := w <| w_inflight := kept |> <| w_acked := acked |> in
  window_wf rows w' /\ (outstanding rows w' < outstanding rows w)%nat.
Proof.
  intros Ha [Hs Hp] Hne Hst w'.
  assert (exists popped, w_inflight w = popped ++ kept /\ length popped = n) as (popped & Hl & Hn).
  { unfold apply_cumulative_ack in Ha. destruct (_ <=? _); [|by eapply pop_acked_split].
    injection Ha as <- <- <-. by exists []. }
  assert (popped <> []) as Hpop.
  { intros ->. simpl in Hl, Hn. subst n. apply andb_false_iff in Hst as [Hst|Hst]; [done|].
    apply negb_false_iff, bool_decide_eq_true in Hst. congruence. }
  rewrite Hl in Hp. apply Forall_app in Hp as [Hp1 Hp2]. split; [by split|].
  pose proof (sum_pos popped Hp1 Hpop). unfold outstanding. rewrite Hl, total_app.
  change (w_sent w') with (w_sent w). change (w_inflight w') with kept. lia.
Qed.

Section client.
Context {T : Type} {HT : Transport T} (I : T -> Prop) (benign : exn -> Prop) (kt : Z).
Hypothesis own_benign : forall e, e <> ArrayOverrun -> benign e.
Hypothesis recv_ok : forall n t, (0 < n)%nat -> I t ->
  match recv n t with
  | Done bs t' => I t' /\ ((length bs <= n)%nat /\ Forall is_byte bs)
  | Throw e t' => benign e /\ I t'
  | Spin => False
  end.
Hypothesis send_ok : forall data t, request kt data -> I t ->
  match send data t with Done _ t' => I t' | Throw e t' => benign e /\ I t' | Spin => False end.
Context (clock : nat -> Z) (cf : ClientConfig).
Context (batch_pos : 0 < max_batch_tuples cf).

Local Abbreviation client := (FpgaClient T).

(** What every command keeps. *)
Definition good (c : client) : Prop := (cfg c = cf /\ is_u16 (credit c)) /\ I (transport c).
Definition bad (e : exn) (c : client) : Prop := benign e /\ good c.

Local Abbreviation gtriple P m Q := (triple False P m Q bad).

Lemma own_bad e c : e <> ArrayOverrun -> good c -> bad e c.
Proof using own_benign. split; auto. Qed.

Lemma now_ok (P : client -> Prop) :
  (forall c, P c -> P (c <| ticks ::= S |>)) -> gtriple P (now clock) (fun _ => P).
Proof. intros HP c Hc. by apply HP. Qed.

Lemma now_good : gtriple good (now clock) (fun _ => good).
Proof. by apply now_ok. Qed.

Lemma lift_ok {A} (m : H T A) (phi : A -> Prop) :
  triple False I m (fun a t => I t /\ phi a) (fun e t => benign e /\ I t) ->
  gtriple good (lift m) (fun a c => good c /\ phi a).
Proof.
  intros Hm c [Hc Hi]. specialize (Hm (transport c) Hi). unfold lift.
  destruct (m (transport c)) as [a t|e t|]; [destruct Hm|destruct Hm|done];
    (split; [by split|done]) || (split; [done|by split]).
Qed.

Lemma modify_good (f : client -> client) :
  (forall c, good c -> good (f c)) -> gtriple good (hmodify f) (fun _ => good).
Proof. intros. by apply t_modify. Qed.

Lemma send_counted_good data m bucket :
  request kt data -> gtriple good (send_counted clock data m bucket) (fun _ => good).
Proof using send_ok.
  intros Hd. unfold send_counted. eapply t_bind; [apply now_good|]. intros t0.
  eapply (t_bind _ _ _ _ (fun _ => good)).
  { eapply t_post; [apply (lift_ok _ (fun _ => True))|by intros ? ? []]. intros t Ht.
    pose proof (send_ok data t Hd Ht). by destruct (send data t). }
  intros []. eapply t_bind; [apply now_good|]. intros t1.
  eapply t_bind; [by apply modify_good|]. intros []. by apply modify_good.
Qed.

Lemma set_credit_good v : is_u16 v -> gtriple good (set_credit v) (fun _ => good).
Proof. intros Hv c [[Hc _] Hi]. split; [by split|done]. Qed.

(** ** Waiting for an acknowledgement *)

Context (clock_advances : forall i, exists N, forall k, (N <= k)%nat ->
           hard_timeout_ms cf <= Z.quot (clock k - clock i) 1000000).

Local Abbreviation gsettles P m Q := (settles bad P m Q).

(** One round of the loop that receives [r] before the timeout. *)
Lemma collect_step start kind c msg d o c3 n out :
  let c2 := c <| ticks ::= S |> <| ticks ::= S |> in
  let c4 := c3 <| decoder := d |> <| ticks ::= S |> in
  Z.quot (clock (ticks c) - start) 1000000 < hard_timeout_ms (cfg c) ->
  lift (recv_frame (decoder c) out0) c2 = Done (msg, d, o) c3 ->
  collect_loop clock (S n) start kind out c =
  match msg with
  | None => collect_loop clock n start kind out c4
  | Some m =>
      let c5 := c4 <| metrics ::= count_received m (out_pairs o)
                        (elapsed_us (clock (S (ticks c))) (clock (ticks c3))) d |> in
      match m with
      | MSG_RESULT => collect_loop clock n start kind (out ++ out_pairs o) c5
      | MSG_ACK | MSG_STATUS =>
          (if negb (is_wait_reset kind) && negb (ack_session_id (out_ack o) =? active_session_id c3)
           then collect_loop clock n start kind out
           else account_wait kind (elapsed_us start (clock (ticks c3))) ;; mret (out_ack o, out)) c5
      | MSG_ERROR => throw (FpgaErrorException (out_error o)) c5
      | _ => collect_loop clock n start kind out c5
      end
  end.
Proof.
  intros c2 c4 Hto Hr. cbn [collect_loop].
  rewrite (hbind_Done (now clock) _ c (clock (ticks c)) (c <| ticks ::= S |>)) by done.
  rewrite (hbind_Done hget _ _ (c <| ticks ::= S |>) (c <| ticks ::= S |>)) by done.
  destruct (Z.leb_spec (hard_timeout_ms (cfg (c <| ticks ::= S |>)))
    (Z.quot (clock (ticks c) - start) 1000000)) as [Hle|_].
  { change (cfg (c <| ticks ::= S |>)) with (cfg c) in Hle. lia. }
  rewrite (hbind_Done (now clock) _ _ (clock (S (ticks c))) c2) by done.
  change (decoder (c <| ticks ::= S |>)) with (decoder c).
  rewrite (hbind_Done _ _ _ _ _ Hr). cbn beta iota.
  destruct msg as [m|]; [|done]. by destruct m.
Qed.

(** Every round reads the clock, so the loop ends when it passes the timeout. *)
Lemma collect_loop_settles start kind N :
  (forall k, (N <= k)%nat -> hard_timeout_ms cf <= Z.quot (clock k - start) 1000000) ->
  forall m c out, good c -> (N - ticks c <= m)%nat ->
  exists r, (forall n, (m < n)%nat -> collect_loop clock n start kind out c = r) /\
    outcome_in bad (fun a c' => good c' /\ is_u16 (ack_credit a.1)) r.
Proof using own_benign recv_ok.
  intros HN. induction m as [|m IH]; intros c out Hc Hm;
    (destruct (Z.leb_spec (hard_timeout_ms (cfg c)) (Z.quot (clock (ticks c) - start) 1000000))
       as [Hto|Hto];
     [exists (Throw FpgaTimeoutException (c <| ticks ::= S |>)); split; [|by apply own_bad];
      intros [|n] Hn; [lia|]; cbn [collect_loop];
      rewrite (hbind_Done (now clock) _ c (clock (ticks c)) (c <| ticks ::= S |>)) by done;
      rewrite (hbind_Done hget _ _ (c <| ticks ::= S |>) (c <| ticks ::= S |>)) by done;
      change (cfg (c <| ticks ::= S |>)) with (cfg c);
      destruct (Z.leb_spec (hard_timeout_ms (cfg c)) (Z.quot (clock (ticks c) - start) 1000000));
      [done|lia]|]).
  { exfalso. specialize (HN (ticks c)). rewrite (proj1 (proj1 Hc)) in Hto. lia. }
  set (c2 := c <| ticks ::= S |> <| ticks ::= S |>).
  pose proof (lift_ok _ _ (recv_frame_settles I benign own_benign recv_ok (decoder c) out0 ltac:(done)) c2 Hc) as Hok.
  assert (forall r c3, lift (recv_frame (decoder c) out0) c2 = Done r c3 -> ticks c3 = S (S (ticks c))) as Htk.
  { intros r c3. unfold lift. destruct (recv_frame _ _ _); by intros [= _ <-]. }
  destruct (lift (recv_frame (decoder c) out0) c2) as [[[msg d] o] c3|e c3|] eqn:Hr; [| |done].
  2: { exists (Throw e c3). split; [|done]. intros [|n] Hn; [lia|]. cbn [collect_loop].
    rewrite (hbind_Done (now clock) _ c (clock (ticks c)) (c <| ticks ::= S |>)) by done.
    rewrite (hbind_Done hget _ _ (c <| ticks ::= S |>) (c <| ticks ::= S |>)) by done.
    change (cfg (c <| ticks ::= S |>)) with (cfg c).
    destruct (Z.leb_spec (hard_timeout_ms (cfg c)) (Z.quot (clock (ticks c) - start) 1000000)); [lia|].
    rewrite (hbind_Done (now clock) _ _ (clock (S (ticks c))) c2) by done.
    exact (hbind_Throw _ _ _ _ _ Hr). }
  specialize (Htk _ _ eq_refl). destruct Hok as [Hc3 Hcr]. unfold credit_ok in Hcr. cbn [snd] in Hcr.
  pose proof (fun n => collect_step start kind c msg d o c3 n out Hto Hr) as Hstep.
  cbn zeta in Hstep. set (c4 := c3 <| decoder := d |> <| ticks ::= S |>) in *.
  assert (forall c' out', good c' -> ticks c' = S (ticks c3) -> exists r,
    (forall n, (m < n)%nat -> collect_loop clock n start kind out' c' = r) /\
    outcome_in bad (fun a c' => good c' /\ is_u16 (ack_credit a.1)) r) as Hnext.
  { intros c' out' Hg Ht. apply IH; [done|]. lia. }
  assert (forall X, (exists r, (forall n, (m < n)%nat -> X n = r) /\
      outcome_in bad (fun a c' => good c' /\ is_u16 (ack_credit a.1)) r) ->
    (forall n, collect_loop clock (S n) start kind out c = X n) ->
    exists r, (forall n, (S m < n)%nat -> collect_loop clock n start kind out c = r) /\
      outcome_in bad (fun a c' => good c' /\ is_u16 (ack_credit a.1)) r) as Hfin.
  { intros X (r & HX & Ho) He. exists r. split; [|done]. intros [|n] Hn; [lia|].
    rewrite He. apply HX. lia. }
  destruct msg as [mt|]; [|eapply Hfin; [|exact Hstep]; by apply Hnext].
  eapply Hfin; [|exact Hstep]. destruct mt; try (by apply Hnext).
  - destruct (negb _ && negb _); [by apply Hnext|]. eexists. split; [reflexivity|]. by destruct kind.
  - destruct (negb _ && negb _); [by apply Hnext|]. eexists. split; [reflexivity|]. by destruct kind.
  - eexists. split; [reflexivity|by apply own_bad].
Qed.

Lemma collect_settles out kind :
  gsettles good (fun n => collect_until_ack clock n out kind)
    (fun a c => good c /\ is_u16 (ack_credit a.1)).
Proof using own_benign recv_ok clock_advances.
  intros c Hc. destruct (clock_advances (ticks c)) as [N HN].
  set (c1 := c <| ticks ::= S |>). assert (good c1) as Hc1 by exact Hc.
  destruct (collect_loop_settles (clock (ticks c)) kind N HN N c1 out Hc1) as (r & Hr & Ho); [lia|].
  exists (S N), r. split; [|done]. intros fuel Hf. unfold collect_until_ack.
  rewrite (hbind_Done (now clock) _ c (clock (ticks c)) c1) by done.
  apply Hr, Hf.
Qed.

(** ** Sending *)

(** [bs] are the batches sent from [w] on. *)
Record sent_batches (rows : list Tuple) (w w' : window) (bs : list nat) : Prop := {
  sb_sent : w_sent w' = (w_sent w + total bs)%nat;
  sb_inflight : w_inflight w' = w_inflight w ++ bs;
  sb_acked : w_acked w' = w_acked w;
  sb_sizes : Forall (fun b => (0 < b)%nat /\ Z.of_nat b <= max_batch_tuples cf) bs;
  sb_rows : bs <> [] -> (w_sent w' <= length rows)%nat;
  sb_window : bs <> [] -> Z.of_nat (length (w_inflight w')) <= ack_window_frames cf }.

(** The frames of the batches [bs] from row [n] on. *)
Fixpoint batch_frames (frame : nat -> nat -> list Z) (n : nat) (bs : list nat) : list (list Z) :=
  match bs with [] => [] | b :: bs => frame n b :: batch_frames frame (n + b) bs end.

Lemma sent_none rows w : sent_batches rows w w [].
Proof. constructor; rewrite ?app_nil_r, ?Nat.add_0_r; done. Qed.

Section sending.
Context (msg : MsgType) (bucket : Z -> HostSessionMetrics -> HostSessionMetrics) (rows : list Tuple).
Context (data_msg : msg = MSG_INNER_DATA \/ msg = MSG_OUTER_DATA).
(** [L log t]: the frames [log] have been handed to [t]. *)
Context (L : list (list Z) -> T -> Prop).
Context (L_send : forall data t log, L log t ->
  match send data t with Done _ t' | Throw _ t' => L (log ++ [data]) t' | Spin => True end).

(** The frame of the [b] rows after the first [n]. *)
Definition frame_at (n b : nat) : list Z := default [] (serialize_batch kt msg (drop n rows) b b).

(** A client with credit [cr] that has handed over [log]. *)
Definition loaded_with (cr : Z) (log : list (list Z)) (c : client) : Prop :=
  (good c /\ credit c = cr) /\ L log (transport c).

Lemma send_counted_logs data cr log :
  request kt data ->
  triple False (loaded_with cr log) (send_counted clock data msg bucket)
    (fun _ => loaded_with cr (log ++ [data]))
    (fun e c => bad e c /\ credit c = cr /\ L (log ++ [data]) (transport c)).
Proof using send_ok L_send.
  intros Hd c [[[[Hcf Hu] Hi] Hcr] Hl].
  pose proof (send_ok data (transport c) Hd Hi) as Hs. pose proof (L_send data (transport c) log Hl) as Hs'.
  unfold send_counted, mbind, H_bind, now, lift, hmodify.
  change (transport (c <| ticks ::= S |>)) with (transport c).
  destruct (send data (transport c)) as [[] t|e t|]; [| |done].
  - split; [split; [split; [by split|]|]|]; done.
  - split_and!; [|done|done]. destruct Hs. split; [done|]. split; [by split|done].
Qed.

Lemma take_credit_spends b cr : is_u16 cr -> Z.of_nat b <= cr -> take_credit b cr = cr - Z.of_nat b.
Proof.
  unfold is_u16. intros Hu Hb. unfold take_credit. destruct (Z.ltb_spec (Z.of_nat b) cr); [|lia].
  apply u16_small. unfold is_u16. lia.
Qed.

(** One more batch in front. *)
Lemma sent_more b w w' bs :
  (0 < b)%nat -> Z.of_nat b <= max_batch_tuples cf -> (w_sent w + b <= length rows)%nat ->
  Z.of_nat (length (w_inflight w)) < ack_window_frames cf ->
  sent_batches rows (mkWindow (b + w_sent w) (w_inflight w ++ [b]) (w_acked w)) w' bs ->
  sent_batches rows w w' (b :: bs).
Proof.
  intros Hb0 Hbm Hbr Hw [H1 H2 H3 H4 H5 H6]. cbn [w_sent w_inflight w_acked] in *. constructor.
  - rewrite H1. simpl. lia.
  - rewrite H2, <- app_assoc. done.
  - done.
  - by constructor.
  - intros _. destruct bs as [|b' bs]; [rewrite H1; simpl; lia|by apply H5].
  - intros _. destruct bs as [|b' bs]; [|by apply H6].
    rewrite H2, app_nil_r, length_app. simpl. lia.
Qed.

(** The loop stays within the window and the credit, and hands over the frames of
    consecutive rows. *)
Lemma send_window_spends n : forall w cr log,
  (length rows - w_sent w <= n)%nat ->
  triple False (loaded_with cr log) (send_window clock n kt msg bucket rows w)
    (fun w' c => good c /\ exists bs, sent_batches rows w w' bs /\ Z.of_nat (total bs) + credit c = cr /\
       L (log ++ batch_frames frame_at (w_sent w) bs) (transport c))
    (fun e c => bad e c /\ exists w' bs, sent_batches rows w w' bs /\ Z.of_nat (total bs) + credit c = cr /\
       L (log ++ batch_frames frame_at (w_sent w) bs) (transport c)).
Proof using send_ok batch_pos L_send data_msg.
  induction n as [|n IH]; intros w cr log Hn; cbn [send_window]; apply t_get; intros c [[Hc Hcr] HL];
    pose proof Hc as [[Hcf Hcu] Hi]; rewrite Hcf, Hcr in *.
  all: assert (forall c', c' = c -> good c' /\ exists bs, sent_batches rows w w bs /\
      Z.of_nat (total bs) + credit c' = cr /\ L (log ++ batch_frames frame_at (w_sent w) bs) (transport c'))
    as Hstop by (intros ? ->; split; [done|]; exists []; split_and!; [apply sent_none|done|by rewrite app_nil_r]).
  all: destruct (Nat.ltb_spec (w_sent w) (length rows)) as [Hlt|Hge]; cbn [andb]; [|by apply t_ret].
  { lia. }
  destruct (Z.ltb_spec (Z.of_nat (length (w_inflight w))) (ack_window_frames cf)) as [Hw|]; cbn [andb];
    [|by apply t_ret].
  destruct (Z.eqb_spec cr 0) as [|Hz]; cbn [negb]; [by apply t_ret|].
  destruct (_ && _); [by apply t_ret|]. clear Hstop.
  set (b := ((Z.to_nat cr `min` Z.to_nat (max_batch_tuples cf)) `min` (length rows - w_sent w))%nat).
  assert ((0 < b)%nat /\ Z.of_nat b <= max_batch_tuples cf /\ Z.of_nat b <= cr /\
          (w_sent w + b <= length rows)%nat) as (Hb0 & Hbm & Hbc & Hbr) by (unfold b, is_u16 in *; lia).
  destruct (serialize_request kt msg rows (w_sent w) b c Hb0 Hbr data_msg) as (frame & Hse & Hrq).
  assert (frame = frame_at (w_sent w) b) as ->.
  { unfold serialize in Hse. unfold frame_at. destruct (serialize_batch _ _ _ _ _); [by injection Hse as <-|done]. }
  intros c0 ->. rewrite (hbind_Done _ _ _ _ _ Hse).
  rewrite (hbind_Done _ _ c tt (c <| credit ::= take_credit b |>)) by done.
  pose proof (take_credit_spends b cr Hcu Hbc) as Htc.
  set (c1 := c <| credit ::= take_credit b |>).
  assert (credit c1 = cr - Z.of_nat b) as Hcr1 by (rewrite <- Htc, <- Hcr; done).
  assert (loaded_with (cr - Z.of_nat b) log c1) as Hl1.
  { split; [|done]. split; [|done]. split; [|done]. split; [done|]. rewrite Hcr1. unfold is_u16 in *. lia. }
  pose proof (send_counted_logs (frame_at (w_sent w) b) _ _ Hrq c1 Hl1) as Hsc.
  unfold mbind at 1, H_bind at 1.
  destruct (send_counted clock _ msg bucket c1) as [[] c2|e c2|]; [| |done].
  - specialize (IH (mkWindow (b + w_sent w) (w_inflight w ++ [b]) (w_acked w)) _ _ ltac:(cbn; lia) c2 Hsc).
    change (w <| w_sent ::= Nat.add b |> <| w_inflight ::= (fun l => l ++ [b]) |>)
      with (mkWindow (b + w_sent w) (w_inflight w ++ [b]) (w_acked w)).
    cbn [w_sent] in IH.
    replace (batch_frames frame_at (b + w_sent w)) with (batch_frames frame_at (w_sent w + b)) in IH by (f_equal; lia).
    destruct (send_window clock n kt msg bucket rows _ c2) as [w' c'|e c'|]; [| |done].
    + destruct IH as (Hg & bs & Hsb & Hsum & Hlg). split; [done|]. exists (b :: bs).
      split_and!; [by apply sent_more|simpl; lia|]. cbn [batch_frames]. by rewrite <- app_assoc in Hlg.
    + destruct IH as (Hg & w' & bs & Hsb & Hsum & Hlg). split; [done|]. exists w', (b :: bs).
      split_and!; [by apply sent_more|simpl; lia|]. cbn [batch_frames]. by rewrite <- app_assoc in Hlg.
  - destruct Hsc as (Hbad & Hcr2 & Hlg). split; [done|].
    exists (mkWindow (b + w_sent w) (w_inflight w ++ [b]) (w_acked w)), [b].
    split_and!; [apply sent_more; try done; apply sent_none|simpl; lia|done].
Qed.
End sending.

Lemma sent_wf rows w w' bs :
  sent_batches rows w w' bs -> window_wf rows w ->
  window_wf rows w' /\ outstanding rows w' = outstanding rows w.
Proof.
  intros [H1 H2 H3 H4 H5 H6] [Hs Hp].
  assert (w_sent w' <= length rows)%nat as Hle.
  { destruct bs; [rewrite H1; simpl; lia|by apply H5]. }
  split; [split; [done|]|].
  - rewrite H2. apply Forall_app_2; [done|]. eapply Forall_impl; [exact H4|]. by intros ? [? _].
  - unfold outstanding. rewrite H1, H2, total_app in *. lia.
Qed.

Lemma send_window_settles msg bucket rows w :
  msg = MSG_INNER_DATA \/ msg = MSG_OUTER_DATA -> window_wf rows w ->
  gsettles good (fun _ => send_window clock (length rows) kt msg bucket rows w)
    (fun w' c => good c /\ window_wf rows w' /\ outstanding rows w' = outstanding rows w).
Proof using send_ok batch_pos.
  intros Hm Hw. apply s_run. intros c Hc.
  pose proof (send_window_spends msg bucket rows Hm (fun _ _ => True)
    ltac:(intros; by destruct (send _ _)) (length rows) w (credit c) [] ltac:(lia) c
    (conj (conj Hc eq_refl) Logic.I)) as Hs.
  destruct (send_window _ _ _ _ _ _ _ c) as [w' c'|e c'|]; [|by destruct Hs|done].
  destruct Hs as (Hg & bs & Hb & _). split; [done|]. by eapply sent_wf.
Qed.

(** ** Rounds *)

Lemma build_round_settles inner w :
  window_wf inner w ->
  gsettles good (fun n => build_round clock n kt inner w)
    (fun w' c => good c /\ (window_wf inner w' /\ (outstanding inner w' < outstanding inner w)%nat)).
Proof using own_benign recv_ok clock_advances send_ok batch_pos.
  intros Hw. unfold build_round. eapply s_bind; [by apply send_window_settles; [auto|]|].
  intros w1. apply s_drop. intros [Hw1 Ho1].
  destruct (bool_decide_reflect (w_inflight w1 = [])) as [_|Hne]; [by apply s_throw; intros; apply own_bad|].
  eapply s_bind; [apply collect_settles|]. intros [ack res]. apply s_drop. intros Hcr.
  eapply s_bind; [by apply s_run, set_credit_good|]. intros [].
  destruct (apply_cumulative_ack _ _ _) as [[n kept] acked] eqn:Ha.
  destruct ((n =? 0)%nat && negb (bool_decide (kept = []))) eqn:Hst; [by apply s_throw; intros; apply own_bad|].
  apply s_ret. intros c Hc. split; [done|].
  destruct (ack_progress inner w1 _ n kept acked Ha Hw1 Hne Hst) as [Hw2 Ho2]. split; [done|]. lia.
Qed.

Lemma waiting_outstanding rows w :
  window_wf rows w -> (w_sent w < length rows)%nat \/ w_inflight w <> [] ->
  (0 < outstanding rows w)%nat.
Proof.
  intros [_ Hp] [Hlt|Hne]; unfold outstanding; [lia|]. pose proof (sum_pos _ Hp Hne). lia.
Qed.

Lemma build_rounds_settles inner n : forall w,
  window_wf inner w -> (outstanding inner w <= n)%nat ->
  gsettles good (fun fuel => build_rounds clock fuel n kt inner w) (fun _ => good).
Proof using own_benign recv_ok clock_advances send_ok batch_pos.
  induction n as [|n IH]; intros w Hw Hn; cbn [build_rounds];
    destruct ((w_sent w <? length inner)%nat || negb (bool_decide (w_inflight w = []))) eqn:Hb;
    try (by apply s_ret).
  - exfalso. pose proof (waiting_outstanding inner w Hw) as Hp.
    apply orb_true_iff in Hb as [?%Nat.ltb_lt|?%negb_true_iff%bool_decide_eq_false];
      specialize (Hp ltac:(auto)); lia.
  - eapply s_bind; [by apply build_round_settles|]. intros w'. apply s_drop. intros [Hw' Ho'].
    apply IH; [done|lia].
Qed.

Lemma probe_round_settles outer v :
  window_wf outer (pv_window v) ->
  gsettles good (fun n => probe_round clock n kt outer v)
    (fun v' c => good c /\ (is_u16 (ack_credit (pv_ack v')) /\ (pv_done v' = true \/
       window_wf outer (pv_window v') /\
       (outstanding outer (pv_window v') < outstanding outer (pv_window v))%nat))).
Proof using own_benign recv_ok clock_advances send_ok batch_pos.
  intros Hw. unfold probe_round. eapply s_bind; [by apply send_window_settles; [auto|]|].
  intros w1. apply s_drop. intros [Hw1 Ho1].
  destruct (bool_decide_reflect (w_inflight w1 = [])) as [_|Hne]; [by apply s_throw; intros; apply own_bad|].
  eapply s_bind; [apply collect_settles|]. intros [ack res]. apply s_drop. intros Hcr.
  eapply s_bind; [by apply s_run, set_credit_good|]. intros [].
  destruct (apply_cumulative_ack _ _ _) as [[n kept] acked] eqn:Ha.
  destruct (ack_phase ack =? phase_code PHASE_DONE); [apply s_ret; auto|].
  destruct ((n =? 0)%nat && negb (bool_decide (kept = []))) eqn:Hst; [by apply s_throw; intros; apply own_bad|].
  apply s_ret. intros c Hc. split_and!; [done|done|]. right.
  destruct (ack_progress outer w1 _ n kept acked Ha Hw1 Hne Hst) as [Hw2 Ho2]. split; [done|].
  rewrite <- Ho1. exact Ho2.
Qed.

Lemma probe_rounds_settles outer n : forall v,
  is_u16 (ack_credit (pv_ack v)) ->
  pv_done v = true \/ window_wf outer (pv_window v) /\ (outstanding outer (pv_window v) <= n)%nat ->
  gsettles good (fun fuel => probe_rounds clock fuel n kt outer v) (fun _ => good).
Proof using own_benign recv_ok clock_advances send_ok batch_pos.
  induction n as [|n IH]; intros v Hcr Hv; cbn [probe_rounds];
    match goal with |- context [if ?b then _ else _] => destruct b eqn:Hb end; try (by apply s_ret);
    apply andb_true_iff in Hb as [Hb Hd%negb_true_iff]; (destruct Hv as [?|[Hw Ho]]; [congruence|]).
  - exfalso. pose proof (waiting_outstanding outer (pv_window v) Hw) as Hp.
    apply orb_true_iff in Hb as [?%Nat.ltb_lt|?%negb_true_iff%bool_decide_eq_false];
      specialize (Hp ltac:(auto)); lia.
  - eapply s_bind; [by apply probe_round_settles|]. intros v'. apply s_drop. intros [Hcr' Hv'].
    apply IH; [done|]. destruct Hv' as [|[? ?]]; [by left|right; split; [done|lia]].
Qed.

(** ** The session *)

Lemma hwhen_settles b (m : H client unit) :
  (gsettles good (fun _ => m) (fun _ => good)) -> gsettles good (fun _ => hwhen b m) (fun _ => good).
Proof. intros Hm. unfold hwhen. destruct b; [done|by apply s_ret]. Qed.

Lemma modify_settles f :
  (forall c, good c -> good (f c)) -> gsettles good (fun _ => hmodify f) (fun _ => good).
Proof. intros. by apply s_run, modify_good. Qed.

Lemma now_settles : gsettles good (fun _ => now clock) (fun _ => good).
Proof. apply s_run, now_good. Qed.

Lemma collect_settles_good out kind :
  gsettles good (fun n => collect_until_ack clock n out kind) (fun _ => good).
Proof using own_benign recv_ok clock_advances.
  eapply s_weaken; [apply collect_settles|done|by intros ? ? []].
Qed.

Lemma take_credit_u16 b cr : is_u16 (take_credit b cr).
Proof. unfold take_credit. destruct (_ <? _); [apply Z.mod_pos_bound; lia|done]. Qed.

Lemma configure_settles config inner outer :
  key_type config = kt ->
  gsettles good (fun n => configure_step clock n config inner outer)
    (fun b c => good c /\ (b <= length inner)%nat).
Proof using own_benign recv_ok clock_advances send_ok batch_pos.
  intros Hkt. unfold configure_step. apply s_get. intros c Hc.
  eapply (s_weaken _ _ _ good); [|by intros ? ->|intros ? ? Hx; exact Hx].
  rewrite (proj1 (proj1 Hc)).
  eapply (s_bind _ _ _ _ (fun fb c => good c /\ (request kt fb.1 /\ (fb.2 <= length inner)%nat))).
  { pose proof (serialize_configure_request config (u32 (Z.of_nat (length inner)))
      (u32 (Z.of_nat (length outer))) (active_session_id c)) as Hrq. rewrite Hkt in *.
    destruct (_ && _) eqn:Hco.
    2: { apply s_ret. intros. split; [done|]. split; [|simpl; lia].
         specialize (Hrq [] (Forall_nil_2 _)). by rewrite app_nil_r in Hrq. }
    cbn zeta. apply andb_true_iff in Hco as [_ Hne%negb_true_iff%Nat.eqb_neq].
    set (b := ((Z.to_nat RX_BUF_TUPLES `min` Z.to_nat (max_batch_tuples cf)) `min` length inner)%nat).
    eapply (s_bind _ _ _ _ (fun first c => good c /\ Forall is_byte first)).
    { apply s_run. intros c1 Hc1.
      destruct (serialize_request kt MSG_INNER_DATA inner 0 b c1) as (first & -> & Hf & _);
        [unfold b; consts; lia|unfold b; lia|by left|done]. }
    intros first. apply s_drop. intros Hfirst.
    eapply s_bind; [by apply modify_settles|]. intros []. apply s_ret. intros. split; [done|].
    split; [by apply Hrq|unfold b; simpl; lia]. }
  intros [fr b]. apply s_drop. intros [Hfr Hb]. cbn [fst snd] in *.
  eapply s_bind; [by apply s_run, send_counted_good|]. intros [].
  eapply s_bind; [apply collect_settles|]. intros [ack res]. apply s_drop. intros Hcr.
  eapply s_bind; [by apply s_run, set_credit_good|]. intros []. by apply s_ret.
Qed.

(** The end marker and RESET are requests. *)
Lemma bare_request m : m <> MSG_CONFIGURE -> request kt [msg_code m; 0; 0].
Proof.
  intros Hm. split; [repeat constructor; try apply msg_code_byte; done|]. split; [by destruct m|].
  intros _. simpl. lia.
Qed.

Lemma build_phase_settles inner b :
  (b <= length inner)%nat ->
  gsettles good (fun n => build_phase clock n kt inner b) (fun _ => good).
Proof using own_benign recv_ok clock_advances send_ok batch_pos.
  intros Hb. unfold build_phase. eapply s_bind.
  { apply hwhen_settles, modify_settles. intros c [[Hc _] Hi].
    split; [split; [done|apply take_credit_u16]|done]. }
  intros []. eapply s_bind; [apply build_rounds_settles|intros w; by apply s_ret].
  - split; [done|]. cbn. destruct (Nat.eqb_spec b 0%nat); repeat constructor. lia.
  - unfold outstanding. cbn. destruct (Nat.eqb_spec b 0%nat); simpl; lia.
Qed.

Lemma probe_end_settles config outer v :
  gsettles good (fun n => probe_end clock n config outer v) (fun _ => good).
Proof using own_benign recv_ok clock_advances send_ok.
  unfold probe_end. destruct (_ && _); [|by apply s_ret].
  eapply s_bind; [by apply s_run, send_counted_good, bare_request|]. intros [].
  eapply s_bind; [apply collect_settles|]. intros [ack res]. apply s_drop. intros Hcr.
  eapply s_bind; [by apply s_run, set_credit_good|]. intros []. by apply s_ret.
Qed.

Lemma catch_timeout_settles {A} (m : nat -> H client A) :
  gsettles good m (fun _ => good) -> gsettles good (fun n => catch_timeout (m n)) (fun _ => good).
Proof.
  intros Hm c Hc. destruct (Hm c Hc) as (F & r & Hr & Ho).
  exists F, (catch_timeout (fun _ => r) c). split.
  - intros fuel Hf. unfold catch_timeout. by rewrite Hr.
  - unfold catch_timeout. destruct r as [a c'|[] c'|]; try done. by destruct Ho.
Qed.

Lemma await_idle_settles n : gsettles good (fun fuel => await_idle clock fuel n) (fun _ => good).
Proof using own_benign recv_ok clock_advances.
  induction n as [|n IH]; cbn [await_idle]; [by apply s_ret|].
  eapply s_bind; [apply catch_timeout_settles, collect_settles_good|].
  intros [[ack res]|]; [|by apply s_ret]. destruct (_ =? _); [by apply s_ret|].
  destruct (n =? 0)%nat; [by apply s_throw; intros; apply own_bad|exact IH].
Qed.

Lemma verify_settles res a : gsettles good (fun _ => verify_matched_count res a) (fun _ => good).
Proof. apply hwhen_settles. by apply s_throw; intros; apply own_bad. Qed.

Lemma finish_settles config outer v :
  gsettles good (fun n => finish clock n config outer v) (fun _ => good).
Proof using own_benign recv_ok clock_advances send_ok.
  unfold finish. apply s_get. intros c Hc.
  eapply (s_weaken _ _ _ good); [|by intros ? ->|intros ? ? Hx; exact Hx].
  destruct (negb (ack_phase (pv_ack v) =? _) && _); [|destruct (negb _)].
  - eapply s_bind; [apply verify_settles|]. intros [].
    eapply s_bind; [by apply s_run, send_counted_good, bare_request|]. intros [].
    eapply s_bind; [by apply modify_settles|]. intros [].
    eapply s_bind; [apply await_idle_settles|]. intros []. by apply s_ret.
  - eapply s_bind; [apply collect_settles_good|]. intros [ack tl].
    destruct (negb _); [by apply s_throw; intros; apply own_bad|].
    eapply s_bind; [apply verify_settles|]. intros []. by apply s_ret.
  - eapply s_bind; [apply verify_settles|]. intros []. by apply s_ret.
Qed.

Lemma join_session_settles config inner outer :
  key_type config = kt ->
  gsettles good (fun n => join_session clock n config inner outer) (fun _ => good).
Proof using own_benign recv_ok clock_advances send_ok batch_pos.
  intros Hkt. unfold join_session. rewrite Hkt. eapply s_bind; [apply now_settles|]. intros t0.
  eapply s_bind; [by apply configure_settles|]. intros b. apply s_drop. intros Hb.
  eapply s_bind; [apply now_settles|]. intros t1.
  eapply s_bind; [by apply build_phase_settles|]. intros [].
  eapply s_bind; [apply now_settles|]. intros t2.
  eapply s_bind; [by apply s_run, set_credit_good|]. intros [].
  eapply s_bind.
  { apply probe_rounds_settles; [done|]. right. split; [by split; [simpl; lia|constructor]|].
    unfold outstanding. simpl. lia. }
  intros v. eapply s_bind; [apply probe_end_settles|]. intros v'.
  eapply s_bind; [apply finish_settles|]. intros res.
  eapply s_bind; [apply now_settles|]. intros t3.
  eapply s_bind; [by apply modify_settles|]. intros []. by apply s_ret.
Qed.

Lemma run_settles config inner outer c :
  cfg c = cf -> I (transport c) -> key_type config = kt ->
  exists F r, (forall fuel, (F <= fuel)%nat -> run_hash_join clock fuel config inner outer c = r) /\
    match r with Done _ _ => True | Throw e _ => benign e | Spin => False end.
Proof using own_benign recv_ok clock_advances send_ok batch_pos.
  intros Hcf Hi Hkt. destruct (begin_session_ok c) as (c1 & Hb & Hc1 & _ & Ht).
  pose proof (begin_session_credit _ _ Hb) as Hcr.
  destruct (join_session_settles config inner outer Hkt c1) as (F & r & Hr & Ho).
  { split; [split; [congruence|by rewrite Hcr]|by rewrite Ht]. }
  eexists F, (with_cleanup (fun _ => r) c1). split.
  - intros fuel Hf. unfold run_hash_join. rewrite (hbind_Done _ _ _ _ _ Hb).
    unfold with_cleanup. by rewrite (Hr fuel Hf).
  - unfold with_cleanup. destruct r; [done|by destruct Ho|done].
Qed.
End client.

(** ** Claims *)

(** C8: every run of the client ends, whatever the peer sends.  Over any lawful
    transport that delivers bytes and whose sends return, and with a clock that
    gets past the hard timeout, [run_hash_join] has one outcome for all fuel from
    some bound on, and it is a result or an exception: no loop of the client can
    spin on stalled, repeated or foreign acknowledgements, on zero credit or on
    garbage. *)
Theorem run_hash_join_terminates {T} {HT : Transport T} {HL : LawfulTransport T} (clock : nat -> Z)
    (c : FpgaClient T) (config : JoinConfig) (inner outer : list Tuple) :
  (forall n t bs t', recv n t = Done bs t' -> Forall is_byte bs) ->
  (forall data (t : T), send data t <> Spin) ->
  (forall i, exists N, forall k, (N <= k)%nat ->
     hard_timeout_ms (cfg c) <= Z.quot (clock k - clock i) 1000000) ->
  0 < max_batch_tuples (cfg c) ->
  exists F r, (forall fuel, (F <= fuel)%nat -> run_hash_join clock fuel config inner outer c = r) /\
    match r with Done _ _ | Throw _ _ => True | Spin => False end.
Proof.
  intros Hb Hs Hc Hm.
  destruct (run_settles (fun _ => True) (fun _ => True) (key_type config)) with (clock := clock) (cf := cfg c)
    (config := config) (inner := inner) (outer := outer) (c := c) as (F & r & Hr & Hn); try done.
  - intros n t Hn _. pose proof (recv_lawful n t Hn) as Hl.
    destruct (recv n t) as [bs t'|e t'|] eqn:Hr; [|done..]. split_and!; [done|apply Hl|by eapply Hb].
  - intros data t _ _. specialize (Hs data t). by destruct (send data t).
  - exists F, r. split; [done|]. by destruct r.
Qed.

(** A peer that plays recorded bytes and hears nothing. *)
Record tape := mkTape { tape_bytes : list Z }.
#[global] Instance tape_transport : Transport tape := {
  send _ := mret tt;
  recv n := fun t => Done (u8 <$> take n (tape_bytes t)) (t <| tape_bytes ::= drop n |>);
  treset := mret tt }.
#[global] Program Instance tape_lawful : LawfulTransport tape := {
  incoming t := u8 <$> tape_bytes t }.
Next Obligation.
  intros n [bs] Hn. simpl. rewrite length_fmap, length_take. split; [lia|].
  by rewrite <- fmap_app, take_drop.
Qed.

(** The peer acknowledges CONFIGURE and then repeats an acknowledgement of no row. *)
Definition example_tape : tape :=
  mkTape ([5; 1; 0; 1; 1; 0; 2; 0; 0; 0; 0; 0; 0; 0; 0] ++ [5; 1; 0; 1; 1; 0; 0; 0; 0; 0; 0; 0; 0; 0; 0]).

Lemma run_hash_join_terminates_witness :
  exists F r, (forall fuel, (F <= fuel)%nat ->
    run_hash_join (fun n => Z.of_nat n * 1000000000) fuel (mkJoinConfig 0 1)
      [mkTuple 5 (mkTid 1 1)] [] (new_client example_tape client_config0 0 0) = r) /\
    match r with Done _ _ | Throw _ _ => True | Spin => False end.
Proof.
  apply (run_hash_join_terminates (fun n => Z.of_nat n * 1000000000)
    (new_client example_tape client_config0 0 0) (mkJoinConfig 0 1) [mkTuple 5 (mkTid 1 1)] []).
  - intros n [bs] bs' t' [= <- _]. apply Forall_fmap, Forall_forall. intros x _.
    apply Z.mod_pos_bound. lia.
  - done.
  - intros i. exists (i + 30)%nat. intros k Hk. simpl hard_timeout_ms.
    replace (Z.of_nat k * 1000000000 - Z.of_nat i * 1000000000)
      with (Z.of_nat (k - i) * 1000 * 1000000) by lia.
    rewrite Z.quot_mul by lia. lia.
  - vm_compute. reflexivity.
Defined.

(** A transport that keeps a record of the byte strings handed to its [send]. *)
Record Recorder (T : Type) := mkRecorder { rec_far : T; rec_log : list (list Z) }.
Arguments mkRecorder {T}.
Arguments rec_far {T}.
Arguments rec_log {T}.

#[global] Instance recorder_transport `{Transport T} : Transport (Recorder T) := {
  send data r :=
    match send data (rec_far r) with
    | Done a t => Done a (mkRecorder t (rec_log r ++ [data]))
    | Throw e t => Throw e (mkRecorder t (rec_log r ++ [data]))
    | Spin => Spin
    end;
  recv n r :=
    match recv n (rec_far r) with
    | Done bs t => Done bs (mkRecorder t (rec_log r))
    | Throw e t => Throw e (mkRecorder t (rec_log r))
    | Spin => Spin
    end;
  treset r :=
    match treset (rec_far r) with
    | Done a t => Done a (mkRecorder t (rec_log r))
    | Throw e t => Throw e (mkRecorder t (rec_log r))
    | Spin => Spin
    end }.

(** The data frame of the [b] rows of [rows] after the first [n], on the wire. *)
Definition rows_frame (kt : Z) (msg : MsgType) (rows : list Tuple) (n b : nat) : list Z :=
  header_bytes msg (Z.of_nat b) ++ tuples_bytes kt (narrow_tuple kt <$> take b (drop n rows)).

Lemma frames_on_wire kt msg rows bs : forall n,
  known_key_type kt -> Forall (fun b => (0 < b)%nat /\ Z.of_nat b < 2 ^ 16) bs ->
  (n + total bs <= length rows)%nat ->
  batch_frames (frame_at kt msg rows) n bs = batch_frames (rows_frame kt msg rows) n bs.
Proof.
  induction bs as [|b bs IH]; intros n Hkt Hb Hl; [done|]. apply Forall_cons in Hb as [[Hb0 Hb1] Hb].
  simpl in Hl. cbn [batch_frames]. rewrite IH by (done || lia). f_equal. unfold frame_at, rows_frame.
  by rewrite serialize_batch_bytes by (rewrite ?length_drop; done || lia).
Qed.

(** What a round of sending did: batches of rows, within the window and the credit
    [cr], whose frames are the byte strings added to the record. *)
Definition respects_limits (cf : ClientConfig) (kt : Z) (msg : MsgType) (rows : list Tuple) (w w' : window)
    (cr : Z) (log log' : list (list Z)) (credit_left : Z) : Prop :=
  exists bs, sent_batches cf rows w w' bs /\ Z.of_nat (total bs) + credit_left = cr /\ 0 <= credit_left /\
    log' = log ++ batch_frames (rows_frame kt msg rows) (w_sent w) bs.

Lemma total_elem b bs : b ∈ bs -> (b <= total bs)%nat.
Proof. induction 1; simpl in *; lia. Qed.

Lemma limits_respected cf kt msg rows w w' bs cr left log log' :
  known_key_type kt -> is_u16 cr -> 0 <= left -> sent_batches cf rows w w' bs ->
  Z.of_nat (total bs) + left = cr -> log' = log ++ batch_frames (frame_at kt msg rows) (w_sent w) bs ->
  respects_limits cf kt msg rows w w' cr log log' left.
Proof.
  intros Hkt Hcr Hleft Hsb Hsum ->. exists bs. split_and!; [done..|]. f_equal.
  destruct bs as [|b0 bs0] eqn:Hbs; [done|]. rewrite <- Hbs in *. apply frames_on_wire; [done| |].
  - apply Forall_forall. intros b Hb. pose proof (total_elem b bs Hb).
    pose proof (proj1 (Forall_forall _ _) (sb_sizes _ _ _ _ _ Hsb) b Hb) as [? _].
    unfold is_u16 in Hcr. split; [done|lia].
  - rewrite <- (sb_sent _ _ _ _ _ Hsb). apply (sb_rows _ _ _ _ _ Hsb). by rewrite Hbs.
Qed.

(** C11: whatever the peer granted or acknowledged, one round of sending stays
    within the window and the credit.  The byte strings handed to the transport are
    exactly the data frames of consecutive batches of the rows not sent before, in row
    order, each of at least one and at most [max_batch_tuples] rows; no more than
    [ack_window_frames] are in flight after a frame was sent; their rows do not
    exceed the credit at the start, and the credit left is what they did not use.
    This holds for the frames handed over before an exception too. *)
Theorem window_and_credit_respected {T} {HT : Transport T} (clock : nat -> Z) (n : nat) (kt : Z)
    (msg : MsgType) (bucket : Z -> HostSessionMetrics -> HostSessionMetrics) (rows : list Tuple)
    (w : window) (c : FpgaClient (Recorder T)) :
  (forall data (t : T), send data t <> Spin) ->
  known_key_type kt -> msg = MSG_INNER_DATA \/ msg = MSG_OUTER_DATA ->
  0 < max_batch_tuples (cfg c) -> is_u16 (credit c) -> (length rows - w_sent w <= n)%nat ->
  match send_window clock n kt msg bucket rows w c with
  | Done w' c' =>
      respects_limits (cfg c) kt msg rows w w' (credit c) (rec_log (transport c)) (rec_log (transport c'))
        (credit c')
  | Throw _ c' => exists w',
      respects_limits (cfg c) kt msg rows w w' (credit c) (rec_log (transport c)) (rec_log (transport c'))
        (credit c')
  | Spin => False
  end.
Proof.
  intros Hs Hkt Hmsg Hm Hc Hn.
  pose proof (send_window_spends (T := Recorder T) (fun _ => True) (fun _ => True) kt) as H.
  specialize (H ltac:(intros data [t l] _ _; specialize (Hs data t); simpl; by destruct (send data t))).
  specialize (H clock (cfg c) Hm msg bucket rows Hmsg (fun log t => rec_log t = log)).
  specialize (H ltac:(intros data [t l] log <-; simpl; by destruct (send data t))).
  specialize (H n w (credit c) _ Hn c (conj (conj (conj (conj eq_refl Hc) Logic.I) eq_refl) eq_refl)).
  destruct (send_window _ _ _ _ _ _ _ c) as [w' c'|e c'|]; [| |done].
  - destruct H as ([[_ Hu] _] & bs & Hb & He & Hl). by eapply limits_respected; [..|apply Hu| | |].
  - destruct H as ([_ [[_ Hu] _]] & w' & bs & Hb & He & Hl). exists w'.
    by eapply limits_respected; [..|apply Hu| | |].
Qed.

(** Five rows in batches of two, credit for five: three frames, the last with one row. *)
Definition five_rows : list Tuple := (fun i => mkTuple i (mkTid i 1)) <$> [1; 2; 3; 4; 5].
Definition recording_client : FpgaClient (Recorder tape) :=
  (new_client (mkRecorder example_tape []) (client_config0 <| max_batch_tuples := 2 |>) 0 0) <| credit := 5 |>.

Lemma window_and_credit_respected_witness :
  match send_window (fun _ => 0) 5 1 MSG_INNER_DATA add_build_send five_rows (mkWindow 0 [] 0) recording_client with
  | Done w' c' =>
      respects_limits (cfg recording_client) 1 MSG_INNER_DATA five_rows (mkWindow 0 [] 0) w' 5 []
        (rec_log (transport c')) (credit c') /\
      length <$> rec_log (transport c') = [23; 23; 13]%nat
  | _ => False
  end.
Proof.
  pose proof (window_and_credit_respected (fun _ => 0) 5 1 MSG_INNER_DATA add_build_send five_rows
    (mkWindow 0 [] 0) recording_client) as H.
  destruct (send_window _ _ _ _ _ _ _ _) as [w' c'|e c'|] eqn:He; vm_compute in He; [|discriminate..].
  split; [|injection He as <- <-; reflexivity]. apply H.
  - done.
  - by left.
  - by left.
  - vm_compute. reflexivity.
  - vm_compute. split; [discriminate|reflexivity].
  - vm_compute. lia.
Defined.
