(* ===== verification/KernelServer.v ===== *)
(** The kernel as a server of the host protocol.

    [in_state j a m] says that the rest [m] of a run of the kernel is what the
    kernel has left to do in the abstract state [a] of the session of [j], at a
    point where it waits for input: before CONFIGURE, at the head of the build or
    of the probe loop, or behind the session.  [kernel_step] is the simulation:
    a frame the protocol allows takes the kernel from such a point to the next
    one, and what it emits in between is a reply the protocol allows. *)
From S2P Require Import Prelude Types Stream LinearHashTable Grace Wire Dialogue Join Kernel LinearJoin LinearAborts.
From S2P Require Import Transport Decoder Protocol.

(** ** Jobs the kernel can serve *)

Record servable (j : job) : Prop := {
  sv_key : is_byte (j_key_type j);
  sv_sid : is_byte (j_sid j);
  sv_inner : Forall (tuple_wf (j_key_type j)) (j_inner j);
  sv_outer : Forall (tuple_wf (j_key_type j)) (j_outer j);
  sv_table : table_accepts (j_inner j);
  sv_count : Z.of_nat (n_outer j) < 2 ^ 32 }.

(** [session] after its first debug frame. *)
Definition session_rest (dbg : bool) (r : RtlTiming) (k : kst) : M dev kst :=
  k ← configure dbg k;
  k ← (if negb (k_session_done k) && (k_algorithm k =? alg_code ALGORITHM_B)
       then algorithm_b k else mret k);
  k ← (if negb (k_session_done k) && (k_algorithm k =? alg_code ALGORITHM_A)
       then algorithm_a dbg r k else mret k);
  if k_session_done k then mret k else final_status dbg r k.

(** ** Rows and frames on the wire *)

Lemma first_match_wf kt k inner t :
  Forall (tuple_wf kt) inner -> first_match k inner = Some t -> tid_wf t.
Proof.
  induction 1 as [|i inner [_ Hi] _ IH]; [done|]. cbn [first_match].
  destruct (key i =? k); [by intros [= <-]|done].
Qed.

Lemma hash_join_wf kt inner outer :
  Forall (tuple_wf kt) inner -> Forall (tuple_wf kt) outer -> Forall pair_wf (hash_join inner outer).
Proof.
  intros Hi Ho. apply Forall_forall. intros p (o & Ho' & Hp)%list_elem_of_omap.
  unfold match_row in Hp. destruct (first_match (key o) inner) as [t|] eqn:Hf; [|done].
  injection Hp as <-. split; [exact (first_match_wf _ _ _ _ Hi Hf)|].
  exact (proj2 (proj1 (Forall_forall _ _) Ho o Ho')).
Qed.

Lemma slice_wf kt rows n b : Forall (tuple_wf kt) rows -> Forall (tuple_wf kt) (slice rows n b).
Proof. intros. by apply Forall_take, Forall_drop. Qed.

Lemma length_slice (rows : list Tuple) n b : batch_ok rows n b -> length (slice rows n b) = b.
Proof. intros (_ & _ & ?). unfold slice. rewrite length_take, length_drop. lia. Qed.

Lemma take_slice (rows : list Tuple) n b : take n rows ++ slice rows n b = take (n + b) rows.
Proof. unfold slice. apply take_take_drop. Qed.

Lemma slice_frame_ok kt rows n b :
  Forall (tuple_wf kt) rows -> batch_ok rows n b -> frame_ok kt (slice rows n b).
Proof.
  intros Hw Hb. split; [|by apply slice_wf]. rewrite length_slice by done. apply Hb.
Qed.

Lemma length_take_le (rows : list Tuple) n : (n <= length rows)%nat -> length (take n rows) = n.
Proof. intros. rewrite length_take. lia. Qed.

(** Frames of the probe loop whose pairs come from rows on the wire. *)
Lemma batch_quiet dbg fs : Forall (batch_frame dbg) fs -> Forall pair_wf (results_of fs) -> Forall quiet fs.
Proof.
  induction 1 as [|f fs [Hf Ha] _ IH]; intros Hp; [done|].
  unfold results_of in Hp. cbn [fmap list_fmap concat] in Hp. apply Forall_app in Hp as [Hp Hps].
  constructor; [|by apply IH]. unfold progress_frame in Hf. split; [|by destruct f].
  destruct f; simpl in *; try done; [consts; split; [lia|done]|by destruct Hf].
Qed.

Lemma silent_debug b l c v : Forall silent (debug_frames b l c v).
Proof. destruct b; constructor; [|constructor]. by split; [split; [apply dbg_level_byte|]|]. Qed.

Lemma silent_key_debug b c ts : Forall silent (key_debug b c ts).
Proof. destruct ts; [constructor|apply silent_debug]. Qed.
#[export] Hint Resolve silent_debug silent_key_debug : bytes.

Section server.
Context (g : nat -> Z) (timely_g : timely g) (dbg : bool) (rtl : RtlTiming) (j : job).

Local Abbreviation next n := (session_loop dbg rtl n).
Local Abbreviation su := (configured_setup (job_configure j)).

(** Waiting points of the kernel; [n] sessions are left after the current one. *)
Inductive in_state : pstate -> M dev kst -> Prop :=
| IS_idle n k : in_state AIdle (session_rest dbg rtl (session_init k) ≫= next n)
| IS_build n i k r unacked h rxb fs :
    loaded (reset h) su (take r (j_inner j)) rxb fs k -> results_of fs = [] ->
    (r < n_inner j)%nat -> (length unacked < 2)%nat -> (n_inner j - r <= i)%nat ->
    in_state (ABuild r unacked)
      (session_end dbg rtl (after_build dbg rtl
         (build_loop dbg (S i) k (Z.of_nat r) (Z.of_nat (length unacked)))) ≫= next n)
| IS_probe n i k r m unacked rxb fs :
    probing su (j_inner j) (take r (j_outer j)) rxb fs k ->
    (r < n_outer j)%nat -> (length unacked < 2)%nat -> Z.of_nat (m + S i) = probe_frame_limit ->
    in_state (AProbe r m unacked (results_of fs))
      (session_end dbg rtl (probe_loop dbg rtl (S i) k (Z.of_nat (n_inner j)) (Z.of_nat r)
         (Z.of_nat (length unacked))) ≫= next n)
| IS_next n k : in_state ADone (session_rest dbg rtl (session_init k) ≫= next n)
| IS_over k : in_state ADone (mret k).

(** ** Waiting *)

Lemma guarded_blocks sid o p mm :
  rx_byte_guarded dbg sid (mkDev [] o p mm) = Blocked (mkDev [] o p mm).
Proof. done. Qed.

(** At these points the kernel emits nothing until it gets input. *)
Lemma in_state_waits a m o p mm :
  in_state a m ->
  m (mkDev [] o p mm) = Blocked (mkDev [] o p mm) \/
  exists k, m (mkDev [] o p mm) = Ret k (mkDev [] o p mm).
Proof.
  intros [n k|n i k r u h rxb fs Hl _ Hr _ _|n i k r m' u rxb fs Hp Hr _ _|n k|k].
  - by left.
  - left. destruct Hl as [Hsu _ _ _ _]. unfold setup, configured_setup in Hsu.
    injection Hsu as _ _ Hit _ _ Hsd. apply bind_Blocked. unfold session_end, after_build.
    apply bind_Blocked, bind_Blocked. cbn [build_loop]. rewrite Hsd, Hit. simpl cp_inner_count.
    replace (Z.of_nat (n_inner j) <=? Z.of_nat r) with false by lia.
    apply bind_Blocked. by apply bind_Blocked, guarded_blocks.
  - left. destruct Hp as [Hsu _ _ _ _ _]. unfold setup, configured_setup in Hsu.
    injection Hsu as _ _ _ Hot _ Hsd. apply bind_Blocked. unfold session_end.
    apply bind_Blocked. cbn [probe_loop]. rewrite Hsd, Hot. simpl cp_outer_count.
    replace (Z.of_nat (n_outer j) <=? Z.of_nat r) with false by lia.
    apply bind_Blocked. by apply bind_Blocked, guarded_blocks.
  - by left.
  - right. by exists k.
Qed.

(** ** Between sessions *)

Lemma session_enter k p mm :
  exists p',
    leads g (session dbg rtl k) [] (p, mm) (session_rest dbg rtl (session_init k))
      (debug_frames dbg DBG_INFO DBG_IDLE_ENTER 0) (p', mm).
Proof.
  eexists. unfold session.
  eapply (leads_trans _ _ _ [] [] _ _ _ []); [apply leads_bind, talks_set_status|].
  eapply (leads_trans _ _ _ [] [] _ _ _ []); [apply leads_bind, talks_set_error|].
  eapply (leads_trans _ _ _ [] [] _ _ _ []); [apply leads_bind, talks_set_result_count|].
  exact (leads_bind _ _ _ _ _ _ _ (talks_emits _ _ _ (emits_debug _ _ _ _))).
Qed.

Lemma session_over n k w :
  exists m' post w',
    leads g (mret k ≫= next n) [] w m' post w' /\ in_state ADone m' /\ Forall silent post.
Proof.
  destruct n as [|n].
  - exists (mret k), [], w. split_and!; [apply leads_refl|constructor|constructor].
  - destruct w as [p mm]. destruct (session_enter k p mm) as [p' Hs].
    eexists _, _, _. split_and!; [|apply IS_next|apply silent_debug].
    exact (leads_bind_l _ _ (next n) _ _ _ _ Hs).
Qed.

(** A session that ends with the frames [fs]. *)
Lemma session_finishes n m bs w k fs w' :
  talks g m bs w k fs w' ->
  exists m' post w'',
    leads g (m ≫= next n) bs w m' (fs ++ post) w'' /\ in_state ADone m' /\ Forall silent post.
Proof.
  intros Hm. destruct (session_over n k w') as (m' & post & w'' & Hl & Hi & Hp).
  exists m', post, w''. split_and!; [|done|done]. rewrite <- (app_nil_r bs).
  exact (leads_trans _ _ _ _ _ _ _ _ _ _ (leads_bind_l _ _ (next n) _ _ _ _ Hm) Hl).
Qed.

(** ** Into the probe phase *)

Lemma quiet_timing t : quiet (FTiming t).
Proof. done. Qed.

(** The inner relation is complete: the session goes on to the probe loop, or
    ends when there are no outer rows. *)
Lemma enter_probe n i k pend rxb fs h w :
  loaded (reset h) su (j_inner j) rxb fs k -> results_of fs = [] ->
  exists m' post w' a,
    leads g (session_end dbg rtl (after_build dbg rtl
               (build_loop dbg (S i) k (Z.of_nat (n_inner j)) pend)) ≫= next n) [] w m' post w' /\
    starts_probe j post a /\ in_state a m'.
Proof.
  intros Hl Hfs. destruct w as [p mm]. set (rows := Z.of_nat (n_inner j)).
  pose proof (ld_setup _ _ _ _ _ _ Hl) as Hsu. unfold setup, configured_setup in Hsu.
  injection Hsu as Halg Hkt Hit Hot Hsid Hsd.
  set (ds := debug_frames dbg DBG_INFO DBG_BUILD_DONE rows).
  pose proof (probing_debug _ _ _ _ _ _ dbg DBG_INFO DBG_BUILD_DONE rows
    (loaded_probing _ _ _ _ _ _ (ht_rep_reset h) Hl Hfs)) as Hpb. fold ds in Hpb.
  assert (leads g (after_build dbg rtl (build_loop dbg (S i) k rows pend)) [] (p, mm)
    (probe_loop dbg rtl (Z.to_nat probe_frame_limit) k rows 0 0) ds (probing_regs p, mm)) as Hr.
  { unfold after_build. cbn [build_loop]. rewrite Hsd, Hit. simpl cp_inner_count.
    fold rows. rewrite Z.leb_refl.
    eapply (leads_trans _ _ _ [] [] _ _ _ []); [apply leads_bind, talks_ret|].
    cbn beta iota. rewrite Hsd. eapply leads_eq; [|done|apply app_nil_r].
    eapply (leads_trans _ _ _ [] []); [apply leads_bind, talks_emits, emits_debug|].
    exact (leads_bind _ _ _ _ _ _ _ (talks_set_status _ _ _ _)). }
  destruct probe_frame_limit_S as [m Hm]. rewrite Hm in Hr.
  unfold starts_probe. destruct (Nat.eqb_spec (n_outer j) 0%nat) as [Hz|Hz].
  - unfold configured_setup in Hpb. simpl in Hpb. rewrite Hz in Hpb.
    destruct (final_status_ok g dbg rtl _ _ _ _ k (probing_regs p) mm _ _ Hpb)
      as (k2 & t & Hr2 & _ & _ & _).
    set (ps := debug_frames dbg DBG_INFO DBG_PROBE_DONE 0) in *.
    set (st := FStatus _) in Hr2.
    assert (talks g (session_end dbg rtl (probe_loop dbg rtl (S m) k rows 0 0)) []
      (probing_regs p, mm) k2 (ps ++ [FTiming (apply_rtl_stream_timing rtl t); st])
      (done_regs (probing_regs p) 0, mm)) as Hr3.
    { unfold session_end. cbn [probe_loop]. rewrite Hsd, Hot. simpl cp_outer_count.
      rewrite Hz. eapply talks_quiet; [apply talks_ret|]. cbn beta. rewrite Hsd. exact Hr2. }
    destruct (session_finishes n _ _ _ _ _ _ Hr3) as (m' & post & w'' & Hr4 & Hi & Hp).
    eexists m', _, w'', ADone. split_and!.
    + eapply (leads_trans _ _ _ [] []); [|exact Hr4].
      eapply leads_bind_l. unfold session_end at 1. eapply leads_bind_l. exact Hr.
    + done.
    + exists (ds ++ ps ++ [FTiming (apply_rtl_stream_timing rtl t)]), post. split_and!.
      * rewrite <- !app_assoc. cbn [app]. unfold st, done_status, joined. rewrite Hz.
        unfold n_outer in Hz. apply length_zero_iff_nil in Hz. rewrite Hz. done.
      * repeat apply Forall_app_2; [| |by repeat constructor];
          eapply Forall_impl; [apply silent_debug|by intros ? []|apply silent_debug|by intros ? []].
      * done.
      * unfold n_outer in Hz. apply length_zero_iff_nil in Hz. unfold joined. rewrite Hz.
        unfold ds, ps. by destruct dbg.
    + done.
  - eexists _, ds, _, (AProbe 0 0 [] (results_of (fs ++ ds))). split_and!.
    + eapply leads_bind_l. unfold session_end at 1. eapply leads_bind_l. exact Hr.
    + f_equal. rewrite results_of_app, Hfs. unfold ds. by destruct dbg.
    + apply silent_debug.
    + apply (IS_probe n m k 0 0 [] _ _ Hpb); [lia|simpl; lia|].
      rewrite Nat.add_0_l, <- Hm, Z2Nat.id; [done|]. unfold probe_frame_limit. lia.
Qed.

(** ** CONFIGURE *)

Context (Hj : servable j).

Lemma inner_fits : Z.of_nat (n_inner j) <= HT_MAX_ROWS.
Proof using Hj.
  destruct (sv_table _ Hj) as [h Hall]. exact (build_all_length _ _ _ (ht_rep_reset _) Hall).
Qed.

Lemma job_configure_wf : configure_wf (job_configure j).
Proof using Hj.
  pose proof inner_fits. pose proof (sv_count _ Hj). destruct Hj. consts.
  split_and!; simpl; try done; unfold is_u16, is_u32 in *; lia.
Qed.

Lemma configure_leads_build k w :
  exists k1 w',
    leads g (session_rest dbg rtl (session_init k))
      (pg_bytes (j_key_type j) (PConfigure (job_configure j))) w
      (session_end dbg rtl (algorithm_a dbg rtl k1))
      (configure_replies dbg (job_configure j)) w' /\
    setup k1 = su /\ k_matched k1 = 0 /\ k_result_buf_cnt k1 = 0 /\
    tallied (k_timing k1) 16 (configure_replies dbg (job_configure j)) 0 0 0.
Proof using timely_g Hj.
  destruct w as [p mm].
  destruct (configure_ok g timely_g dbg (session_init k) (job_configure j) p mm 0 []
    job_configure_wf eq_refl inner_fits eq_refl (tallied_init k))
    as (k1 & Hr & Hsu & Hma & Hbu & _ & Hty).
  exists k1, (building_regs p (job_configure j), mm). split_and!; try done.
  pose proof Hsu as Hsu'. unfold setup in Hsu'. injection Hsu' as Halg _ _ _ _ Hsd.
  eapply leads_eq; [eapply (leads_trans _ _ _ _ []); [exact (leads_bind _ _ _ _ _ _ _ Hr)|]
    |apply app_nil_r|apply app_nil_r].
  cbn beta. rewrite Hsd, Halg. simpl cp_algorithm.
  change (alg_code ALGORITHM_A =? alg_code ALGORITHM_B) with false. cbn [negb andb].
  eapply (leads_trans _ _ _ [] [] _ _ _ []); [apply leads_bind, talks_ret|].
  cbn beta. rewrite Hsd, Halg. simpl cp_algorithm.
  change (alg_code ALGORITHM_A =? alg_code ALGORITHM_A) with true. cbn [negb andb].
  apply leads_refl.
Qed.

Lemma step_configure n k w :
  exists m' fs w' a',
    leads g (session_rest dbg rtl (session_init k) ≫= next n)
      (pg_bytes (j_key_type j) (PConfigure (job_configure j))) w m' fs w' /\
    protocol_step j kernel_grouping AIdle (PConfigure (job_configure j)) fs a' /\ in_state a' m'.
Proof using timely_g Hj.
  destruct (configure_leads_build k w) as (k1 & w1 & Hr & Hsu & Hma & Hbu & Hty).
  pose proof (leads_bind_l _ _ (next n) _ _ _ _ Hr) as Hr1.
  set (ds := debug_frames dbg DBG_INFO DBG_CONFIGURE (Z.of_nat (n_inner j))).
  change (configure_replies dbg (job_configure j)) with (ds ++ [configure_ack j]) in *.
  set (k2 := k1 <| k_ht ::= reset |>).
  assert (loaded (reset (k_ht k1)) su [] 16 (ds ++ [configure_ack j]) k2) as Hl by (by constructor).
  assert (results_of (ds ++ [configure_ack j]) = []) as Hfs by (unfold ds; by destruct dbg).
  pose proof inner_fits as Hmax. consts.
  destruct (Z.to_nat build_frame_limit) as [|i] eqn:Ei; [unfold build_frame_limit in Ei; consts; lia|].
  assert (algorithm_a dbg rtl k1 = after_build dbg rtl (build_loop dbg (S i) k2 0 0)) as Ha
    by (rewrite <- Ei; reflexivity).
  rewrite Ha in Hr1. destruct (Nat.eq_dec (n_inner j) 0%nat) as [Hz|Hz].
  - assert (j_inner j = []) as Hnil by (by apply length_zero_iff_nil).
    rewrite <- Hnil in Hl.
    destruct (enter_probe n i k2 0 _ _ _ w1 Hl Hfs) as (m' & post & w' & a & Hr2 & Hst & Hin).
    rewrite Hz in Hr2. eexists m', _, w', a. split_and!; [|apply PS_configure|done].
    + eapply leads_eq; [exact (leads_trans _ _ _ _ _ _ _ _ _ _ Hr1 Hr2)|apply app_nil_r|].
      by rewrite <- app_assoc.
    + apply silent_debug.
    + by rewrite Hz.
  - eexists _, _, w1, (ABuild 0 []). split_and!; [exact Hr1|apply PS_configure|].
    + apply silent_debug.
    + by rewrite (proj2 (Nat.eqb_neq _ _) Hz).
    + apply (IS_build n i k2 0 [] _ _ _ Hl Hfs); [lia|simpl; lia|].
      unfold build_frame_limit in Ei. consts. lia.
Qed.

(** ** Inner rows *)

(** One frame through the build loop. *)
Lemma build_loop_frame n i k r pend b h rxb fs w :
  loaded (reset h) su (take r (j_inner j)) rxb fs k -> results_of fs = [] ->
  batch_ok (j_inner j) r b -> 0 <= pend < ACK_BATCH_FRAMES ->
  let it := Z.of_nat (n_inner j) in
  let rcv := Z.of_nat (r + b) in
  let fs' := key_debug dbg DBG_BUILD_KEY (slice (j_inner j) r b) ++ build_acks it (j_sid j) rcv pend in
  exists k' rxb',
    leads g (session_end dbg rtl (after_build dbg rtl
               (build_loop dbg (S i) k (Z.of_nat r) pend)) ≫= next n)
      (pg_bytes (j_key_type j) (PInner (slice (j_inner j) r b))) w
      (session_end dbg rtl (after_build dbg rtl
         (build_loop dbg i k' rcv (build_pending it rcv pend))) ≫= next n) fs' w /\
    loaded (reset h) su (take (r + b) (j_inner j)) rxb' (fs ++ fs') k' /\ results_of (fs ++ fs') = [].
Proof using timely_g Hj.
  intros Hl Hfs Hb Hp it rcv fs'. pose proof Hb as (Hb0 & _ & Hle).
  destruct (table_accepts_reset _ h (sv_table _ Hj)) as [h2 Hall2].
  rewrite <- (take_drop (r + b) (j_inner j)), build_all_app, <- take_slice, build_all_app in Hall2.
  rewrite (ld_table _ _ _ _ _ _ Hl) in Hall2. cbn in Hall2.
  destruct (build_all (slice (j_inner j) r b) (k_ht k)) as [h3|] eqn:Hb3; [|done].
  destruct (build_frame_ok g timely_g dbg _ _ _ _ _ _ _ (slice (j_inner j) r b) rxb fs k pend w h3
    (ht_rep_reset h) Hl Hp (slice_frame_ok _ _ _ _ (sv_inner _ Hj) Hb) Hb3) as (k' & Hr & Hl').
  rewrite take_slice in Hr, Hl'. rewrite (length_take_le _ r) in Hr by lia.
  rewrite (length_take_le _ (r + b)) in Hr, Hl' by lia.
  exists k'. eexists. split_and!; [|exact Hl'|].
  - apply leads_bind_l. unfold session_end, after_build. apply leads_bind_l, leads_bind_l.
    cbn [build_loop]. pose proof (ld_setup _ _ _ _ _ _ Hl) as Hsu. unfold setup, configured_setup in Hsu.
    injection Hsu as _ _ Hit _ _ Hsd. rewrite Hsd, Hit. simpl cp_inner_count. unfold n_inner.
    replace (Z.of_nat (length (j_inner j)) <=? Z.of_nat r) with false by lia.
    exact (leads_bind _ _ _ _ _ _ _ Hr).
  - rewrite results_of_app, Hfs. unfold fs', build_acks. rewrite results_of_app.
    rewrite silent_results by apply silent_key_debug. by destruct (build_acked _ _ _).
Qed.

Lemma step_inner n i k r unacked b h rxb fs0 w :
  loaded (reset h) su (take r (j_inner j)) rxb fs0 k -> results_of fs0 = [] ->
  (length unacked < 2)%nat -> (n_inner j - r <= i)%nat -> batch_ok (j_inner j) r b ->
  exists m' fs w' a',
    leads g (session_end dbg rtl (after_build dbg rtl
               (build_loop dbg (S i) k (Z.of_nat r) (Z.of_nat (length unacked)))) ≫= next n)
      (pg_bytes (j_key_type j) (PInner (slice (j_inner j) r b))) w m' fs w' /\
    protocol_step j kernel_grouping (ABuild r unacked) (PInner (slice (j_inner j) r b)) fs a' /\ in_state a' m'.
Proof using timely_g Hj.
  intros Hl Hfs Hu Hi Hb. pose proof Hb as (Hb0 & _ & Hle). fold (n_inner j) in Hle.
  destruct (build_loop_frame n i k r (Z.of_nat (length unacked)) b h rxb fs0 w Hl Hfs Hb)
    as (k' & rxb' & Hr & Hl' & Hfs'); [consts; lia|].
  unfold build_acks, build_pending, build_acked in *. consts.
  destruct (Nat.eq_dec (r + b)%nat (n_inner j)) as [He|Hne].
  - assert ((Z.of_nat (n_inner j) <=? Z.of_nat (r + b)) = true) as Hc
      by (rewrite He; apply Z.leb_refl).
    rewrite Hc, orb_true_r in *. rewrite He in Hr, Hl', Hfs'.
    change (take (n_inner j) (j_inner j)) with (take (length (j_inner j)) (j_inner j)) in Hl'.
    rewrite firstn_all in Hl'.
    destruct i as [|i]; [lia|].
    destruct (enter_probe n i k' 0 _ _ _ w Hl' Hfs') as (m' & post & w' & a & Hr2 & Hst & Hin).
    eexists m', _, w', a. split_and!;
      [|apply (PS_inner_last j kernel_grouping r b unacked (key_debug dbg DBG_BUILD_KEY (slice (j_inner j) r b)) post)|done];
      try done.
    + eapply leads_eq; [exact (leads_trans _ _ _ _ _ _ _ _ _ _ Hr Hr2)|apply app_nil_r|].
      rewrite <- app_assoc. unfold build_ack_at. by rewrite He.
    + apply silent_key_debug.
  - assert ((Z.of_nat (n_inner j) <=? Z.of_nat (r + b)) = false) as Hc
      by (apply Z.leb_gt; lia).
    rewrite Hc, orb_false_r in *. destruct i as [|i]; [lia|].
    destruct unacked as [|u unacked].
    + simpl (2 <=? _) in *. cbn iota in *.
      eexists _, _, w, (ABuild (r + b) [b]). split_and!; [exact Hr|apply (PS_inner_wait j kernel_grouping r b [])|].
      * done.
      * lia.
      * done.
      * rewrite app_nil_r. apply silent_key_debug.
      * eapply (IS_build n i k' (r + b) [b] h); [exact Hl'|done|lia|simpl; lia|lia].
    + assert ((2 <=? Z.of_nat (length (u :: unacked)) + 1) = true) as Hc2
        by (apply Z.leb_le; simpl length; lia).
      rewrite Hc2 in *.
      eexists _, _, w, (ABuild (r + b) []). split_and!; [exact Hr|apply PS_inner_ack|].
      * done.
      * lia.
      * done.
      * apply silent_key_debug.
      * eapply (IS_build n i k' (r + b) [] h); [exact Hl'|done|lia|simpl; lia|lia].
Qed.

(** ** Outer rows *)

Lemma joined_wf n : Forall pair_wf (hash_join (j_inner j) (take n (j_outer j))).
Proof using Hj. destruct Hj. eapply hash_join_wf; [eassumption|]. by apply Forall_take. Qed.

(** Frames sent while probing rows of the job. *)
Lemma probing_quiet n rxb fs0 fs k :
  probing su (j_inner j) (take n (j_outer j)) rxb (fs0 ++ fs) k -> Forall (batch_frame dbg) fs ->
  Forall quiet fs.
Proof using Hj.
  intros Hp Hf. apply (batch_quiet dbg); [done|]. pose proof (joined_wf n) as Hw.
  rewrite <- (pb_results _ _ _ _ _ _ Hp), results_of_app in Hw.
  apply Forall_app in Hw as [Hw _]. by apply Forall_app in Hw as [_ Hw].
Qed.

Lemma step_outer_more n i k r m unacked b rxb fs0 w :
  probing su (j_inner j) (take r (j_outer j)) rxb fs0 k ->
  (length unacked < 2)%nat -> Z.of_nat (m + S (S i)) = probe_frame_limit ->
  batch_ok (j_outer j) r b -> (r + b < n_outer j)%nat ->
  exists m' fs w' a',
    leads g (session_end dbg rtl (probe_loop dbg rtl (S (S i)) k (Z.of_nat (n_inner j)) (Z.of_nat r)
               (Z.of_nat (length unacked))) ≫= next n)
      (pg_bytes (j_key_type j) (POuter (slice (j_outer j) r b))) w m' fs w' /\
    protocol_step j kernel_grouping (AProbe r m unacked (results_of fs0)) (POuter (slice (j_outer j) r b)) fs a' /\
    in_state a' m'.
Proof using timely_g Hj.
  intros Hp Hu Hi Hb Hlt. pose proof Hb as (Hb0 & _ & Hle). pose proof (sv_count _ Hj) as Hcnt.
  pose proof (length_slice _ _ _ Hb) as Hls. set (ts := slice (j_outer j) r b) in *.
  assert (length (take r (j_outer j)) = r) as Hlr by (apply length_take_le; lia).
  destruct (outer_frame_rows g timely_g dbg rtl _ _ _ _ _ _ _ ts k (Z.of_nat (length unacked))
    (Z.of_nat (n_inner j)) w rxb fs0 Hp) as (k1 & pbc1 & fs1 & Hr1 & Hp1 & Hf1);
    [by apply slice_frame_ok; [apply (sv_outer _ Hj)|]|simpl; lia|done|].
  rewrite Hlr in Hr1, Hp1. rewrite (take_ge ts) in Hr1, Hp1 by (simpl; lia).
  unfold ts in Hr1, Hp1. rewrite take_slice in Hr1, Hp1. fold ts in Hr1, Hp1.
  assert (length (take (r + b) (j_outer j)) = (r + b)%nat) as Hlb by (apply length_take_le; lia).
  replace (Z.of_nat (length ts) =? 0) with false in Hr1 by lia.
  destruct (outer_reply_more g rtl _ _ _ _ _ _ _ k1 pbc1 (Z.of_nat (length unacked))
    (Z.of_nat (n_inner j)) w _ _ Hp1) as (k2 & Hr2 & Hp2); [rewrite Hlb; simpl; lia|consts; lia|].
  rewrite Hlb in Hr1, Hr2, Hp2. simpl cp_outer_count in Hr2, Hp2.
  pose proof (probing_quiet _ _ _ _ _ Hp1 Hf1) as Hq.
  pose proof (leads_talks _ _ _ _ _ _ _ _ _ _ Hr1 Hr2) as Hr. rewrite app_nil_r in Hr.
  set (acks := probe_acks _ _ _ _ _) in *.
  assert (leads g (session_end dbg rtl (probe_loop dbg rtl (S (S i)) k (Z.of_nat (n_inner j))
      (Z.of_nat r) (Z.of_nat (length unacked))) ≫= next n) (pg_bytes (j_key_type j) (POuter ts)) w
    (session_end dbg rtl (probe_loop dbg rtl (S i) k2 (Z.of_nat (n_inner j)) (Z.of_nat (r + b))
       (probe_pending (Z.of_nat (length unacked)))) ≫= next n) (fs1 ++ acks) w) as Hr3.
  { apply leads_bind_l. unfold session_end. apply leads_bind_l.
    generalize (S i) as i'. intros i'. cbn [probe_loop].
    pose proof (pb_setup _ _ _ _ _ _ Hp) as Hsu. unfold setup, configured_setup in Hsu.
    injection Hsu as _ _ _ Hot _ Hsd. rewrite Hsd, Hot. simpl cp_outer_count.
    replace (Z.of_nat (n_outer j) <=? Z.of_nat r) with false by lia.
    exact (leads_bind _ _ _ _ _ _ _ Hr). }
  destruct unacked as [|u unacked].
  - change acks with (@nil fp_frame) in *. rewrite app_nil_r in Hp2, Hr3.
    eexists _, _, w, _. split_and!; [exact Hr3|by apply (PS_outer_wait j kernel_grouping r m b [])|].
    rewrite <- results_of_app. apply (IS_probe n i k2 (r + b) (S m) [b] _ _ Hp2);
      [lia|simpl; lia|rewrite <- Hi; f_equal; lia].
  - unfold probe_pending in Hr3. unfold acks, probe_acks in *. consts.
    assert ((2 <=? Z.of_nat (length (u :: unacked)) + 1) = true) as Hc
      by (apply Z.leb_le; simpl length; lia).
    rewrite Hc in *.
    eexists _, _, w, _. split_and!; [exact Hr3|by apply PS_outer_ack|].
    rewrite <- results_of_app.
    replace (results_of (fs0 ++ fs1)) with (results_of ((fs0 ++ fs1) ++ [probe_ack_at j (r + b)]))
      by (rewrite results_of_app; apply app_nil_r).
    apply (IS_probe n i k2 (r + b) (S m) [] _ _ Hp2); [lia|simpl; lia|rewrite <- Hi; f_equal; lia].
Qed.

Lemma step_outer_last n i k r m unacked b rxb fs0 w :
  probing su (j_inner j) (take r (j_outer j)) rxb fs0 k ->
  batch_ok (j_outer j) r b -> (r + b = n_outer j)%nat ->
  exists m' fs w' a',
    leads g (session_end dbg rtl (probe_loop dbg rtl (S i) k (Z.of_nat (n_inner j)) (Z.of_nat r)
               (Z.of_nat (length unacked))) ≫= next n)
      (pg_bytes (j_key_type j) (POuter (slice (j_outer j) r b))) w m' fs w' /\
    protocol_step j kernel_grouping (AProbe r m unacked (results_of fs0)) (POuter (slice (j_outer j) r b)) fs a' /\
    in_state a' m'.
Proof using timely_g Hj.
  intros Hp Hb He. pose proof Hb as (Hb0 & _ & Hle). pose proof (sv_count _ Hj) as Hcnt.
  pose proof (length_slice _ _ _ Hb) as Hls. set (ts := slice (j_outer j) r b) in *.
  assert (length (take r (j_outer j)) = r) as Hlr by (apply length_take_le; lia).
  destruct w as [p mm].
  destruct (probe_loop_done g timely_g dbg rtl _ _ _ _ _ _ (Z.of_nat (n_inner j)) _ ts rxb fs0 k
    (Z.of_nat (length unacked)) p mm i Hp) as (k1 & t & rs & Hr & Hsd & Hrs & Hres & _ & _).
  { by apply slice_frame_ok; [apply (sv_outer _ Hj)|]. }
  { simpl. lia. }
  { right. rewrite length_app. simpl. lia. }
  rewrite Hlr in Hr, Hres. rewrite (take_ge ts) in Hr, Hres by (simpl; lia).
  unfold ts in Hr, Hres. rewrite take_slice, He in Hr, Hres. fold ts in Hr, Hres.
  change (take (n_outer j) (j_outer j)) with (take (length (j_outer j)) (j_outer j)) in Hr, Hres.
  rewrite firstn_all in Hr, Hres. fold (joined j) (n_outer j) in Hr, Hres.
  change (FStatus _) with (done_status j) in Hr, Hres.
  set (tf := FTiming (apply_rtl_stream_timing rtl t)) in *.
  assert (talks g (session_end dbg rtl (probe_loop dbg rtl (S i) k (Z.of_nat (n_inner j)) (Z.of_nat r)
    (Z.of_nat (length unacked)))) (pg_bytes (j_key_type j) (POuter ts)) (p, mm) k1
    (rs ++ [tf; done_status j]) (done_regs p (Z.of_nat (length (joined j))), mm)) as Hr1.
  { unfold session_end. rewrite <- (app_nil_r (pg_bytes _ _)), <- (app_nil_r (rs ++ _)).
    eapply talks_bind; [exact Hr|]. cbn beta. rewrite Hsd. apply talks_ret. }
  destruct (session_finishes n _ _ _ _ _ _ Hr1) as (m' & post & w'' & Hr2 & Hin & Hpost).
  eexists m', _, w'', ADone. split_and!; [exact Hr2|apply PS_outer_last; try done|done].
  rewrite !results_of_app in Hres. unfold results_of at 3 in Hres. simpl in Hres.
  rewrite app_nil_r in Hres.
  exists (rs ++ [tf]), post. split_and!; try done.
  - by rewrite <- !app_assoc.
  - apply Forall_app_2; [|by repeat constructor]. apply (batch_quiet dbg); [done|].
    pose proof (joined_wf (length (j_outer j))) as Hw. rewrite firstn_all in Hw.
    fold (joined j) in Hw. rewrite <- Hres in Hw. by apply Forall_app in Hw as [_ Hw].
  - rewrite results_of_app. unfold results_of at 3. simpl. by rewrite app_nil_r.
Qed.

(** ** The simulation *)

Lemma kernel_step a m f w :
  in_state a m -> may_send j a f ->
  exists m' fs w' a',
    leads g m (pg_bytes (j_key_type j) f) w m' fs w' /\
    protocol_step j kernel_grouping a f fs a' /\ in_state a' m'.
Proof using timely_g Hj.
  intros Hin Hms. destruct Hms as [|r unacked b Hb|r q unacked res b Hb Hq Hq'];
    inversion Hin; subst.
  - apply step_configure.
  - by eapply step_inner.
  - destruct (Nat.eq_dec (r + b)%nat (n_outer j)) as [He|Hne].
    + by eapply step_outer_last.
    + assert (r + b < n_outer j)%nat as Hlt by (destruct Hb as (_ & _ & ?); unfold n_outer in *; lia).
      destruct i as [|i]; [specialize (Hq' Hlt); lia|]. by eapply step_outer_more.
Qed.

(** CONFIGURE and the first inner frame in one go. *)
Lemma kernel_first_steps m b w :
  in_state AIdle m -> batch_ok (j_inner j) 0 b ->
  let l := [PConfigure (job_configure j); PInner (slice (j_inner j) 0 b)] in
  exists m' fs w' a',
    leads g m (request_frames_bytes (j_key_type j) l) w m' fs w' /\
    protocol_steps j kernel_grouping AIdle l fs a' /\ in_state a' m'.
Proof using timely_g Hj.
  intros Hin Hb l. destruct (kernel_step _ _ _ w Hin (MS_configure j))
    as (m1 & fs1 & w1 & a1 & Hr1 & Hs1 & Hin1).
  assert (a1 = ABuild 0 []) as ->.
  { inversion Hs1 as [pre post a Hpre Ha| | | | | |]; subst.
    destruct (Nat.eqb_spec (n_inner j) 0%nat) as [Hz|Hz]; [|by destruct Ha].
    destruct Hb as (? & _ & ?). unfold n_inner in *. lia. }
  destruct (kernel_step _ _ _ w1 Hin1 (MS_inner j 0 [] b Hb))
    as (m2 & fs2 & w2 & a2 & Hr2 & Hs2 & Hin2).
  eexists m2, (fs1 ++ fs2 ++ []), w2, a2. split_and!; [| |done].
  - eapply leads_eq; [exact (leads_trans _ _ _ _ _ _ _ _ _ _ Hr1 Hr2)| |by rewrite app_nil_r].
    unfold l, request_frames_bytes. cbn [fmap list_fmap concat]. by rewrite app_nil_r.
  - econstructor; [exact Hs1|]. econstructor; [exact Hs2|constructor].
Qed.
End server.
