(* ===== verification/TestBench.v ===== *)
(** The C-simulation test bench of the kernel, [src/src/hash_join_tb.cpp].

    [push_*], [send_*] and [pop_*] work on a stream as the list of its pending
    bytes; [drain_tx] decodes everything the kernel sent; [run_kernel] is one
    call of the kernel, whose static objects and DDR2 array stay from one test
    to the next ([tb]), with every byte of the request already waiting; the
    values of the five output variables before the call are an argument.  A
    failed [assert] is a [Fault], a read from an empty stream is [Blocked].  The
    tests are definitions, one per test function, composed by [main]; the lines
    printed on [std::cout] are part of the state, those on [std::cerr] are not.

    [drain_tx] recovers what a list of kernel frames carries ([drain_frames]);
    with the session theorems of [LinearJoin] and [LinearAborts] this gives the
    outcome of the bench on any request of algorithm A with 32-bit keys and of
    its tests.  The three tests of algorithm B are modelled but not proved: their
    tables of 12292 to 49929 rows would have to be evaluated. *)
From stdpp Require Import strings sorting.
From S2P Require Import Prelude Types LinearHashTable Stream Wire Dialogue Join Kernel LinearJoin LinearAborts KernelServer Text.

(** ** Stream helpers *)

Definition ByteStream : Type := list AxisByte.

(** [keep] is one bit wide for an 8-bit stream. *)
Definition push_byte (s : ByteStream) (v : Z) (last : bool) : ByteStream :=
  s ++ [mkAxis (u8 v) last (Z.land 255 1)].

Definition push_u16 (s : ByteStream) (v : Z) (last : bool) : ByteStream :=
  let s := push_byte s (Z.land v 255) false in
  push_byte s (Z.land (Z.shiftr v 8) 255) last.

Definition push_u32 (s : ByteStream) (v : Z) (last : bool) : ByteStream :=
  let s := push_byte s (Z.land (Z.shiftr v 0) 255) false in
  let s := push_byte s (Z.land (Z.shiftr v 8) 255) false in
  let s := push_byte s (Z.land (Z.shiftr v 16) 255) false in
  push_byte s (Z.land (Z.shiftr v 24) 255) last.

Definition pop_byte : M ByteStream Z := fun s =>
  match s with [] => Blocked s | b :: s => Ret (u8 (ax_data b)) s end.

Definition pop_u16 : M ByteStream Z :=
  b0 ← pop_byte; b1 ← pop_byte;
  mret (Z.lor b0 (u16 (Z.shiftl b1 8))).

Definition pop_u32 : M ByteStream Z :=
  b0 ← pop_byte; b1 ← pop_byte; b2 ← pop_byte; b3 ← pop_byte;
  mret (Z.lor (Z.lor (Z.lor b0 (Z.shiftl b1 8)) (Z.shiftl b2 16)) (Z.shiftl b3 24)).

Definition pop_u64 : M ByteStream Z :=
  lo ← pop_u32; hi ← pop_u32; mret (Z.lor lo (Z.shiftl hi 32)).

(** ** Frame builders *)

Definition send_configure (rx : ByteStream)
    (algorithm key_type rx_buf inner_count outer_count session_id : Z) : ByteStream :=
  let rx := push_byte rx (msg_code MSG_CONFIGURE) false in
  let rx := push_u16 rx 1 false in
  let rx := push_byte rx algorithm false in
  let rx := push_byte rx key_type false in
  let rx := push_u16 rx rx_buf false in
  let rx := push_u32 rx inner_count false in
  let rx := push_u32 rx outer_count false in
  push_byte rx session_id true.

(** The loop of the two data senders, from row [i] of [count] on. *)
Fixpoint push_tuples (rx : ByteStream) (tuples : list Tuple) (i count : Z) : ByteStream :=
  match tuples with
  | [] => rx
  | t :: ts =>
      let rx := push_u32 rx (u32 (key t)) false in
      let rx := push_u32 rx (blkno (tid t)) false in
      let rx := push_u16 rx (offno (tid t)) (i =? u16 (count - 1)) in
      push_tuples rx ts (i + 1) count
  end.

(** [tuples] and [count] are one list; its length is at most 65535. *)
Definition send_inner_data (rx : ByteStream) (tuples : list Tuple) : ByteStream :=
  let count := Z.of_nat (length tuples) in
  let rx := push_byte rx (msg_code MSG_INNER_DATA) false in
  let rx := push_u16 rx count false in
  push_tuples rx tuples 0 count.

Definition send_outer_data (rx : ByteStream) (tuples : list Tuple) : ByteStream :=
  let count := Z.of_nat (length tuples) in
  let rx := push_byte rx (msg_code MSG_OUTER_DATA) false in
  let rx := push_u16 rx count (count =? 0) in
  push_tuples rx tuples 0 count.

(** ** Draining the output *)

Record TxDrainResult := mkDrain {
  dr_ack_count : Z;
  dr_result_count : Z;
  dr_timing_count : Z;
  dr_got_done : bool;
  dr_results : list ResultPair }.

Definition assert_that {S} (b : bool) : M S unit := if b then mret tt else mfault.

(** The StatusPayload of an ACK or STATUS frame; its phase. *)
Definition pop_status : M ByteStream Z :=
  phase ← pop_byte; _ ← pop_byte; _ ← pop_u16; _ ← pop_u32; _ ← pop_u32; mret phase.

Definition pop_pair : M ByteStream ResultPair :=
  ib ← pop_u32; io ← pop_u16; ob ← pop_u32; oo ← pop_u16;
  mret (mkPair (mkTid ib io) (mkTid ob oo)).

Fixpoint drain_results (n : nat) (r : TxDrainResult) : M ByteStream TxDrainResult :=
  match n with
  | O => mret r
  | S n =>
      rp ← pop_pair;
      drain_results n (r <| dr_results ::= (fun l => l ++ [rp]) |>
                         <| dr_result_count ::= add32 1 |>)
  end.

(** [for (int i = 0; i < n; i++) pop(tx);] *)
Fixpoint pop_times (n : nat) (pop : M ByteStream Z) : M ByteStream unit :=
  match n with O => mret tt | S n => _ ← pop; pop_times n pop end.

(** The body of a TIMING frame; its version. *)
Definition pop_timing : M ByteStream Z :=
  version ← pop_u16;
  _ ← pop_u16;
  pop_times 11 pop_u32 ;;
  pop_times 13 pop_u64 ;;
  pop_times 10 pop_u32 ;;
  _ ← pop_u16;
  _ ← pop_u16;
  _ ← pop_u32;
  mret version.

(** One frame; the payload of any other type is not read. *)
Definition drain_frame (r : TxDrainResult) : M ByteStream TxDrainResult :=
  msg_type ← pop_byte;
  count ← pop_u16;
  if msg_type =? msg_code MSG_ACK then
    _ ← pop_status; mret (r <| dr_ack_count ::= add32 1 |>)
  else if msg_type =? msg_code MSG_RESULT then drain_results (Z.to_nat count) r
  else if msg_type =? msg_code MSG_STATUS then
    phase ← pop_status;
    mret (if phase =? phase_code PHASE_DONE then r <| dr_got_done := true |> else r)
  else if msg_type =? msg_code MSG_TIMING then
    assert_that (count =? TIMING_SUMMARY_COUNT) ;;
    version ← pop_timing;
    assert_that (version =? TIMING_SUMMARY_VERSION) ;;
    mret (r <| dr_timing_count ::= add32 1 |>)
  else if msg_type =? msg_code MSG_ERROR then _ ← pop_byte; mret r
  else mret r.

(** At most [n] frames. *)
Fixpoint drain_loop (n : nat) (r : TxDrainResult) : M ByteStream TxDrainResult :=
  match n with
  | O => mret r
  | S n =>
      s ← mget;
      match s with
      | [] => mret r
      | _ :: _ => r ← drain_frame r; drain_loop n r
      end
  end.

Definition drain0 : TxDrainResult := mkDrain 0 0 0 false [].
Definition drain_tx : M ByteStream TxDrainResult := drain_loop (Z.to_nat 10000) drain0.

(** ** The kernel call *)

(** What outlives a test: the kernel's static objects, [g_sim_ddr2], the console. *)
Record tb := mkTb {
  tb_kernel : kst;
  g_sim_ddr2 : gmap Z Z;
  tb_out : list string }.

(** Every byte pushed is there when the kernel polls. *)
Definition stimulus (rx : ByteStream) : list rx_event := feed (fun _ => 0) 0 (ax_data <$> rx) [].

(** The monitor inputs the bench ties off. *)
Definition tb_rtl : RtlTiming :=
  mkRtl 0 TIMING_DEFAULT_CLOCK_HZ 0 0 0 0 0 0 0 0 0 0 0 0 0 0 0 0 0 0.

(** The output stream and variables after the call; [p] holds the variables before. *)
Definition run_kernel (p : regs) (rx tx : ByteStream) : M tb (ByteStream * regs) := fun t =>
  match hash_join_kernel false tb_rtl 1 (tb_kernel t) (mkDev (stimulus rx) tx p (g_sim_ddr2 t)) with
  | Ret k d => Ret (Stream.tx d, ports d) (t <| tb_kernel := k |> <| g_sim_ddr2 := ddr2 d |>)
  | Blocked _ => Blocked t
  | Fault => Fault
  end.

(** Read from a test's output stream. *)
Definition from_tx {A} (tx : ByteStream) (m : M ByteStream A) : M tb (A * ByteStream) := fun t =>
  match m tx with
  | Ret a s => Ret (a, s) t
  | Blocked _ => Blocked t
  | Fault => Fault
  end.

Definition say (s : string) : M tb unit := mmodify (fun t => t <| tb_out ::= (fun l => l ++ [s]) |>).

(** ** Tests *)

Section tests.
(** The uninitialised output variables of the test functions. *)
Variable p : regs.

(** The three assertions after the run of a join. *)
Definition expect_regs (q : regs) (result_count : Z) : M tb unit :=
  assert_that (status_reg q =? phase_code PHASE_DONE) ;;
  assert_that (result_count_reg q =? result_count) ;;
  assert_that (error_code_reg q =? err_code ERR_NONE).

(** TC-1 *)
Definition test_simple_join : M tb unit :=
  say "[TC-1] simple_join ... " ;;
  let inner := [mkTuple 10 (mkTid 10 1); mkTuple 20 (mkTid 20 1); mkTuple 30 (mkTid 30 1)] in
  let outer := [mkTuple 10 (mkTid 100 1); mkTuple 25 (mkTid 101 1); mkTuple 30 (mkTid 102 1);
                mkTuple 40 (mkTid 103 1)] in
  let rx := send_configure [] (alg_code ALGORITHM_A) (key_code KEY_INT32) 256 3 4 1 in
  let rx := send_inner_data rx inner in
  let rx := send_outer_data rx outer in
  '(tx, q) ← run_kernel p rx [];
  expect_regs q 2 ;;
  assert_that (ht_capacity_reg q =? HT_MAX_ROWS) ;;
  '(dr, _) ← from_tx tx drain_tx;
  assert_that (dr_result_count dr =? 2) ;;
  assert_that (dr_got_done dr) ;;
  assert_that (dr_timing_count dr =? 1) ;;
  say ("PASS (matches=" +:+ dec (result_count_reg q) +:+ ")").

(** TC-2 *)
Definition test_no_match : M tb unit :=
  say "[TC-2] no_match ... " ;;
  let inner := [mkTuple 1 (mkTid 1 1); mkTuple 2 (mkTid 2 1)] in
  let outer := [mkTuple 3 (mkTid 3 1); mkTuple 4 (mkTid 4 1)] in
  let rx := send_configure [] (alg_code ALGORITHM_A) (key_code KEY_INT32) 256 2 2 1 in
  let rx := send_inner_data rx inner in
  let rx := send_outer_data rx outer in
  '(tx, q) ← run_kernel p rx [];
  expect_regs q 0 ;;
  '(dr, _) ← from_tx tx drain_tx;
  assert_that (dr_result_count dr =? 0) ;;
  assert_that (dr_got_done dr) ;;
  assert_that (dr_timing_count dr =? 1) ;;
  say "PASS".

(** TC-3 *)
Definition test_empty_inner : M tb unit :=
  say "[TC-3] empty_inner ... " ;;
  let outer := [mkTuple 5 (mkTid 5 1); mkTuple 6 (mkTid 6 1); mkTuple 7 (mkTid 7 1)] in
  let rx := send_configure [] (alg_code ALGORITHM_A) (key_code KEY_INT32) 256 0 3 1 in
  let rx := send_outer_data rx outer in
  '(tx, q) ← run_kernel p rx [];
  expect_regs q 0 ;;
  '(dr, _) ← from_tx tx drain_tx;
  assert_that (dr_got_done dr) ;;
  assert_that (dr_timing_count dr =? 1) ;;
  say "PASS".

(** TC-4 *)
Definition test_empty_outer : M tb unit :=
  say "[TC-4] empty_outer ... " ;;
  let inner := [mkTuple 1 (mkTid 1 1); mkTuple 2 (mkTid 2 1)] in
  let rx := send_configure [] (alg_code ALGORITHM_A) (key_code KEY_INT32) 256 2 0 1 in
  let rx := send_inner_data rx inner in
  '(tx, q) ← run_kernel p rx [];
  expect_regs q 0 ;;
  '(dr, _) ← from_tx tx drain_tx;
  assert_that (dr_result_count dr =? 0) ;;
  assert_that (dr_got_done dr) ;;
  assert_that (dr_timing_count dr =? 1) ;;
  say "PASS".

(** TC-5 *)
Definition test_overflow_detection : M tb unit :=
  say "[TC-5] overflow_detection ... " ;;
  let rx := send_configure [] (alg_code ALGORITHM_A) (key_code KEY_INT32) 256
              (HT_MAX_ROWS + 1) 0 1 in
  '(tx, q) ← run_kernel p rx [];
  assert_that (error_code_reg q =? err_code ERR_OVERFLOW) ;;
  assert_that (negb (bool_decide (length tx = 0%nat))) ;;
  '(msg_type, tx) ← from_tx tx pop_byte;
  assert_that (msg_type =? msg_code MSG_ERROR) ;;
  '(_, tx) ← from_tx tx pop_u16;
  '(_, tx) ← from_tx tx pop_byte;
  '(_, _) ← from_tx tx drain_tx;
  say "PASS".

(** TC-6 *)
Definition test_reset_before_configure : M tb unit :=
  say "[TC-6] reset_before_configure ... " ;;
  let rx := push_byte [] (msg_code MSG_RESET) false in
  let rx := push_u16 rx 0 true in
  '(tx, q) ← run_kernel p rx [];
  assert_that (status_reg q =? phase_code PHASE_IDLE) ;;
  assert_that (negb (bool_decide (length tx = 0%nat))) ;;
  '(_, _) ← from_tx tx drain_tx;
  say "PASS".

(** TC-7 *)
Definition test_all_match : M tb unit :=
  say "[TC-7] all_match ... " ;;
  let n := 8%nat in
  let inner := (fun i => mkTuple (Z.of_nat i + 1) (mkTid (u32 (Z.of_nat i + 1)) 1)) <$> seq 0 n in
  let outer := (fun i => mkTuple (Z.of_nat i + 1) (mkTid (u32 (Z.of_nat i + 100)) 1)) <$> seq 0 n in
  let rx := send_configure [] (alg_code ALGORITHM_A) (key_code KEY_INT32) 256
              (Z.of_nat n) (Z.of_nat n) 1 in
  let rx := send_inner_data rx inner in
  let rx := send_outer_data rx outer in
  '(tx, q) ← run_kernel p rx [];
  expect_regs q (Z.of_nat n) ;;
  '(dr, _) ← from_tx tx drain_tx;
  assert_that (dr_result_count dr =? Z.of_nat n) ;;
  assert_that (dr_got_done dr) ;;
  assert_that (dr_timing_count dr =? 1) ;;
  say ("PASS (matches=" +:+ dec (result_count_reg q) +:+ ")").

(** TC-8 *)
Definition test_explicit_probe_end_marker : M tb unit :=
  say "[TC-8] explicit_probe_end_marker ... " ;;
  let inner := [mkTuple 10 (mkTid 1 1); mkTuple 20 (mkTid 1 2); mkTuple 30 (mkTid 1 3)] in
  let outer := [mkTuple 99 (mkTid 2 1); mkTuple 20 (mkTid 2 2); mkTuple 10 (mkTid 2 3)] in
  let rx := send_configure [] (alg_code ALGORITHM_A) (key_code KEY_INT32) 256 3 1024 1 in
  let rx := send_inner_data rx inner in
  let rx := send_outer_data rx outer in
  let rx := send_outer_data rx [] in
  '(tx, q) ← run_kernel p rx [];
  expect_regs q 2 ;;
  '(dr, _) ← from_tx tx drain_tx;
  assert_that (dr_result_count dr =? 2) ;;
  assert_that (dr_got_done dr) ;;
  assert_that (dr_timing_count dr =? 1) ;;
  say "PASS".

(** *** Algorithm B *)

(** [count] rows from row [sent] on, in batches of [RX_BUF_TUPLES]; [n] bounds the
    iterations. *)
Fixpoint send_batches (send : ByteStream -> list Tuple -> ByteStream) (row : Z -> Tuple)
    (n : nat) (sent count : Z) (rx : ByteStream) : ByteStream :=
  match n with
  | O => rx
  | S n =>
      if count <=? sent then rx
      else
        let b := Z.min RX_BUF_TUPLES (count - sent) in
        let batch := (fun i => row (sent + Z.of_nat i)) <$> seq 0 (Z.to_nat b) in
        send_batches send row n (sent + b) count (send rx batch)
  end.

(** Enough iterations for [count] rows. *)
Definition batches (count : Z) : nat := Z.to_nat (count / RX_BUF_TUPLES + 1).

Definition send_inner_batches (rx : ByteStream) (first_key count blk_base offno : Z) : ByteStream :=
  send_batches send_inner_data
    (fun i => let key := u32 (first_key + i) in
              mkTuple (i32 key) (mkTid (u32 (blk_base + key)) offno))
    (batches count) 0 count rx.

Definition result_key (rp : ResultPair) : Z :=
  Z.lor (Z.shiftl (blkno (inner_tid rp)) 32) (blkno (outer_tid rp)).

Definition assert_all {A} (q : A -> bool) (l : list A) : M tb unit := assert_that (forallb q l).

Definition test_grace_basic : M tb unit :=
  say "[TC-8] grace_basic (K=2 partitions) ... " ;;
  let INNER_N := HT_MAX_ROWS + 4 in
  let OUTER_N := 8 in
  let outer_probes :=
    [mkTuple 1 (mkTid 200 1); mkTuple 2 (mkTid 201 1); mkTuple 3 (mkTid 202 1);
     mkTuple 10 (mkTid 203 1); mkTuple 100 (mkTid 204 1); mkTuple 1000 (mkTid 205 1);
     mkTuple 5000 (mkTid 206 1); mkTuple 12290 (mkTid 207 1)] in
  let rx := send_configure [] (alg_code ALGORITHM_B) (key_code KEY_INT32) 256 INNER_N OUTER_N 1 in
  let rx := send_batches send_inner_data (fun i => mkTuple (i32 (i + 1)) (mkTid (i + 1) 1))
              (batches INNER_N) 0 INNER_N rx in
  let rx := send_outer_data rx outer_probes in
  '(tx, q) ← run_kernel p rx [];
  expect_regs q OUTER_N ;;
  '(dr, _) ← from_tx tx drain_tx;
  assert_that (dr_result_count dr =? OUTER_N) ;;
  assert_that (dr_got_done dr) ;;
  assert_that (Z.of_nat (length (dr_results dr)) =? OUTER_N) ;;
  assert_all (fun rp => (offno (inner_tid rp) =? 1) && (offno (outer_tid rp) =? 1) &&
                        (200 <=? blkno (outer_tid rp)) && (blkno (outer_tid rp) <=? 207))
    (dr_results dr) ;;
  say ("PASS (matches=" +:+ dec (result_count_reg q) +:+ ", K=2)").

Definition test_grace_large_multi_partition : M tb unit :=
  say "[TC-9] grace_large_multi_partition ... " ;;
  let INNER_N := HT_MAX_ROWS * 4 + 777 in
  let OUTER_N := 4096 in
  let outer_key row := u32 (u32 (row * 97) mod INNER_N + 1) in
  let rx := send_configure [] (alg_code ALGORITHM_B) (key_code KEY_INT32) 256 INNER_N OUTER_N 1 in
  let rx := send_inner_batches rx 1 INNER_N 100000 7 in
  let rx := send_batches send_outer_data
              (fun row => mkTuple (i32 (outer_key row)) (mkTid (200000 + row) 3))
              (batches OUTER_N) 0 OUTER_N rx in
  let expected := (fun i => let row := Z.of_nat i in
                            Z.lor (Z.shiftl (100000 + outer_key row) 32) (200000 + row))
                  <$> seq 0 (Z.to_nat OUTER_N) in
  '(tx, q) ← run_kernel p rx [];
  expect_regs q OUTER_N ;;
  '(dr, _) ← from_tx tx drain_tx;
  assert_that (dr_result_count dr =? OUTER_N) ;;
  assert_that (dr_got_done dr) ;;
  assert_that (Z.of_nat (length (dr_results dr)) =? OUTER_N) ;;
  assert_all (fun rp => (offno (inner_tid rp) =? 7) && (offno (outer_tid rp) =? 3)) (dr_results dr) ;;
  assert_that (bool_decide (merge_sort Z.le (result_key <$> dr_results dr) =
                            merge_sort Z.le expected)) ;;
  say ("PASS (matches=" +:+ dec (result_count_reg q) +:+ ", K=5)").

(** Skip frames up to the first ERROR; whether it is ERR_OVERFLOW. *)
Fixpoint find_overflow (n : nat) : M ByteStream bool :=
  match n with
  | O => mret false
  | S n =>
      s ← mget;
      match s with
      | [] => mret false
      | _ :: _ =>
          msg_type ← pop_byte;
          count ← pop_u16;
          if msg_type =? msg_code MSG_ERROR then
            assert_that (count =? 1) ;;
            e ← pop_byte; mret (e =? err_code ERR_OVERFLOW)
          else if (msg_type =? msg_code MSG_ACK) || (msg_type =? msg_code MSG_STATUS) then
            pop_times 12 pop_byte ;; find_overflow n
          else if msg_type =? msg_code MSG_RESULT then
            _ ← drain_results (Z.to_nat count) drain0; find_overflow n
          else find_overflow n
      end
  end.

Definition test_grace_outer_skew_overflow : M tb unit :=
  say "[TC-10] grace_outer_skew_overflow ... " ;;
  let INNER_N := HT_MAX_ROWS * 4 + 1 in
  let OUTER_N := 256 in
  let rx := send_configure [] (alg_code ALGORITHM_B) (key_code KEY_INT32) 256 INNER_N OUTER_N 1 in
  let rx := send_inner_batches rx 1 INNER_N 300000 9 in
  let rx := send_batches send_outer_data (fun i => mkTuple 1 (mkTid (400000 + i) 1))
              (batches OUTER_N) 0 OUTER_N rx in
  '(tx, q) ← run_kernel p rx [];
  assert_that (error_code_reg q =? err_code ERR_OVERFLOW) ;;
  '(saw_overflow, _) ← from_tx tx (find_overflow (Z.to_nat 10000));
  assert_that saw_overflow ;;
  say "PASS".

(** The tests of algorithm A and of the session protocol, in order. *)
Definition linear_tests : M tb unit :=
  test_simple_join ;;
  test_no_match ;;
  test_empty_inner ;;
  test_empty_outer ;;
  test_overflow_detection ;;
  test_reset_before_configure ;;
  test_all_match ;;
  test_explicit_probe_end_marker.

Definition main : M tb unit :=
  say "=== hash_join_kernel csim testbench ===" ;;
  linear_tests ;;
  test_grace_basic ;;
  test_grace_large_multi_partition ;;
  test_grace_outer_skew_overflow ;;
  say "All tests passed.".
End tests.

(** ** The senders build the frames of the wire format *)

Lemma push_byte_axis s v last : push_byte s v last = s ++ axis last [u8 v].
Proof. done. Qed.

Lemma u8_land v : u8 (Z.land v 255) = v mod 256.
Proof. rewrite land_255. apply u8_small, Z.mod_pos_bound. lia. Qed.

Lemma push_u16_axis s v last : push_u16 s v last = s ++ axis last (le_bytes 2 v).
Proof.
  unfold push_u16, push_byte. rewrite <- app_assoc, le_bytes_2, !u8_land, !land_255. done.
Qed.

Lemma push_u32_axis s v last : push_u32 s v last = s ++ axis last (le_bytes 4 v).
Proof.
  unfold push_u32, push_byte. rewrite <- !app_assoc, le_bytes_4, !u8_land, !land_255. done.
Qed.

(** A last piece closes the frame begun by the pieces before it. *)
Lemma axis_snoc s last bs bs' :
  bs' <> [] -> (s ++ axis false bs) ++ axis last bs' = s ++ axis last (bs ++ bs').
Proof. intros. by rewrite axis_app, app_assoc. Qed.

Lemma send_configure_axis rx alg kt rb ic oc sid :
  is_byte alg -> is_byte kt -> is_byte sid ->
  send_configure rx alg kt rb ic oc sid =
  rx ++ axis true (pg_bytes kt (PConfigure (mkConfigure alg kt rb ic oc sid))).
Proof.
  intros. unfold send_configure. rewrite !push_byte_axis, !push_u16_axis, !push_u32_axis.
  rewrite !u8_small by (done || apply msg_code_byte). by rewrite !axis_snoc.
Qed.

Lemma le_bytes_u32 v : le_bytes 4 (u32 v) = le_bytes 4 v.
Proof. exact (le_bytes_mod 4 v). Qed.

Lemma push_tuples_axis ts : forall s bs i count,
  ts <> [] -> i + Z.of_nat (length ts) = count -> 0 <= i -> count <= 65535 ->
  push_tuples (s ++ axis false bs) ts i count = s ++ axis true (bs ++ tuples_bytes 1 ts).
Proof.
  induction ts as [|t ts IH]; intros s bs i count Hne Hc Hi Hle; [done|].
  cbn [push_tuples length] in *. rewrite !push_u32_axis, !push_u16_axis.
  rewrite u16_small by (unfold is_u16; lia). rewrite le_bytes_u32, !axis_snoc by done.
  unfold tuples_bytes. cbn [fmap list_fmap concat].
  assert (tuple_bytes 1 t = le_bytes 4 (key t) ++ le_bytes 4 (blkno (tid t)) ++
    le_bytes 2 (offno (tid t))) as -> by done.
  destruct ts as [|t' ts].
  - replace (i =? count - 1) with true by (simpl in Hc; lia). simpl push_tuples.
    simpl concat. by rewrite app_nil_r.
  - replace (i =? count - 1) with false by (simpl in Hc; lia).
    rewrite (IH s _ (i + 1) count) by (done || simpl length in *; lia).
    unfold tuples_bytes. by rewrite <- !app_assoc.
Qed.

Lemma send_inner_axis rx ts :
  ts <> [] -> Z.of_nat (length ts) <= 65535 ->
  send_inner_data rx ts = rx ++ axis true (pg_bytes 1 (PInner ts)).
Proof.
  intros Hne Hl. unfold send_inner_data. rewrite push_byte_axis, push_u16_axis, axis_snoc by done.
  rewrite u8_small by apply msg_code_byte. by apply push_tuples_axis.
Qed.

Lemma send_outer_axis rx ts :
  Z.of_nat (length ts) <= 65535 ->
  send_outer_data rx ts = rx ++ axis true (pg_bytes 1 (POuter ts)).
Proof.
  intros Hl. unfold send_outer_data. rewrite push_byte_axis, push_u16_axis, axis_snoc by done.
  rewrite u8_small by apply msg_code_byte. destruct ts as [|t ts]; [done|].
  assert ((Z.of_nat (length (t :: ts)) =? 0) = false) as -> by (apply Z.eqb_neq; cbn [length]; lia).
  by apply push_tuples_axis.
Qed.

(** ** Draining *)

(** [m] takes exactly the bytes [bs] off the stream and returns [a]. *)
Definition takes {A} (m : M ByteStream A) (bs : list Z) (a : A) : Prop :=
  forall s rest, ax_data <$> s = bs -> m (s ++ rest) = Ret a rest.

Lemma takes_ret {A} (a : A) : takes (mret a) [] a.
Proof. intros s rest Hs. apply fmap_nil_inv in Hs as ->. done. Qed.

Lemma takes_bind {A B} (m : M ByteStream A) (k : A -> M ByteStream B) bs bs' a b :
  takes m bs a -> takes (k a) bs' b -> takes (m ≫= k) (bs ++ bs') b.
Proof.
  intros Hm Hk s rest Hs. apply fmap_app_inv in Hs as (s1 & s2 & H1 & H2 & ->).
  rewrite <- app_assoc. run Hm. by apply Hk.
Qed.

Lemma takes_last {A} (m : M ByteStream A) bs bs' a : takes m bs a -> bs ++ [] = bs' -> takes m bs' a.
Proof. by rewrite app_nil_r; intros ? <-. Qed.

Lemma takes_byte b : takes pop_byte [b] (u8 b).
Proof. intros s rest Hs. destruct s as [|x [|]]; try done. injection Hs as <-. done. Qed.

Lemma takes_cons {B} b (k : Z -> M ByteStream B) bs v :
  is_byte b -> takes (k b) bs v -> takes (pop_byte ≫= k) (b :: bs) v.
Proof.
  intros. apply (takes_bind _ _ [b] _ b); [|done]. rewrite <- (u8_small b) at 2 by done. apply takes_byte.
Qed.

Lemma takes_u16 v : takes pop_u16 (le_bytes 2 v) (u16 v).
Proof.
  pose proof (le_bytes_byte 2 v) as Hb. pose proof (le_value_bytes 2 v) as Hv.
  unfold u16. change (2 ^ 16) with (256 ^ Z.of_nat 2). rewrite <- Hv.
  simpl le_bytes in *. rewrite !Forall_cons in Hb. destruct Hb as (?&?&_).
  do 2 (apply takes_cons; [done|]). rewrite join_2 by done. apply takes_ret.
Qed.

Lemma takes_u32 v : takes pop_u32 (le_bytes 4 v) (u32 v).
Proof.
  pose proof (le_bytes_byte 4 v) as Hb. pose proof (le_value_bytes 4 v) as Hv.
  unfold u32. change (2 ^ 32) with (256 ^ Z.of_nat 4). rewrite <- Hv.
  simpl le_bytes in *. pose proof Hb as Hb'. rewrite !Forall_cons in Hb. destruct Hb as (?&?&?&?&_).
  do 4 (apply takes_cons; [done|]). rewrite join_4 by done. apply takes_ret.
Qed.
#[local] Opaque pop_u16 pop_u32.

Lemma takes_u64 v : takes pop_u64 (le_bytes 8 v) (u64 v).
Proof.
  rewrite le_bytes_8. eapply takes_bind; [apply takes_u32|].
  eapply takes_last; [eapply takes_bind; [apply takes_u32|]|apply app_nil_r].
  change 4294967295 with (Z.ones 32). rewrite Z.land_ones, Z.shiftr_div_pow2 by lia.
  rewrite lor_shiftl_add by (lia || apply u32_range).
  replace (_ + _) with (u64 v); [apply takes_ret|]. unfold u32, u64.
  rewrite !Z.mod_mod by lia. change (2 ^ 64) with (2 ^ 32 * 2 ^ 32).
  rewrite (Z.rem_mul_r v (2 ^ 32) (2 ^ 32)) by lia. lia.
Qed.

(** Discarding a row of fields of one width. *)
Lemma takes_times (pop : M ByteStream Z) (w : nat) (f : Z -> Z) vs :
  (forall v, takes pop (le_bytes w v) (f v)) ->
  takes (pop_times (length vs) pop) (concat (le_bytes w <$> vs)) tt.
Proof.
  intros Hp. induction vs as [|v vs IH]; [apply takes_ret|].
  cbn [length pop_times fmap list_fmap concat]. eapply takes_bind; [apply Hp|exact IH].
Qed.

Lemma takes_status s : takes pop_status (status_bytes s) (u8 (sp_phase s)).
Proof.
  unfold pop_status, status_bytes. do 2 (eapply takes_bind; [apply takes_byte|]).
  eapply takes_bind; [apply takes_u16|]. eapply takes_bind; [apply takes_u32|].
  eapply takes_last; [eapply takes_bind; [apply takes_u32|apply takes_ret]|apply app_nil_r].
Qed.

Lemma takes_pair rp : pair_wf rp -> takes pop_pair (pair_bytes rp) rp.
Proof.
  destruct rp as [[ib io] [ob oo]]. intros [[Hib Hio] [Hob Hoo]]. simpl in *.
  unfold pop_pair, pair_bytes, tid_bytes. simpl inner_tid. simpl outer_tid. rewrite <- app_assoc.
  eapply takes_bind; [apply takes_u32|]. eapply takes_bind; [apply takes_u16|].
  eapply takes_bind; [apply takes_u32|].
  eapply takes_last; [eapply takes_bind; [apply takes_u16|]|apply app_nil_r].
  rewrite !u32_small, !u16_small by done. apply takes_ret.
Qed.

Lemma takes_assoc {A} (n : M ByteStream Z) (m : M ByteStream unit) (k : unit -> M ByteStream A) bs a :
  takes (n ≫= fun _ => m ≫= k) bs a -> takes ((n ≫= fun _ => m) ≫= k) bs a.
Proof.
  intros H s rest Hs. specialize (H s rest Hs). revert H. unfold mbind, M_bind.
  by destruct (n (s ++ rest)).
Qed.

Lemma takes_skip {A} (k : unit -> M ByteStream A) bs a :
  takes (k tt) bs a -> takes (mret tt ≫= k) bs a.
Proof. done. Qed.

Lemma takes_timing t : tm_version t = TIMING_SUMMARY_VERSION ->
  takes pop_timing (timing_bytes t) TIMING_SUMMARY_VERSION.
Proof.
  intros Hv. unfold pop_timing, timing_bytes. rewrite Hv. cbn [pop_times].
  repeat first
  [ apply takes_assoc
  | eapply takes_bind; [first [apply takes_u32|apply takes_u64|apply takes_u16]|]
  | apply takes_skip ].
  eapply takes_last; [eapply takes_bind; [apply takes_u32|apply takes_ret]|apply app_nil_r].
Qed.

(** What draining one frame adds to the tally. *)
Definition drained1 (r : TxDrainResult) (f : fp_frame) : TxDrainResult :=
  match f with
  | FAck _ => r <| dr_ack_count ::= add32 1 |>
  | FResult ps => r <| dr_results ::= (fun l => l ++ ps) |>
                    <| dr_result_count ::= add32 (Z.of_nat (length ps)) |>
  | FStatus s => if u8 (sp_phase s) =? phase_code PHASE_DONE then r <| dr_got_done := true |> else r
  | FTiming _ => r <| dr_timing_count ::= add32 1 |>
  | FError _ | FDebug _ _ _ => r
  end.

(** The frames the bench can decode: every one but DEBUG, within the field widths. *)
Definition drainable (f : fp_frame) : Prop :=
  match f with
  | FResult ps => Z.of_nat (length ps) <= 65535 /\ Forall pair_wf ps
  | FDebug _ _ _ => False
  | FTiming t => tm_version t = TIMING_SUMMARY_VERSION
  | _ => True
  end.

Lemma add32_add32 n m x : add32 n (add32 m x) = add32 (m + n) x.
Proof. unfold add32, u32. rewrite Z.add_mod_idemp_l by lia. f_equal. lia. Qed.

Lemma drained1_nil r : is_u32 (dr_result_count r) -> drained1 r (FResult []) = r.
Proof.
  destruct r as [a n c d l]. intros Hn. cbn in Hn. unfold drained1. rcbn. rewrite app_nil_r.
  f_equal. unfold add32. by rewrite Z.add_0_r, u32_small.
Qed.

Lemma drained1_cons r rp ps :
  drained1 (r <| dr_results ::= (fun l => l ++ [rp]) |> <| dr_result_count ::= add32 1 |>) (FResult ps) =
  drained1 r (FResult (rp :: ps)).
Proof.
  destruct r as [a n c d l]. unfold drained1. rcbn. rewrite <- app_assoc, add32_add32.
  by replace (1 + Z.of_nat (length ps)) with (Z.of_nat (S (length ps))) by lia.
Qed.

Lemma takes_results ps : forall r,
  Forall pair_wf ps -> is_u32 (dr_result_count r) ->
  takes (drain_results (length ps) r) (concat (pair_bytes <$> ps)) (drained1 r (FResult ps)).
Proof.
  induction ps as [|rp ps IH]; intros r Hps Hn.
  - rewrite drained1_nil by done. apply takes_ret.
  - apply Forall_cons in Hps as [Hrp Hps]. rewrite <- drained1_cons.
    cbn [length drain_results fmap list_fmap concat]. eapply takes_bind; [by apply takes_pair|].
    apply IH; [done|]. apply u32_range.
Qed.

Lemma drain_frame_takes f r :
  drainable f -> is_u32 (dr_result_count r) ->
  takes (drain_frame r) (fp_bytes f) (drained1 r f).
Proof.
  intros Hf Hr. unfold drain_frame, fp_bytes, header_bytes.
  destruct f as [ps|s|s|e|l c v|t]; simpl in Hf; try done;
    (apply takes_cons; [apply msg_code_byte|]); (eapply takes_bind; [apply takes_u16|]); codes.
  - destruct Hf as [Hl Hps]. rewrite u16_small, Nat2Z.id by (unfold is_u16; lia).
    by apply takes_results.
  - eapply takes_last; [eapply takes_bind; [apply takes_status|apply takes_ret]|apply app_nil_r].
  - rewrite <- (app_nil_r (status_bytes s)). eapply takes_bind; [apply takes_status|].
    unfold drained1. destruct (_ =? _); apply takes_ret.
  - apply (takes_bind _ _ [e] [] (u8 e)); [apply takes_byte|apply takes_ret].
  - apply takes_skip. rewrite <- (app_nil_r (timing_bytes t)). eapply takes_bind; [by apply takes_timing|].
    apply takes_skip, takes_ret.
Qed.

Lemma fp_bytes_cons f : exists b bs, fp_bytes f = b :: bs.
Proof. destruct f; eexists _, _; reflexivity. Qed.

Lemma drained1_range r f : is_u32 (dr_result_count r) -> is_u32 (dr_result_count (drained1 r f)).
Proof.
  intros Hr. destruct f; simpl; rcbn; try done.
  - apply u32_range.
  - by destruct (_ =? _).
Qed.

(** Every frame of a complete output is accounted for. *)
Lemma drain_loop_frames fs : forall n r,
  Forall drainable fs -> is_u32 (dr_result_count r) -> (length fs < n)%nat ->
  drain_loop n r (axis_frames fs) = Ret (foldl drained1 r fs) [].
Proof.
  induction fs as [|f fs IH]; intros n r Hf Hr Hn.
  - destruct n; [simpl in Hn; lia|done].
  - apply Forall_cons in Hf as [Hf Hfs]. destruct n as [|n]; [simpl in Hn; lia|].
    unfold axis_frames. cbn [fmap list_fmap concat]. fold (axis_frames fs).
    pose proof (axis_data true (fp_bytes f)) as Hd. fold (axis_frame f) in Hd.
    destruct (axis_frame f) as [|b s] eqn:Ef.
    { destruct (fp_bytes_cons f) as (b & bs & Hb). by rewrite Hb in Hd. }
    cbn [drain_loop]. unfold mget. erewrite bind_Ret by reflexivity. cbn beta iota.
    change ((b :: s) ++ axis_frames fs) with (b :: (s ++ axis_frames fs)). cbn iota.
    change (b :: (s ++ axis_frames fs)) with ((b :: s) ++ axis_frames fs).
    run (drain_frame_takes f r Hf Hr (b :: s)).
    apply IH; [done|by apply drained1_range|simpl in Hn; lia].
Qed.

Lemma add32_0 x : is_u32 x -> add32 0 x = x.
Proof. intros. unfold add32. by rewrite Z.add_0_r, u32_small. Qed.

(** The tally of frames in progress: acknowledgements and results. *)
Lemma drained_progress ps : forall a n c d l,
  Forall (progress_frame false) ps -> is_u32 a -> is_u32 n ->
  foldl drained1 (mkDrain a n c d l) ps =
  mkDrain (add32 (count_frames is_ack ps) a) (add32 (Z.of_nat (length (results_of ps))) n) c d
    (l ++ results_of ps).
Proof.
  induction ps as [|f ps IH]; intros a n c d l Hp Ha Hn.
  - simpl. by rewrite !add32_0, app_nil_r.
  - apply Forall_cons in Hp as [Hf Hp]. unfold results_of. cbn [fmap list_fmap concat].
    fold (results_of ps). destruct f as [rs|s|s|e|lv cd v|t]; simpl in Hf; try naive_solver.
    + change (foldl _ _ (_ :: ps)) with
        (foldl drained1 (mkDrain a (add32 (Z.of_nat (length rs)) n) c d (l ++ rs)) ps).
      rewrite IH by (done || apply u32_range). simpl frame_pairs.
      rewrite add32_add32, length_app, <- app_assoc, <- Nat2Z.inj_add. done.
    + change (foldl _ _ (_ :: ps)) with (foldl drained1 (mkDrain (add32 1 a) n c d l) ps).
      rewrite IH by (done || apply u32_range). rewrite add32_add32. done.
Qed.

(** Result frames are not empty, so there are at most as many as result pairs. *)
Lemma progress_length ps :
  Forall (progress_frame false) ps ->
  Z.of_nat (length ps) <= count_frames is_ack ps + Z.of_nat (length (results_of ps)).
Proof.
  induction 1 as [|f ps Hf _ IH]; [done|]. unfold results_of. cbn [fmap list_fmap concat length].
  fold (results_of ps). rewrite length_app.
  destruct f; simpl in *; try naive_solver; try lia.
Qed.

Lemma acks_nonneg fs : 0 <= count_frames is_ack fs.
Proof. induction fs as [|f fs IH]; simpl; [lia|]. destruct (is_ack f); lia. Qed.

Lemma progress_drainable ps :
  Forall (progress_frame false) ps -> Forall pair_wf (results_of ps) -> Forall drainable ps.
Proof.
  induction 1 as [|f ps Hf _ IH]; intros Hr; [done|]. unfold results_of in Hr.
  cbn [fmap list_fmap concat] in Hr. apply Forall_app in Hr as [Hr Hrs].
  constructor; [|by apply IH]. destruct f; simpl in *; try naive_solver.
  consts. split; [lia|done].
Qed.

(** ** Runs of the kernel *)

Definition at_once : nat -> Z := fun _ => 0.
Lemma timely_at_once : timely at_once.
Proof. intros i. unfold at_once, RX_WATCHDOG_CYCLES. lia. Qed.

(** From any state the session fed with [bs] joins to [rows], with at most [n]
    acknowledgements on the way. *)
Definition joins_on (bs : list Z) (n : Z) (rows : list ResultPair) : Prop :=
  forall k p mm, exists k' t ps s,
    talks at_once (session false tb_rtl k) bs (p, mm) k' (ps ++ [FTiming t; FStatus s])
      (done_regs p (Z.of_nat (length rows)), mm) /\
    Forall (progress_frame false) ps /\ results_of ps = rows /\
    tm_version t = TIMING_SUMMARY_VERSION /\ sp_phase s = phase_code PHASE_DONE /\
    count_frames is_ack ps <= n.

Lemma request_joins_on c ins outs :
  request_ok c ins outs ->
  joins_on (request_bytes c ins outs) (1 + Z.of_nat (length ins) + Z.of_nat (length outs))
    (hash_join (concat ins) (concat outs)).
Proof.
  intros Hrq k p mm.
  destruct (session_joins at_once timely_at_once false tb_rtl c ins outs k p mm Hrq)
    as (k' & t & ps & Hr & Hps & Hres & _ & Hty & Ha).
  eexists k', t, ps, _. split_and!; [exact Hr|done|done|apply Hty|done|done].
Qed.

(** An empty OUTER_DATA frame ends the probe phase early. *)
Lemma end_marker_joins_on c ins outs :
  partial_probe c ins outs ->
  joins_on (request_bytes c ins outs ++ pg_bytes (cp_key_type c) (POuter []))
    (1 + Z.of_nat (length ins) + Z.of_nat (length outs)) (hash_join (concat ins) (concat outs)).
Proof.
  intros Hpp k p mm. pose proof (pp_more _ _ _ Hpp) as Hmore.
  assert (cp_outer_count c < 2 ^ 32) as Hoc by (apply Hpp).
  destruct (session_probing at_once timely_at_once false tb_rtl c ins outs k p mm Hpp)
    as (k1 & pend & m & fs & rxb & Hl & Hp & Hpb & Ha).
  destruct (probe_loop_done at_once timely_at_once false tb_rtl _ _ _ _ _ _
    (Z.of_nat (length (concat ins))) _ [] _ _ k1 pend (probing_regs (build_phase_regs p c)) mm m
    Hpb) as (k2 & t & rs & Hr & Hsd & Hrs & Hres & _ & Hty); [by split|done|by left|].
  rewrite take_nil, app_nil_r in Hr, Hres, Hty. rewrite app_assoc in Hres, Hty.
  eexists k2, t, (fs ++ rs), _. split_and!.
  - rewrite <- app_assoc. eapply leads_talks; [exact Hl|]. unfold session_end.
    eapply talks_eq; [eapply talks_bind; [exact Hr|]|apply app_nil_r|apply app_nil_r].
    cbn beta. rewrite Hsd. apply talks_ret.
  - apply Forall_app_2; [done|by apply batch_progress].
  - rewrite results_of_app in Hres. unfold results_of at 2 in Hres. simpl in Hres.
    by rewrite app_nil_r in Hres.
  - apply Hty.
  - done.
  - rewrite count_frames_app, (acks_batch false rs) by done. lia.
Qed.

(** The capacity registers the kernel publishes first. *)
Definition published (p : regs) : regs :=
  p <| ht_capacity_reg := HT_MAX_ROWS |> <| rx_buf_cap_reg := RX_CREDIT_TUPLES |>.

(** A session started by the bench. *)
Lemma run_kernel_talks p rx t k fs q :
  talks at_once (session false tb_rtl (tb_kernel t)) (ax_data <$> rx)
    (published p, g_sim_ddr2 t) k fs (q, g_sim_ddr2 t) ->
  run_kernel p rx [] t = Ret (axis_frames fs, q) (t <| tb_kernel := k |>).
Proof.
  intros Hr.
  assert (talks at_once (session_loop false tb_rtl 1 (tb_kernel t)) (ax_data <$> rx)
    (published p, g_sim_ddr2 t) k fs (q, g_sim_ddr2 t)) as Hl.
  { eapply talks_eq; [eapply talks_bind; [exact Hr|apply talks_ret]|apply app_nil_r..]. }
  specialize (Hl 0%nat [] [] []). rewrite app_nil_r in Hl.
  assert (hash_join_kernel false tb_rtl 1 (tb_kernel t) (mkDev (stimulus rx) [] p (g_sim_ddr2 t)) =
    Ret k (mkDev [] (axis_frames fs) q (g_sim_ddr2 t))) as E by exact Hl.
  unfold run_kernel. rewrite E. by destruct t.
Qed.

(** What the bench sees of a session that joins to [rows]. *)
Lemma run_joins p rx t n rows :
  joins_on (ax_data <$> rx) n rows -> Forall pair_wf rows ->
  n + Z.of_nat (length rows) + 2 < 10000 ->
  exists k fs acks,
    run_kernel p rx [] t =
      Ret (axis_frames fs, done_regs (published p) (Z.of_nat (length rows)))
          (t <| tb_kernel := k |>) /\
    drain_tx (axis_frames fs) =
      Ret (mkDrain acks (Z.of_nat (length rows)) 1 true rows) [] /\
    0 <= acks <= n.
Proof.
  intros Hj Hwf Hn.
  destruct (Hj (tb_kernel t) (published p) (g_sim_ddr2 t))
    as (k & tm & ps & s & Hr & Hps & Hres & Hv & Hph & Ha).
  pose proof (progress_length _ Hps) as Hl. pose proof (acks_nonneg ps) as H0. rewrite Hres in Hl.
  exists k, (ps ++ [FTiming tm; FStatus s]), (count_frames is_ack ps).
  split_and!; [by apply run_kernel_talks| |lia..].
  unfold drain_tx. rewrite drain_loop_frames.
  - f_equal. unfold drain0. rewrite foldl_app, drained_progress, Hres by (done || unfold is_u32; lia).
    simpl foldl. unfold drained1. rewrite Hph. rcbn. unfold add32.
    by rewrite !u32_small by (unfold is_u32; lia).
  - apply Forall_app_2; [apply progress_drainable; [done|by rewrite Hres]|repeat constructor; done].
  - done.
  - rewrite length_app. simpl length. lia.
Qed.

(** ** Requests built by the senders *)

Definition send_request (c : ConfigurePayload) (ins outs : list (list Tuple)) : ByteStream :=
  foldl send_outer_data
    (foldl send_inner_data
       (send_configure [] (cp_algorithm c) (cp_key_type c) (cp_rx_buf_slots c) (cp_inner_count c)
          (cp_outer_count c) (cp_session_id c)) ins) outs.

Lemma send_inner_data_all ins : forall rx,
  Forall (frame_ok 1) ins -> Forall (.≠ []) ins ->
  ax_data <$> foldl send_inner_data rx ins = (ax_data <$> rx) ++ inner_bytes 1 ins.
Proof.
  induction ins as [|ts ins IH]; intros rx Hok Hne; [by rewrite app_nil_r|].
  apply Forall_cons in Hok as [[Hl _] Hok], Hne as [Hn Hne]. consts.
  cbn [foldl]. rewrite IH, send_inner_axis, fmap_app, axis_data by (done || lia).
  unfold inner_bytes. cbn [fmap list_fmap concat]. by rewrite <- app_assoc.
Qed.

Lemma send_outer_data_all outs : forall rx,
  Forall (frame_ok 1) outs ->
  ax_data <$> foldl send_outer_data rx outs = (ax_data <$> rx) ++ outer_bytes 1 outs.
Proof.
  induction outs as [|ts outs IH]; intros rx Hok; [by rewrite app_nil_r|].
  apply Forall_cons in Hok as [[Hl _] Hok]. consts.
  cbn [foldl]. rewrite IH, send_outer_axis, fmap_app, axis_data by (done || lia).
  unfold outer_bytes. cbn [fmap list_fmap concat]. by rewrite <- app_assoc.
Qed.

Lemma send_request_data c ins outs :
  configure_wf c -> cp_key_type c = key_code KEY_INT32 ->
  Forall (frame_ok 1) ins -> Forall (.≠ []) ins -> Forall (frame_ok 1) outs ->
  ax_data <$> send_request c ins outs = request_bytes c ins outs.
Proof.
  intros (Ha & Hk & _ & _ & _ & Hs) Hkt Hi Hn Ho. unfold send_request, request_bytes.
  rewrite send_outer_data_all, send_inner_data_all, send_configure_axis by done.
  rewrite fmap_app, axis_data, Hkt, <- app_assoc. by destruct c; simpl in Hkt; subst.
Qed.

Lemma hash_join_rows_wf c ins outs :
  Forall (frame_ok c) ins -> Forall (frame_ok c) outs ->
  Forall pair_wf (hash_join (concat ins) (concat outs)).
Proof.
  assert (forall cs, Forall (frame_ok c) cs -> Forall (tuple_wf c) (concat cs)) as Hc.
  { induction 1 as [|ts cs [_ Hts] _ IH]; [constructor|]. by apply Forall_app_2. }
  intros Hi Ho. eapply hash_join_wf; by apply Hc.
Qed.

(** ** The tests of algorithm A *)

(** From any state the test ends normally and prints [lines]. *)
Definition passes (m : M tb unit) (lines : list string) : Prop :=
  forall t, exists t', m t = Ret tt t' /\ tb_out t' = tb_out t ++ lines.

Lemma passes_seq m m' l l' : passes m l -> passes m' l' -> passes (m ;; m') (l ++ l').
Proof.
  intros Hm Hm' t. destruct (Hm t) as (t1 & H1 & O1). destruct (Hm' t1) as (t2 & H2 & O2).
  exists t2. split; [by run H1|]. by rewrite O2, O1, app_assoc.
Qed.

(** A test that prints its name, runs the kernel once and checks the outcome. *)
Lemma passes_run p name rx n rows line (body : ByteStream * regs -> M tb unit) :
  joins_on (ax_data <$> rx) n rows -> Forall pair_wf rows ->
  n + Z.of_nat (length rows) + 2 < 10000 ->
  (forall tx acks t,
     drain_tx tx = Ret (mkDrain acks (Z.of_nat (length rows)) 1 true rows) [] ->
     body (tx, done_regs (published p) (Z.of_nat (length rows))) t = say line t) ->
  passes (say name ;; (run_kernel p rx [] ≫= body)) [name; line].
Proof.
  intros Hj Hwf Hn Hb t.
  destruct (run_joins p rx (t <| tb_out ::= (fun l => l ++ [name]) |>) n rows Hj Hwf Hn)
    as (k & fs & acks & Hr & Hd & _).
  eexists. split.
  - erewrite bind_Ret by reflexivity. run Hr. by eapply Hb.
  - destruct t as [k0 m0 l]. rcbn. by rewrite <- app_assoc.
Qed.

(** The checks after the run, with the output drained. *)
Ltac checked :=
  intros tx acks t Hd;
  unfold expect_regs, from_tx; cbn beta iota zeta; unfold mbind, M_bind; rewrite Hd; reflexivity.

(** The request of a test. *)
Ltac by_request c ins outs :=
  change (ax_data <$> _) with (ax_data <$> send_request c ins outs);
  rewrite (send_request_data c ins outs) by first [done | repeat constructor; done];
  apply request_joins_on; constructor; try (by apply table_accepts_small);
  try (repeat constructor; done).

Lemma test_simple_join_passes p :
  passes (test_simple_join p) ["[TC-1] simple_join ... "; "PASS (matches=2)"].
Proof.
  unfold test_simple_join. cbn zeta.
  eapply (passes_run _ _ _ 3 [mkPair (mkTid 10 1) (mkTid 100 1); mkPair (mkTid 30 1) (mkTid 102 1)]).
  - by_request (mkConfigure 0 1 256 3 4 1)
      [[mkTuple 10 (mkTid 10 1); mkTuple 20 (mkTid 20 1); mkTuple 30 (mkTid 30 1)]]
      [[mkTuple 10 (mkTid 100 1); mkTuple 25 (mkTid 101 1); mkTuple 30 (mkTid 102 1);
        mkTuple 40 (mkTid 103 1)]].
  - repeat constructor; done.
  - done.
  - checked.
Qed.

Lemma test_no_match_passes p : passes (test_no_match p) ["[TC-2] no_match ... "; "PASS"].
Proof.
  unfold test_no_match. cbn zeta. eapply (passes_run _ _ _ 3 []).
  - by_request (mkConfigure 0 1 256 2 2 1) [[mkTuple 1 (mkTid 1 1); mkTuple 2 (mkTid 2 1)]]
      [[mkTuple 3 (mkTid 3 1); mkTuple 4 (mkTid 4 1)]].
  - constructor.
  - done.
  - checked.
Qed.

Lemma test_empty_inner_passes p : passes (test_empty_inner p) ["[TC-3] empty_inner ... "; "PASS"].
Proof.
  unfold test_empty_inner. cbn zeta. eapply (passes_run _ _ _ 2 []).
  - by_request (mkConfigure 0 1 256 0 3 1) (@nil (list Tuple))
      [[mkTuple 5 (mkTid 5 1); mkTuple 6 (mkTid 6 1); mkTuple 7 (mkTid 7 1)]].
  - constructor.
  - done.
  - checked.
Qed.

Lemma test_empty_outer_passes p : passes (test_empty_outer p) ["[TC-4] empty_outer ... "; "PASS"].
Proof.
  unfold test_empty_outer. cbn zeta. eapply (passes_run _ _ _ 2 []).
  - by_request (mkConfigure 0 1 256 2 0 1) [[mkTuple 1 (mkTid 1 1); mkTuple 2 (mkTid 2 1)]]
      (@nil (list Tuple)).
  - constructor.
  - done.
  - checked.
Qed.

Lemma test_all_match_passes p : passes (test_all_match p) ["[TC-7] all_match ... "; "PASS (matches=8)"].
Proof.
  unfold test_all_match. cbn zeta.
  eapply (passes_run _ _ _ 3 ((fun i => mkPair (mkTid (Z.of_nat i + 1) 1) (mkTid (Z.of_nat i + 100) 1))
                                <$> seq 0 8)).
  - by_request (mkConfigure 0 1 256 8 8 1)
      [(fun i => mkTuple (Z.of_nat i + 1) (mkTid (u32 (Z.of_nat i + 1)) 1)) <$> seq 0 8]
      [(fun i => mkTuple (Z.of_nat i + 1) (mkTid (u32 (Z.of_nat i + 100)) 1)) <$> seq 0 8].
  - repeat constructor; done.
  - done.
  - checked.
Qed.

Lemma test_explicit_probe_end_marker_passes p :
  passes (test_explicit_probe_end_marker p) ["[TC-8] explicit_probe_end_marker ... "; "PASS"].
Proof.
  unfold test_explicit_probe_end_marker. cbn zeta.
  set (c := mkConfigure 0 1 256 3 1024 1).
  set (ins := [[mkTuple 10 (mkTid 1 1); mkTuple 20 (mkTid 1 2); mkTuple 30 (mkTid 1 3)]]).
  set (outs := [[mkTuple 99 (mkTid 2 1); mkTuple 20 (mkTid 2 2); mkTuple 10 (mkTid 2 3)]]).
  eapply (passes_run _ _ _ 3 [mkPair (mkTid 1 2) (mkTid 2 2); mkPair (mkTid 1 1) (mkTid 2 3)]).
  - change (ax_data <$> _) with (ax_data <$> send_outer_data (send_request c ins outs) []).
    rewrite send_outer_axis, fmap_app, axis_data, send_request_data
      by first [done | repeat constructor; done].
    apply end_marker_joins_on; constructor; try (by apply table_accepts_small);
      try (repeat constructor; done).
  - repeat constructor; done.
  - done.
  - checked.
Qed.

Lemma test_overflow_detection_passes p :
  passes (test_overflow_detection p) ["[TC-5] overflow_detection ... "; "PASS"].
Proof.
  intros t. unfold test_overflow_detection. cbn zeta.
  set (t1 := t <| tb_out ::= (fun l => l ++ ["[TC-5] overflow_detection ... "]) |>).
  set (c := mkConfigure 0 1 256 (HT_MAX_ROWS + 1) 0 1).
  destruct (configure_refused at_once false tb_rtl c ERR_OVERFLOW (tb_kernel t1) (published p)
    (g_sim_ddr2 t1) timely_at_once) as [k Hr]; [repeat split; done|by left|].
  eexists. split.
  - erewrite bind_Ret by reflexivity. fold t1.
    erewrite bind_Ret; [|apply run_kernel_talks;
      rewrite send_configure_axis, fmap_app, axis_data by done; exact Hr].
    reflexivity.
  - destruct t as [k0 m0 l]. unfold t1. rcbn. by rewrite <- app_assoc.
Qed.

Lemma test_reset_before_configure_passes p :
  passes (test_reset_before_configure p) ["[TC-6] reset_before_configure ... "; "PASS"].
Proof.
  intros t. unfold test_reset_before_configure. cbn zeta.
  set (t1 := t <| tb_out ::= (fun l => l ++ ["[TC-6] reset_before_configure ... "]) |>).
  destruct (configure_reset at_once false tb_rtl (tb_kernel t1) (published p)
    (g_sim_ddr2 t1) timely_at_once) as [k Hr].
  eexists. split.
  - erewrite bind_Ret by reflexivity. fold t1.
    erewrite bind_Ret; [|apply run_kernel_talks; exact Hr].
    cbn beta iota. erewrite bind_Ret by reflexivity. erewrite bind_Ret by reflexivity.
    unfold from_tx. erewrite bind_Ret; [|unfold drain_tx; rewrite drain_loop_frames;
      [reflexivity|repeat constructor|done|simpl length; lia]]. reflexivity.
  - destruct t as [k0 m0 l]. unfold t1. rcbn. by rewrite <- app_assoc.
Qed.

(** ** Properties *)

(** What the bench reads after a run: output variables and drained frames. *)
Definition run_and_drain (p : regs) (rx : ByteStream) : M tb (regs * TxDrainResult) :=
  '(tx, q) ← run_kernel p rx []; '(dr, _) ← from_tx tx drain_tx; mret (q, dr).

(** C13: for any correct algorithm-A request with 32-bit keys and fewer than about ten
    thousand result pairs and frames, built by the bench's senders, the run of the
    kernel followed by [drain_tx] recovers exactly the equi-join of the rows sent,
    in outer order, one TIMING frame, STATUS(DONE) and at most one ACK per frame
    sent; the output variables report DONE, the match count and no error,
    whatever earlier tests left in the kernel. *)
Theorem bench_recovers_join (p : regs) (t : tb) (c : ConfigurePayload) (ins outs : list (list Tuple)) :
  let rows := nested_join (concat ins) (concat outs) in
  let frames := 1 + Z.of_nat (length ins) + Z.of_nat (length outs) in
  request_ok c ins outs -> cp_key_type c = key_code KEY_INT32 -> keys_unique (concat ins) ->
  frames + Z.of_nat (length rows) + 2 < 10000 ->
  exists k acks,
    run_and_drain p (send_request c ins outs) t =
      Ret (done_regs (published p) (Z.of_nat (length rows)),
           mkDrain acks (Z.of_nat (length rows)) 1 true rows) (t <| tb_kernel := k |>) /\
    0 <= acks <= frames.
Proof.
  intros rows frames Hrq Hkt Hu Hn. unfold rows in *. rewrite <- hash_join_nested in * by done.
  pose proof Hrq as [Hwf _ Hi Hine Ho _ _ _ _ _]. rewrite Hkt in Hi, Ho.
  assert (joins_on (ax_data <$> send_request c ins outs) frames
    (hash_join (concat ins) (concat outs))) as Hj
    by (rewrite send_request_data by done; by apply request_joins_on).
  destruct (run_joins p _ t _ _ Hj (hash_join_rows_wf _ _ _ Hi Ho) Hn) as (k & fs & acks & Hr & Hd & Ha).
  exists k, acks. split; [|done]. unfold run_and_drain. run Hr.
  unfold from_tx. erewrite bind_Ret; [|by rewrite Hd]. done.
Qed.

Lemma bench_recovers_join_witness :
  exists k acks,
    run_and_drain (mkRegs 9 9 9 9 9) (send_request (mkConfigure 0 1 512 2 3 7)
       [[mkTuple 5 (mkTid 10 1); mkTuple (-6) (mkTid 11 1)]]
       [[mkTuple 5 (mkTid 20 1); mkTuple 9 (mkTid 21 1)]; [mkTuple (-6) (mkTid 22 1)]])
      (mkTb kst_static ∅ []) =
      Ret (done_regs (published (mkRegs 9 9 9 9 9)) 2,
           mkDrain acks 2 1 true
             [mkPair (mkTid 10 1) (mkTid 20 1); mkPair (mkTid 11 1) (mkTid 22 1)])
          ((mkTb kst_static ∅ []) <| tb_kernel := k |>) /\
    0 <= acks <= 4.
Proof.
  apply (bench_recovers_join (mkRegs 9 9 9 9 9) (mkTb kst_static ∅ []) (mkConfigure 0 1 512 2 3 7)
    [[mkTuple 5 (mkTid 10 1); mkTuple (-6) (mkTid 11 1)]]
    [[mkTuple 5 (mkTid 20 1); mkTuple 9 (mkTid 21 1)]; [mkTuple (-6) (mkTid 22 1)]]).
  - exact (proj1 example_request_ok).
  - done.
  - exact (proj2 example_request_ok).
  - done.
Defined.

(** C37: the eight tests of algorithm A and of the session protocol pass, in the order
    of [main] and whatever the state of the kernel before them: no assertion
    fails, no read blocks, and each prints its PASS line. *)
Theorem linear_tests_pass (p : regs) (t : tb) :
  exists t', linear_tests p t = Ret tt t' /\
    tb_out t' = tb_out t ++
      ["[TC-1] simple_join ... "; "PASS (matches=2)"; "[TC-2] no_match ... "; "PASS";
       "[TC-3] empty_inner ... "; "PASS"; "[TC-4] empty_outer ... "; "PASS";
       "[TC-5] overflow_detection ... "; "PASS"; "[TC-6] reset_before_configure ... "; "PASS";
       "[TC-7] all_match ... "; "PASS (matches=8)";
       "[TC-8] explicit_probe_end_marker ... "; "PASS"].
Proof.
  unfold linear_tests. revert t.
  apply (passes_seq _ _ _ _ (test_simple_join_passes p)), (passes_seq _ _ _ _ (test_no_match_passes p)),
    (passes_seq _ _ _ _ (test_empty_inner_passes p)), (passes_seq _ _ _ _ (test_empty_outer_passes p)),
    (passes_seq _ _ _ _ (test_overflow_detection_passes p)),
    (passes_seq _ _ _ _ (test_reset_before_configure_passes p)),
    (passes_seq _ _ _ _ (test_all_match_passes p)).
  apply test_explicit_probe_end_marker_passes.
Qed.
