(* ===== verification/SoftwareKernel.v ===== *)
(** The software stand-in for the board, [host/demo/software_kernel.hpp], which
    the adapter uses in simulation mode.

    It is a transport: [send] takes one request frame and queues the replies,
    [recv] hands them out.  Bytes are read through a pointer, so a frame that is
    shorter than its header announces is an access outside an array
    ([ArrayOverrun]). *)
From S2P Require Import Prelude Types LinearHashTable Stream Wire Dialogue Join Grace Kernel Transport Serializer Decoder.
From S2P Require Import Protocol Client ClientJoin.

Record SoftwareKernel := mkSoftwareKernel {
  sk_key_type : Z;
  n_matched : Z;
  n_processed : Z;
  sk_outer_total : Z;
  sk_session_id : Z;
  sk_ht : gmap Z Tid;
  resp_queue : list (list Z);
  out_buf : list Z;
  all_sent : list Z }.
Definition software_kernel0 : SoftwareKernel :=
  mkSoftwareKernel (key_code KEY_INT32) 0 0 0 0 ∅ [] [] [].

(** ** Byte helpers *)

Definition push_u16 (v : list Z) (x : Z) : list Z := v ++ [u8 x] ++ [u8 (Z.shiftr x 8)].
Definition push_u32 (v : list Z) (x : Z) : list Z :=
  v ++ [u8 x] ++ [u8 (Z.shiftr x 8)] ++ [u8 (Z.shiftr x 16)] ++ [u8 (Z.shiftr x 24)].

Definition sk_key_bytes (k : SoftwareKernel) : nat :=
  if sk_key_type k =? key_code KEY_INT32 then 4 else 8.
Definition tuple_stride (k : SoftwareKernel) : nat := (sk_key_bytes k + 6)%nat.

Definition sk_read_key (k : SoftwareKernel) (p : list Z) : Z :=
  if sk_key_type k =? key_code KEY_INT32 then
    i32 (Z.lor (Z.lor (Z.lor (at_byte p 0) (Z.shiftl (at_byte p 1) 8))
                 (Z.shiftl (at_byte p 2) 16)) (Z.shiftl (at_byte p 3) 24))
  else
    i64 (foldl (fun u i => Z.lor u (Z.shiftl (at_byte p i) (8 * Z.of_nat i))) 0 (seq 0 8)).

Definition sk_read_u32 (p : list Z) : Z :=
  Z.lor (Z.lor (Z.lor (at_byte p 0) (Z.shiftl (at_byte p 1) 8)) (Z.shiftl (at_byte p 2) 16))
    (Z.shiftl (at_byte p 3) 24).

Definition sk_read_tid (p : list Z) : Tid :=
  mkTid (sk_read_u32 p) (Z.lor (at_byte p 4) (u16 (Z.shiftl (at_byte p 5) 8))).

(** ** Frame builders *)

Definition push_ack (phase : Phase) (credit processed matched : Z) (k : SoftwareKernel)
  : SoftwareKernel :=
  let f := [msg_code MSG_ACK] in
  let f := push_u16 f 1 in
  let f := f ++ [u8 (phase_code phase)] in
  let f := f ++ [sk_session_id k] in
  let f := push_u16 f credit in
  let f := push_u32 f processed in
  let f := push_u32 f matched in
  k <| resp_queue ::= (fun q => q ++ [f]) |>.

Definition push_pair (f : list Z) (r : ResultPair) : list Z :=
  let f := push_u32 f (blkno (inner_tid r)) in
  let f := push_u16 f (offno (inner_tid r)) in
  let f := push_u32 f (blkno (outer_tid r)) in
  push_u16 f (offno (outer_tid r)).

Definition push_result (pairs : list ResultPair) (k : SoftwareKernel) : SoftwareKernel :=
  let f := push_u16 [msg_code MSG_RESULT] (u16 (Z.of_nat (length pairs))) in
  k <| resp_queue ::= (fun q => q ++ [foldl push_pair f pairs]) |>.

(** ** Handlers *)

Definition on_configure (p : list Z) : H SoftwareKernel unit := fun k =>
  if (length p <? 13)%nat then Throw ArrayOverrun k
  else Done tt
    (push_ack PHASE_BUILDING RX_CREDIT_TUPLES 0 0
       (k <| sk_key_type := at_byte p 1 |> <| n_matched := 0 |> <| n_processed := 0 |>
          <| sk_outer_total := sk_read_u32 (drop 8 p) |> <| sk_session_id := at_byte p 12 |>
          <| sk_ht := ∅ |>)).

(** The loop of [on_inner]; [i] rounds are left. *)
Fixpoint sk_inner_rows (i : nat) (p : list Z) (k : SoftwareKernel) : SoftwareKernel :=
  match i with
  | O => k
  | S i =>
      let key := sk_read_key k p in
      let tid := sk_read_tid (drop (sk_key_bytes k) p) in
      sk_inner_rows i (drop (tuple_stride k) p) (k <| sk_ht ::= <[key := tid]> |>)
  end.

Definition on_inner (count : Z) (p : list Z) : H SoftwareKernel unit := fun k =>
  if (length p <? Z.to_nat count * tuple_stride k)%nat then Throw ArrayOverrun k
  else Done tt (push_ack PHASE_BUILDING RX_CREDIT_TUPLES 0 0 (sk_inner_rows (Z.to_nat count) p k)).

Fixpoint sk_outer_rows (i : nat) (p : list Z) (ms : list ResultPair) (k : SoftwareKernel)
  : list ResultPair * SoftwareKernel :=
  match i with
  | O => (ms, k)
  | S i =>
      let key := sk_read_key k p in
      let outer_tid := sk_read_tid (drop (sk_key_bytes k) p) in
      let '(ms, k) :=
        match sk_ht k !! key with
        | Some inner => (ms ++ [mkPair inner outer_tid], k <| n_matched ::= (fun n => u32 (n + 1)) |>)
        | None => (ms, k)
        end in
      sk_outer_rows i (drop (tuple_stride k) p) ms (k <| n_processed ::= (fun n => u32 (n + 1)) |>)
  end.

Definition on_outer (count : Z) (p : list Z) : H SoftwareKernel unit := fun k =>
  if (length p <? Z.to_nat count * tuple_stride k)%nat then Throw ArrayOverrun k
  else
    let '(ms, k) := sk_outer_rows (Z.to_nat count) p [] k in
    let k := match ms with [] => k | _ => push_result ms k end in
    let credit := if sk_outer_total k <=? n_processed k then 0 else RX_CREDIT_TUPLES in
    Done tt (push_ack PHASE_PROBING credit (n_processed k) (n_matched k) k).

Definition on_reset (emit_ack : bool) (k : SoftwareKernel) : SoftwareKernel :=
  let k := k <| sk_ht := ∅ |> <| resp_queue := [] |> <| out_buf := [] |> <| n_matched := 0 |>
             <| n_processed := 0 |> <| sk_outer_total := 0 |> <| sk_session_id := 0 |> in
  if emit_ack then push_ack PHASE_IDLE 0 0 0 k else k.

(** ** ITransport *)

Definition sk_send (data : list Z) : H SoftwareKernel unit :=
  hmodify (fun k => k <| all_sent ::= (fun s => s ++ data) |>) ;;
  if (length data <? 3)%nat then mret tt
  else
    let msg := at_byte data 0 in
    let n := Z.lor (at_byte data 1) (u16 (Z.shiftl (at_byte data 2) 8)) in
    let payload := drop 3 data in
    if msg =? msg_code MSG_CONFIGURE then on_configure payload
    else if msg =? msg_code MSG_INNER_DATA then on_inner n payload
    else if msg =? msg_code MSG_OUTER_DATA then on_outer n payload
    else if msg =? msg_code MSG_RESET then hmodify (on_reset true)
    else mret tt.

Definition sk_recv (max_len : nat) : H SoftwareKernel (list Z) := fun k =>
  match refill (out_buf k) (resp_queue k) with
  | None => Done [] (k <| out_buf := [] |> <| resp_queue := [] |>)
  | Some (buf, queue) =>
      let n := (max_len `min` length buf)%nat in
      Done (take n buf) (k <| out_buf := drop n buf |> <| resp_queue := queue |>)
  end.

Definition sk_reset : H SoftwareKernel unit := hmodify (on_reset false).

#[global] Instance software_kernel_transport : Transport SoftwareKernel := {
  send := sk_send; recv := sk_recv; treset := sk_reset }.

#[global] Program Instance sk_lawful : LawfulTransport SoftwareKernel := {
  incoming k := out_buf k ++ concat (resp_queue k) }.
Next Obligation.
  intros n k Hn. simpl. unfold sk_recv. destruct (refill _ _) as [[b q]|] eqn:He.
  - apply refill_some in He as [_ He]. split; [rewrite length_take; lia|].
    rcbn. by rewrite app_assoc, take_drop.
  - apply refill_none in He. rcbn. split; [lia|done].
Qed.

#[global] Instance sk_prompt : PromptTransport SoftwareKernel.
Proof.
  intros n k Hn. simpl in *. unfold sk_recv. destruct (refill _ _) as [[b q]|] eqn:He.
  - apply refill_some in He as [Hb _]. destruct b as [|x b], n as [|n]; try done; try lia.
    simpl. by eexists _, _.
  - apply refill_none in He. eauto.
Qed.

(** ** The handlers on well-formed frames *)

Lemma push_u16_bytes v x : push_u16 v x = v ++ le_bytes 2 x.
Proof. rewrite <- put_u16_bytes. unfold push_u16, put_u16. by rewrite <- !app_assoc. Qed.

Lemma push_u32_bytes v x : push_u32 v x = v ++ le_bytes 4 x.
Proof. rewrite <- put_u32_bytes. unfold push_u32, put_u32. by rewrite <- !app_assoc. Qed.

Lemma foldl_push_pair pairs f : foldl push_pair f pairs = f ++ concat (pair_bytes <$> pairs).
Proof.
  revert f. induction pairs as [|r pairs IH]; intros f; simpl; [by rewrite app_nil_r|].
  rewrite IH. unfold push_pair, pair_bytes, tid_bytes. rewrite !push_u32_bytes, !push_u16_bytes.
  by rewrite <- !app_assoc.
Qed.

Definition sk_ack (phase : Phase) (credit processed matched : Z) (k : SoftwareKernel) : fp_frame :=
  FAck (status_of phase processed matched credit (sk_session_id k)).

(** Queue the bytes of a frame. *)
Definition queue_frame (f : fp_frame) (k : SoftwareKernel) : SoftwareKernel :=
  k <| resp_queue ::= (fun q => q ++ [fp_bytes f]) |>.

Lemma push_ack_frame phase credit processed matched k :
  push_ack phase credit processed matched k = queue_frame (sk_ack phase credit processed matched k) k.
Proof.
  unfold push_ack, queue_frame. cbn [fp_bytes sk_ack].
  rewrite !push_u32_bytes, !push_u16_bytes.
  unfold u8. rewrite Z.mod_small by (destruct phase; simpl; lia). by rewrite <- !app_assoc.
Qed.

Lemma push_result_frame pairs k :
  Z.of_nat (length pairs) < 2 ^ 16 -> push_result pairs k = queue_frame (FResult pairs) k.
Proof.
  intros Hl. unfold push_result, queue_frame. rewrite foldl_push_pair, push_u16_bytes, u16_small; [done|].
  unfold is_u16. lia.
Qed.

Section rows.
Context (kt : Z) (known : known_key_type kt).

Lemma sk_read_row k t rest :
  sk_key_type k = kt -> tuple_wf kt t ->
  sk_read_key k (tuple_bytes kt t ++ rest) = key t /\
  sk_read_tid (drop (sk_key_bytes k) (tuple_bytes kt t ++ rest)) = tid t /\
  drop (tuple_stride k) (tuple_bytes kt t ++ rest) = rest.
Proof using known.
  intros Hk [Hkey Htid]. unfold sk_read_key, sk_key_bytes, tuple_stride, sk_key_bytes.
  unfold tuple_bytes, key_bytes, key_wf in *. rewrite Hk.
  assert (forall bs, sk_read_tid (tid_bytes (tid t) ++ bs) = tid t) as Ht
    by (intros bs; exact (read_tid_app (tid t) bs Htid)).
  destruct known as [-> | ->]; cbn [is_int64 key_code Z.eqb Pos.eqb] in *; rewrite <- !app_assoc.
  - split_and!.
    + transitivity (i32 (read_u32 (le_bytes 4 (key t) ++ tid_bytes (tid t) ++ rest))); [done|].
      by rewrite read_u32_app, i32_u32, i32_small.
    + by rewrite (drop_app_length' (le_bytes 4 _)).
    + rewrite app_assoc. by rewrite drop_app_length' by (rewrite length_app; done).
  - split_and!.
    + transitivity (i64 (read_u64 (le_bytes 8 (key t) ++ tid_bytes (tid t) ++ rest))); [done|].
      by rewrite read_u64_app, i64_u64, i64_small.
    + by rewrite (drop_app_length' (le_bytes 8 _)).
    + rewrite app_assoc. by rewrite drop_app_length' by (rewrite length_app; done).
Qed.

(** The table after a list of rows: the last row with a key wins. *)
Definition sk_table (m : gmap Z Tid) (ts : list Tuple) : gmap Z Tid :=
  foldl (fun m t => <[key t := tid t]> m) m ts.

Lemma sk_inner_rows_ok ts : forall k rest,
  sk_key_type k = kt -> Forall (tuple_wf kt) ts ->
  sk_inner_rows (length ts) (tuples_bytes kt ts ++ rest) k =
  k <| sk_ht := sk_table (sk_ht k) ts |>.
Proof using known.
  induction ts as [|t ts IH]; intros k rest Hk Hw; [by destruct k|].
  apply Forall_cons in Hw as [Ht Hw]. unfold tuples_bytes. cbn [fmap list_fmap concat length sk_inner_rows].
  rewrite <- app_assoc. destruct (sk_read_row k t (concat (tuple_bytes kt <$> ts) ++ rest) Hk Ht)
    as (-> & -> & ->). rewrite IH by done. by destruct k.
Qed.

(** A 32-bit counter after [n] increments. *)
Fixpoint bump (n : nat) (v : Z) : Z := match n with O => v | S n => bump n (u32 (v + 1)) end.

Lemma bump_small n : forall v, 0 <= v -> v + Z.of_nat n < 2 ^ 32 -> bump n v = v + Z.of_nat n.
Proof.
  induction n as [|n IH]; intros v Hv Hb; simpl; [lia|].
  rewrite u32_small by (unfold is_u32; lia). rewrite IH; lia.
Qed.

(** The pairs a lookup table yields. *)
Definition sk_matches (m : gmap Z Tid) (ts : list Tuple) : list ResultPair :=
  omap (fun o => it ← m !! key o; Some (mkPair it (tid o))) ts.

Lemma sk_outer_rows_ok ts : forall k ms rest,
  sk_key_type k = kt -> Forall (tuple_wf kt) ts ->
  sk_outer_rows (length ts) (tuples_bytes kt ts ++ rest) ms k =
  (ms ++ sk_matches (sk_ht k) ts,
   k <| n_matched := bump (length (sk_matches (sk_ht k) ts)) (n_matched k) |>
     <| n_processed := bump (length ts) (n_processed k) |>).
Proof using known.
  induction ts as [|t ts IH]; intros k ms rest Hk Hw; [by destruct k; rewrite app_nil_r|].
  apply Forall_cons in Hw as [Ht Hw]. unfold tuples_bytes. cbn [fmap list_fmap concat length sk_outer_rows].
  rewrite <- app_assoc. destruct (sk_read_row k t (concat (tuple_bytes kt <$> ts) ++ rest) Hk Ht)
    as (-> & -> & Hd).
  unfold sk_matches. cbn [omap list_omap]. destruct (sk_ht k !! key t) as [it|] eqn:Hl.
  - change (tuple_stride (k <| n_matched ::= (fun n => u32 (n + 1)) |>)) with (tuple_stride k).
    rewrite Hd, IH by done. rcbn. rewrite <- app_assoc. by destruct k.
  - rewrite Hd, IH by done. rcbn. by destruct k.
Qed.
End rows.

(** ** The protocol from the host's side *)

(** The state between two frames. *)
Record sk_at (kt sid total : Z) (m : gmap Z Tid) (np nm : Z) (k : SoftwareKernel) : Prop := {
  at_kt : sk_key_type k = kt;
  at_sid : sk_session_id k = sid;
  at_total : sk_outer_total k = total;
  at_ht : sk_ht k = m;
  at_processed : n_processed k = np;
  at_matched : n_matched k = nm }.

Lemma incoming_queue f k : incoming (queue_frame f k) = incoming k ++ fp_bytes f.
Proof. simpl. by rewrite concat_app, app_assoc; simpl; rewrite app_nil_r. Qed.

Lemma replies_one f : replies_bytes [f] = fp_bytes f.
Proof. apply app_nil_r. Qed.

Lemma replies_app fs fs' : replies_bytes (fs ++ fs') = replies_bytes fs ++ replies_bytes fs'.
Proof. unfold replies_bytes. by rewrite fmap_app, concat_app. Qed.

Lemma sk_dispatch mt n payload k :
  is_u16 n ->
  sk_send (header_bytes mt n ++ payload) k =
  let k' := k <| all_sent ::= (fun s => s ++ header_bytes mt n ++ payload) |> in
  match mt with
  | MSG_CONFIGURE => on_configure payload k'
  | MSG_INNER_DATA => on_inner n payload k'
  | MSG_OUTER_DATA => on_outer n payload k'
  | MSG_RESET => Done tt (on_reset true k')
  | _ => Done tt k'
  end.
Proof.
  intros Hn. unfold sk_send.
  rewrite (hbind_Done _ _ k tt (k <| all_sent ::= (fun s => s ++ header_bytes mt n ++ payload) |>)) by done.
  cbn beta. assert ((length (header_bytes mt n ++ payload) <? 3)%nat = false) as -> by done.
  change (at_byte (header_bytes mt n ++ payload) 0) with (msg_code mt).
  change (drop 3 (header_bytes mt n ++ payload)) with payload.
  assert (Z.lor (at_byte (header_bytes mt n ++ payload) 1)
            (u16 (Z.shiftl (at_byte (header_bytes mt n ++ payload) 2) 8)) = n) as ->.
  { transitivity (read_u16 (le_bytes 2 n ++ payload)); [done|]. by rewrite read_u16_app, u16_small. }
  by destruct mt.
Qed.

Section protocol.
Context (kt : Z) (known : known_key_type kt).

Lemma tuple_stride_bytes k t : sk_key_type k = kt -> length (tuple_bytes kt t) = tuple_stride k.
Proof using known.
  intros Hk. unfold tuple_bytes, key_bytes, tuple_stride, sk_key_bytes. rewrite Hk, length_app.
  by destruct known as [-> | ->].
Qed.

Lemma length_rows k ts :
  sk_key_type k = kt -> length (tuples_bytes kt ts) = (length ts * tuple_stride k)%nat.
Proof using known.
  intros Hk. unfold tuples_bytes. induction ts as [|t ts IH]; [done|].
  cbn [fmap list_fmap concat length]. rewrite length_app, IH, (tuple_stride_bytes k) by done. lia.
Qed.

Lemma sk_configure c k :
  is_u32 (cp_outer_count c) -> cp_key_type c = kt ->
  exists k', sk_send (pg_bytes kt (PConfigure c)) k = Done tt k' /\
    sk_at kt (cp_session_id c) (cp_outer_count c) ∅ 0 0 k' /\
    incoming k' = incoming k ++
      replies_bytes [FAck (status_of PHASE_BUILDING 0 0 RX_CREDIT_TUPLES (cp_session_id c))].
Proof.
  intros Hc Hkt. unfold pg_bytes. rewrite sk_dispatch by done. cbn zeta.
  unfold on_configure. assert ((length (configure_bytes c) <? 13)%nat = false) as -> by done.
  eexists. split; [reflexivity|]. rewrite push_ack_frame.
  assert (sk_read_u32 (drop 8 (configure_bytes c)) = cp_outer_count c) as ->.
  { transitivity (read_u32 (le_bytes 4 (cp_outer_count c) ++ [cp_session_id c])); [done|].
    rewrite read_u32_app. by apply u32_small. }
  split; [by constructor|]. by rewrite incoming_queue, replies_one.
Qed.

Lemma sk_inner ts k sid total m np nm :
  sk_at kt sid total m np nm k -> Forall (tuple_wf kt) ts -> Z.of_nat (length ts) < 2 ^ 16 ->
  exists k', sk_send (pg_bytes kt (PInner ts)) k = Done tt k' /\
    sk_at kt sid total (sk_table m ts) np nm k' /\
    incoming k' = incoming k ++
      replies_bytes [FAck (status_of PHASE_BUILDING 0 0 RX_CREDIT_TUPLES sid)].
Proof using known.
  intros [Hk Hs Ht Hm Hp Hn] Hw Hl. unfold pg_bytes. rewrite sk_dispatch by (unfold is_u16; lia).
  cbn zeta. unfold on_inner. rewrite Nat2Z.id, (length_rows k) by done.
  change (tuple_stride (k <| all_sent ::= _ |>)) with (tuple_stride k).
  rewrite Nat.ltb_irrefl, <- (app_nil_r (tuples_bytes kt ts)), (sk_inner_rows_ok kt) by done.
  eexists. split; [reflexivity|]. rewrite push_ack_frame. split.
  - constructor; try done. rcbn. by rewrite <- Hm.
  - rewrite incoming_queue, replies_one. unfold sk_ack. rewrite <- Hs. done.
Qed.

Definition sk_outer_replies (sid total : Z) (ms : list ResultPair) (np nm : Z) : list fp_frame :=
  (match ms with [] => [] | _ => [FResult ms] end) ++
  [FAck (status_of PHASE_PROBING np nm (if total <=? np then 0 else RX_CREDIT_TUPLES) sid)].

Lemma length_sk_matches m ts : (length (sk_matches m ts) <= length ts)%nat.
Proof.
  induction ts as [|t ts IH]; [done|]. unfold sk_matches in *. cbn [omap list_omap].
  destruct (m !! key t); simpl; lia.
Qed.

Lemma sk_outer ts k sid total m np nm :
  sk_at kt sid total m np nm k -> Forall (tuple_wf kt) ts -> Z.of_nat (length ts) < 2 ^ 16 ->
  let ms := sk_matches m ts in
  let np' := bump (length ts) np in
  let nm' := bump (length ms) nm in
  exists k', sk_send (pg_bytes kt (POuter ts)) k = Done tt k' /\
    sk_at kt sid total m np' nm' k' /\
    incoming k' = incoming k ++ replies_bytes (sk_outer_replies sid total ms np' nm').
Proof using known.
  intros [Hk Hs Ht Hm Hp Hn] Hw Hl ms np' nm'. pose proof (length_sk_matches m ts) as Hml. fold ms in Hml.
  unfold pg_bytes. rewrite sk_dispatch by (unfold is_u16; lia).
  cbn zeta. unfold on_outer. rewrite Nat2Z.id, (length_rows k) by done.
  change (tuple_stride (k <| all_sent ::= _ |>)) with (tuple_stride k).
  rewrite Nat.ltb_irrefl, <- (app_nil_r (tuples_bytes kt ts)), (sk_outer_rows_ok kt) by done.
  change (sk_ht (k <| all_sent ::= _ |>)) with (sk_ht k). rewrite Hm. fold ms.
  cbn [app]. eexists. split; [reflexivity|]. rewrite push_ack_frame. destruct ms as [|q ms0] eqn:Hms.
  - split; [subst; by constructor|]. rewrite incoming_queue.
    unfold sk_outer_replies. cbn [app]. rewrite replies_one. subst. done.
  - rewrite push_result_frame by lia.
    split; [subst; by constructor|]. rewrite !incoming_queue.
    unfold sk_outer_replies. rewrite replies_app, !replies_one. subst. by rewrite <- app_assoc.
Qed.
End protocol.

(** ** What a session computes *)

Lemma sk_table_last ts k : sk_table ∅ ts !! k = first_match k (reverse ts).
Proof.
  unfold sk_table. induction ts as [|t ts IH] using rev_ind; [done|].
  rewrite foldl_app, reverse_snoc. simpl. destruct (Z.eqb_spec (key t) k) as [<-|Hne].
  - by rewrite lookup_insert_eq.
  - by rewrite lookup_insert_ne.
Qed.

Lemma sk_matches_app m ts ts' : sk_matches m (ts ++ ts') = sk_matches m ts ++ sk_matches m ts'.
Proof. apply omap_app. Qed.

Lemma sk_matches_join ts outs : sk_matches (sk_table ∅ ts) outs = hash_join (reverse ts) outs.
Proof.
  unfold sk_matches, hash_join, match_row. induction outs as [|o outs IH]; [done|].
  cbn [omap list_omap]. rewrite sk_table_last. destruct (first_match _ _); simpl; by rewrite IH.
Qed.

(** Requests sent one frame at a time. *)
Fixpoint send_frames `{Transport T} (l : list (list Z)) : H T unit :=
  match l with
  | [] => mret tt
  | data :: l => send data ;; send_frames l
  end.

Lemma send_frames_app `{Transport T} l l' (t t' : T) :
  send_frames l t = Done tt t' -> send_frames (l ++ l') t = send_frames l' t'.
Proof.
  revert t. induction l as [|d l IH]; intros t; [by intros [= ->]|]. cbn [send_frames app].
  unfold mbind, H_bind. destruct (send d t) as [[] t1| |]; [|done..]. apply IH.
Qed.

Section session.
Context (kt : Z) (known : known_key_type kt).

Definition sk_frame_ok (ts : list Tuple) : Prop :=
  Forall (tuple_wf kt) ts /\ Z.of_nat (length ts) < 2 ^ 16.

Lemma sk_inner_frames sid total ins : forall m np nm k,
  sk_at kt sid total m np nm k -> Forall sk_frame_ok ins ->
  exists k' fs, send_frames (pg_bytes kt <$> (PInner <$> ins)) k = Done tt k' /\
    sk_at kt sid total (sk_table m (concat ins)) np nm k' /\
    incoming k' = incoming k ++ replies_bytes fs /\ results_of fs = [].
Proof using known.
  induction ins as [|ts ins IH]; intros m np nm k Hk Hok.
  { exists k, []. split_and!; try done. by rewrite app_nil_r. }
  apply Forall_cons in Hok as [[Hw Hl] Hok].
  destruct (sk_inner kt known ts k sid total m np nm Hk Hw Hl) as (k1 & Hs & Hk1 & Hi1).
  destruct (IH _ _ _ k1 Hk1 Hok) as (k2 & fs & Hs2 & Hk2 & Hi2 & Hr).
  eexists k2, (_ ++ fs). cbn [fmap list_fmap send_frames]. rewrite (hbind_Done _ _ _ _ _ Hs).
  split_and!; [exact Hs2| |by rewrite Hi2, Hi1, <- app_assoc, <- replies_app|].
  - cbn [concat]. unfold sk_table in *. by rewrite foldl_app.
  - by rewrite results_of_app, Hr.
Qed.

Lemma sk_outer_frames sid total m outs : forall np nm k,
  sk_at kt sid total m np nm k -> Forall sk_frame_ok outs ->
  exists k' fs, send_frames (pg_bytes kt <$> (POuter <$> outs)) k = Done tt k' /\
    incoming k' = incoming k ++ replies_bytes fs /\ results_of fs = sk_matches m (concat outs).
Proof using known.
  induction outs as [|ts outs IH]; intros np nm k Hk Hok.
  { exists k, []. split_and!; try done. by rewrite app_nil_r. }
  apply Forall_cons in Hok as [[Hw Hl] Hok].
  destruct (sk_outer kt known ts k sid total m np nm Hk Hw Hl) as (k1 & Hs & Hk1 & Hi1).
  destruct (IH _ _ k1 Hk1 Hok) as (k2 & fs & Hs2 & Hi2 & Hr).
  eexists k2, (_ ++ fs). cbn [fmap list_fmap send_frames]. rewrite (hbind_Done _ _ _ _ _ Hs).
  split_and!; [exact Hs2|by rewrite Hi2, Hi1, <- app_assoc, <- replies_app|].
  rewrite results_of_app, Hr. cbn [concat]. rewrite sk_matches_app. f_equal. unfold sk_outer_replies.
  rewrite results_of_app. unfold results_of.
  destruct (sk_matches m ts); simpl; by rewrite ?app_nil_r.
Qed.
End session.

(** ** The client against the simulation *)

Section client.
Context (clock : nat -> Z) (cf : ClientConfig) (kt sid : Z) (known : known_key_type kt).
Local Abbreviation client := (FpgaClient SoftwareKernel).
Hypothesis in_time : forall i k, (i <= k)%nat -> Z.quot (clock k - clock i) 1000000 < hard_timeout_ms cf.
Hypothesis batch_size : 0 < max_batch_tuples cf <= RX_BUF_TUPLES.
Hypothesis window_size : 0 < ack_window_frames cf.
Hypothesis sid_byte : is_byte sid.

(** The reply to CONFIGURE and to every inner frame: nothing was processed. *)
Definition idle_ack : fp_frame := FAck (status_of PHASE_BUILDING 0 0 RX_CREDIT_TUPLES sid).

(** The client in the build phase with [n] replies to receive. *)
Record stuck (n : nat) (c : client) : Prop := {
  st_cfg : cfg c = cf;
  st_sid : active_session_id c = sid;
  st_kernel : exists total m, sk_at kt sid total m 0 0 (transport c);
  st_pending : incoming (transport c) = replies_bytes (replicate n idle_ack) }.

Lemma idle_ack_wire : frame_wire idle_ack.
Proof using sid_byte. repeat split; simpl; consts; unfold is_byte in *; lia. Qed.

Lemma sk_at_recv n k bs k' total m np nm :
  sk_at kt sid total m np nm k -> sk_recv n k = Done bs k' -> sk_at kt sid total m np nm k'.
Proof.
  intros [] He. unfold sk_recv in He.
  destruct (refill _ _) as [[b q]|]; injection He as <- <-; by constructor.
Qed.

(** Receiving one acknowledgement. *)
Lemma collect_idle fuel n kind out c :
  stuck (S n) c ->
  exists c', collect_until_ack clock (S fuel) out kind c = Done (ack_of (status_of PHASE_BUILDING 0 0 RX_CREDIT_TUPLES sid), out) c' /\
    stuck n c' /\ credit c' = credit c.
Proof using All.
  intros [Hc Hs (total & m & Hk) Hp].
  destruct (recv_frame_prompt idle_ack (decoder c) out0 (transport c)
    (replies_bytes (replicate n idle_ack)) idle_ack_wire Hp) as (t' & Hr & Hi).
  pose proof (keeps_frame (sk_at kt sid total m 0 0)
    (fun n t bs t' Hs => sk_at_recv n t bs t' total m 0 0 Hs) (decoder c) out0 _ Hk) as Hkeep.
  rewrite Hr in Hkeep. unfold collect_until_ack.
  rewrite (hbind_Done (now clock) _ c (clock (ticks c)) (c <| ticks := S (ticks c) |>)) by done.
  cbn [collect_loop]. rewrite (hbind_Done (now clock) _ _ (clock (S (ticks c)))
    (c <| ticks := S (S (ticks c)) |>)) by done.
  rewrite (hbind_Done hget _ _ (c <| ticks := S (S (ticks c)) |>) (c <| ticks := S (S (ticks c)) |>)) by done.
  change (cfg (c <| ticks := _ |>)) with (cfg c). rewrite Hc.
  specialize (in_time (ticks c) (S (ticks c)) ltac:(lia)).
  destruct (Z.leb_spec (hard_timeout_ms cf) (Z.quot (clock (S (ticks c)) - clock (ticks c)) 1000000)); [lia|].
  rewrite (hbind_Done (now clock) _ _ (clock (S (S (ticks c)))) (c <| ticks := S (S (S (ticks c))) |>)) by done.
  change (decoder (c <| ticks := S (S (ticks c)) |>)) with (decoder c).
  assert (lift (recv_frame (decoder c) out0) (c <| ticks := S (S (S (ticks c))) |>) =
    Done (deliver idle_ack (decoder c) out0) (c <| ticks := S (S (S (ticks c))) |> <| transport := t' |>)) as Hl.
  { unfold lift. change (transport (c <| ticks := _ |>)) with (transport c). by rewrite Hr. }
  rewrite (hbind_Done _ _ _ _ _ Hl). cbn [deliver idle_ack].
  eexists. split.
  - unfold mbind, H_bind, hmodify, hget, now. cbn [out_ack].
    match goal with |- context [active_session_id ?x] =>
      change (active_session_id x) with (active_session_id c) end.
    rewrite Hs. cbn [ack_of ack_session_id status_of sp_session_id out0].
    change (ack_session_id _) with sid. rewrite Z.eqb_refl, andb_false_r. reflexivity.
  - split; [|reflexivity]. constructor; try done. by exists total, m.
Qed.

(** Sending one inner frame. *)
Lemma send_inner n ts bucket c :
  stuck n c -> Forall (tuple_wf kt) ts -> Z.of_nat (length ts) < 2 ^ 16 ->
  exists c', send_counted clock (pg_bytes kt (PInner ts)) MSG_INNER_DATA bucket c = Done tt c' /\
    stuck (S n) c' /\ credit c' = credit c.
Proof using known.
  intros [Hc Hs (total & m & Hk) Hp] Hw Hl.
  destruct (sk_inner kt known ts (transport c) sid total m 0 0 Hk Hw Hl) as (k' & Hsend & Hk' & Hi).
  unfold send_counted.
  rewrite (hbind_Done (now clock) _ c (clock (ticks c)) (c <| ticks := S (ticks c) |>)) by done.
  assert (lift (send (pg_bytes kt (PInner ts))) (c <| ticks := S (ticks c) |>) =
    Done tt (c <| ticks := S (ticks c) |> <| transport := k' |>)) as Hlift.
  { unfold lift. change (transport (c <| ticks := S (ticks c) |>)) with (transport c).
    change (send ?d ?k) with (sk_send d k). by rewrite Hsend. }
  rewrite (hbind_Done _ _ _ _ _ Hlift). eexists. split; [reflexivity|]. split; [|reflexivity].
  constructor; try done; [by eexists _, _|]. change (transport _) with k'.
  rewrite Hi, Hp, <- replies_app. f_equal.
  change (replicate (S n) idle_ack) with (idle_ack :: replicate n idle_ack).
  by rewrite replicate_cons_app.
Qed.

Context (inner : list Tuple).
Hypothesis inner_tids : Forall (fun t => tid_wf (tid t)) inner.

Lemma window_stuck bucket n : forall w c,
  stuck (length (w_inflight w)) c -> (length inner - w_sent w <= n)%nat -> 0 <= credit c < 2 ^ 16 ->
  exists w' c' extra,
    send_window clock n kt MSG_INNER_DATA bucket inner w c = Done w' c' /\
    w_inflight w' = w_inflight w ++ extra /\ w_acked w' = w_acked w /\
    stuck (length (w_inflight w')) c' /\
    ((w_sent w < length inner)%nat -> w_inflight w = [] -> RX_BUF_TUPLES <= credit c -> extra <> []).
Proof using All.
  induction n as [|n IH]; intros w c Hst Hn Hcr; cbn [send_window];
    rewrite (hbind_Done hget _ c c c) by done; rewrite (st_cfg _ _ Hst).
  { destruct (Nat.ltb_spec (w_sent w) (length inner)); [lia|]. cbn [andb].
    exists w, c, []. rewrite app_nil_r. split_and!; try done. lia. }
  destruct (Nat.ltb_spec (w_sent w) (length inner)) as [Hlt|Hge]; cbn [andb].
  2: { exists w, c, []. rewrite app_nil_r. split_and!; try done. lia. }
  destruct (Z.ltb_spec (Z.of_nat (length (w_inflight w))) (ack_window_frames cf)) as [Hw|Hw]; cbn [andb].
  2: { exists w, c, []. rewrite app_nil_r. split_and!; try done. intros _ Hi. rewrite Hi in Hw. simpl in Hw. lia. }
  destruct (Z.eqb_spec (credit c) 0) as [Hz|Hz]; cbn [negb].
  { exists w, c, []. rewrite app_nil_r. split_and!; try done. intros _ _. consts. lia. }
  destruct (_ && _) eqn:Hb.
  { exists w, c, []. rewrite app_nil_r. split_and!; try done. intros _ _.
    apply andb_true_iff in Hb as [Hb _]. consts. lia. }
  set (b := ((Z.to_nat (credit c) `min` Z.to_nat (max_batch_tuples cf)) `min` (length inner - w_sent w))%nat).
  assert (0 < b <= length inner - w_sent w)%nat as Hbr by (subst b; lia).
  assert (Z.of_nat b <= RX_BUF_TUPLES) as Hbm by (subst b; lia).
  unfold serialize at 1. rewrite serialize_batch_bytes by (rewrite ?length_drop; consts; done || lia).
  rewrite (hbind_Done _ _ c _ c) by reflexivity.
  set (ts := narrow_tuple kt <$> take b (drop (w_sent w) inner)).
  assert (length ts = b) as Hlen by (subst ts; rewrite length_fmap, length_take, length_drop; lia).
  rewrite (hbind_Done (hmodify _) _ c tt (c <| credit ::= take_credit b |>)) by done.
  destruct (send_inner (length (w_inflight w)) ts bucket (c <| credit ::= take_credit b |>))
    as (c1 & Hs1 & Hst1 & Hcr1).
  { destruct Hst. by constructor. }
  { apply Forall_fmap. eapply Forall_impl; [by apply Forall_take, Forall_drop|].
    intros t Ht. by apply narrow_tuple_wf. }
  { consts. lia. }
  unfold pg_bytes in Hs1. rewrite Hlen in Hs1. rewrite (hbind_Done _ _ _ _ _ Hs1).
  destruct (IH (w <| w_sent ::= Nat.add b |> <| w_inflight ::= fun l => l ++ [b] |>) c1)
    as (w' & c' & extra & He & Hin & Hac & Hst' & _).
  - rcbn. rewrite length_app. simpl. by rewrite Nat.add_1_r.
  - change (w_sent _) with (b + w_sent w)%nat. lia.
  - rewrite Hcr1. change (credit (c <| credit ::= take_credit b |>)) with (take_credit b (credit c)).
    unfold take_credit. destruct (Z.ltb_spec (Z.of_nat b) (credit c)); [rewrite u16_small|]; unfold is_u16; lia.
  - exists w', c', (b :: extra). split_and!; [exact He| |exact Hac|exact Hst'|done].
    rewrite Hin. rcbn. by rewrite <- app_assoc.
Qed.

(** The first round of the build phase gives up. *)
Lemma build_round_stalls fuel c :
  stuck 0 c -> credit c = RX_CREDIT_TUPLES -> inner <> [] ->
  exists c', build_round clock (S fuel) kt inner (mkWindow 0 [] 0) c =
    Throw (FpgaException BuildAckStalled) c'.
Proof using All.
  intros Hst Hcr Hne. unfold build_round.
  destruct (window_stuck add_build_send (length inner) (mkWindow 0 [] 0) c Hst ltac:(simpl; lia))
    as (w' & c' & extra & He & Hin & Hac & Hst' & Hx); [rewrite Hcr; consts; lia|].
  rewrite (hbind_Done _ _ _ _ _ He). cbn beta. cbn [w_inflight app w_acked] in *.
  assert (extra <> []) as Hxn.
  { apply Hx; [simpl; destruct inner; [done|simpl; lia]|done|rewrite Hcr; consts; lia]. }
  rewrite bool_decide_eq_false_2 by (by rewrite Hin).
  destruct extra as [|b extra]; [done|]. rewrite Hin in Hst'. simpl in Hst'.
  destruct (collect_idle fuel (length extra) WaitBuild [] c' Hst') as (c2 & Hc2 & _ & _).
  rewrite (hbind_Done _ _ _ _ _ Hc2). cbn beta iota.
  unfold set_credit. rewrite (hbind_Done (hmodify _) _ c2 tt (c2 <| credit := RX_CREDIT_TUPLES |>)) by done.
  unfold apply_cumulative_ack. rewrite Hac, Hin. cbn. by eexists.
Qed.

(** CONFIGURE is accepted. *)
Lemma configure_stuck fuel config outer c :
  cfg c = cf -> active_session_id c = sid -> coalesce_config_first_inner cf = false ->
  is_byte (algorithm config) -> key_type config = kt -> incoming (transport c) = [] ->
  exists c', configure_step clock (S fuel) config inner outer c = Done 0%nat c' /\
    stuck 0 c' /\ credit c' = RX_CREDIT_TUPLES.
Proof using All.
  intros Hc Hs Hco Ha Hkt Hin. unfold configure_step.
  rewrite (hbind_Done hget _ c c c) by done. rewrite Hc, Hco. cbn [andb].
  rewrite (hbind_Done (mret _) _ c _ c) by reflexivity. cbn beta iota. rewrite Hs.
  assert (is_byte kt) as Hkb by (destruct known as [-> | ->]; unfold is_byte; simpl; lia).
  rewrite serialize_configure_bytes by (by rewrite ?Hkt). rewrite Hkt.
  set (cp := mkConfigure _ _ _ _ _ _).
  destruct (sk_configure kt cp (transport c)) as (k' & Hsend & Hk' & Hi).
  { apply u32_range. } { done. }
  change (cp_session_id cp) with sid in Hk', Hi.
  assert (exists c1, send_counted clock (pg_bytes kt (PConfigure cp)) MSG_CONFIGURE add_config_send c = Done tt c1 /\
    stuck 1 c1) as (c1 & He1 & Hst1).
  { unfold send_counted.
    rewrite (hbind_Done (now clock) _ c (clock (ticks c)) (c <| ticks := S (ticks c) |>)) by done.
    assert (lift (send (pg_bytes kt (PConfigure cp))) (c <| ticks := S (ticks c) |>) =
      Done tt (c <| ticks := S (ticks c) |> <| transport := k' |>)) as Hlift.
    { unfold lift. change (transport (c <| ticks := S (ticks c) |>)) with (transport c).
      change (send ?d ?k) with (sk_send d k). by rewrite Hsend. }
    rewrite (hbind_Done _ _ _ _ _ Hlift). eexists. split; [reflexivity|].
    constructor; try done; [by eexists _, _|]. change (transport _) with k'. by rewrite Hi, Hin. }
  rewrite (hbind_Done _ _ _ _ _ He1).
  destruct (collect_idle fuel 0 WaitConfig [] c1 Hst1) as (c2 & Hc2 & Hst2 & _).
  rewrite (hbind_Done _ _ _ _ _ Hc2). cbn beta iota. eexists. split; [reflexivity|].
  split; [by destruct Hst2|done].
Qed.
End client.

(** ** Claims *)

(** C34: fed with the frames of a session, however the rows are cut into
    batches, the software kernel accepts them all, and the result pairs among its
    replies are those of a hash join that answers with the last matching inner
    row.  When inner keys are unique this is the equi-join, the same pairs in the
    same order as the kernel's. *)
Theorem simulation_joins (c : ConfigurePayload) (ins outs : list (list Tuple)) (k : SoftwareKernel) :
  known_key_type (cp_key_type c) -> is_u32 (cp_outer_count c) ->
  Forall (sk_frame_ok (cp_key_type c)) ins -> Forall (sk_frame_ok (cp_key_type c)) outs ->
  exists k' fs,
    send_frames (pg_bytes (cp_key_type c) <$>
                 PConfigure c :: (PInner <$> ins) ++ (POuter <$> outs)) k = Done tt k' /\
    incoming k' = incoming k ++ replies_bytes fs /\
    results_of fs = hash_join (reverse (concat ins)) (concat outs) /\
    (keys_unique (concat ins) -> results_of fs = nested_join (concat ins) (concat outs)).
Proof.
  intros Hkt Hoc Hi Ho. rewrite fmap_cons, fmap_app.
  destruct (sk_configure (cp_key_type c) c k Hoc eq_refl) as (k1 & Hs1 & Hk1 & Hi1).
  destruct (sk_inner_frames _ Hkt _ _ ins _ _ _ k1 Hk1 Hi) as (k2 & fs2 & Hs2 & Hk2 & Hi2 & Hr2).
  destruct (sk_outer_frames _ Hkt _ _ _ outs _ _ k2 Hk2 Ho) as (k3 & fs3 & Hs3 & Hi3 & Hr3).
  exists k3, ([idle_ack (cp_session_id c)] ++ fs2 ++ fs3). split_and!.
  - cbn [send_frames]. rewrite (hbind_Done _ _ _ _ _ Hs1). by rewrite (send_frames_app _ _ _ k2).
  - by rewrite Hi3, Hi2, Hi1, !replies_app, !app_assoc.
  - rewrite !results_of_app, Hr2, Hr3. apply sk_matches_join.
  - intros Hu. rewrite !results_of_app, Hr2, Hr3, sk_matches_join, hash_join_reverse by done.
    by apply hash_join_nested.
Qed.

Definition example_sk_config : ConfigurePayload := mkConfigure 0 1 512 2 1 7.

Lemma simulation_joins_witness :
  exists k' fs,
    send_frames (pg_bytes 1 <$>
      [PConfigure example_sk_config; PInner [mkTuple 5 (mkTid 10 1)]; PInner [mkTuple 6 (mkTid 11 1)];
       POuter [mkTuple 6 (mkTid 20 1)]]) software_kernel0 = Done tt k' /\
    incoming k' = [] ++ replies_bytes fs /\
    results_of fs = [mkPair (mkTid 11 1) (mkTid 20 1)].
Proof.
  destruct (simulation_joins example_sk_config [[mkTuple 5 (mkTid 10 1)]; [mkTuple 6 (mkTid 11 1)]]
    [[mkTuple 6 (mkTid 20 1)]] software_kernel0) as (k' & fs & Hs & Hi & Hr & _).
  - by left.
  - done.
  - repeat constructor; done.
  - repeat constructor; done.
  - exists k', fs. split_and!; [exact Hs|exact Hi|exact Hr].
Defined.

(** The simulation never joins a non-empty inner relation.  The software
    kernel acknowledges every inner frame with zero processed rows, and the client
    takes an acknowledgement that does not advance for a protocol error, so
    [run_hash_join] throws in its first build round, whatever the rows. *)
Theorem simulation_stalls (clock : nat -> Z) (config : JoinConfig) (inner outer : list Tuple)
    (c : FpgaClient SoftwareKernel) (fuel : nat) :
  (forall i k, (i <= k)%nat -> Z.quot (clock k - clock i) 1000000 < hard_timeout_ms (cfg c)) ->
  0 < max_batch_tuples (cfg c) <= RX_BUF_TUPLES -> 0 < ack_window_frames (cfg c) ->
  coalesce_config_first_inner (cfg c) = false -> known_key_type (key_type config) ->
  is_byte (algorithm config) -> is_byte (next_sid c) -> incoming (transport c) = [] ->
  inner <> [] -> Forall (fun t => tid_wf (tid t)) inner -> (0 < fuel)%nat ->
  exists c', run_hash_join clock fuel config inner outer c = Throw (FpgaException BuildAckStalled) c'.
Proof.
  intros Hclock Hb Hw Hco Hkt Ha Hsid Hin Hne Htid Hf. destruct fuel as [|fuel]; [lia|].
  assert (exists c1, begin_session c = Done tt c1 /\ cfg c1 = cfg c /\ active_session_id c1 = next_sid c /\
    transport c1 = transport c) as (c1 & Hb1 & Hc1 & Hs1 & Ht1) by apply begin_session_ok.
  unfold run_hash_join. rewrite (hbind_Done _ _ _ _ _ Hb1). unfold with_cleanup, join_session.
  rewrite (hbind_Done (now clock) _ c1 (clock (ticks c1)) (c1 <| ticks := S (ticks c1) |>)) by done.
  destruct (configure_stuck clock (cfg c) (key_type config) (next_sid c) Hkt Hclock Hb Hw Hsid inner Htid
    fuel config outer (c1 <| ticks := S (ticks c1) |>)) as (c2 & He2 & Hst2 & Hcr2); try done.
  { change (transport (c1 <| ticks := _ |>)) with (transport c1). by rewrite Ht1. }
  rewrite (hbind_Done _ _ _ _ _ He2).
  rewrite (hbind_Done (now clock) _ c2 (clock (ticks c2)) (c2 <| ticks := S (ticks c2) |>)) by done.
  destruct (build_round_stalls clock (cfg c) (key_type config) (next_sid c) Hkt Hclock Hb Hw Hsid inner Htid
    fuel (c2 <| ticks := S (ticks c2) |>)) as (c3 & He3); [by destruct Hst2|done|done|].
  assert (build_phase clock (S fuel) (key_type config) inner 0 (c2 <| ticks := S (ticks c2) |>) =
    Throw (FpgaException BuildAckStalled) c3) as Hbp.
  { unfold build_phase. cbn [Nat.eqb negb hwhen].
    rewrite (hbind_Done (mret tt) _ _ tt (c2 <| ticks := S (ticks c2) |>)) by done.
    apply hbind_Throw. destruct inner as [|t inner]; [done|]. cbn [length build_rounds w_sent Nat.ltb Nat.leb orb].
    by apply hbind_Throw. }
  rewrite (hbind_Throw _ _ _ _ _ Hbp). by eexists.
Qed.

Lemma simulation_stalls_witness :
  exists c', run_hash_join (fun _ => 0) 3 (mkJoinConfig 0 1) [mkTuple 5 (mkTid 10 1)]
    [mkTuple 5 (mkTid 20 1)] (new_client software_kernel0 client_config0 0 0) =
    Throw (FpgaException BuildAckStalled) c'.
Proof.
  apply (simulation_stalls (fun _ => 0) (mkJoinConfig 0 1) [mkTuple 5 (mkTid 10 1)]
    [mkTuple 5 (mkTid 20 1)] (new_client software_kernel0 client_config0 0 0) 3).
  - intros i k _. reflexivity.
  - split; [reflexivity|discriminate].
  - reflexivity.
  - reflexivity.
  - by left.
  - by vm_compute.
  - by vm_compute.
  - reflexivity.
  - discriminate.
  - repeat constructor; done.
  - lia.
Defined.
