(* ===== verification/Demo.v ===== *)
(** The demonstration program [host/demo/demo_join.cpp]: a join of two small tables
    through the client and the software kernel, with a dump of the bytes sent.

    [hexdump] and [print_wire_frames] return the lines they print, or [None] when
    they read past the buffer; [demo] is [main], whose outcome tells the lines
    printed before it returned or before an exception left it. *)
From stdpp Require Import strings.
From S2P Require Import Prelude Types Stream Wire Transport Serializer Decoder Client SoftwareKernel Text.

(** ** Formatting *)

Fixpoint spaces (n : nat) : string :=
  match n with O => "" | S n => String (Ascii.ascii_of_nat 32) (spaces n) end.
(** [%-ws] and [%ws]. *)
Definition pad_right (w : nat) (s : string) : string := s +:+ spaces (w - String.length s).
Definition pad_left (w : nat) (s : string) : string := spaces (w - String.length s) +:+ s.

Definition hex_digit_upper (d : Z) : Ascii.ascii :=
  Ascii.ascii_of_nat (Z.to_nat (if d <? 10 then 48 + d else 55 + d)).
(** [%02X ] of a byte. *)
Definition hex_byte (b : Z) : string :=
  String (hex_digit_upper (b / 16)) (String (hex_digit_upper (b mod 16)) " ").

(** ** Hex dump *)

(** One line for the [len] bytes at [p], of which at most 18 are shown. *)
Definition hexdump (label : string) (p : list Z) (len : nat) : option string :=
  let show := (len `min` 18)%nat in
  if (length p <? show `max` 1)%nat then None
  else Some ("  " +:+ pad_right 12 label +:+ " " +:+ pad_left 3 (dec (Z.of_nat len)) +:+ " B   " +:+
             String.concat "" (hex_byte <$> take show p) +:+
             (if (show <? len)%nat then "..." else "")).

(** Payload size and label of the frame with header [msg], [count]. *)
Definition frame_layout (msg count : Z) (tuple_sz : Z) : Z * string :=
  if msg =? msg_code MSG_CONFIGURE then (12, "CONFIGURE")
  else if msg =? msg_code MSG_INNER_DATA then (count * tuple_sz, "INNER_DATA")
  else if msg =? msg_code MSG_OUTER_DATA then (count * tuple_sz, "OUTER_DATA")
  else if msg =? msg_code MSG_RESET then (0, "RESET")
  else (0, "?").

(** The loop at the suffix [buf] of the buffer; every iteration consumes at least
    three bytes, so [fuel] iterations are enough for a buffer of [fuel] bytes. *)
Fixpoint wire_frames (fuel : nat) (tuple_sz : Z) (buf : list Z) : option (list string) :=
  match fuel with
  | O => Some []
  | S fuel =>
      match buf with
      | msg :: b1 :: b2 :: _ =>
          let count := Z.lor b1 (Z.shiftl b2 8) in
          let '(payload, label) := frame_layout msg count tuple_sz in
          let len := (3 + Z.to_nat payload)%nat in
          line ← hexdump label buf len;
          rest ← wire_frames fuel tuple_sz (drop len buf);
          Some (line :: rest)
      | _ => Some []
      end
  end.

Definition print_wire_frames (buf : list Z) (key_type : Z) : option (list string) :=
  let tuple_sz := if key_type =? key_code KEY_INT32 then 10 else 14 in
  wire_frames (length buf) tuple_sz buf.

(** ** main *)

Definition employees : list Tuple :=
  [mkTuple 101 (mkTid 0 1); mkTuple 205 (mkTid 0 2); mkTuple 307 (mkTid 0 3);
   mkTuple 412 (mkTid 0 4); mkTuple 519 (mkTid 0 5)].

Definition orders : list Tuple :=
  [mkTuple 205 (mkTid 1 1); mkTuple 999 (mkTid 1 2); mkTuple 101 (mkTid 1 3);
   mkTuple 101 (mkTid 1 4); mkTuple 777 (mkTid 1 5); mkTuple 519 (mkTid 1 6);
   mkTuple 412 (mkTid 1 7); mkTuple 888 (mkTid 1 8)].

Definition row_line (t : Tuple) : string :=
  "  emp_id=" +:+ pad_right 5 (dec (key t)) +:+ "  TID=(" +:+ dec (blkno (tid t)) +:+ "," +:+
  dec (offno (tid t)) +:+ ")".

(** Everything printed before the join. *)
Definition demo_tables : list string :=
  ["+-------------------------------------------------+";
   "|     FPGA Hash Join  --  Wire Protocol Demo      |";
   "|  employees JOIN orders ON emp_id  (int32 keys)  |";
   "+-------------------------------------------------+"; "";
   "Inner (employees): " +:+ dec (Z.of_nat (length employees)) +:+ " rows"] ++
  (row_line <$> employees) ++
  [""; "Outer (orders): " +:+ dec (Z.of_nat (length orders)) +:+ " rows"] ++
  (row_line <$> orders).

Definition result_line (rp : ResultPair) : string :=
  "  (blk=" +:+ dec (blkno (inner_tid rp)) +:+ ", off=" +:+
  pad_right 3 (dec (offno (inner_tid rp))) +:+ ")           (blk=" +:+
  dec (blkno (outer_tid rp)) +:+ ", off=" +:+ pad_right 3 (dec (offno (outer_tid rp))) +:+ ")".

Definition quote : string := String (Ascii.ascii_of_nat 34) "".

(** Everything printed after the join. *)
Definition demo_results (sent : list Z) (wire : list string) (results : list ResultPair) : list string :=
  [""; "Wire bytes sent to FPGA (" +:+ dec (Z.of_nat (length sent)) +:+ " bytes total):";
   "  (these exact bytes would travel over UART to the Nexys A7)"] ++ wire ++
  [""; "Results: " +:+ dec (Z.of_nat (length results)) +:+ " matches";
   "  " +:+ pad_right 25 "employee TID (inner)" +:+ "  " +:+ pad_right 25 "order TID (outer)";
   "  " +:+ pad_right 25 "-------------------------" +:+ "  " +:+
   pad_right 25 "-------------------------"] ++ (result_line <$> results) ++
  [""; "To run on the real FPGA:"; "  Replace: SoftwareKernel kernel;";
   "  With:    UartTransport  kernel(" +:+ quote +:+ "/dev/ttyUSB0" +:+ quote +:+ ", 115200);"].

Definition demo_join_config : JoinConfig := mkJoinConfig 0 (key_code KEY_INT32).
Definition demo_client_config : ClientConfig :=
  client_config0 <| warn_timeout_ms := 100 |> <| hard_timeout_ms := 1000 |>.

Inductive demo_outcome :=
| Exited (lines : list string)
| Uncaught (lines : list string) (e : exn)  (** [std::terminate] *)
| ReadOutOfBounds
| Hangs.

(** [clock] is the monotonic clock, [fuel] bounds the client's receive loops. *)
Definition demo (clock : nat -> Z) (fuel : nat) : demo_outcome :=
  let client := new_client software_kernel0 demo_client_config 0 0 in
  match run_hash_join clock fuel demo_join_config employees orders client with
  | Done results c =>
      let sent := all_sent (transport c) in
      match print_wire_frames sent (key_type demo_join_config) with
      | Some wire => Exited (demo_tables ++ demo_results sent wire results)
      | None => ReadOutOfBounds
      end
  | Throw e _ => Uncaught demo_tables e
  | Spin => Hangs
  end.

(** ** The dump of data frames *)

Definition frame_label (f : pg_frame) : string :=
  match f with
  | PConfigure _ => "CONFIGURE"
  | PInner _ => "INNER_DATA"
  | POuter _ => "OUTER_DATA"
  | PReset => "RESET"
  end.

(** The line of a frame as it was sent. *)
Definition frame_line (kt : Z) (f : pg_frame) : option string :=
  hexdump (frame_label f) (pg_bytes kt f) (length (pg_bytes kt f)).

Definition is_data (f : pg_frame) : Prop :=
  match f with
  | PConfigure _ => False
  | PInner ts | POuter ts => Z.of_nat (length ts) <= 65535
  | PReset => True
  end.

Lemma hexdump_app label p q len :
  (length p = len)%nat -> (0 < len)%nat -> hexdump label (p ++ q) len = hexdump label p len.
Proof.
  intros Hl H0. unfold hexdump. rewrite length_app.
  assert ((length p + length q <? (len `min` 18) `max` 1)%nat = false) as -> by (apply Nat.ltb_ge; lia).
  assert ((length p <? (len `min` 18) `max` 1)%nat = false) as -> by (apply Nat.ltb_ge; lia).
  by rewrite take_app_le by lia.
Qed.

Lemma hexdump_some label p : p <> [] -> is_Some (hexdump label p (length p)).
Proof.
  intros Hp. unfold hexdump. destruct p as [|b p]; [done|].
  assert ((length (b :: p) <? (length (b :: p) `min` 18) `max` 1)%nat = false) as ->
    by (apply Nat.ltb_ge; simpl; lia).
  by eexists.
Qed.

(** One frame off the front of the buffer. *)
Lemma wire_frames_step n sz f kt rest msg b1 b2 bs :
  pg_bytes kt f = msg :: b1 :: b2 :: bs ->
  frame_layout msg (Z.lor b1 (Z.shiftl b2 8)) sz = (Z.of_nat (length bs), frame_label f) ->
  wire_frames (S n) sz (pg_bytes kt f ++ rest) =
    (line ← frame_line kt f; rest ← wire_frames n sz rest; Some (line :: rest)).
Proof.
  intros Hb Hl. unfold frame_line.
  rewrite <- (hexdump_app _ _ rest _ eq_refl) by (rewrite Hb; simpl; lia).
  assert (drop (length (pg_bytes kt f)) (pg_bytes kt f ++ rest) = rest) as Hd by apply drop_app_length.
  revert Hd. rewrite Hb. cbn [wire_frames app]. rewrite Hl. rewrite Nat2Z.id. cbn [length].
  intros Hd. cbn [Nat.add]. by rewrite Hd.
Qed.

Lemma le_bytes_count n : Z.of_nat n <= 65535 ->
  exists b1 b2, le_bytes 2 (Z.of_nat n) = [b1; b2] /\ Z.lor b1 (Z.shiftl b2 8) = Z.of_nat n.
Proof.
  intros Hn. eexists _, _. split; [reflexivity|].
  assert (0 <= Z.of_nat n mod 256 < 2 ^ 8) by (apply Z.mod_pos_bound; lia).
  rewrite lor_shiftl_add by lia. zdm.
Qed.

Lemma length_tuples_bytes_32 kt ts :
  (length (tuples_bytes kt ts) = length ts * (if is_int64 kt then 14 else 10))%nat.
Proof.
  unfold tuples_bytes, tuple_bytes, key_bytes. induction ts as [|t ts IH]; [done|].
  cbn [fmap list_fmap concat length]. rewrite length_app, IH. destruct (is_int64 kt); simpl; lia.
Qed.

Definition tuple_size (kt : Z) : Z := if kt =? key_code KEY_INT32 then 10 else 14.

Lemma wire_frames_data n f kt rest :
  known_key_type kt -> is_data f ->
  wire_frames (S n) (tuple_size kt) (pg_bytes kt f ++ rest) =
    (line ← frame_line kt f; rest ← wire_frames n (tuple_size kt) rest; Some (line :: rest)).
Proof.
  intros Hkt Hd. destruct f as [c|ts|ts|]; simpl in Hd; [done| | |].
  1-2: destruct (le_bytes_count _ Hd) as (b1 & b2 & Hb & Hc);
    eapply wire_frames_step; [unfold pg_bytes, header_bytes; rewrite Hb; reflexivity|];
    rewrite Hc; unfold frame_layout; codes; rewrite length_tuples_bytes_32, Nat2Z.inj_mul;
    by destruct Hkt as [->| ->].
  by eapply wire_frames_step.
Qed.

Lemma wire_frames_all kt fs : forall n,
  known_key_type kt -> Forall is_data fs -> (length fs <= n)%nat ->
  wire_frames n (tuple_size kt) (concat (pg_bytes kt <$> fs)) = mapM (frame_line kt) fs.
Proof.
  induction fs as [|f fs IH]; intros n Hkt Hd Hn; [by destruct n|].
  apply Forall_cons in Hd as [Hf Hd]. destruct n as [|n]; [simpl in Hn; lia|].
  cbn [fmap list_fmap concat]. rewrite wire_frames_data by done.
  rewrite IH by (done || simpl in Hn; lia). done.
Qed.

Lemma wire_frames_enough sz : forall n m buf,
  (length buf <= n)%nat -> (length buf <= m)%nat -> wire_frames n sz buf = wire_frames m sz buf.
Proof.
  assert (forall m : nat, wire_frames m sz [] = Some []) as H0 by (by intros []).
  induction n as [|n IH]; intros m buf Hn Hm; [destruct buf; [by rewrite !H0|simpl in Hn; lia]|].
  destruct m as [|m]; [destruct buf; [done|simpl in Hm; lia]|].
  cbn [wire_frames]. destruct buf as [|msg [|b1 [|b2 bs]]]; try done.
  destruct (frame_layout _ _ _) as [payload label]. destruct (hexdump _ _ _) as [line|]; [|done].
  cbn [mbind option_bind]. rewrite (IH m); [done|rewrite length_drop; simpl in *; lia..].
Qed.

(** ** Properties *)

(** The dump prints one line per frame, with its label, size and bytes, for any
    sequence of data and RESET frames; a CONFIGURE frame is taken to be one byte
    shorter than it is, so that after it the dump continues at the session id
    byte instead of the next frame. *)
Theorem wire_dump_frames (kt : Z) (fs : list pg_frame) (c : ConfigurePayload) (rest : list Z) :
  known_key_type kt -> Forall is_data fs ->
  (exists lines, print_wire_frames (concat (pg_bytes kt <$> fs)) kt = Some lines /\
     Forall2 (fun f line => frame_line kt f = Some line) fs lines) /\
  print_wire_frames (pg_bytes kt (PConfigure c) ++ rest) kt =
    (line ← hexdump "CONFIGURE" (take 15 (pg_bytes kt (PConfigure c))) 15;
     lines ← print_wire_frames (cp_session_id c :: rest) kt;
     Some (line :: lines)).
Proof.
  intros Hkt Hd. unfold print_wire_frames. fold (tuple_size kt). split.
  - assert (length fs <= length (concat (pg_bytes kt <$> fs)))%nat as Hl.
    { clear Hd. induction fs as [|f fs IH]; [done|]. cbn [fmap list_fmap concat].
      rewrite length_app. destruct f; simpl; lia. }
    rewrite wire_frames_all by done. clear Hl.
    induction Hd as [|f fs _ _ (lines & Hm & Hf)]; [by exists []|].
    destruct (hexdump_some (frame_label f) (pg_bytes kt f)) as [line Hline]; [by destruct f|].
    fold (frame_line kt f) in Hline.
    exists (line :: lines). split; [|by constructor]. cbn [mapM]. rewrite Hline.
    cbn [mbind option_bind]. by rewrite Hm.
  - rewrite <- (hexdump_app _ (take 15 _) ([cp_session_id c] ++ rest)) by (simpl; lia).
    change (take 15 (pg_bytes kt (PConfigure c)) ++ [cp_session_id c] ++ rest) with
      (pg_bytes kt (PConfigure c) ++ rest).
    rewrite (wire_frames_enough _ (length (cp_session_id c :: rest))
      (length (pg_bytes kt (PConfigure c) ++ rest) - 1)) by (rewrite ?length_app; simpl; lia).
    rewrite length_app. cbn [pg_bytes header_bytes configure_bytes]. done.
Qed.

Lemma wire_dump_frames_witness :
  (exists lines, print_wire_frames (concat (pg_bytes 1 <$> [PInner employees; POuter orders; PReset])) 1 =
     Some lines /\
     Forall2 (fun f line => frame_line 1 f = Some line) [PInner employees; POuter orders; PReset] lines) /\
  print_wire_frames (pg_bytes 1 (PConfigure (mkConfigure 0 1 512 5 8 1)) ++ [8; 0; 0]) 1 =
    (line ← hexdump "CONFIGURE" (take 15 (pg_bytes 1 (PConfigure (mkConfigure 0 1 512 5 8 1)))) 15;
     lines ← print_wire_frames [1; 8; 0; 0] 1; Some (line :: lines)).
Proof.
  apply (wire_dump_frames 1 [PInner employees; POuter orders; PReset] (mkConfigure 0 1 512 5 8 1) [8; 0; 0]).
  - by left.
  - repeat constructor; simpl; lia.
Defined.

(** Three frames are dumped as sixteen; a CONFIGURE with session id 1 before a RESET
    makes the dump read past the buffer. *)
Example demo_dump_lines :
  length <$> print_wire_frames
    (concat (pg_bytes 1 <$> [PConfigure (mkConfigure 0 1 256 5 8 1); PInner employees; POuter orders])) 1
  = Some 16%nat.
Proof. reflexivity. Qed.

Example demo_dump_overruns :
  print_wire_frames (concat (pg_bytes 1 <$> [PConfigure (mkConfigure 0 1 256 5 8 1); PReset])) 1 = None.
Proof. reflexivity. Qed.

(** The demonstration never shows a result: when the clock stays within the hard
    timeout, the client rejects the software kernel's first acknowledgement of
    inner rows and its exception leaves [main] after the two tables. *)
Theorem demo_ends_uncaught (clock : nat -> Z) (fuel : nat) :
  (forall i k, (i <= k)%nat -> Z.quot (clock k - clock i) 1000000 < 1000) -> (0 < fuel)%nat ->
  demo clock fuel = Uncaught demo_tables (FpgaException BuildAckStalled).
Proof.
  intros Hc Hf. unfold demo.
  destruct (simulation_stalls clock demo_join_config employees orders
    (new_client software_kernel0 demo_client_config 0 0) fuel) as [c' ->]; try done.
  - by left.
  - repeat constructor; done.
Qed.

Lemma demo_ends_uncaught_witness :
  demo (fun _ => 0) 3 = Uncaught demo_tables (FpgaException BuildAckStalled).
Proof.
  apply (demo_ends_uncaught (fun _ => 0) 3).
  - intros i k _. reflexivity.
  - lia.
Defined.
