(* ===== verification/UdpTransport.v ===== *)
(** The UDP transport of the host, [host/src/udp_transport.cpp] (POSIX build).

    The operating system is a parameter: [UdpSocket] lists the calls the code
    makes on a bound socket, and [LawfulSocket] what their manual pages promise of
    a queue of datagrams.  The receive loops are bounded only by what arrives, so
    they run on a budget read off the socket; [Spin] reports that it was used up.
    Name resolution and [bind] are one call of the parameter [open_socket]; [Ports]
    has their steps and the destructor.  Log lines are left out. *)
From stdpp Require Import strings.
From S2P Require Import Prelude Types Stream Wire Transport Decoder.

(** ** Addresses *)

(** A [sockaddr_storage] with its length. *)
Record endpoint := mkEndpoint { ss_family : Z; ss_len : Z; sin_addr : Z; sin_port : Z }.
Definition AF_INET : Z := 2.
Definition sizeof_sockaddr_in : Z := 16.

Definition same_ipv4_endpoint (a b : endpoint) : bool :=
  if negb (ss_family a =? AF_INET) || negb (ss_family b =? AF_INET) then false
  else if (ss_len a <? sizeof_sockaddr_in) || (ss_len b <? sizeof_sockaddr_in) then false
  else (sin_addr a =? sin_addr b) && (sin_port a =? sin_port b).

(** ** System calls *)

Inductive select_result := SelError (eintr : bool) | SelTimeout | SelReady.
Inductive recvfrom_result := RecvError (eintr : bool) | RecvData (data : list Z) (src : endpoint).

(** [sys_sendto] returns the number of bytes sent or a negative value; the timeout
    of [sys_select] is in microseconds. *)
Class UdpSocket (Sk : Type) := {
  sys_sendto : list Z -> endpoint -> Sk -> Z * Sk;
  sys_select : Z -> Sk -> select_result * Sk;
  sys_recvfrom : nat -> Sk -> recvfrom_result * Sk;
  recv_budget : Sk -> nat }.

Record UdpTransport (Sk : Type) := mkUdp {
  sock : Sk;
  remote_addr : endpoint;
  recv_timeout : Z;
  max_payload : nat;
  rx_packet : list Z;
  rx_offset : nat }.
Arguments mkUdp {Sk}.
Arguments sock {Sk}.
Arguments remote_addr {Sk}.
Arguments recv_timeout {Sk}.
Arguments max_payload {Sk}.
Arguments rx_packet {Sk}.
Arguments rx_offset {Sk}.

Definition FPGA_UDP_PORT : Z := 50000.

(** [open_socket host port local_port] stands for getaddrinfo, socket, setsockopt
    and bind: the socket and the remote address, or a failure. *)
Definition open_udp {Sk} (open_socket : string -> Z -> Z -> option (Sk * endpoint))
    (remote_host : string) (remote_port local_port timeout_ms : Z) (max_datagram_payload : nat)
  : exn + UdpTransport Sk :=
  match open_socket remote_host remote_port local_port with
  | None => inl TransportError
  | Some (s, remote) =>
      inr (mkUdp s remote timeout_ms
             (if (max_datagram_payload =? 0)%nat then 1200%nat else max_datagram_payload) [] 0)
  end.

Section udp.
Context `{UdpSocket Sk}.
Local Abbreviation udp := (UdpTransport Sk).

Definition call {A} (f : Sk -> A * Sk) : H udp A := fun u =>
  let '(a, s) := f (sock u) in Done a (u <| sock := s |>).

(** Every round sends at least one byte when [max_payload] is positive. *)
Fixpoint send_chunks (n : nat) (data : list Z) : H udp unit :=
  match data with
  | [] => mret tt
  | _ =>
      match n with
      | O => spin
      | S n =>
          u ← hget;
          let chunk := (length data `min` max_payload u)%nat in
          sent ← call (sys_sendto (take chunk data) (remote_addr u));
          if sent <? 0 then throw TransportError
          else if negb (sent =? Z.of_nat chunk) then throw TransportError
          else send_chunks n (drop chunk data)
      end
  end.
Definition udp_send (data : list Z) : H udp unit := send_chunks (length data) data.

Definition RX_PACKET_BYTES : nat := Z.to_nat 65536.
Definition timeout_us (ms : Z) : Z := (ms / 1000) * 1000000 + (ms mod 1000) * 1000.

(** The [while] of [recv]: whether there is a packet to read from. *)
Fixpoint fill_packet (n : nat) : H udp bool :=
  u ← hget;
  if (rx_offset u <? length (rx_packet u))%nat then mret true
  else
    match n with
    | O => spin
    | S n =>
        hmodify (fun u => u <| rx_packet := [] |> <| rx_offset := 0%nat |>) ;;
        ready ← call (sys_select (timeout_us (recv_timeout u)));
        match ready with
        | SelError true => fill_packet n
        | SelError false => throw TransportError
        | SelTimeout => mret false
        | SelReady =>
            r ← call (sys_recvfrom RX_PACKET_BYTES);
            match r with
            | RecvError eintr =>
                hmodify (fun u => u <| rx_packet := replicate RX_PACKET_BYTES 0 |>) ;;
                if eintr then fill_packet n else throw TransportError
            | RecvData data src =>
                if negb (same_ipv4_endpoint src (remote_addr u)) then
                  hmodify (fun u => u <| rx_packet :=
                    data ++ replicate (RX_PACKET_BYTES - length data) 0 |>) ;;
                  fill_packet n
                else
                  hmodify (fun u => u <| rx_packet := data |>) ;;
                  fill_packet n
            end
        end
    end.

Definition udp_recv (max_len : nat) : H udp (list Z) :=
  if (max_len =? 0)%nat then mret []
  else
    u ← hget;
    filled ← fill_packet (recv_budget (sock u));
    if (filled : bool) then
      u ← hget;
      let available := (length (rx_packet u) - rx_offset u)%nat in
      let n := (max_len `min` available)%nat in
      let out := take n (drop (rx_offset u) (rx_packet u)) in
      hmodify (fun u => u <| rx_offset ::= fun o => (o + n)%nat |>) ;;
      hmodify (fun u => if (length (rx_packet u) <=? rx_offset u)%nat
                        then u <| rx_packet := [] |> <| rx_offset := 0%nat |> else u) ;;
      mret out
    else mret [].

Definition DISCARD_BYTES : nat := 2048.

(** The loop of [reset]: poll and throw away. *)
Fixpoint discard_pending (n : nat) : H udp unit :=
  match n with
  | O => spin
  | S n =>
      ready ← call (sys_select 0);
      match ready with
      | SelError _ | SelTimeout => mret tt
      | SelReady =>
          r ← call (sys_recvfrom DISCARD_BYTES);
          match r with
          | RecvError _ => mret tt
          | RecvData [] _ => mret tt
          | RecvData _ _ => discard_pending n
          end
      end
  end.

Definition udp_reset : H udp unit :=
  hmodify (fun u => u <| rx_packet := [] |> <| rx_offset := 0%nat |>) ;;
  u ← hget;
  discard_pending (recv_budget (sock u)).

Definition set_recv_timeout_ms (ms : Z) : H udp unit := hmodify (fun u => u <| recv_timeout := ms |>).

(** The loop of [drain_until_quiet]; [quiet] empty receives so far. *)
Fixpoint drain_loop (n : nat) (quiet quiet_timeouts : Z) (size : nat) : H udp unit :=
  if quiet <? quiet_timeouts then
    match n with
    | O => spin
    | S n =>
        got ← udp_recv size;
        match got with
        | [] => drain_loop n (quiet + 1) quiet_timeouts size
        | _ => drain_loop n 0 quiet_timeouts size
        end
    end
  else mret tt.

Definition drain_until_quiet (fuel : nat) (quiet_timeouts : Z) (discard_buffer_size : nat) : H udp unit :=
  if quiet_timeouts =? 0 then mret tt
  else
    let size := if (discard_buffer_size =? 0)%nat then DISCARD_BYTES else discard_buffer_size in
    hmodify (fun u => u <| rx_packet := [] |> <| rx_offset := 0%nat |>) ;;
    drain_loop fuel 0 quiet_timeouts size.

#[global] Instance udp_transport : Transport udp := {
  send := udp_send; recv := udp_recv; treset := udp_reset }.
End udp.

(** ** What the calls promise *)

(** [queued s] are the datagrams still to arrive, in order, with their sources;
    [posted s] those sent.  A call is not interrupted. *)
Class LawfulSocket (Sk : Type) `{UdpSocket Sk} := {
  queued : Sk -> list (list Z * endpoint);
  posted : Sk -> list (list Z * endpoint);
  budget_enough s : (length (queued s) < recv_budget s)%nat;
  sendto_law data dst s :
    let '(n, s') := sys_sendto data dst s in
    queued s' = queued s /\
    (n = Z.of_nat (length data) /\ posted s' = posted s ++ [(data, dst)] \/
     n <> Z.of_nat (length data) /\ posted s' = posted s);
  select_law us s :
    let '(r, s') := sys_select us s in
    queued s' = queued s /\ posted s' = posted s /\
    match r with SelError eintr => eintr = false | SelTimeout => True | SelReady => queued s <> [] end;
  recvfrom_law n s :
    let '(r, s') := sys_recvfrom n s in
    posted s' = posted s /\
    match r with
    | RecvError eintr => eintr = false /\ queued s' = queued s
    | RecvData data src =>
        exists d q, queued s = (d, src) :: q /\ queued s' = q /\ data = take n d
    end }.

Section lawful.
Context `{LawfulSocket Sk}.
Local Abbreviation udp := (UdpTransport Sk).


(** The bytes a receiver has still to get. *)
Definition udp_incoming (u : udp) : list Z :=
  drop (rx_offset u) (rx_packet u) ++ concat (fst <$> queued (sock u)).



(** The datagrams of a byte string. *)
Fixpoint datagrams (n m : nat) (data : list Z) : list (list Z) :=
  match n, data with
  | O, _ | _, [] => []
  | S n, _ => take (length data `min` m) data :: datagrams n m (drop (length data `min` m) data)
  end.

Lemma datagrams_spec m n : forall data,
  (0 < m)%nat -> (length data <= n)%nat ->
  concat (datagrams n m data) = data /\
  Forall (fun d => 0 < length d <= m)%nat (datagrams n m data) /\
  length (datagrams n m data) = ((length data + (m - 1)) / m)%nat.
Proof.
  induction n as [|n IH]; intros [|b data] Hm Hn; try (simpl in Hn; lia).
  { split_and!; [done|constructor|]. simpl. rewrite Nat.div_small; lia. }
  { split_and!; [done|constructor|]. simpl. rewrite Nat.div_small; lia. }
  remember (b :: data) as l eqn:Hl. assert (0 < length l)%nat as Hpos by (subst; simpl; lia).
  assert (datagrams (S n) m l = take (length l `min` m) l :: datagrams n m (drop (length l `min` m) l))
    as -> by (by subst).
  destruct (IH (drop (length l `min` m) l) Hm) as (Hc & Hf & Hlen); [rewrite length_drop; lia|].
  split_and!.
  - cbn [concat]. by rewrite Hc, take_drop.
  - constructor; [rewrite length_take; lia|done].
  - cbn [length]. rewrite Hlen, length_drop.
    destruct (Nat.le_gt_cases (length l) m) as [Hle|Hgt].
    + rewrite Nat.min_l, Nat.sub_diag, Nat.add_0_l, (Nat.div_small (m - 1)) by lia.
      apply (Nat.div_unique _ _ 1 (length l - 1)); lia.
    + rewrite Nat.min_r by lia. replace (length l + (m - 1))%nat with (length l - m + (m - 1) + 1 * m)%nat by lia.
      rewrite Nat.div_add by lia. lia.
Qed.

Lemma send_chunks_ok n : forall data u,
  (0 < max_payload u)%nat -> (length data <= n)%nat ->
  match send_chunks n data u with
  | Done _ u' =>
      posted (sock u') = posted (sock u) ++ ((., remote_addr u) <$> datagrams n (max_payload u) data) /\
      udp_incoming u' = udp_incoming u
  | Throw e u' =>
      e = TransportError /\ udp_incoming u' = udp_incoming u /\
      exists ds, ds `prefix_of` datagrams n (max_payload u) data /\
        posted (sock u') = posted (sock u) ++ ((., remote_addr u) <$> ds)
  | Spin => False
  end.
Proof.
  induction n as [|n IH]; intros [|b data] u Hm Hn; try (simpl in Hn; lia).
  { split; [by rewrite app_nil_r|done]. }
  { split; [by rewrite app_nil_r|done]. }
  remember (b :: data) as l eqn:Hl. assert (0 < length l)%nat as Hpos by (subst; simpl; lia).
  assert (datagrams (S n) (max_payload u) l =
    take (length l `min` max_payload u) l :: datagrams n (max_payload u) (drop (length l `min` max_payload u) l))
    as -> by (by subst).
  assert (forall Q : hres udp unit -> Prop,
    Q ((u0 ← hget; let chunk := (length l `min` max_payload u0)%nat in
        sent ← call (sys_sendto (take chunk l) (remote_addr u0));
        if sent <? 0 then throw TransportError
        else if negb (sent =? Z.of_nat chunk) then throw TransportError
        else send_chunks n (drop chunk l)) u) -> Q (send_chunks (S n) l u)) as Hunf by (by subst l).
  apply Hunf. clear Hunf. unfold mbind at 1, H_bind at 1, hget at 1. cbv zeta.
  set (k := (length l `min` max_payload u)%nat).
  pose proof (sendto_law (take k l) (remote_addr u) (sock u)) as Hlaw.
  unfold mbind, H_bind, call. destruct (sys_sendto _ _ _) as [sent s']. destruct Hlaw as [Hq Hpo].
  assert (udp_incoming (u <| sock := s' |>) = udp_incoming u) as Hi by (unfold udp_incoming; rcbn; by rewrite Hq).
  assert (length (take k l) = k) as Hlk by (rewrite length_take; lia). rewrite Hlk in Hpo.
  destruct (Z.ltb_spec sent 0) as [Hneg|Hnn].
  { split_and!; [done|done|]. exists []. split; [apply prefix_nil|]. destruct Hpo as [[??]|[_ Hpo]]; [lia|].
    change (sock (u <| sock := s' |>)) with s'. by rewrite Hpo, app_nil_r. }
  destruct (Z.eqb_spec sent (Z.of_nat k)) as [->|Hne]; cbn [negb].
  2: { split_and!; [done|done|]. exists []. split; [apply prefix_nil|]. destruct Hpo as [[??]|[_ Hpo]]; [lia|].
       change (sock (u <| sock := s' |>)) with s'. by rewrite Hpo, app_nil_r. }
  destruct Hpo as [[_ Hpo]|[? _]]; [|lia].
  set (u1 := u <| sock := s' |>) in *.
  assert (posted (sock u1) = posted (sock u) ++ [(take k l, remote_addr u)]) as Hpo1 by exact Hpo.
  specialize (IH (drop k l) u1 Hm). rewrite length_drop, Hi, Hpo1 in IH. specialize (IH ltac:(lia)).
  change (max_payload u1) with (max_payload u) in IH. change (remote_addr u1) with (remote_addr u) in IH.
  destruct (send_chunks n (drop k l) _) as [[] u'|e u'|]; [| |done].
  - destruct IH as [-> ->]. split; [|done]. rewrite fmap_cons, <- app_assoc. done.
  - destruct IH as (-> & -> & ds & Hds & ->). split_and!; [done|done|].
    exists (take k l :: ds). split; [by apply prefix_cons|]. rewrite fmap_cons, <- app_assoc. done.
Qed.
End lawful.

(** ** A network to run against *)

(** Datagrams waiting and datagrams sent. *)
Record net := mkNet { net_inbox : list (list Z * endpoint); net_outbox : list (list Z * endpoint) }.

#[global] Instance net_socket : UdpSocket net := {
  sys_sendto data dst s :=
    (Z.of_nat (length data), s <| net_outbox ::= (fun l => l ++ [(data, dst)]) |>);
  sys_select _ s := (match net_inbox s with [] => SelTimeout | _ => SelReady end, s);
  sys_recvfrom n s :=
    match net_inbox s with
    | [] => (RecvError false, s)
    | (d, src) :: q => (RecvData (take n d) src, s <| net_inbox := q |>)
    end;
  recv_budget s := S (length (net_inbox s)) }.

#[global] Program Instance net_lawful : LawfulSocket net := { queued := net_inbox; posted := net_outbox }.
Next Obligation. intros s. simpl. lia. Qed.
Next Obligation. intros data dst s. simpl. split; [done|]. by left. Qed.
Next Obligation. intros us s. simpl. destruct (net_inbox s) eqn:He; by rewrite ?He. Qed.
Next Obligation. intros n s. simpl. destruct (net_inbox s) as [|[d src] q] eqn:He; [done|]. split; [done|]. by exists d, q. Qed.

(** ** Claims *)


Definition board_addr : endpoint := mkEndpoint AF_INET 16 3232235786 50000.
Definition stranger : endpoint := mkEndpoint AF_INET 16 3232235999 7.


(** C24: [send] cuts a byte string into datagrams of at most [max_payload] bytes,
    none empty and as few as possible, and posts them to the peer in order; when a
    datagram is refused it throws, and exactly the datagrams before it were posted.
    What is still to be received is not touched. *)
Theorem udp_send_datagrams `{LawfulSocket Sk} (data : list Z) (u : UdpTransport Sk) :
  (0 < max_payload u)%nat ->
  exists ds,
    concat ds = data /\ Forall (fun d => 0 < length d <= max_payload u)%nat ds /\
    length ds = ((length data + (max_payload u - 1)) / max_payload u)%nat /\
    match udp_send data u with
    | Done _ u' =>
        posted (sock u') = posted (sock u) ++ ((., remote_addr u) <$> ds) /\
        udp_incoming u' = udp_incoming u
    | Throw e u' =>
        e = TransportError /\ udp_incoming u' = udp_incoming u /\
        exists ds', ds' `prefix_of` ds /\
          posted (sock u') = posted (sock u) ++ ((., remote_addr u) <$> ds')
    | Spin => False
    end.
Proof.
  intros Hm. exists (datagrams (length data) (max_payload u) data).
  destruct (datagrams_spec (max_payload u) (length data) data Hm (le_n _)) as (H1' & H2' & H3').
  split_and!; [done..|]. by apply send_chunks_ok.
Qed.

Lemma udp_send_datagrams_witness :
  exists ds, concat ds = [8; 0; 0] /\ length ds = 2%nat /\
    match udp_send [8; 0; 0] (mkUdp (mkNet [] []) board_addr 100 2 [] 0) with
    | Done _ u' => net_outbox (sock u') = (., board_addr) <$> ds
    | _ => False
    end.
Proof.
  destruct (udp_send_datagrams [8; 0; 0] (mkUdp (mkNet [] []) board_addr 100 2 [] 0))
    as (ds & Hc & _ & Hl & Hs); [simpl; lia|].
  exists ds. split; [done|]. split; [done|]. exact (proj1 Hs).
Defined.

(** A datagram from another endpoint is not dropped.  The receive buffer was
    resized to 65536 bytes before the source is compared, so the loop that should
    go on to the next datagram ends, and [recv] hands out the stranger's bytes. *)
Theorem udp_recv_leaks (n : nat) (u : UdpTransport net) (d : list Z) (src : endpoint)
    (q : list (list Z * endpoint)) :
  (0 < n <= length d)%nat -> (length d <= RX_PACKET_BYTES)%nat ->
  (length (rx_packet u) <= rx_offset u)%nat -> net_inbox (sock u) = (d, src) :: q ->
  same_ipv4_endpoint src (remote_addr u) = false ->
  exists u', udp_recv n u = Done (take n d) u'.
Proof.
  destruct u as [[ib ob] ra rt mp pk off]. intros Hn Hl Hoff Hq Hsrc.
  cbn [rx_packet rx_offset sock net_inbox remote_addr] in *. subst ib.
  set (u := mkUdp (mkNet ((d, src) :: q) ob) ra rt mp pk off). unfold udp_recv. destruct (Nat.eqb_spec n 0); [lia|].
  rewrite (hbind_Done hget _ u u u) by done. change (recv_budget (sock u)) with (S (S (length q))).
  set (u1 := u <| rx_packet := [] |> <| rx_offset := 0%nat |>).
  set (u2 := u1 <| sock := (sock u) <| net_inbox := q |> |>
                <| rx_packet := d ++ replicate (RX_PACKET_BYTES - length d) 0 |>).
  assert (rx_packet u2 = d ++ replicate (RX_PACKET_BYTES - length d) 0) as Hpk by done.
  assert (rx_offset u2 = 0%nat) as Ho by done.
  assert (0 < length (rx_packet u2))%nat as Hpos by (rewrite Hpk, length_app; lia).
  assert (fill_packet (S (S (length q))) u = Done true u2) as Hf.
  { cbn [fill_packet]. rewrite (hbind_Done hget _ u u u) by done.
    change (rx_offset u) with off. change (rx_packet u) with pk.
    destruct (Nat.ltb_spec off (length pk)); [lia|].
    rewrite (hbind_Done _ _ u tt u1), (hbind_Done _ _ u1 SelReady u1) by done.
    rewrite (hbind_Done _ _ u1 (RecvData d src) (u1 <| sock := (sock u) <| net_inbox := q |> |>)).
    2: { unfold call. cbn -[RX_PACKET_BYTES take]. by rewrite take_ge by lia. }
    change (remote_addr u) with ra. rewrite Hsrc. cbn [negb]. rewrite (hbind_Done _ _ _ tt u2) by done.
    rewrite (hbind_Done hget _ u2 u2 u2) by done. rewrite Ho.
    by destruct (Nat.ltb_spec 0 (length (rx_packet u2))); [|lia]. }
  rewrite (hbind_Done _ _ _ _ _ Hf). rewrite (hbind_Done hget _ u2 u2 u2) by done.
  rewrite Ho, Hpk, drop_0, Nat.sub_0_r, Nat.min_l by (rewrite length_app; lia).
  rewrite take_app_le by lia. by eexists.
Qed.

Lemma udp_recv_leaks_witness :
  exists u', udp_recv 2 (mkUdp (mkNet [([66; 67; 68], stranger)] []) board_addr 100 1200 [] 0) =
    Done [66; 67] u'.
Proof.
  apply (udp_recv_leaks 2 (mkUdp (mkNet [([66; 67; 68], stranger)] []) board_addr 100 1200 [] 0)
    [66; 67; 68] stranger []).
  - simpl. lia.
  - unfold RX_PACKET_BYTES. simpl length. lia.
  - simpl. lia.
  - reflexivity.
  - reflexivity.
Defined.
