(* ===== verification/UartTransport.v ===== *)
(** The serial transport of the host, [host/src/uart_transport.cpp] (POSIX build).

    The terminal is a parameter: [Tty] lists the calls on an open descriptor and
    [LawfulTty] what read(2) and write(2) promise of it.  A [write] that keeps
    accepting nothing makes [send] loop; [uart_budget] bounds the rounds. *)
From stdpp Require Import strings.
From S2P Require Import Prelude Types Stream Wire Transport Decoder.

(** ** Line parameters *)

Inductive speed_t := B9600 | B19200 | B38400 | B57600 | B115200 | B230400 | B460800 | B921600.

Definition baud_to_speed (baud : Z) : option speed_t :=
  if baud =? 9600 then Some B9600 else if baud =? 19200 then Some B19200
  else if baud =? 38400 then Some B38400 else if baud =? 57600 then Some B57600
  else if baud =? 115200 then Some B115200 else if baud =? 230400 then Some B230400
  else if baud =? 460800 then Some B460800 else if baud =? 921600 then Some B921600
  else None.

(** The VTIME setting, in tenths of a second. *)
Definition vtime_tenths (recv_timeout_ms : Z) : Z :=
  let t := u32 (recv_timeout_ms + 99) / 100 in
  let t := if t =? 0 then 1 else t in
  if 255 <? t then 255 else t.

(** ** System calls *)

(** [sys_write] and [sys_read] return a negative count or no data for an error. *)
Class Tty (F : Type) := {
  sys_write : list Z -> F -> Z * F;
  sys_read : nat -> F -> option (list Z) * F;
  sys_tcflush : F -> F;
  uart_budget : F -> nat }.

Record UartTransport (F : Type) := mkUart { uart_fd : F; uart_speed : speed_t; uart_vtime : Z }.
Arguments mkUart {F}.
Arguments uart_fd {F}.
Arguments uart_speed {F}.
Arguments uart_vtime {F}.

(** [open_tty] stands for open and tcgetattr, [configure_tty] for tcsetattr. *)
Definition open_uart `{Tty F} (open_tty : string -> option F)
    (configure_tty : speed_t -> Z -> F -> option F) (port : string) (baud timeout_ms : Z)
  : exn + UartTransport F :=
  match open_tty port with
  | None => inl TransportError
  | Some f =>
      match baud_to_speed baud with
      | None => inl TransportError
      | Some spd =>
          match configure_tty spd (vtime_tenths timeout_ms) f with
          | None => inl TransportError
          | Some f => inr (mkUart (sys_tcflush f) spd (vtime_tenths timeout_ms))
          end
      end
  end.

Section uart.
Context `{Tty F}.
Local Abbreviation uart := (UartTransport F).

Definition fd_call {A} (f : F -> A * F) : H uart A := fun u =>
  let '(a, fd) := f (uart_fd u) in Done a (u <| uart_fd := fd |>).

Fixpoint write_loop (n : nat) (data : list Z) : H uart unit :=
  match data with
  | [] => mret tt
  | _ =>
      match n with
      | O => spin
      | S n =>
          written ← fd_call (sys_write data);
          if written <? 0 then throw TransportError
          else write_loop n (drop (Z.to_nat written) data)
      end
  end.
Definition uart_send (data : list Z) : H uart unit := fun u =>
  write_loop (length data + uart_budget (uart_fd u)) data u.

Definition uart_recv (max_len : nat) : H uart (list Z) :=
  r ← fd_call (sys_read max_len);
  match r with
  | None => throw TransportError
  | Some bs => mret bs
  end.

Definition uart_reset : H uart unit := hmodify (fun u => u <| uart_fd ::= sys_tcflush |>).

#[global] Instance uart_transport : Transport uart := {
  send := uart_send; recv := uart_recv; treset := uart_reset }.
End uart.

(** ** What the calls promise *)

(** [tty_in] are the bytes still to be read. *)
Class ReadableTty (F : Type) `{Tty F} := {
  tty_in : F -> list Z;
  read_law n f :
    let '(r, f') := sys_read n f in
    match r with
    | None => True
    | Some bs => (length bs <= n)%nat /\ bs ++ tty_in f' = tty_in f
    end }.

(** [tty_out] are the bytes written.  [write] takes a non-empty prefix of what it
    is given, or fails. *)
Class LawfulTty (F : Type) `{ReadableTty F} := {
  tty_out : F -> list Z;
  write_law data f :
    data <> [] ->
    let '(n, f') := sys_write data f in
    tty_in f' = tty_in f /\
    (n < 0 /\ tty_out f' = tty_out f \/
     0 < n <= Z.of_nat (length data) /\ tty_out f' = tty_out f ++ take (Z.to_nat n) data) }.

Section lawful.
Context `{LawfulTty F}.

Lemma write_loop_ok n : forall data (u : UartTransport F),
  (length data <= n)%nat ->
  match write_loop n data u with
  | Done _ u' => tty_out (uart_fd u') = tty_out (uart_fd u) ++ data /\
                 tty_in (uart_fd u') = tty_in (uart_fd u)
  | Throw e u' =>
      e = TransportError /\ exists k, tty_out (uart_fd u') = tty_out (uart_fd u) ++ take k data
  | Spin => False
  end.
Proof.
  induction n as [|n IH]; intros [|b data] u Hn; try (simpl in Hn; lia).
  { split; [by rewrite app_nil_r|done]. }
  { split; [by rewrite app_nil_r|done]. }
  pose proof (write_law (b :: data) (uart_fd u) ltac:(done)) as Hlaw. cbn [write_loop].
  unfold mbind, H_bind, fd_call. destruct (sys_write _ _) as [w f']. destruct Hlaw as [Hin Hout].
  destruct (Z.ltb_spec w 0) as [Hneg|Hpos].
  - split; [done|]. exists 0%nat. destruct Hout as [[_ Hout]|[? _]]; [|lia].
    cbn. by rewrite app_nil_r.
  - destruct Hout as [[? _]|[Hw Hout]]; [lia|].
    set (u1 := u <| uart_fd := f' |>).
    assert (tty_out (uart_fd u1) = tty_out (uart_fd u) ++ take (Z.to_nat w) (b :: data)) as Ho1 by exact Hout.
    assert (tty_in (uart_fd u1) = tty_in (uart_fd u)) as Hi1 by exact Hin.
    specialize (IH (drop (Z.to_nat w) (b :: data)) u1). rewrite length_drop, Ho1, Hi1 in IH.
    specialize (IH ltac:(simpl in *; lia)).
    destruct (write_loop n _ u1) as [[] u'|e u'|]; [| |done].
    + destruct IH as [-> ->]. by rewrite <- app_assoc, take_drop.
    + destruct IH as (-> & k & ->). split; [done|]. exists (Z.to_nat w + k)%nat.
      by rewrite <- app_assoc, take_take_drop.
Qed.

End lawful.

#[global] Program Instance uart_lawful `{ReadableTty F} : LawfulTransport (UartTransport F) := {
  incoming u := tty_in (uart_fd u) }.
Next Obligation.
  intros F ? ? n u Hn. simpl. unfold uart_recv, mbind, H_bind, fd_call.
  pose proof (read_law n (uart_fd u)) as Hlaw. by destruct (sys_read n (uart_fd u)) as [[bs|] f'].
Qed.

(** ** A line to run against *)

(** A terminal that takes at most [line_burst] bytes per write. *)
Record line := mkLine { line_in : list Z; line_out : list Z; line_burst : nat }.

#[global] Instance line_tty : Tty line := {
  sys_write data f :=
    let n := (length data `min` S (line_burst f))%nat in
    (Z.of_nat n, f <| line_out ::= (fun o => o ++ take n data) |>);
  sys_read n f := (Some (take n (line_in f)), f <| line_in ::= drop n |>);
  sys_tcflush f := f <| line_in := [] |>;
  uart_budget _ := 0%nat }.

#[global] Program Instance line_readable : ReadableTty line := { tty_in := line_in }.
Next Obligation.
  intros n f. simpl. rewrite length_take. split; [lia|]. apply take_drop.
Qed.

#[global] Program Instance line_lawful : LawfulTty line := { tty_out := line_out }.
Next Obligation.
  intros data f Hne. simpl. split; [done|]. right. destruct data; [done|]. simpl length.
  split; [lia|]. by rewrite Nat2Z.id.
Qed.

(** ** Claims *)

(** C23: over a serial line whose [write] makes progress, [UartTransport] keeps
    the transport contract.  [send] writes the whole byte string, in order, however
    the driver splits it, or throws with a prefix written; it never loops.  What
    [recv] returns is the next bytes of the line, so the decoder reads a kernel
    frame off it exactly, or reports no data, or throws. *)
Theorem uart_keeps_contract `{LawfulTty F} (data : list Z) (f : fp_frame) (d : ResultDecoder)
    (o : frame_out) (u : UartTransport F) (rest : list Z) :
  frame_wire f -> tty_in (uart_fd u) = fp_bytes f ++ rest ->
  match uart_send data u with
  | Done _ u' => tty_out (uart_fd u') = tty_out (uart_fd u) ++ data /\
                 tty_in (uart_fd u') = tty_in (uart_fd u)
  | Throw e u' =>
      e = TransportError /\ exists k, tty_out (uart_fd u') = tty_out (uart_fd u) ++ take k data
  | Spin => False
  end /\
  match recv_frame d o u with
  | Done r u' =>
      (r = deliver f d o /\ tty_in (uart_fd u') = rest) \/
      (r = (None, d, o) /\ tty_in (uart_fd u') = tty_in (uart_fd u))
  | Throw e _ => e = TransportError \/ e = PartialFrame
  | Spin => False
  end.
Proof.
  intros Hf Hin. split.
  - unfold uart_send. apply write_loop_ok. lia.
  - pose proof (recv_frame_next True (or_introl I) f d o u rest Hf Hin) as Hr.
    destruct (recv_frame d o u); naive_solver.
Qed.

Lemma uart_keeps_contract_witness :
  match uart_send [8; 0; 0] (mkUart (mkLine [7; 1; 0; 3] [] 1) B115200 2) with
  | Done _ u' => line_out (uart_fd u') = [8; 0; 0] /\ line_in (uart_fd u') = [7; 1; 0; 3]
  | Throw _ _ | Spin => False
  end.
Proof.
  destruct (uart_keeps_contract [8; 0; 0] (FError 3) decoder0 out0
    (mkUart (mkLine [7; 1; 0; 3] [] 1) B115200 2) []) as [Hs _].
  - unfold frame_wire, is_byte. lia.
  - reflexivity.
  - exact Hs.
Defined.
