(* ===== verification/Ports.v ===== *)
(** Opening and closing the devices: the constructors and destructors of
    [host/src/uart_transport.cpp] (POSIX and Windows) and
    [host/src/udp_transport.cpp], with the Windows build's reads and writes.

    The operating system is a parameter: a record of the results its calls give
    ([uart_os], [win_os], [udp_os]).  A constructor returns the calls it made, in
    order, and either the exception it throws or the handle the object owns; a
    destructor runs only for an object that was constructed.  [lifetime] is the
    whole life of one object.  Exceptions carry their message.  Log lines are left
    out, but for [hex_prefix], the text they quote. *)
From stdpp Require Import strings.
From S2P Require Import Prelude Types Transport UartTransport Text.

(** ** Quoted bytes *)

Definition hex_digit (d : Z) : Ascii.ascii :=
  Ascii.ascii_of_nat (Z.to_nat (if d <? 10 then 48 + d else 55 + d)).

(** The characters [snprintf ("%02X ")] appends for each byte. *)
Fixpoint hex_cells (bs : list Z) : list Ascii.ascii :=
  match bs with
  | [] => []
  | b :: bs => hex_digit (b / 16) :: hex_digit (b mod 16) :: Ascii.ascii_of_nat 32 :: hex_cells bs
  end.

(** The contents of [buf] up to the terminator; [None] when it was never written. *)
Definition hex_prefix (bs : list Z) : option (list Ascii.ascii) :=
  let n := (length bs `min` 8)%nat in
  let cells := hex_cells (take n bs) in
  if (length cells =? 0)%nat then None else Some (take (length cells - 1) cells).

(** ** System calls *)

(** The calls that acquire, set up and release handles. *)
Inductive os_call :=
| Acquire (h : Z)
| SetLine (h : Z) (speed : Z) (timeout : Z)
| Flush (h : Z)
| Release (h : Z)
| WsaStartup (ok : bool)
| WsaCleanup.

(** [SetLine] takes the speed and the read timeout in the units of the platform. *)
Definition ctor_result : Type := list os_call * (string + Z).

(** *** POSIX serial port *)

Record uart_os := mkUartOs {
  os_open : string -> option Z;
  os_tcgetattr : Z -> bool;
  os_tcsetattr : Z -> bool;
  os_strerror : string }.

Definition throw_posix (o : uart_os) (ctx : string) : string + Z := inl (ctx +:+ ": " +:+ os_strerror o).

Definition uart_ctor (o : uart_os) (port : string) (baud_rate recv_timeout_ms : Z) : ctor_result :=
  match os_open o port with
  | None => ([], throw_posix o ("UartTransport: open " +:+ port))
  | Some fd =>
      if negb (os_tcgetattr o fd) then ([Acquire fd], throw_posix o "UartTransport: tcgetattr")
      else
        match baud_to_speed baud_rate with
        | None => ([Acquire fd], inl ("UartTransport: unsupported baud rate " +:+ dec baud_rate))
        | Some _ =>
            if negb (os_tcsetattr o fd) then ([Acquire fd], throw_posix o "UartTransport: tcsetattr")
            else ([Acquire fd; SetLine fd baud_rate (vtime_tenths recv_timeout_ms); Flush fd], inr fd)
        end
  end.

(** [fd_] is never negative in an object that was constructed. *)
Definition uart_dtor (fd : Z) : list os_call := if 0 <=? fd then [Release fd] else [].

(** *** Windows serial port *)

Record DCB := mkDcb {
  BaudRate : Z; ByteSize : Z; Parity : Z; StopBits : Z; fBinary : bool; fParity : bool;
  fOutxCtsFlow : bool; fOutxDsrFlow : bool; fDtrControl : Z; fRtsControl : Z; fOutX : bool; fInX : bool }.

Record COMMTIMEOUTS := mkTimeouts {
  ReadIntervalTimeout : Z; ReadTotalTimeoutMultiplier : Z; ReadTotalTimeoutConstant : Z;
  WriteTotalTimeoutMultiplier : Z; WriteTotalTimeoutConstant : Z }.

Record win_os := mkWinOs {
  os_create_file : string -> option Z;
  os_get_comm_state : Z -> option DCB;
  os_set_comm_state : Z -> DCB -> bool;
  os_set_comm_timeouts : Z -> COMMTIMEOUTS -> bool;
  os_error_text : list Ascii.ascii }.

Definition NOPARITY : Z := 0.
Definition ONESTOPBIT : Z := 0.
Definition DTR_CONTROL_DISABLE : Z := 0.
Definition RTS_CONTROL_DISABLE : Z := 0.

(** Drop the line ends FormatMessage appends. *)
Definition is_line_end (c : Ascii.ascii) : bool := (char_code c =? 13) || (char_code c =? 10).
Fixpoint drop_line_ends (rev : list Ascii.ascii) : list Ascii.ascii :=
  match rev with
  | c :: rest => if is_line_end c then drop_line_ends rest else rev
  | [] => []
  end.
Definition stripped (text : list Ascii.ascii) : list Ascii.ascii := reverse (drop_line_ends (reverse text)).

Definition throw_win32 (o : win_os) (ctx : string) : string + Z :=
  inl (ctx +:+ ": " +:+ String.string_of_list_ascii (stripped (os_error_text o))).

(** COM10 and above need the device prefix. *)
Definition device_path (port : string) : string :=
  let prefix := String.substring 0 3 port in
  match port with
  | String c _ =>
      if (3 <=? String.length port)%nat && negb (char_code c =? 92) &&
         (String.eqb prefix "COM" || String.eqb prefix "com")
      then "\\.\" +:+ port else port
  | EmptyString => port
  end.

(** The line settings asked for, on top of the current ones. *)
Definition line_settings (baud_rate : Z) (dcb : DCB) : DCB :=
  dcb <| BaudRate := baud_rate |> <| ByteSize := 8 |> <| Parity := NOPARITY |>
      <| StopBits := ONESTOPBIT |> <| fBinary := true |> <| fParity := false |>
      <| fOutxCtsFlow := false |> <| fOutxDsrFlow := false |>
      <| fDtrControl := DTR_CONTROL_DISABLE |> <| fRtsControl := RTS_CONTROL_DISABLE |>
      <| fOutX := false |> <| fInX := false |>.

Definition comm_timeouts (recv_timeout_ms : Z) : COMMTIMEOUTS := mkTimeouts 0 0 recv_timeout_ms 0 0.

Definition win_uart_ctor (o : win_os) (port : string) (baud_rate recv_timeout_ms : Z) : ctor_result :=
  match os_create_file o (device_path port) with
  | None => ([], throw_win32 o ("UartTransport: open " +:+ port))
  | Some h =>
      match os_get_comm_state o h with
      | None => ([Acquire h], throw_win32 o "UartTransport: GetCommState")
      | Some dcb =>
          if negb (os_set_comm_state o h (line_settings baud_rate dcb))
          then ([Acquire h], throw_win32 o "UartTransport: SetCommState")
          else if negb (os_set_comm_timeouts o h (comm_timeouts recv_timeout_ms))
          then ([Acquire h], throw_win32 o "UartTransport: SetCommTimeouts")
          else ([Acquire h; SetLine h baud_rate recv_timeout_ms; Flush h], inr h)
      end
  end.

Definition INVALID_HANDLE_VALUE : Z := -1.
Definition win_uart_dtor (h : Z) : list os_call :=
  if negb (h =? INVALID_HANDLE_VALUE) then [Release h] else [].

(** *** UDP socket *)

Record udp_os := mkUdpOs {
  windows : bool;  (** compiled with _WIN32 *)
  os_wsa_startup : bool;
  os_getaddrinfo : string -> Z -> option Z;
  os_socket : option Z;
  os_bind : Z -> Z -> bool;
  os_socket_error : string }.

(** The message of a failed name resolution names the resolver's error code. *)
Definition resolve_ipv4_udp (o : udp_os) (host : string) (port : Z) : string + Z :=
  match os_getaddrinfo o host port with
  | None => inl ("UdpTransport: getaddrinfo: " +:+ os_socket_error o)
  | Some addr => inr addr
  end.

Definition throw_socket_error (o : udp_os) (ctx : string) : string + Z :=
  inl (ctx +:+ ": " +:+ os_socket_error o).

Definition close_socket (o : udp_os) (s : Z) : list os_call :=
  if windows o then (if negb (s =? INVALID_HANDLE_VALUE) then [Release s] else [])
  else (if 0 <=? s then [Release s] else []).

(** Past the Winsock start-up. *)
Definition udp_open (o : udp_os) (host : string) (remote_port local_port : Z) : ctor_result :=
  match resolve_ipv4_udp o host remote_port with
  | inl e => ([], inl e)
  | inr _ =>
      match os_socket o with
      | None => ([], throw_socket_error o "UdpTransport: socket")
      | Some s =>
          if negb (os_bind o s local_port)
          then (Acquire s :: close_socket o s, throw_socket_error o "UdpTransport: bind")
          else ([Acquire s], inr s)
      end
  end.

(** With the static counter [wsa_users] before and after. *)
Definition udp_ctor (o : udp_os) (host : string) (remote_port local_port : Z) (wsa_users : Z)
  : ctor_result * Z :=
  if windows o then
    let users := wsa_users + 1 in
    if wsa_users =? 0 then
      if negb (os_wsa_startup o)
      then ([WsaStartup false], throw_socket_error o "UdpTransport: WSAStartup", users)
      else let '(calls, r) := udp_open o host remote_port local_port in
           (WsaStartup true :: calls, r, users)
    else (udp_open o host remote_port local_port, users)
  else (udp_open o host remote_port local_port, wsa_users).

Definition udp_dtor (o : udp_os) (s : Z) (wsa_users : Z) : list os_call * Z :=
  let closed := close_socket o s in
  if windows o then
    let users := wsa_users - 1 in
    (closed ++ (if users =? 0 then [WsaCleanup] else []), users)
  else (closed, wsa_users).

(** [ntohs] of the port [getsockname] reports, in network byte order. *)
Definition ntohs (v : Z) : Z := u16 (Z.lor (Z.shiftl v 8) (Z.shiftr v 8)).
Definition local_port (o : udp_os) (getsockname : Z -> option Z) (s : Z) : string + Z :=
  match getsockname s with
  | None => throw_socket_error o "UdpTransport: getsockname"
  | Some sin_port => inr (ntohs sin_port)
  end.

(** ** Lifetimes *)

(** All calls of one object: construction and, if it succeeded, destruction. *)
Definition lifetime (r : ctor_result) (dtor : Z -> list os_call) : list os_call :=
  r.1 ++ match r.2 with inl _ => [] | inr h => dtor h end.

(** Handles acquired and not released by the end, most recent first. *)
Definition held1 (hs : list Z) (c : os_call) : list Z :=
  match c with
  | Acquire h => h :: hs
  | Release h => filter (fun h' => h' <> h) hs
  | _ => hs
  end.
Definition held (calls : list os_call) : list Z := foldl held1 [] calls.

(** ** Reads and writes of the Windows build *)

(** [WriteFile] and [ReadFile] fail or report a count; [PurgeComm] empties both
    buffers. *)
Class CommPort (F : Type) := {
  write_file : list Z -> F -> option Z * F;
  read_file : nat -> F -> option (list Z) * F;
  purge_comm : F -> F;
  win_budget : F -> nat }.

(** The calls of the POSIX build on the same device. *)
#[global] Instance comm_tty `{CommPort F} : Tty F := {
  sys_write data f := let '(r, f) := write_file data f in (default (-1) r, f);
  sys_read := read_file;
  sys_tcflush := purge_comm;
  uart_budget := win_budget }.

Section win_uart.
Context `{CommPort F}.
Local Abbreviation uart := (UartTransport F).

Fixpoint win_write_loop (n : nat) (data : list Z) : H uart unit :=
  match data with
  | [] => mret tt
  | _ =>
      match n with
      | O => spin
      | S n =>
          r ← fd_call (write_file data);
          match r with
          | None => throw TransportError
          | Some written => win_write_loop n (drop (Z.to_nat written) data)
          end
      end
  end.
Definition win_send (data : list Z) : H uart unit := fun u =>
  win_write_loop (length data + win_budget (uart_fd u)) data u.

Definition win_recv (max_len : nat) : H uart (list Z) :=
  r ← fd_call (read_file max_len);
  match r with
  | None => throw TransportError
  | Some bs => mret bs
  end.

Definition win_reset : H uart unit := hmodify (fun u => u <| uart_fd ::= purge_comm |>).

Lemma win_write_loop_eq n : forall data u,
  (forall data f, match (write_file data f).1 with Some w => 0 <= w | None => True end) ->
  win_write_loop n data u = write_loop n data u.
Proof.
  induction n as [|n IH]; intros [|b data] u Hw; try done.
  cbn [win_write_loop write_loop]. unfold mbind, H_bind, fd_call. cbn [sys_write comm_tty].
  specialize (Hw (b :: data) (uart_fd u)) as Hw1.
  destruct (write_file (b :: data) (uart_fd u)) as [[w|] f]; cbn in Hw1 |- *; [|done].
  replace (w <? 0) with false by lia. by apply IH.
Qed.

(** On one device the two builds behave alike, as long as a successful [WriteFile]
    reports a count. *)
Lemma win_uart_same (data : list Z) (n : nat) (u : uart) :
  (forall data f, match (write_file data f).1 with Some w => 0 <= w | None => True end) ->
  win_send data u = uart_send data u /\ win_recv n u = uart_recv n u /\ win_reset u = uart_reset u.
Proof. intros Hw. split; [by apply win_write_loop_eq|done]. Qed.
End win_uart.

(** ** Lemmas *)

Lemma length_hex_cells bs : length (hex_cells bs) = (3 * length bs)%nat.
Proof. induction bs as [|b bs IH]; [done|]. cbn [hex_cells length]. rewrite IH. lia. Qed.

(** The quotation of a non-empty message: three characters per byte for at most
    eight bytes, less the last space, within the 32 bytes of [buf]. *)
Lemma hex_prefix_fits bs :
  bs <> [] -> exists s, hex_prefix bs = Some s /\
    S (length s) = (3 * (length bs `min` 8))%nat /\ (length s < 24)%nat.
Proof.
  intros Hne. unfold hex_prefix. rewrite length_hex_cells, length_take.
  destruct bs as [|b bs]; [done|].
  assert ((3 * ((length (b :: bs) `min` 8) `min` length (b :: bs)) =? 0)%nat = false) as ->
    by (apply Nat.eqb_neq; simpl; lia).
  eexists. split; [done|]. rewrite length_take, length_hex_cells, length_take. simpl. lia.
Qed.

(** An empty message is quoted from an array nobody wrote. *)
Example hex_prefix_empty : hex_prefix [] = None.
Proof. reflexivity. Qed.

Lemma held_once h : held [Acquire h; Release h] = [].
Proof. unfold held. simpl. rewrite filter_cons_False; [done|]. naive_solver. Qed.

(** *** The device path *)

Example device_path_com10 : device_path "COM10" = "\\.\COM10". Proof. reflexivity. Qed.
Example device_path_kept : (device_path "\\.\COM10", device_path "/dev/ttyUSB0") =
  ("\\.\COM10", "/dev/ttyUSB0"). Proof. reflexivity. Qed.

(** After a failed WSAStartup the counter says that Winsock is in use, so a later
    constructor does not start it. *)
Lemma wsa_startup_not_retried o o' host rp lp :
  windows o = true -> windows o' = true -> os_wsa_startup o = false ->
  let '(_, users) := udp_ctor o host rp lp 0 in
  users = 1 /\ forall ok, WsaStartup ok ∉ (udp_ctor o' host rp lp users).1.1.
Proof.
  intros Hw Hw' Hs. unfold udp_ctor. rewrite Hw, Hs. simpl. split; [done|]. intros ok.
  rewrite Hw'. simpl. unfold udp_open, close_socket. rewrite Hw'.
  destruct (resolve_ipv4_udp o' host rp) as [e|a]; simpl; [set_solver|].
  destruct (os_socket o') as [s|]; simpl; [|set_solver].
  destruct (os_bind o' s lp); simpl; [set_solver|]. destruct (s =? _); simpl; set_solver.
Qed.

(** *** Handles held at the end of a lifetime *)

(** Winsock's reference counting acquires no handle. *)
Lemma held_wsa ok calls : held (WsaStartup ok :: calls) = held calls.
Proof. done. Qed.
Lemma held_flushed h v t calls : held ([Acquire h; SetLine h v t; Flush h] ++ calls) = held (Acquire h :: calls).
Proof. done. Qed.

Lemma held_closed h users : held (Acquire h :: Release h :: (if users =? 0 then [WsaCleanup] else [])) = [].
Proof. pose proof (held_once h) as Hh. by destruct (users =? 0). Qed.

Lemma udp_open_released o host rp lp users :
  (forall s, os_socket o = Some s -> 0 <= s) ->
  held (lifetime (udp_open o host rp lp) (fun s => (udp_dtor o s users).1)) = [].
Proof.
  intros Hs. unfold udp_open, lifetime.
  destruct (resolve_ipv4_udp o host rp) as [e|a]; [done|].
  destruct (os_socket o) as [s|] eqn:Eo; [|done]. specialize (Hs s eq_refl).
  assert (close_socket o s = [Release s]) as Hc.
  { unfold close_socket, INVALID_HANDLE_VALUE. destruct (windows o).
    - by replace (s =? -1) with false by lia.
    - by replace (0 <=? s) with true by lia. }
  destruct (os_bind o s lp); cbn [negb fst snd app]; unfold udp_dtor; rewrite Hc.
  - destruct (windows o); [apply held_closed|apply held_once].
  - apply held_once.
Qed.

Lemma udp_released o host rp lp users :
  (forall s, os_socket o = Some s -> 0 <= s) ->
  let '(r, users') := udp_ctor o host rp lp users in
  held (lifetime r (fun s => (udp_dtor o s users').1)) = [].
Proof.
  intros Hs. unfold udp_ctor.
  destruct (windows o); [|by apply udp_open_released]. destruct (users =? 0); [|by apply udp_open_released].
  destruct (os_wsa_startup o); [|done]. cbn [negb].
  pose proof (udp_open_released o host rp lp (users + 1) Hs) as Ho.
  by destruct (udp_open o host rp lp) as [calls r].
Qed.

Lemma uart_held o port baud timeout :
  (forall fd, os_open o port = Some fd -> 0 <= fd) ->
  held (lifetime (uart_ctor o port baud timeout) uart_dtor) =
    match os_open o port, (uart_ctor o port baud timeout).2 with
    | Some fd, inl _ => [fd]
    | _, _ => []
    end.
Proof.
  intros Hu. unfold uart_ctor, lifetime. destruct (os_open o port) as [fd|] eqn:Eo; [|done].
  specialize (Hu fd eq_refl). destruct (os_tcgetattr o fd); [|done]. cbn [negb].
  destruct (baud_to_speed baud); [|done]. destruct (os_tcsetattr o fd); [|done]. cbn [negb fst snd].
  rewrite held_flushed. unfold uart_dtor. replace (0 <=? fd) with true by lia. apply held_once.
Qed.

Lemma win_uart_held o port baud timeout :
  (forall h, os_create_file o (device_path port) = Some h -> h <> INVALID_HANDLE_VALUE) ->
  held (lifetime (win_uart_ctor o port baud timeout) win_uart_dtor) =
    match os_create_file o (device_path port), (win_uart_ctor o port baud timeout).2 with
    | Some h, inl _ => [h]
    | _, _ => []
    end.
Proof.
  intros Hw. unfold win_uart_ctor, lifetime.
  destruct (os_create_file o (device_path port)) as [h|] eqn:Eo; [|done]. specialize (Hw h eq_refl).
  destruct (os_get_comm_state o h) as [dcb|]; [|done].
  destruct (os_set_comm_state o h _); [|done]. cbn [negb].
  destruct (os_set_comm_timeouts o h _); [|done]. cbn [negb fst snd].
  rewrite held_flushed. unfold win_uart_dtor.
  replace (h =? INVALID_HANDLE_VALUE) with false by lia. apply held_once.
Qed.

(** ** Properties *)

(** C26: over its life, constructor failure included, the UDP transport releases the
    socket it acquired; the serial transports of both platforms do so when the
    constructor succeeds or cannot open the port, and keep the handle open when
    it throws after opening. *)
Theorem transports_release_handles (uo : uart_os) (wo : win_os) (so : udp_os) (port host : string)
    (baud timeout rp lp users : Z) :
  (forall fd, os_open uo port = Some fd -> 0 <= fd) ->
  (forall h, os_create_file wo (device_path port) = Some h -> h <> INVALID_HANDLE_VALUE) ->
  (forall s, os_socket so = Some s -> 0 <= s) ->
  let '(ur, users') := udp_ctor so host rp lp users in
  held (lifetime ur (fun s => (udp_dtor so s users').1)) = [] /\
  held (lifetime (uart_ctor uo port baud timeout) uart_dtor) =
    match os_open uo port, (uart_ctor uo port baud timeout).2 with
    | Some fd, inl _ => [fd]
    | _, _ => []
    end /\
  held (lifetime (win_uart_ctor wo port baud timeout) win_uart_dtor) =
    match os_create_file wo (device_path port), (win_uart_ctor wo port baud timeout).2 with
    | Some h, inl _ => [h]
    | _, _ => []
    end.
Proof.
  intros Hu Hw Hs. pose proof (udp_released so host rp lp users Hs) as H.
  destruct (udp_ctor so host rp lp users) as [r users'].
  split; [exact H|]. split; [by apply uart_held|by apply win_uart_held].
Qed.

(** A machine where everything succeeds but the line rate. *)
Definition example_uart_os : uart_os := mkUartOs (fun _ => Some 7) (fun _ => true) (fun _ => true) "ok".
Definition example_win_os : win_os :=
  mkWinOs (fun _ => Some 9) (fun _ => Some (mkDcb 0 8 0 0 true false false false 0 0 false false))
    (fun _ _ => false) (fun _ _ => true) [].
Definition example_udp_os : udp_os := mkUdpOs false true (fun _ _ => Some 1) (Some 5) (fun _ _ => false) "in use".

Lemma transports_release_handles_witness :
  held (lifetime (uart_ctor example_uart_os "/dev/ttyUSB0" 115201 200) uart_dtor) = [7] /\
  held (lifetime (win_uart_ctor example_win_os "COM10" 115200 200) win_uart_dtor) = [9].
Proof.
  destruct (transports_release_handles example_uart_os example_win_os example_udp_os "/dev/ttyUSB0" "board"
    115201 200 50000 50000 0) as (_ & Hu & _).
  - intros fd [= <-]. lia.
  - intros h [= <-]. discriminate.
  - intros s [= <-]. lia.
  - destruct (transports_release_handles example_uart_os example_win_os example_udp_os "COM10" "board"
      115200 200 50000 50000 0) as (_ & _ & Hw).
    + intros fd [= <-]. lia.
    + intros h [= <-]. discriminate.
    + intros s [= <-]. lia.
    + split; [exact Hu|exact Hw].
Defined.
