(* ===== verification/Proxy.v ===== *)
(** The diagnostic UDP proxy, [tools/udp_proxy.cpp] (POSIX build): it stands between
    the host and the board, forwards datagrams both ways and prints what it sees.

    The two sockets are instances of [UdpSocket]; [ProxyNet] adds the one call on
    both of them, [select] without a timeout.  The forwarding loop has no exit but a
    failing call, so it is a step function with the outcomes "next iteration",
    "loop left" and "asleep in [select] for ever".  Standard output is part of the
    state; messages on standard error, the pacing sleep and the release of the
    sockets at exit are left out.  [relay_host] and [relay_board] are the reference:
    what a sequence of received datagrams is to be turned into. *)
From stdpp Require Import strings.
From S2P Require Import Prelude Types Stream Wire Kernel LinearJoin Transport Decoder UdpTransport Text.

(** ** Printing of frames *)

Definition DEFAULT_FPGA_PORT : Z := 50000.
Definition DEFAULT_CLIENT_PORT : Z := 50001.

Definition px_read_u16 (p : list Z) : Z := u16 (Z.lor (at_byte p 0) (Z.shiftl (at_byte p 1) 8)).
Definition px_read_u32 (p : list Z) : Z :=
  Z.lor (Z.lor (Z.lor (at_byte p 0) (Z.shiftl (at_byte p 1) 8)) (Z.shiftl (at_byte p 2) 16))
    (Z.shiftl (at_byte p 3) 24).

Definition msg_name (msg : Z) : string :=
  match msg with
  | 1 => "CONFIGURE"
  | 2 => "INNER_DATA"
  | 3 => "OUTER_DATA"
  | 4 => "RESULT"
  | 5 => "ACK"
  | 6 => "STATUS"
  | 7 => "ERROR"
  | 8 => "RESET"
  | 9 => "DEBUG"
  | _ => "UNKNOWN"
  end.

Definition phase_name (phase : Z) : string :=
  match phase with
  | 0 => "IDLE"
  | 1 => "BUILDING"
  | 2 => "PROBING"
  | 3 => "DONE"
  | _ => "UNKNOWN"
  end.

(** The text [decode_protocol] hands to [snprintf], for [3 <= n]. *)
Definition decode_text (data : list Z) : string :=
  let msg := at_byte data 0 in
  let count := px_read_u16 (drop 1 data) in
  let payload_bytes := Z.of_nat (length data) - 3 in
  let plain := msg_name msg +:+ " count=" +:+ dec count +:+ " payload=" +:+ dec payload_bytes in
  match msg with
  | 1 =>
      if (count =? 1) && (12 <=? payload_bytes) then
        let alg := at_byte data 3 in
        let key := at_byte data 4 in
        let hint := px_read_u16 (drop 5 data) in
        let inner := px_read_u32 (drop 7 data) in
        let outer := px_read_u32 (drop 11 data) in
        msg_name msg +:+ " count=" +:+ dec count +:+ " alg=" +:+ dec alg +:+ " key=" +:+ dec key +:+
        " hint=" +:+ dec hint +:+ " inner=" +:+ dec inner +:+ " outer=" +:+ dec outer
      else plain
  | 2 | 3 =>
      plain +:+ " tuple_bytes=" +:+
      (if payload_bytes =? count * 10 then "10" else if payload_bytes =? count * 14 then "14" else "?")
  | 4 => plain +:+ " expected=" +:+ dec (count * 12)
  | 5 | 6 =>
      if (count =? 1) && (12 <=? payload_bytes) then
        let phase := at_byte data 3 in
        let credit := px_read_u16 (drop 5 data) in
        let rows := px_read_u32 (drop 7 data) in
        let matched := px_read_u32 (drop 11 data) in
        msg_name msg +:+ " phase=" +:+ phase_name phase +:+ "(" +:+ dec phase +:+ ") credit=" +:+
        dec credit +:+ " rows=" +:+ dec rows +:+ " matched=" +:+ dec matched
      else plain
  | 7 =>
      msg_name msg +:+ " count=" +:+ dec count +:+ " code=0x" +:+
      hex 2 (if 0 <? payload_bytes then at_byte data 3 else 0)
  | 9 =>
      if (count =? 1) && (7 <=? payload_bytes) then
        let level := at_byte data 3 in
        let code := px_read_u16 (drop 4 data) in
        let value := px_read_u32 (drop 6 data) in
        msg_name msg +:+ " level=" +:+ dec level +:+ " code=0x" +:+ hex 4 code +:+ " value=" +:+ dec value
      else plain
  | 8 => msg_name msg +:+ " count=" +:+ dec count
  | _ => msg_name msg +:+ "(0x" +:+ hex 2 msg +:+ ") count=" +:+ dec count +:+ " payload=" +:+ dec payload_bytes
  end.

Definition decode_protocol (data : list Z) : string :=
  if Z.of_nat (length data) <? 3 then "short" else snprintf 256 (decode_text data).

(** ** Addresses *)

Definition same_endpoint (a b : endpoint) : bool :=
  (ss_family a =? ss_family b) && (sin_port a =? sin_port b) && (sin_addr a =? sin_addr b).

Definition parse_ipv4 (inet_pton : string -> option Z) (text : string) (port : Z) : option endpoint :=
  match inet_pton text with
  | Some addr => Some (mkEndpoint AF_INET sizeof_sockaddr_in addr (u16 port))
  | None => None
  end.

Definition addr_to_string (inet_ntop : Z -> string) (addr : endpoint) : string :=
  inet_ntop (sin_addr addr) +:+ ":" +:+ dec (sin_port addr).

(** ** The forwarding loop *)

Inductive select2_result := Sel2Error (eintr : bool) | Sel2Ready (client fpga : bool).

(** [select] on both sockets; [None] when nothing is left to arrive, so that the
    call does not return. *)
Class ProxyNet (Sk : Type) := sys_select2 : Sk -> Sk -> option (select2_result * Sk * Sk).

Record proxy (Sk : Type) := mkProxy {
  client_sock : Sk;
  fpga_sock : Sk;
  fpga : endpoint;
  last_client : endpoint;
  have_client : bool;
  client_to_fpga : Z;
  fpga_to_client : Z;
  console : list string }.
Arguments mkProxy {Sk}.
Arguments client_sock {Sk}.
Arguments fpga_sock {Sk}.
Arguments fpga {Sk}.
Arguments last_client {Sk}.
Arguments have_client {Sk}.
Arguments client_to_fpga {Sk}.
Arguments fpga_to_client {Sk}.
Arguments console {Sk}.

(** The state after an iteration that goes on, after one that leaves the loop, or
    the state [select] sleeps in. *)
Inductive loop_state (P : Type) := Next (p : P) | Broken (p : P) | Waiting (p : P).
Arguments Next {P}.
Arguments Broken {P}.
Arguments Waiting {P}.

Definition PROXY_BUF : nat := Z.to_nat 65536.
Definition endpoint0 : endpoint := mkEndpoint 0 0 0 0.

Section loop.
Context `{UdpSocket Sk} `{ProxyNet Sk} (inet_ntop : Z -> string).

Definition print (line : string) (p : proxy Sk) : proxy Sk := p <| console ::= (fun l => l ++ [line]) |>.

Definition totals (p : proxy Sk) (data : list Z) : string :=
  dec (Z.of_nat (length data)) +:+ " bytes  totals c2f=" +:+ dec (client_to_fpga p) +:+ " f2c=" +:+
  dec (fpga_to_client p) +:+ "  " +:+ decode_protocol data.

(** The part of the iteration after [recvfrom]. *)
Definition forward (from_client : bool) (data : list Z) (src : endpoint) (p : proxy Sk)
  : loop_state (proxy Sk) :=
  if negb from_client && negb (have_client p) then
    Next (print ("drop " +:+ dec (Z.of_nat (length data)) +:+ " bytes from FPGA: no WSL client yet") p)
  else
    let p :=
      if from_client && (negb (have_client p) || negb (same_endpoint (last_client p) src))
      then print ("client is now " +:+ addr_to_string inet_ntop src)
             (p <| last_client := src |> <| have_client := true |>)
      else p in
    let '(sent, p) :=
      if from_client then
        let '(n, s) := sys_sendto data (fpga p) (fpga_sock p) in (n, p <| fpga_sock := s |>)
      else
        let '(n, s) := sys_sendto data (last_client p) (client_sock p) in (n, p <| client_sock := s |>) in
    if negb (sent =? Z.of_nat (length data)) then Broken p
    else if from_client then
      let p := p <| client_to_fpga ::= (fun n => u64 (n + 1)) |> in
      Next (print ("client -> FPGA " +:+ totals p data) p)
    else
      let p := p <| fpga_to_client ::= (fun n => u64 (n + 1)) |> in
      Next (print ("FPGA -> client " +:+ totals p data) p).

Definition proxy_step (p : proxy Sk) : loop_state (proxy Sk) :=
  match sys_select2 (client_sock p) (fpga_sock p) with
  | None => Waiting p
  | Some (Sel2Error eintr, c, f) =>
      let p := p <| client_sock := c |> <| fpga_sock := f |> in
      if eintr then Next p else Broken p
  | Some (Sel2Ready client_ready _, c, f) =>
      let '(r, p) :=
        if client_ready then
          let '(r, c) := sys_recvfrom PROXY_BUF c in (r, p <| client_sock := c |> <| fpga_sock := f |>)
        else
          let '(r, f) := sys_recvfrom PROXY_BUF f in (r, p <| client_sock := c |> <| fpga_sock := f |>) in
      match r with
      | RecvError true => Next p
      | RecvError false => Broken p
      | RecvData data src => forward client_ready data src p
      end
  end.

(** [n] iterations of [while (true)]. *)
Fixpoint proxy_run (n : nat) (p : proxy Sk) : loop_state (proxy Sk) :=
  match n with
  | O => Next p
  | S n => match proxy_step p with Next p' => proxy_run n p' | r => r end
  end.
End loop.

(** ** Start-up *)

(** The command line gives an exit code or the state the loop starts in. *)
Inductive startup (P : Type) := Exit (code : Z) | Started (p : P).
Arguments Exit {P}.
Arguments Started {P}.

Section main.
Context {Sk : Type} (inet_pton : string -> option Z) (inet_ntop : Z -> string).
Context (new_client_socket new_fpga_socket : option Sk) (sys_bind : endpoint -> Sk -> option Sk).

(** [argv] without the program name; [gap_ms] is the value of UDP_PROXY_F2C_GAP_MS. *)
Definition proxy_main (argv : list string) (gap_env : option string) : startup (proxy Sk) :=
  let arg i dflt := default dflt (argv !! i) in
  let port i dflt := match argv !! i with Some s => u32 (strtoul10 s) | None => dflt end in
  if bool_decide (argv !! 0%nat = Some "-h") || bool_decide (argv !! 0%nat = Some "--help") then Exit 0
  else
    let client_port := port 1%nat DEFAULT_CLIENT_PORT in
    let fpga_port := port 2%nat DEFAULT_FPGA_PORT in
    let fpga_local_port := port 5%nat DEFAULT_FPGA_PORT in
    if (client_port =? 0) || (65535 <? client_port) || (fpga_port =? 0) || (65535 <? fpga_port) ||
       (fpga_local_port =? 0) || (65535 <? fpga_local_port) then Exit 2
    else
      match parse_ipv4 inet_pton (arg 0%nat "169.254.242.60") fpga_port,
            parse_ipv4 inet_pton (arg 3%nat "0.0.0.0") client_port,
            parse_ipv4 inet_pton (arg 4%nat "169.254.242.59") fpga_local_port with
      | Some fpga, Some client_bind, Some fpga_bind =>
          match new_client_socket, new_fpga_socket with
          | Some cs, Some fs =>
              match sys_bind client_bind cs, sys_bind fpga_bind fs with
              | Some cs, Some fs =>
                  let gap := match gap_env with Some s => u32 (strtoul10 s) | None => 0 end in
                  Started (mkProxy cs fs fpga endpoint0 false 0 0
                    (["udp_proxy client side listening on " +:+ addr_to_string inet_ntop client_bind;
                      "udp_proxy FPGA side listening on " +:+ addr_to_string inet_ntop fpga_bind;
                      "forwarding to FPGA " +:+ addr_to_string inet_ntop fpga;
                      "point WSL/PostgreSQL fpga.device at the Windows host address, port " +:+ dec client_port] ++
                     (if 0 <? gap then ["FPGA -> client pacing: " +:+ dec gap +:+ " ms after each datagram"]
                      else [])))
              | _, _ => Exit 1
              end
          | _, _ => Exit 1
          end
      | _, _, _ => Exit 2
      end.
End main.

(** ** Every description fits its buffer *)

Lemma px_read_u16_app v rest : px_read_u16 (le_bytes 2 v ++ rest) = u16 v.
Proof.
  pose proof (read_u16_app v rest) as Hr. unfold read_u16 in Hr. unfold px_read_u16.
  pose proof (le_bytes_byte 2 v) as Hb. cbn [le_bytes] in *. rewrite !Forall_cons in Hb.
  destruct Hb as (Hb0 & Hb1 & _). unfold at_byte in *. cbn [app nth] in *.
  rewrite (u16_small (Z.shiftl _ _)) in Hr.
  - rewrite Hr. apply u16_small, u16_range.
  - unfold is_byte, is_u16 in *. rewrite Z.shiftl_mul_pow2; lia.
Qed.

Lemma px_read_u32_app v rest : px_read_u32 (le_bytes 4 v ++ rest) = u32 v.
Proof. exact (read_u32_app v rest). Qed.

Lemma at_byte_byte data i : Forall is_byte data -> is_byte (at_byte data i).
Proof.
  intros Hd. unfold at_byte. destruct (nth_in_or_default i data 0) as [Hin| ->]; [|done].
  rewrite Forall_forall in Hd. by apply Hd, list_elem_of_In.
Qed.

Lemma px_read_u32_range data : Forall is_byte data -> is_u32 (px_read_u32 data).
Proof.
  intros Hd. pose proof (fun i => at_byte_byte data i Hd) as Hb.
  assert (Forall is_byte [at_byte data 0; at_byte data 1; at_byte data 2; at_byte data 3]) as Hf
    by (repeat (constructor; [apply Hb|]); constructor).
  unfold px_read_u32. rewrite join_4 by done. exact (le_value_bound _ Hf).
Qed.

Lemma slen_dec_10 z : 0 <= z < 2 ^ 32 -> (String.length (dec z) <= 10)%nat.
Proof. intros. apply slen_dec; lia. Qed.

(** Bounds of the numbers a description prints. *)
Ltac printed_range Hd :=
  lazymatch goal with
  | |- 0 <= px_read_u16 ?d < _ => pose proof (u16_range (Z.lor (at_byte d 0) (Z.shiftl (at_byte d 1) 8)));
      unfold px_read_u16, is_u16 in *; lia
  | |- 0 <= px_read_u16 ?d * 12 < _ => pose proof (u16_range (Z.lor (at_byte d 0) (Z.shiftl (at_byte d 1) 8)));
      unfold px_read_u16, is_u16 in *; lia
  | |- 0 <= px_read_u32 ?d < _ => pose proof (px_read_u32_range d); unfold is_u32 in *; eauto using Forall_drop
  | |- 0 <= at_byte ?d ?i < _ => pose proof (at_byte_byte d i Hd); unfold is_byte in *; lia
  | _ => lia
  end.
Ltac bound_texts Hd :=
  rewrite ?slen_app, ?slen_hex;
  repeat match goal with
  | |- context [String.length (dec ?z)] =>
      let HH := fresh in
      assert (String.length (dec z) <= 10)%nat as HH by (apply slen_dec_10; printed_range Hd);
      revert HH; generalize (String.length (dec z)); intros ? HH
  end.

Lemma slen_phase_name ph : (String.length (phase_name ph) <= 8)%nat.
Proof. destruct ph as [|p|p]; [simpl; lia|do 2 try destruct p; simpl; lia|simpl; lia]. Qed.
Lemma slen_msg_name m : (String.length (msg_name m) <= 10)%nat.
Proof. destruct m as [|p|p]; [simpl; lia|do 4 try destruct p; simpl; lia|simpl; lia]. Qed.

Lemma decode_text_fits data :
  Forall is_byte data -> 3 <= Z.of_nat (length data) < 2 ^ 31 ->
  (String.length (decode_text data) < 256)%nat.
Proof.
  intros Hd Hn. unfold decode_text.
  pose proof (slen_msg_name (at_byte data 0)) as Hm. revert Hm.
  generalize (msg_name (at_byte data 0)) as name. intros name Hm.
  set (plain := name +:+ _ +:+ _ +:+ _ +:+ _).
  assert (String.length plain <= 60)%nat as Hp.
  { subst plain. bound_texts Hd. simpl. lia. }
  clearbody plain.
  repeat case_match; bound_texts Hd; pose proof (slen_phase_name (at_byte data 3)); simpl in *; lia.
Qed.

(** ** What is printed for the frames of the protocol *)

Definition status_line (name : string) (s : StatusPayload) : string :=
  name +:+ " phase=" +:+ phase_name (sp_phase s) +:+ "(" +:+ dec (sp_phase s) +:+ ") credit=" +:+
  dec (sp_credit s) +:+ " rows=" +:+ dec (sp_rows_processed s) +:+ " matched=" +:+ dec (sp_rows_matched s).

Definition data_line (name : string) (keytype : Z) (ts : list Tuple) : string :=
  name +:+ " count=" +:+ dec (Z.of_nat (length ts)) +:+ " payload=" +:+
  dec (Z.of_nat (length ts) * tuple_bytes_of keytype) +:+ " tuple_bytes=" +:+
  (if is_int64 keytype then match ts with [] => "10" | _ => "14" end else "10").

Definition pg_line (keytype : Z) (f : pg_frame) : string :=
  match f with
  | PConfigure c =>
      "CONFIGURE count=1 alg=" +:+ dec (cp_algorithm c) +:+ " key=" +:+ dec (cp_key_type c) +:+
      " hint=" +:+ dec (cp_rx_buf_slots c) +:+ " inner=" +:+ dec (cp_inner_count c) +:+
      " outer=" +:+ dec (cp_outer_count c)
  | PInner ts => data_line "INNER_DATA" keytype ts
  | POuter ts => data_line "OUTER_DATA" keytype ts
  | PReset => "RESET count=0"
  end.

Definition fp_line (f : fp_frame) : string :=
  match f with
  | FResult ps =>
      "RESULT count=" +:+ dec (Z.of_nat (length ps)) +:+ " payload=" +:+ dec (Z.of_nat (length ps) * 12) +:+
      " expected=" +:+ dec (Z.of_nat (length ps) * 12)
  | FAck s => status_line "ACK" s
  | FStatus s => status_line "STATUS" s
  | FError e => "ERROR count=1 code=0x" +:+ hex 2 e
  | FDebug l c v => "DEBUG level=" +:+ dec l +:+ " code=0x" +:+ hex 4 (u16 c) +:+ " value=" +:+ dec (u32 v)
  | FTiming _ => "UNKNOWN(0x0a) count=1 payload=200"
  end.

(** The frames that fit one datagram's 16-bit count. *)
Definition pg_wire (f : pg_frame) : Prop :=
  match f with
  | PConfigure c => configure_wf c
  | PInner ts | POuter ts => Z.of_nat (length ts) < 2 ^ 16
  | PReset => True
  end.

Lemma decode_framed m c payload :
  is_u16 c -> decode_protocol (header_bytes m c ++ payload) = snprintf 256 (decode_text (header_bytes m c ++ payload)) /\
  at_byte (header_bytes m c ++ payload) 0 = msg_code m /\
  px_read_u16 (drop 1 (header_bytes m c ++ payload)) = c /\
  Z.of_nat (length (header_bytes m c ++ payload)) - 3 = Z.of_nat (length payload).
Proof.
  intros Hc. split_and!.
  - unfold decode_protocol. destruct (Z.ltb_spec (Z.of_nat (length (header_bytes m c ++ payload))) 3) as [Hl|]; [|done].
    rewrite length_app in Hl. change (length (header_bytes m c)) with 3%nat in Hl. lia.
  - done.
  - change (drop 1 (header_bytes m c ++ payload)) with (le_bytes 2 c ++ payload).
    rewrite px_read_u16_app. by apply u16_small.
  - rewrite length_app. change (length (header_bytes m c)) with 3%nat. lia.
Qed.

(** The fixed-size payloads, field by field. *)
Lemma configure_fields m c : configure_wf c ->
  let data := header_bytes m 1 ++ configure_bytes c in
  at_byte data 3 = cp_algorithm c /\ at_byte data 4 = cp_key_type c /\
  px_read_u16 (drop 5 data) = cp_rx_buf_slots c /\ px_read_u32 (drop 7 data) = cp_inner_count c /\
  px_read_u32 (drop 11 data) = cp_outer_count c.
Proof.
  intros (_ & _ & Hs & Hi & Ho & _) data. subst data. unfold configure_bytes.
  change (header_bytes m 1) with [msg_code m; 1; 0]. split_and!; [done|done|..].
  - change (drop 5 _) with (le_bytes 2 (cp_rx_buf_slots c) ++
      le_bytes 4 (cp_inner_count c) ++ le_bytes 4 (cp_outer_count c) ++ [cp_session_id c]).
    rewrite px_read_u16_app. by apply u16_small.
  - change (drop 7 _) with (le_bytes 4 (cp_inner_count c) ++ le_bytes 4 (cp_outer_count c) ++ [cp_session_id c]).
    rewrite px_read_u32_app. by apply u32_small.
  - change (drop 11 _) with (le_bytes 4 (cp_outer_count c) ++ [cp_session_id c]).
    rewrite px_read_u32_app. by apply u32_small.
Qed.

Lemma status_fields m s : status_wf s ->
  let data := header_bytes m 1 ++ status_bytes s in
  at_byte data 3 = sp_phase s /\ px_read_u16 (drop 5 data) = sp_credit s /\
  px_read_u32 (drop 7 data) = sp_rows_processed s /\ px_read_u32 (drop 11 data) = sp_rows_matched s.
Proof.
  intros (_ & _ & Hc & Hp & Hm) data. subst data. unfold status_bytes.
  change (header_bytes m 1) with [msg_code m; 1; 0]. split_and!; [done|..].
  - change (drop 5 _) with (le_bytes 2 (sp_credit s) ++ le_bytes 4 (sp_rows_processed s) ++ le_bytes 4 (sp_rows_matched s)).
    rewrite px_read_u16_app. by apply u16_small.
  - change (drop 7 _) with (le_bytes 4 (sp_rows_processed s) ++ le_bytes 4 (sp_rows_matched s)).
    rewrite px_read_u32_app. by apply u32_small.
  - change (drop 11 _) with (le_bytes 4 (sp_rows_matched s)).
    rewrite <- (app_nil_r (le_bytes 4 (sp_rows_matched s))), px_read_u32_app. by apply u32_small.
Qed.

Lemma header_bytes_byte m c : Forall is_byte (header_bytes m c).
Proof. constructor; [apply msg_code_byte|apply le_bytes_byte]. Qed.

Lemma singleton_byte b : is_byte b -> Forall is_byte [b].
Proof. by constructor. Qed.

Ltac all_bytes :=
  repeat first [assumption | apply le_bytes_byte | apply header_bytes_byte | apply singleton_byte |
                apply Forall_app_2 | apply Forall_cons_2 | apply Forall_nil_2].

Lemma tuples_bytes_byte kt ts : Forall is_byte (tuples_bytes kt ts).
Proof.
  unfold tuples_bytes. induction ts as [|t ts IH]; [constructor|]. cbn [fmap list_fmap concat].
  apply Forall_app_2; [|exact IH]. unfold tuple_bytes, key_bytes, tid_bytes. destruct (is_int64 kt); all_bytes.
Qed.

Lemma pair_bytes_byte ps : Forall is_byte (concat (pair_bytes <$> ps)).
Proof.
  induction ps as [|p ps IH]; [constructor|]. cbn [fmap list_fmap concat].
  apply Forall_app_2; [|exact IH]. unfold pair_bytes, tid_bytes. all_bytes.
Qed.

Lemma pg_bytes_byte kt f : pg_wire f -> Forall is_byte (pg_bytes kt f).
Proof.
  destruct f as [c|ts|ts|]; cbn [pg_wire pg_bytes]; intros Hw.
  - destruct Hw as (Ha & Hk & _ & _ & _ & Hs). unfold configure_bytes. all_bytes.
  - apply Forall_app_2; [apply header_bytes_byte|apply tuples_bytes_byte].
  - apply Forall_app_2; [apply header_bytes_byte|apply tuples_bytes_byte].
  - apply header_bytes_byte.
Qed.

Lemma fp_bytes_byte f : frame_wire f -> Forall is_byte (fp_bytes f).
Proof.
  destruct f as [ps|s|s|e|l c v|t]; cbn [frame_wire fp_bytes]; intros Hw;
    (apply Forall_app_2; [apply header_bytes_byte|]).
  - apply pair_bytes_byte.
  - destruct Hw as (Hp & Hs & _). unfold status_bytes. all_bytes.
  - destruct Hw as (Hp & Hs & _). unfold status_bytes. all_bytes.
  - by apply singleton_byte.
  - all_bytes.
  - unfold timing_bytes. all_bytes.
Qed.

Lemma decode_pg kt f : pg_wire f -> decode_text (pg_bytes kt f) = pg_line kt f.
Proof.
  assert (forall m ts, Z.of_nat (length ts) < 2 ^ 16 -> m = MSG_INNER_DATA \/ m = MSG_OUTER_DATA ->
    decode_text (header_bytes m (Z.of_nat (length ts)) ++ tuples_bytes kt ts) =
    data_line (msg_name (msg_code m)) kt ts) as Hdata.
  { intros m ts Hl Hm. unfold decode_text.
    destruct (decode_framed m (Z.of_nat (length ts)) (tuples_bytes kt ts)) as (_ & -> & -> & ->).
    { unfold is_u16. lia. }
    rewrite length_tuples_bytes. unfold data_line, tuple_bytes_of.
    destruct Hm as [-> | ->]; cbn [msg_code msg_name]; rewrite !sapp_assoc.
    all: destruct (is_int64 kt), ts as [|t ts]; try done.
    all: try (rewrite Z.eqb_refl; done).
    all: destruct (Z.eqb_spec (Z.of_nat (length (t :: ts)) * 14) (Z.of_nat (length (t :: ts)) * 10)) as [He|_];
      [simpl length in He; lia|by rewrite Z.eqb_refl]. }
  destruct f as [c|ts|ts|]; cbn [pg_wire pg_bytes pg_line]; intros Hw.
  - unfold decode_text. destruct (decode_framed MSG_CONFIGURE 1 (configure_bytes c)) as (_ & -> & -> & ->); [done|].
    destruct (configure_fields MSG_CONFIGURE c Hw) as (-> & -> & -> & -> & ->). done.
  - by apply Hdata; [|left].
  - by apply Hdata; [|right].
  - done.
Qed.

Lemma decode_fp f : frame_wire f -> decode_text (fp_bytes f) = fp_line f.
Proof.
  destruct f as [ps|s|s|e|l c v|t]; cbn [frame_wire fp_bytes fp_line]; intros Hw; unfold decode_text.
  - destruct (decode_framed MSG_RESULT (Z.of_nat (length ps)) (concat (pair_bytes <$> ps))) as (_ & -> & -> & ->).
    { destruct Hw as [Hl _]. unfold is_u16, TX_BUF_SIZE in *. lia. }
    rewrite length_pair_bytes. cbn [msg_code msg_name]. rewrite !sapp_assoc.
    by replace (Z.of_nat (12 * length ps)) with (Z.of_nat (length ps) * 12) by lia.
  - destruct (decode_framed MSG_ACK 1 (status_bytes s)) as (_ & -> & -> & ->); [done|].
    by destruct (status_fields MSG_ACK s Hw) as (-> & -> & -> & ->).
  - destruct (decode_framed MSG_STATUS 1 (status_bytes s)) as (_ & -> & -> & ->); [done|].
    by destruct (status_fields MSG_STATUS s Hw) as (-> & -> & -> & ->).
  - by destruct (decode_framed MSG_ERROR 1 [e]) as (_ & -> & -> & ->).
  - destruct (decode_framed MSG_DEBUG 1 ([l] ++ le_bytes 2 c ++ le_bytes 4 v)) as (_ & -> & -> & ->); [done|].
    change (header_bytes MSG_DEBUG 1) with [9; 1; 0].
    change (drop 4 _) with (le_bytes 2 c ++ le_bytes 4 v). change (drop 6 _) with (le_bytes 4 v).
    rewrite px_read_u16_app, <- (app_nil_r (le_bytes 4 v)), px_read_u32_app. done.
  - destruct (decode_framed MSG_TIMING 1 (timing_bytes t)) as (_ & -> & -> & ->); [done|].
    by rewrite length_timing_bytes.
Qed.

Lemma decode_protocol_text data :
  Forall is_byte data -> 3 <= Z.of_nat (length data) < 2 ^ 31 -> decode_protocol data = decode_text data.
Proof.
  intros Hb Hl. unfold decode_protocol. destruct (Z.ltb_spec (Z.of_nat (length data)) 3); [lia|].
  by apply snprintf_fits, decode_text_fits.
Qed.

Lemma length_pg_bytes kt f : pg_wire f -> 3 <= Z.of_nat (length (pg_bytes kt f)) < 2 ^ 31.
Proof.
  assert (tuple_bytes_of kt = 14 \/ tuple_bytes_of kt = 10) as Ht by (unfold tuple_bytes_of; destruct (is_int64 kt); auto).
  destruct f as [c|ts|ts|]; cbn [pg_wire pg_bytes]; intros Hw; rewrite ?length_app, ?Nat2Z.inj_add, ?length_tuples_bytes;
    change (length (header_bytes _ _)) with 3%nat; [simpl; lia|nia|nia|lia].
Qed.

Lemma length_fp_bytes f : frame_wire f -> 3 <= Z.of_nat (length (fp_bytes f)) < 2 ^ 31.
Proof.
  destruct f as [ps|s|s|e|l c v|t]; cbn [frame_wire fp_bytes]; intros Hw;
    rewrite length_app, ?length_pair_bytes, ?length_timing_bytes; change (length (header_bytes _ _)) with 3%nat;
    try (simpl; lia).
  - destruct Hw as [Hw _]. unfold TX_BUF_SIZE in Hw. lia.
  - unfold TIMING_SUMMARY_BYTES. lia.
Qed.

(** ** The reference relay *)

(** What [select] promises beside the laws of each socket: it leaves the queues
    alone, is not interrupted, and sleeps for ever only when both queues are empty. *)
Class LawfulProxyNet (Sk : Type) `{LawfulSocket Sk} `{ProxyNet Sk} :=
  select2_law c f :
    match sys_select2 c f with
    | None => queued c = [] /\ queued f = []
    | Some (r, c', f') =>
        queued c' = queued c /\ posted c' = posted c /\ queued f' = queued f /\ posted f' = posted f /\
        match r with Sel2Error eintr => eintr = false | Sel2Ready _ _ => True end
    end.

(** A received datagram: the side it came from, its bytes and its source. *)
Record arrival := mkArrival { from_host : bool; a_data : list Z; a_src : endpoint }.
Definition datagram (a : arrival) : list Z * endpoint := (a_data a, a_src a).

(** Datagrams of the host all go to the board. *)
Definition relay_board (board : endpoint) (l : list arrival) : list (list Z * endpoint) :=
  (fun a => (a_data a, board)) <$> filter from_host l.

(** The host known after an arrival. *)
Definition adopt (cur : option endpoint) (src : endpoint) : endpoint :=
  match cur with
  | Some c => if same_endpoint c src then c else src
  | None => src
  end.
Definition known_host (cur : option endpoint) (l : list arrival) : option endpoint :=
  foldl (fun cur a => if from_host a then Some (adopt cur (a_src a)) else cur) cur l.

(** Datagrams of the other side go to the host known at that point, if any. *)
Fixpoint relay_host (cur : option endpoint) (l : list arrival) : list (list Z * endpoint) :=
  match l with
  | [] => []
  | a :: l =>
      if from_host a then relay_host (Some (adopt cur (a_src a))) l
      else match cur with
           | None => relay_host None l
           | Some c => (a_data a, c) :: relay_host (Some c) l
           end
  end.

Lemma relay_host_app cur l l' : relay_host cur (l ++ l') = relay_host cur l ++ relay_host (known_host cur l) l'.
Proof.
  revert cur. induction l as [|a l IH]; intros cur; [done|]. simpl.
  destruct (from_host a); [apply IH|]. destruct cur as [c|]; simpl; by rewrite IH.
Qed.

Lemma relay_board_app board l l' : relay_board board (l ++ l') = relay_board board l ++ relay_board board l'.
Proof. unfold relay_board. by rewrite filter_app, fmap_app. Qed.

Lemma known_host_app cur l l' : known_host cur (l ++ l') = known_host (known_host cur l) l'.
Proof. apply foldl_app. Qed.

Section relays.
Context `{LawfulProxyNet Sk} (inet_ntop : Z -> string).
Local Abbreviation step := (proxy_step inet_ntop).
Local Abbreviation run := (proxy_run inet_ntop).

Definition current_host (p : proxy Sk) : option endpoint :=
  if have_client p then Some (last_client p) else None.

(** No datagram is longer than the buffer (UDP cannot carry one). *)
Definition datagrams_fit (p : proxy Sk) : Prop :=
  Forall (fun d => length (fst d) <= PROXY_BUF)%nat (queued (client_sock p)) /\
  Forall (fun d => length (fst d) <= PROXY_BUF)%nat (queued (fpga_sock p)).
Definition counters_fit (p : proxy Sk) : Prop := is_u64 (client_to_fpga p) /\ is_u64 (fpga_to_client p).

(** The arrivals [l] were taken from the two queues, in the order of each. *)
Definition took (l : list arrival) (p p' : proxy Sk) : Prop :=
  (datagram <$> filter from_host l) ++ queued (client_sock p') = queued (client_sock p) /\
  (datagram <$> filter (fun a => ~ from_host a) l) ++ queued (fpga_sock p') = queued (fpga_sock p).

(** The arrivals [l] were answered as the reference says. *)
Definition relayed (l : list arrival) (p p' : proxy Sk) : Prop :=
  posted (fpga_sock p') = posted (fpga_sock p) ++ relay_board (fpga p) l /\
  posted (client_sock p') = posted (client_sock p) ++ relay_host (current_host p) l /\
  current_host p' = known_host (current_host p) l /\ fpga p' = fpga p /\
  client_to_fpga p' = u64 (client_to_fpga p + Z.of_nat (length (relay_board (fpga p) l))) /\
  fpga_to_client p' = u64 (fpga_to_client p + Z.of_nat (length (relay_host (current_host p) l))).

Definition same_queues (p p' : proxy Sk) : Prop :=
  queued (client_sock p') = queued (client_sock p) /\ queued (fpga_sock p') = queued (fpga_sock p).
Definition same_posts (p p' : proxy Sk) : Prop :=
  posted (client_sock p') = posted (client_sock p) /\ posted (fpga_sock p') = posted (fpga_sock p).

Lemma forward_host data src p : counters_fit p ->
  match forward inet_ntop true data src p with
  | Next p' => same_queues p p' /\ relayed [mkArrival true data src] p p' /\ counters_fit p'
  | Broken p' => same_queues p p' /\ same_posts p p'
  | Waiting _ => False
  end.
Proof.
  intros [Hc Hf]. destruct p as [cs fs fp lc hc nc nf con]. unfold forward. cbn [andb negb].
  set (p1 := if _ || _ then _ else _).
  assert (client_sock p1 = cs /\ fpga_sock p1 = fs /\ fpga p1 = fp /\ client_to_fpga p1 = nc /\
    fpga_to_client p1 = nf /\
    current_host p1 = Some (adopt (current_host (mkProxy cs fs fp lc hc nc nf con)) src)) as (E1 & E2 & E3 & E4 & E5 & E6).
  { subst p1. unfold current_host, adopt. cbn [have_client last_client].
    destruct hc, (same_endpoint lc src) eqn:He; cbn; rewrite ?He; done. }
  clearbody p1. pose proof (sendto_law data (fpga p1) (fpga_sock p1)) as Hs.
  destruct (sys_sendto data (fpga p1) (fpga_sock p1)) as [n s']. destruct Hs as [Hq Hs].
  destruct p1 as [cs1 fs1 fp1 lc1 hc1 nc1 nf1 con1]. cbn in E1, E2, E3, E4, E5. subst cs1 fs1 fp1 nc1 nf1.
  destruct (Z.eqb_spec n (Z.of_nat (length data))) as [->|Hn]; cbn [negb].
  - destruct Hs as [[_ Hs]|[? _]]; [|done]. split; [split; [done|exact Hq]|]. split.
    + unfold relayed. split_and!; [exact Hs|by rewrite app_nil_r|exact E6|done|done|].
      cbn. by rewrite Z.add_0_r, u64_small.
    + split; [apply u64_range|done].
  - destruct Hs as [[? _]|[_ Hs]]; [done|]. by split; split.
Qed.

Lemma forward_board data src p : counters_fit p ->
  match forward inet_ntop false data src p with
  | Next p' => same_queues p p' /\ relayed [mkArrival false data src] p p' /\ counters_fit p'
  | Broken p' => same_queues p p' /\ same_posts p p'
  | Waiting _ => False
  end.
Proof.
  intros [Hc Hf]. destruct p as [cs fs fp lc hc nc nf con]. unfold forward. cbn [andb negb have_client].
  destruct hc; cbn [negb].
  2: { split; [done|]. split; [|done]. unfold relayed, relay_board. cbn.
       by rewrite !app_nil_r, !Z.add_0_r, !u64_small. }
  cbn [last_client client_sock].
  pose proof (sendto_law data lc cs) as Hs.
  destruct (sys_sendto data lc cs) as [n s']. destruct Hs as [Hq Hs].
  destruct (Z.eqb_spec n (Z.of_nat (length data))) as [->|Hn]; cbn [negb].
  - destruct Hs as [[_ Hs]|[? _]]; [|done]. split; [split; [exact Hq|done]|]. split.
    + unfold relayed, relay_board. split_and!; [by rewrite app_nil_r|exact Hs|done|done| |done].
      cbn. by rewrite Z.add_0_r, u64_small.
    + split; [done|apply u64_range].
  - destruct Hs as [[? _]|[_ Hs]]; [done|]. by split; split.
Qed.

Lemma took_trans l l' p p' p'' : took l p p' -> took l' p' p'' -> took (l ++ l') p p''.
Proof. intros [A1 A2] [B1 B2]. unfold took. by rewrite !filter_app, !fmap_app, <- !app_assoc, B1, B2. Qed.

Lemma relayed_trans l l' p p' p'' : relayed l p p' -> relayed l' p' p'' -> relayed (l ++ l') p p''.
Proof.
  intros (A1 & A2 & A3 & A4 & A5 & A6) (B1 & B2 & B3 & B4 & B5 & B6). unfold relayed.
  rewrite B1, B2, B3, B4, B5, B6, A1, A2, A3, A4, A5, A6, relay_host_app, relay_board_app, known_host_app, !length_app, <- !app_assoc.
  unfold u64. rewrite !Zplus_mod_idemp_l, !Nat2Z.inj_add. split_and!; try done; f_equal; lia.
Qed.

Lemma relayed_nil p : counters_fit p -> relayed [] p p.
Proof.
  intros [? ?]. unfold relayed, relay_board. cbn. by rewrite !app_nil_r, !Z.add_0_r, !u64_small.
Qed.

Lemma forward_ok fc data src p : counters_fit p ->
  match forward inet_ntop fc data src p with
  | Next p' => same_queues p p' /\ relayed [mkArrival fc data src] p p' /\ counters_fit p'
  | Broken p' => same_queues p p' /\ same_posts p p'
  | Waiting _ => False
  end.
Proof. destruct fc; [apply forward_host|apply forward_board]. Qed.

Lemma took_queues l p p1 p' : took l p p1 -> same_queues p1 p' -> took l p p'.
Proof. intros [A1 A2] [B1 B2]. unfold took. by rewrite B1, B2. Qed.

Lemma took_nil p p' : same_queues p p' -> took [] p p'.
Proof. intros [A1 A2]. unfold took. by rewrite A1, A2. Qed.

Lemma took_host d src p p1 :
  (d, src) :: queued (client_sock p1) = queued (client_sock p) ->
  queued (fpga_sock p1) = queued (fpga_sock p) -> took [mkArrival true d src] p p1.
Proof.
  intros A1 A2. unfold took. rewrite filter_cons_True, filter_cons_False by (simpl; tauto). by split.
Qed.

Lemma took_board d src p p1 :
  queued (client_sock p1) = queued (client_sock p) ->
  (d, src) :: queued (fpga_sock p1) = queued (fpga_sock p) -> took [mkArrival false d src] p p1.
Proof.
  intros A1 A2. unfold took. rewrite filter_cons_False, filter_cons_True by (simpl; tauto). by split.
Qed.

(** [p1] is [p] with the arrival [a] received and nothing else changed. *)
Definition received (a : arrival) (p p1 : proxy Sk) : Prop :=
  took [a] p p1 /\ same_posts p p1 /\ current_host p1 = current_host p /\ fpga p1 = fpga p /\
  client_to_fpga p1 = client_to_fpga p /\ fpga_to_client p1 = fpga_to_client p.

Lemma took_fit l p p' : datagrams_fit p -> took l p p' -> datagrams_fit p'.
Proof.
  intros [A1 A2] [B1 B2]. rewrite <- B1 in A1. rewrite <- B2 in A2.
  apply Forall_app in A1 as [_ A1]. by apply Forall_app in A2 as [_ A2].
Qed.

Lemma received_answered a p p1 : datagrams_fit p -> counters_fit p -> received a p p1 ->
  match forward inet_ntop (from_host a) (a_data a) (a_src a) p1 with
  | Next p' => exists a, took [a] p p' /\ relayed [a] p p' /\ datagrams_fit p' /\ counters_fit p'
  | Broken p' => exists l, (length l <= 1)%nat /\ took l p p' /\ same_posts p p'
  | Waiting _ => False
  end.
Proof.
  intros Hd Hc (Ht & [P1 P2] & E1 & E2 & E3 & E4).
  assert (counters_fit p1) as Hc1 by (unfold counters_fit; by rewrite E3, E4).
  pose proof (forward_ok (from_host a) (a_data a) (a_src a) p1 Hc1) as Hf.
  destruct (forward _ _ _ _ p1) as [p'|p'|p']; [| |done].
  - destruct Hf as (Hq & Hr & Hc'). exists a. pose proof (took_queues _ _ _ _ Ht Hq) as Ht'.
    split; [done|]. split; [|split; [by eapply took_fit|done]].
    unfold relayed in *. rewrite E1, E2, E3, E4, P1, P2 in Hr. by destruct a.
  - destruct Hf as [Hq [Q1 Q2]]. exists [a]. split; [simpl; lia|].
    split; [by eapply took_queues|]. split; by rewrite ?Q1, ?Q2.
Qed.

(** One iteration takes one datagram and answers it, or leaves the loop. *)
Lemma proxy_step_ok p : datagrams_fit p -> counters_fit p ->
  match step p with
  | Next p' => exists a, took [a] p p' /\ relayed [a] p p' /\ datagrams_fit p' /\ counters_fit p'
  | Broken p' => exists l, (length l <= 1)%nat /\ took l p p' /\ same_posts p p'
  | Waiting p' => p' = p /\ queued (client_sock p) = [] /\ queued (fpga_sock p) = []
  end.
Proof.
  intros Hd Hcf. unfold proxy_step.
  pose proof (select2_law (client_sock p) (fpga_sock p)) as Hsel.
  destruct (sys_select2 _ _) as [[[r c] f]|]; [|done].
  destruct Hsel as (Hqc & Hpc & Hqf & Hpf & Hr).
  destruct r as [eintr|[] rf].
  { subst eintr. exists []. split; [simpl; lia|]. split; [apply took_nil|]; by destruct p. }
  - pose proof (recvfrom_law PROXY_BUF c) as Hrv. destruct (sys_recvfrom PROXY_BUF c) as [r c'].
    destruct Hrv as [Hpc' Hrv]. destruct r as [eintr|data src].
    { destruct Hrv as [-> Hq]. exists []. split; [simpl; lia|].
      split; [apply took_nil|]; destruct p; split; rcbn; congruence. }
    destruct Hrv as (d & q & Hq & Hq' & ->). rewrite Hqc in Hq.
    rewrite take_ge by (destruct Hd as [Hd _]; rewrite Hq in Hd; by apply Forall_cons in Hd as [Hd _]).
    set (p1 := p <| client_sock := c' |> <| fpga_sock := f |>).
    assert (received (mkArrival true d src) p p1) as Hrc.
    { subst p1. destruct p. split; [apply took_host; rcbn; congruence|]. unfold same_posts. rcbn. split_and!; congruence || done. }
    pose proof (received_answered _ p p1 Hd Hcf Hrc) as Ha. cbn [from_host a_data a_src] in Ha.
    by destruct (forward _ _ _ _ _).
  - pose proof (recvfrom_law PROXY_BUF f) as Hrv. destruct (sys_recvfrom PROXY_BUF f) as [r f'].
    destruct Hrv as [Hpf' Hrv]. destruct r as [eintr|data src].
    { destruct Hrv as [-> Hq]. exists []. split; [simpl; lia|].
      split; [apply took_nil|]; destruct p; split; rcbn; congruence. }
    destruct Hrv as (d & q & Hq & Hq' & ->). rewrite Hqf in Hq.
    rewrite take_ge by (destruct Hd as [_ Hd]; rewrite Hq in Hd; by apply Forall_cons in Hd as [Hd _]).
    set (p1 := p <| client_sock := c |> <| fpga_sock := f' |>).
    assert (received (mkArrival false d src) p p1) as Hrc.
    { subst p1. destruct p. split; [apply took_board; rcbn; congruence|]. unfold same_posts. rcbn. split_and!; congruence || done. }
    pose proof (received_answered _ p p1 Hd Hcf Hrc) as Ha. cbn [from_host a_data a_src] in Ha.
    by destruct (forward _ _ _ _ _).
Qed.

(** What [n] iterations may have made of [p]: an iteration handles one datagram;
    asleep, nothing is left; and when a call fails at most one datagram is lost. *)
Definition relay_outcome (n : nat) (p : proxy Sk) (o : loop_state (proxy Sk)) : Prop :=
  match o with
  | Next p' => exists l, length l = n /\ took l p p' /\ relayed l p p'
  | Waiting p' => exists l, took l p p' /\ relayed l p p' /\
      queued (client_sock p') = [] /\ queued (fpga_sock p') = []
  | Broken p' => exists l lost, (length lost <= 1)%nat /\ took (l ++ lost) p p' /\
      posted (fpga_sock p') = posted (fpga_sock p) ++ relay_board (fpga p) l /\
      posted (client_sock p') = posted (client_sock p) ++ relay_host (current_host p) l
  end.

Lemma proxy_run_ok n : forall p, datagrams_fit p -> counters_fit p -> relay_outcome n p (run n p).
Proof.
  unfold relay_outcome. induction n as [|n IH]; intros p Hd Hc; cbn [proxy_run].
  { exists []. split_and!; [done|by apply took_nil|by apply relayed_nil]. }
  pose proof (proxy_step_ok p Hd Hc) as Hs. destruct (step p) as [p1|p1|p1].
  - destruct Hs as (a & Ht & Hr & Hd1 & Hc1). specialize (IH p1 Hd1 Hc1).
    destruct (run n p1) as [p'|p'|p'].
    + destruct IH as (l & Hl & Ht' & Hr'). exists (a :: l). split; [by rewrite <- Hl|].
      split; [by apply (took_trans [a] l p p1)|by apply (relayed_trans [a] l p p1)].
    + destruct IH as (l & lost & Hl & Ht' & P1 & P2). exists (a :: l), lost. split; [done|].
      split; [by apply (took_trans [a] (l ++ lost) p p1)|].
      destruct Hr as (R1 & R2 & R3 & R4 & _). rewrite P1, P2, R1, R2, R3, R4, <- !app_assoc.
      by rewrite <- (relay_board_app _ [a] l), <- (relay_host_app _ [a] l).
    + destruct IH as (l & Ht' & Hr' & Hq). exists (a :: l).
      split; [by apply (took_trans [a] l p p1)|]. split; [by apply (relayed_trans [a] l p p1)|done].
  - destruct Hs as (lost & Hl & Ht & [P1 P2]). exists [], lost. split; [done|]. split; [done|].
    unfold relay_board. cbn. by rewrite !app_nil_r.
  - destruct Hs as (-> & Q1 & Q2). exists []. split_and!; [by apply took_nil|by apply relayed_nil|done|done].
Qed.
End relays.

(** With one host behind the proxy, everything the board sends once the host has
    spoken goes to that host, unchanged and in order. *)
Lemma relay_one_host h l : Forall (fun a => from_host a -> a_src a = h) l -> forall cur,
  (forall c, cur = Some c -> c = h) -> (exists a, a ∈ l /\ from_host a) \/ cur = Some h ->
  exists early late, filter (fun a => ~ from_host a) l = early ++ late /\
    relay_host cur l = (fun a => (a_data a, h)) <$> late /\ (cur = Some h -> early = []).
Proof.
  induction 1 as [|a l Ha _ IH]; intros cur Hcur Hsome.
  { destruct Hsome as [(a & Hin & _)|Hs]; [by apply elem_of_nil in Hin|]. by exists [], []. }
  cbn [relay_host]. destruct (from_host a) eqn:Hf.
  - rewrite filter_cons_False by (rewrite Hf; simpl; tauto).
    assert (adopt cur (a_src a) = h) as ->.
    { rewrite Ha by (by rewrite ?Hf). destruct cur as [c|]; [|done]. rewrite (Hcur c eq_refl).
      simpl. by destruct (same_endpoint h h). }
    destruct (IH (Some h)) as (early & late & -> & -> & He); [by intros ? [= ->]|by right|].
    exists early, late. split_and!; [done|done|]. intros _. by apply He.
  - rewrite filter_cons_True by (rewrite Hf; simpl; tauto).
    destruct cur as [c|].
    + assert (c = h) as -> by (by apply Hcur). destruct (IH (Some h)) as (early & late & He & -> & Hn);
        [done|by right|]. rewrite (Hn eq_refl) in He. exists [], (a :: late). by rewrite He.
    + destruct (IH None) as (early & late & -> & -> & _); [done| |].
      * destruct Hsome as [(b & Hin & Hb)|?]; [|done]. left. exists b. split; [|done].
        apply elem_of_cons in Hin as [->|?]; [by rewrite Hf in Hb|done].
      * exists (a :: early), late. by split_and!.
Qed.

(** ** Claims *)

(** The two sides of the proxy on a concrete network. *)
#[global] Instance net_proxy : ProxyNet net := fun c f =>
  match net_inbox c, net_inbox f with
  | [], [] => None
  | cq, fq => Some (Sel2Ready (match cq with [] => false | _ => true end)
                      (match fq with [] => false | _ => true end), c, f)
  end.

#[global] Instance net_proxy_lawful : LawfulProxyNet net.
Proof.
  intros c f. cbv [sys_select2 net_proxy]. destruct (net_inbox c) eqn:Hc, (net_inbox f) eqn:Hf; done.
Qed.

(** C25: the UDP proxy is transparent.  Whatever arrives on its two sockets, in any
    interleaving [l], the datagrams it takes from each side are forwarded unchanged
    and in order: the host's to the board, the others to the host heard last (dropped
    while there is none), with exact totals.  An iteration handles one datagram, the
    proxy sleeps only when nothing is left, and when a call fails at most the
    datagram in hand is lost. *)
Theorem proxy_transparent `{LawfulProxyNet Sk} (inet_ntop : Z -> string) (n : nat) (p : proxy Sk) :
  datagrams_fit p -> counters_fit p ->
  relay_outcome n p (proxy_run inet_ntop n p).
Proof. apply proxy_run_ok. Qed.

Definition proxy_example : proxy net :=
  mkProxy (mkNet [([8; 0; 0], stranger)] []) (mkNet [([5; 1; 0], board_addr)] []) board_addr
    endpoint0 false 0 0 [].

Lemma proxy_transparent_witness :
  relay_outcome 3 proxy_example (proxy_run (fun _ => "host") 3 proxy_example).
Proof.
  apply (proxy_transparent (fun _ => "host") 3 proxy_example).
  - split; (apply Forall_cons_2; [|by apply Forall_nil_2]); unfold PROXY_BUF; cbn [fst length]; lia.
  - by split.
Defined.

(** C39: the line the proxy prints for a datagram that holds one frame of the protocol
    shows the frame's type and the fields its sender put in, without being cut by the
    buffer; TIMING frames are the exception, printed as UNKNOWN. *)
Theorem proxy_describes_frames (keytype : Z) (f : pg_frame) (g : fp_frame) :
  pg_wire f -> frame_wire g ->
  decode_protocol (pg_bytes keytype f) = pg_line keytype f /\ decode_protocol (fp_bytes g) = fp_line g.
Proof.
  intros Hf Hg. split.
  - rewrite decode_protocol_text by auto using pg_bytes_byte, length_pg_bytes. by apply decode_pg.
  - rewrite decode_protocol_text by auto using fp_bytes_byte, length_fp_bytes. by apply decode_fp.
Qed.

Lemma proxy_describes_frames_witness :
  decode_protocol (pg_bytes 0 (PConfigure (mkConfigure 0 0 256 3 4 9))) =
    "CONFIGURE count=1 alg=0 key=0 hint=256 inner=3 outer=4" /\
  decode_protocol (fp_bytes (FAck (mkStatus 1 9 512 0 0))) = "ACK phase=BUILDING(1) credit=512 rows=0 matched=0".
Proof.
  destruct (proxy_describes_frames 0 (PConfigure (mkConfigure 0 0 256 3 4 9)) (FAck (mkStatus 1 9 512 0 0)))
    as [-> ->]; [by repeat split|by repeat split|split; reflexivity].
Defined.
