(* ===== verification/RawUdp.v ===== *)
(** The raw-Ethernet diagnostic sender, [tools/raw_udp_send.cpp]: it builds an
    Ethernet/IPv4/UDP frame that carries a RESET of the join protocol, sends it through
    a packet-capture library and prints replies of the board.

    The capture library is a parameter ([Pcap]), as is the millisecond clock (a
    function of the number of readings).  A frame buffer is a list of bytes, written
    in place; reads of a captured packet give [None] outside it, so that the
    description of a reply shows that it stays inside.  The loading of the library
    and [Sleep] are left out. *)
From stdpp Require Import strings.
From S2P Require Import Prelude Types Stream Wire Text.

(** ** Writing into a frame *)

(** [memcpy (frame + off, bs, ...)]. *)
Fixpoint write_at (off : nat) (bs : list Z) (frame : list Z) : list Z :=
  match bs with [] => frame | b :: bs => write_at (S off) bs (<[off := b]> frame) end.

Definition put_be16 (off : nat) (v : Z) (frame : list Z) : list Z :=
  <[(off + 1)%nat := u8 v]> (<[off := u8 (Z.shiftr v 8)]> frame).
Definition put_ipv4 (off : nat) (a b c d : Z) (frame : list Z) : list Z :=
  <[(off + 3)%nat := d]> (<[(off + 2)%nat := c]> (<[(off + 1)%nat := b]> (<[off := a]> frame))).

(** ** The Internet checksum *)

(** The loop over pairs of bytes and the odd byte at the end, in 32 bits. *)
Fixpoint sum_words (data : list Z) (sum : Z) : Z :=
  match data with
  | a :: b :: data => sum_words data (u32 (sum + Z.lor (Z.shiftl a 8) b))
  | [a] => u32 (sum + Z.shiftl a 8)
  | [] => sum
  end.

(** [while (sum >> 16)], with [n] rounds allowed. *)
Fixpoint fold_carries (n : nat) (sum : Z) : option Z :=
  if Z.shiftr sum 16 =? 0 then Some sum
  else match n with
       | O => None
       | S n => fold_carries n (u32 (Z.land sum 65535 + Z.shiftr sum 16))
       end.

(** Two rounds always suffice ([fold_carries_spec]). *)
Definition checksum16 (data : list Z) : Z :=
  match fold_carries 2 (sum_words data 0) with
  | Some sum => u16 (Z.lnot sum)
  | None => 0
  end.

(** ** The RESET frame *)

Definition dst_mac_local : list Z := [2; 0; 0; 0; 0; 1].
Definition dst_mac_bcast : list Z := [255; 255; 255; 255; 255; 255].
Definition src_mac : list Z := [156; 105; 211; 31; 33; 94].

Definition ip_off : nat := 14.
Definition udp_off : nat := 34.

Definition reset_frame (broadcast_mac : bool) : list Z :=
  let frame := replicate 60 0 in
  let frame := write_at 0 (if broadcast_mac then dst_mac_bcast else dst_mac_local) frame in
  let frame := write_at 6 src_mac frame in
  let frame := put_be16 12 2048 frame in
  let frame := <[ip_off := 69]> frame in
  let frame := <[(ip_off + 1)%nat := 0]> frame in
  let frame := put_be16 (ip_off + 2) (20 + 8 + 3) frame in
  let frame := put_be16 (ip_off + 4) 4660 frame in
  let frame := put_be16 (ip_off + 6) 0 frame in
  let frame := <[(ip_off + 8)%nat := 64]> frame in
  let frame := <[(ip_off + 9)%nat := 17]> frame in
  let frame := put_be16 (ip_off + 10) 0 frame in
  let frame := put_ipv4 (ip_off + 12) 169 254 242 59 frame in
  let frame := put_ipv4 (ip_off + 16) 169 254 242 60 frame in
  let frame := put_be16 (ip_off + 10) (checksum16 (take 20 (drop ip_off frame))) frame in
  let frame := put_be16 udp_off 50001 frame in
  let frame := put_be16 (udp_off + 2) 50000 frame in
  let frame := put_be16 (udp_off + 4) (8 + 3) frame in
  let frame := put_be16 (udp_off + 6) 0 frame in
  let frame := <[(udp_off + 8)%nat := 8]> frame in
  let frame := <[(udp_off + 9)%nat := 0]> frame in
  <[(udp_off + 10)%nat := 0]> frame.

(** ** Replies *)

Definition be16 (hi lo : Z) : Z := Z.lor (Z.shiftl hi 8) lo.

(** [%02x] of each byte, joined by [sep]. *)
Fixpoint hex_bytes (sep : string) (bs : list Z) : string :=
  match bs with
  | [] => ""
  | [b] => hex 2 b
  | b :: bs => hex 2 b +:+ sep +:+ hex_bytes sep bs
  end.

(** The bytes [off], ..., [off + n - 1] of a packet. *)
Definition read_range (p : list Z) (off n : nat) : option (list Z) :=
  mapM (fun i => p !! i) (seq off n).

(** Whether a captured packet of at least 42 bytes is printed; [None] when a byte
    outside the packet would be read. *)
Definition reply_matches (p : list Z) : option (bool * bool) :=
  src ← read_range p 6 6;
  t0 ← p !! 12%nat; t1 ← p !! 13%nat; proto ← p !! 23%nat;
  ip ← read_range p 26 4;
  p0 ← p !! 34%nat; p1 ← p !! 35%nat;
  let from_fpga := bool_decide (src = dst_mac_local) in
  let ipv4_udp := (t0 =? 8) && (t1 =? 0) && (proto =? 17) in
  let src_ip_fpga := bool_decide (ip = [169; 254; 242; 60]) in
  let udp_50000 := (p0 =? 195) && (p1 =? 80) in
  Some (from_fpga || (ipv4_udp && src_ip_fpga) || (ipv4_udp && udp_50000), ipv4_udp).

Definition dotted (ip : list Z) : string :=
  match ip with
  | [a; b; c; d] => dec a +:+ "." +:+ dec b +:+ "." +:+ dec c +:+ "." +:+ dec d
  | _ => ""
  end.

(** The addresses, ports and first 32 payload bytes of a UDP packet. *)
Definition describe_udp (p : list Z) : option string :=
  let caplen := Z.of_nat (length p) in
  first ← p !! 14%nat;
  let ip_header_len := Z.land first 15 * 4 in
  let udp_offset := 14 + ip_header_len in
  if udp_offset + 8 <=? caplen then
    let payload_offset := udp_offset + 8 in
    let payload_len := if payload_offset <? caplen then caplen - payload_offset else 0 in
    src ← read_range p 26 4; dst ← read_range p 30 4;
    s0 ← p !! Z.to_nat udp_offset; s1 ← p !! Z.to_nat (udp_offset + 1);
    d0 ← p !! Z.to_nat (udp_offset + 2); d1 ← p !! Z.to_nat (udp_offset + 3);
    payload ← read_range p (Z.to_nat payload_offset) (Z.to_nat (Z.min payload_len 32));
    Some (" udp " +:+ dotted src +:+ ":" +:+ dec (be16 s0 s1) +:+ " -> " +:+ dotted dst +:+ ":" +:+
          dec (be16 d0 d1) +:+ " payload=" +:+ hex_bytes "" payload)
  else Some "".

(** The line printed for a captured packet: nothing for one that is short or does
    not match. *)
Definition describe_reply (p : list Z) : option (option string) :=
  if Z.of_nat (length p) <? 42 then Some None
  else
    m ← reply_matches p;
    let '(matches, ipv4_udp) := m in
    if (matches : bool) then
      src ← read_range p 6 6; dst ← read_range p 0 6;
      tail ← (if (ipv4_udp : bool) && (42 <=? Z.of_nat (length p)) then describe_udp p else Some "");
      Some (Some ("rx len=" +:+ dec (Z.of_nat (length p)) +:+ " src=" +:+ hex_bytes ":" src +:+
                  " dst=" +:+ hex_bytes ":" dst +:+ tail))
    else Some None.

(** ** The program *)

Record raw_args := mkArgs {
  ra_match : string; ra_repeat : Z; ra_listen_only : bool; ra_broadcast_mac : bool; ra_listen_after_send : bool }.

Definition LONG_MAX : Z := 2 ^ 63 - 1.

(** [std::atoi]: [strtol] narrowed to [int]. *)
Definition atoi (s : string) : Z :=
  match skip_spaces s with
  | String c s' =>
      i32 (if char_code c =? 45 then Z.max (- leading_digits 0 s') (- 2 ^ 63)
           else Z.min (if char_code c =? 43 then leading_digits 0 s' else leading_digits 0 (String c s')) LONG_MAX)
  | EmptyString => 0
  end.

(** [argv] without the program name. *)
Definition parse_args (argv : list string) : raw_args :=
  let listen_only := bool_decide (argv !! 0%nat = Some "listen") in
  let repeat := match argv !! 1%nat with Some s => atoi s | None => 1 end in
  let match_ := if listen_only then default "ASIX" (argv !! 1%nat) else default "ASIX" (argv !! 0%nat) in
  let repeat := if listen_only then 0 else repeat in
  let broadcast_mac := bool_decide (argv !! 2%nat = Some "broadcast") in
  let listen_after_send := listen_only || bool_decide (argv !! 2%nat = Some "listen") in
  mkArgs match_ (if repeat <? 1 then 1 else repeat) listen_only broadcast_mac listen_after_send.

Record pcap_if := mkIf { if_name : option string; if_description : option string }.

(** [std::strstr (s, needle) != nullptr]. *)
Definition strstr (s needle : string) : bool :=
  match String.index 0 needle s with Some _ => true | None => false end.

Fixpoint select_interface (match_ : string) (devs : list pcap_if) : option pcap_if :=
  match devs with
  | [] => None
  | d :: devs =>
      if strstr (default "" (if_description d)) match_ || strstr (default "" (if_name d)) match_ then Some d
      else select_interface match_ devs
  end.

Inductive captured := CapTimeout | CapError | CapNull | CapPacket (p : list Z).

Class Pcap (Hd : Type) := {
  pcap_sendpacket : list Z -> Hd -> Z * Hd;
  pcap_next_ex : Hd -> captured * Hd }.

Record raw_state (Hd : Type) := mkRaw { rs_handle : Hd; rs_out : list string; rs_ticks : nat }.
Arguments mkRaw {Hd}.
Arguments rs_handle {Hd}.
Arguments rs_out {Hd}.
Arguments rs_ticks {Hd}.

(** [OutOfFuel] and [BadRead] are not results of the program: the first stands for a
    loop still running, the second for a read outside a packet. *)
Inductive listen_result (St : Type) := Listened (matched : Z) (st : St) | OutOfFuel | BadRead.
Arguments Listened {St}.
Arguments OutOfFuel {St}.
Arguments BadRead {St}.

Section program.
Context `{Pcap Hd} (ticks : nat -> Z).

Definition get_tick_count (st : raw_state Hd) : Z * raw_state Hd :=
  (u32 (ticks (rs_ticks st)), st <| rs_ticks ::= S |>).
Definition say (line : string) (st : raw_state Hd) : raw_state Hd := st <| rs_out ::= (fun l => l ++ [line]) |>.

(** The number of frames sent, or [None] when a call failed. *)
Fixpoint send_frames (n : nat) (frame : list Z) (sent : Z) (st : raw_state Hd) : option Z * raw_state Hd :=
  match n with
  | O => (Some sent, st)
  | S n =>
      let '(rc, h) := pcap_sendpacket frame (rs_handle st) in
      let st := st <| rs_handle := h |> in
      if negb (rc =? 0) then (None, st) else send_frames n frame (sent + 1) st
  end.

Fixpoint listen_loop (fuel : nat) (deadline matched : Z) (st : raw_state Hd) : listen_result (raw_state Hd) :=
  let '(now, st) := get_tick_count st in
  if now <? deadline then
    match fuel with
    | O => OutOfFuel
    | S fuel =>
        let '(r, h) := pcap_next_ex (rs_handle st) in
        let st := st <| rs_handle := h |> in
        match r with
        | CapTimeout | CapNull => listen_loop fuel deadline matched st
        | CapError => Listened matched st
        | CapPacket p =>
            match describe_reply p with
            | None => BadRead
            | Some None => listen_loop fuel deadline matched st
            | Some (Some line) => listen_loop fuel deadline (matched + 1) (say line st)
            end
        end
    end
  else Listened matched st.

Definition listen (fuel : nat) (st : raw_state Hd) : listen_result (raw_state Hd) :=
  let st := say "listening for FPGA UDP replies for ~3 seconds..." st in
  let '(now, st) := get_tick_count st in
  match listen_loop fuel (u32 (now + 3000)) 0 st with
  | Listened matched st => Listened matched (say ("matched replies: " +:+ dec matched) st)
  | r => r
  end.

(** Everything after the library is loaded: the exit code and what was printed. *)
Definition raw_main (devs : option (list pcap_if)) (open_live : option string -> option Hd)
    (fuel : nat) (argv : list string) : option (Z * list string) :=
  let args := parse_args argv in
  match devs with
  | None => Some (1, [])
  | Some devs =>
      match select_interface (ra_match args) devs with
      | None => Some (1, [])
      | Some d =>
          let banner := "using interface: " +:+ default "" (if_name d) +:+ " | " +:+ default "" (if_description d) in
          match open_live (if_name d) with
          | None => Some (1, [banner])
          | Some h =>
              let st := mkRaw h [banner] 0%nat in
              let frame := reset_frame (ra_broadcast_mac args) in
              let '(sent, st) :=
                if ra_listen_only args then (Some 0, st)
                else send_frames (Z.to_nat (ra_repeat args)) frame 0 st in
              match sent with
              | None => Some (1, rs_out st)
              | Some sent_count =>
                  let st := say ("sent " +:+ dec sent_count +:+ " raw Ethernet UDP RESET frame(s), " +:+
                                 dec (Z.of_nat (length frame)) +:+ " bytes each") st in
                  if ra_listen_after_send args then
                    match listen fuel st with
                    | Listened _ st => Some (0, rs_out st)
                    | OutOfFuel | BadRead => None
                    end
                  else Some (0, rs_out st)
              end
          end
      end
  end.
End program.

(** ** The checksum *)

(** The sum of the big-endian words, unbounded. *)
Fixpoint word_sum (data : list Z) : Z :=
  match data with
  | a :: b :: data => a * 256 + b + word_sum data
  | [a] => a * 256
  | [] => 0
  end.

(** Induction two bytes at a time. *)
Lemma pairs_ind (P : list Z -> Prop) :
  P [] -> (forall a, P [a]) -> (forall a b l, P l -> P (a :: b :: l)) -> forall l, P l.
Proof.
  intros H0 H1 H2 l. assert (P l /\ forall a, P (a :: l)) as [? _]; [|done].
  induction l as [|a l [IH IH']]; split; auto.
Qed.

Lemma word_sum_bound data : Forall is_byte data -> 0 <= word_sum data <= 65535 * Z.of_nat (length data).
Proof.
  revert data. apply (pairs_ind (fun data => Forall is_byte data -> 0 <= word_sum data <= 65535 * Z.of_nat (length data))).
  - simpl. lia.
  - intros a Ha. apply Forall_cons in Ha as [Ha _]. unfold is_byte in Ha. cbn [word_sum length]. lia.
  - intros a b l IH Hl. rewrite !Forall_cons in Hl. destruct Hl as (Ha & Hb & Hl). specialize (IH Hl).
    unfold is_byte in Ha, Hb. cbn [word_sum length]. lia.
Qed.

Lemma word_sum_app l l' : Nat.Even (length l) -> word_sum (l ++ l') = word_sum l + word_sum l'.
Proof.
  revert l. apply (pairs_ind (fun l => Nat.Even (length l) -> word_sum (l ++ l') = word_sum l + word_sum l')).
  - done.
  - intros a [k Hk]. simpl in Hk. lia.
  - intros a b l IH [k Hk]. cbn [length] in Hk. cbn [app word_sum]. rewrite IH; [lia|]. exists (k - 1)%nat. lia.
Qed.

Lemma sum_words_exact data : Forall is_byte data -> forall s,
  0 <= s -> s + word_sum data < 2 ^ 32 -> sum_words data s = s + word_sum data.
Proof.
  revert data. apply (pairs_ind (fun data => Forall is_byte data -> forall s,
    0 <= s -> s + word_sum data < 2 ^ 32 -> sum_words data s = s + word_sum data)).
  - intros _ s Hs Hlt. simpl. lia.
  - intros a Ha s Hs Hlt. apply Forall_cons in Ha as [Ha _]. unfold is_byte in Ha. cbn [sum_words word_sum] in *.
    rewrite Z.shiftl_mul_pow2 by lia. apply u32_small. unfold is_u32. lia.
  - intros a b l IH Hl s Hs Hlt. rewrite !Forall_cons in Hl. destruct Hl as (Ha & Hb & Hl).
    pose proof (word_sum_bound l Hl). unfold is_byte in Ha, Hb. cbn [sum_words word_sum] in *.
    rewrite Z.lor_comm, lor_shiftl_add by lia. rewrite u32_small by (unfold is_u32; lia).
    rewrite IH by (done || lia). lia.
Qed.

Lemma fold_step s : 0 <= s < 2 ^ 32 -> (Z.shiftr s 16 =? 0) = false ->
  u32 (Z.land s 65535 + Z.shiftr s 16) = s mod 65536 + s / 65536 /\ 65536 <= s.
Proof.
  intros Hs Hc. change 65535 with (Z.ones 16). rewrite Z.land_ones, shiftr_8 in * by lia.
  apply Z.eqb_neq in Hc. change (2 ^ 16) with 65536 in *. split; [apply u32_small; unfold is_u32; zdm|zdm].
Qed.

(** Two rounds fold a 32-bit sum to 16 bits, modulo 65535; only zero folds to zero. *)
Lemma fold_carries_spec s : 0 <= s < 2 ^ 32 ->
  exists r, fold_carries 2 s = Some r /\ 0 <= r <= 65535 /\ r mod 65535 = s mod 65535 /\ (0 < s <-> 0 < r).
Proof.
  assert (forall s, 0 <= s < 2 ^ 32 -> (Z.shiftr s 16 =? 0) = true -> s <= 65535) as Hsmall.
  { intros x Hx Hc. apply Z.eqb_eq in Hc. rewrite shiftr_8 in Hc by lia. change (2 ^ 16) with 65536 in Hc. zdm. }
  intros Hs. cbn [fold_carries]. destruct (Z.shiftr s 16 =? 0) eqn:H1.
  { exists s. specialize (Hsmall s Hs H1). split_and!; [done|lia|lia|done|done]. }
  destruct (fold_step s Hs H1) as [-> Hge]. set (s1 := s mod 65536 + s / 65536).
  assert (0 < s1 <= 131070) as Hs1 by (subst s1; zdm).
  assert (s1 mod 65535 = s mod 65535) as Hm1 by (subst s1; zdm).
  clearbody s1. destruct (Z.shiftr s1 16 =? 0) eqn:H2.
  { exists s1. specialize (Hsmall s1 ltac:(lia) H2). split_and!; [done|lia|lia|done|lia]. }
  destruct (fold_step s1 ltac:(lia) H2) as [-> Hge1]. set (s2 := s1 mod 65536 + s1 / 65536).
  assert (0 < s2 <= 65535) as Hs2 by (subst s2; zdm).
  assert (s2 mod 65535 = s1 mod 65535) as Hm2 by (subst s2; zdm). clearbody s2.
  replace (Z.shiftr s2 16 =? 0) with true by (symmetry; apply Z.eqb_eq; rewrite shiftr_8 by lia; change (2 ^ 16) with 65536; zdm).
  exists s2. split_and!; [done|lia|lia|congruence|lia].
Qed.

Lemma checksum16_spec data : Forall is_byte data -> Z.of_nat (length data) <= 65536 ->
  exists r, checksum16 data = 65535 - r /\ 0 <= r <= 65535 /\
    r mod 65535 = word_sum data mod 65535 /\ (0 < word_sum data <-> 0 < r).
Proof.
  intros Hb Hl. pose proof (word_sum_bound data Hb). unfold checksum16.
  rewrite sum_words_exact by (done || lia). rewrite Z.add_0_l.
  destruct (fold_carries_spec (word_sum data)) as (r & -> & Hr & Hm & Hp); [lia|].
  exists r. split_and!; [|lia|lia|done|done]. unfold u16, Z.lnot. change (2 ^ 16) with 65536. zdm.
Qed.

(** *** The reference of RFC 1071 *)

(** The 16-bit words of a byte string, an odd byte at the end padded with zero. *)
Fixpoint words16 (data : list Z) : list Z :=
  match data with
  | a :: b :: data => a * 256 + b :: words16 data
  | [a] => [a * 256]
  | [] => []
  end.

(** One's complement addition: the carry out of the top bit is added at the bottom. *)
Definition add_end_around (a b : Z) : Z := if a + b <? 65536 then a + b else a + b - 65535.
Definition ones_complement_sum (data : list Z) : Z := foldr add_end_around 0 (words16 data).

Lemma ones_complement_sum_spec data : Forall is_byte data ->
  0 <= ones_complement_sum data <= 65535 /\
  ones_complement_sum data mod 65535 = word_sum data mod 65535 /\
  (0 < word_sum data <-> 0 < ones_complement_sum data).
Proof.
  unfold ones_complement_sum. revert data.
  apply (pairs_ind (fun data => Forall is_byte data ->
    let s := foldr add_end_around 0 (words16 data) in
    0 <= s <= 65535 /\ s mod 65535 = word_sum data mod 65535 /\ (0 < word_sum data <-> 0 < s))).
  - intros _. simpl. lia.
  - intros a Ha. apply Forall_cons in Ha as [Ha _]. unfold is_byte in Ha.
    cbn [words16 foldr word_sum]. unfold add_end_around.
    destruct (Z.ltb_spec (a * 256 + 0) 65536); [|lia]. rewrite Z.add_0_r. lia.
  - intros a b l IH Hl. rewrite !Forall_cons in Hl. destruct Hl as (Ha & Hb & Hl).
    destruct (IH Hl) as (Hr & Hm & Hp). clear IH. pose proof (word_sum_bound l Hl) as Hw. revert Hw.
    cbn [words16 foldr word_sum]. unfold is_byte in Ha, Hb. revert Hr Hm Hp.
    generalize (foldr add_end_around 0 (words16 l)). generalize (word_sum l). intros w s Hr Hm Hp Hw.
    cbv zeta. unfold add_end_around.
    assert ((a * 256 + b + s) mod 65535 = (a * 256 + b + w) mod 65535) as He
      by (rewrite (Zplus_mod _ s), Hm, <- Zplus_mod; done).
    destruct (Z.ltb_spec (a * 256 + b + s) 65536); (split_and!; [lia|lia| |lia]); [exact He|].
    rewrite <- He. replace (a * 256 + b + s) with (a * 256 + b + s - 65535 + 1 * 65535) at 2 by lia.
    by rewrite Z_mod_plus_full.
Qed.

(** Numbers up to 65535 are told apart by their residue and by being zero. *)
Lemma residue_unique r r' : 0 <= r <= 65535 -> 0 <= r' <= 65535 ->
  r mod 65535 = r' mod 65535 -> (0 < r <-> 0 < r') -> r = r'.
Proof. intros. zdm. Qed.

Lemma checksum16_reference data : Forall is_byte data -> Z.of_nat (length data) <= 65536 ->
  checksum16 data = 65535 - ones_complement_sum data.
Proof.
  intros Hb Hl. destruct (checksum16_spec data Hb Hl) as (r & -> & Hr & Hm & Hp).
  destruct (ones_complement_sum_spec data Hb) as (Hr' & Hm' & Hp'). f_equal.
  apply residue_unique; [lia|lia|congruence|]. rewrite <- Hp, <- Hp'. done.
Qed.

(** The header [pre ++ [0; 0] ++ post] with [c] stored in the two bytes. *)
Lemma put_be16_middle pre post c : 0 <= c <= 65535 ->
  put_be16 (length pre) c (pre ++ [0; 0] ++ post) = pre ++ [c / 256; c mod 256] ++ post.
Proof.
  intros Hc. unfold put_be16. rewrite insert_app_r_alt, Nat.sub_diag by lia. rewrite insert_app_r_alt by lia.
  replace (length pre + 1 - length pre)%nat with 1%nat by lia. cbn.
  unfold u8. rewrite shiftr_8 by lia. change (2 ^ 8) with 256. repeat f_equal. zdm.
Qed.

(** With the complement of its sum stored, a header sums to all ones. *)
Lemma complement_stored pre post :
  Nat.Even (length pre) -> Forall is_byte (pre ++ post) ->
  ones_complement_sum
    (put_be16 (length pre) (65535 - ones_complement_sum (pre ++ [0; 0] ++ post)) (pre ++ [0; 0] ++ post)) = 65535.
Proof.
  intros He [Hpre Hpost]%Forall_app.
  destruct (ones_complement_sum_spec (pre ++ [0; 0] ++ post)) as (Hr & Hm & Hp).
  { repeat first [apply Forall_app_2 | apply Forall_cons_2 | done]. }
  set (r := ones_complement_sum (pre ++ [0; 0] ++ post)) in *.
  set (c := 65535 - r). assert (0 <= c <= 65535) as Hcr by lia.
  rewrite put_be16_middle by done.
  destruct (ones_complement_sum_spec (pre ++ [c / 256; c mod 256] ++ post)) as (Hr' & Hm' & Hp').
  { repeat first [apply Forall_app_2 | apply Forall_cons_2 | done]; unfold is_byte; zdm. }
  set (r' := ones_complement_sum (pre ++ [c / 256; c mod 256] ++ post)) in *.
  rewrite !word_sum_app in * by done. cbn [app word_sum] in *.
  pose proof (word_sum_bound pre Hpre). pose proof (word_sum_bound post Hpost).
  assert (c / 256 * 256 + c mod 256 = c) as Hcc by zdm. rewrite Hcc in *.
  assert (0 < r') as Hpos by (apply Hp'; destruct (decide (word_sum pre + word_sum post = 0)); [|lia]; zdm).
  assert (r' mod 65535 = 0) as Hz; [|zdm].
  rewrite Hm'. subst c. replace (word_sum pre + (65535 - r + word_sum post))
    with (word_sum pre + (0 * 256 + 0 + word_sum post) - r + 1 * 65535) by lia.
  rewrite Z_mod_plus_full, Zminus_mod, Hm, Z.sub_diag. done.
Qed.

(** ** The frame as a receiver sees it *)

Record udp_packet := mkPacket {
  pk_src : list Z; pk_dst : list Z; pk_src_port : Z; pk_dst_port : Z; pk_payload : list Z }.

(** A receiver of Ethernet, IPv4 without options and UDP: it checks types, lengths and
    the header checksum, and drops the padding of short frames. *)
Definition parse_udp (frame : list Z) : option udp_packet :=
  let b i := nth i frame 0 in
  let w i := b i * 256 + b (i + 1)%nat in
  let total := w 16%nat in
  if (60 <=? Z.of_nat (length frame)) && (w 12%nat =? 2048) && (b 14%nat =? 69) && (b 23%nat =? 17) &&
     (ones_complement_sum (take 20 (drop 14 frame)) =? 65535) &&
     (14 + total <=? Z.of_nat (length frame)) && (28 <=? total) && (w 38%nat =? total - 20)
  then Some (mkPacket (take 4 (drop 26 frame)) (take 4 (drop 30 frame)) (w 34%nat) (w 36%nat)
               (take (Z.to_nat (total - 28)) (drop 42 frame)))
  else None.

(** The frame is a UDP datagram to the board's port that holds a RESET. *)
Lemma reset_frame_parses broadcast_mac keytype :
  parse_udp (reset_frame broadcast_mac) =
    Some (mkPacket [169; 254; 242; 59] [169; 254; 242; 60] 50001 50000 (pg_bytes keytype PReset)).
Proof. by destruct broadcast_mac. Qed.

(** ** Replies are read inside the packet *)

Lemma read_range_some p : forall n off, (off + n <= length p)%nat ->
  read_range p off n = Some (take n (drop off p)).
Proof.
  unfold read_range. induction n as [|n IH]; intros off Hl; [done|]. cbn [seq mapM].
  destruct (lookup_lt_is_Some_2 p off) as [b Hb]; [lia|]. rewrite Hb. cbn [mbind option_bind].
  rewrite IH by lia. cbn [mbind option_bind]. rewrite (drop_S p b off) by done. done.
Qed.

Lemma byte_some (p : list Z) (i : nat) : (i < length p)%nat -> exists b, p !! i = Some b.
Proof. apply lookup_lt_is_Some_2. Qed.

Ltac in_packet :=
  repeat match goal with
  | |- context [read_range ?p ?off ?n] => rewrite (read_range_some p n off) by lia; cbn [mbind option_bind]
  | |- context [@lookup nat Z (list Z) _ ?i ?p] =>
      let b := fresh "b" in let E := fresh in
      destruct (byte_some p i) as [b E]; [lia|]; rewrite E; clear E; cbn [mbind option_bind]
  end.

Lemma describe_udp_some p : (42 <= length p)%nat -> exists line, describe_udp p = Some line.
Proof.
  intros Hl. unfold describe_udp. destruct (byte_some p 14) as [first ->]; [lia|]. cbn [mbind option_bind].
  assert (0 <= Z.land first 15 < 16) as Hf.
  { change 15 with (Z.ones 4). rewrite Z.land_ones by lia. apply Z.mod_pos_bound. lia. }
  set (off := 14 + Z.land first 15 * 4). assert (14 <= off) by lia. clearbody off.
  destruct (Z.leb_spec (off + 8) (Z.of_nat (length p))); [|by eexists].
  destruct (Z.ltb_spec (off + 8) (Z.of_nat (length p))); in_packet; by eexists.
Qed.

Lemma describe_reply_some p : exists r, describe_reply p = Some r.
Proof.
  unfold describe_reply. destruct (Z.ltb_spec (Z.of_nat (length p)) 42) as [|Hl]; [by eexists|].
  assert (exists m, reply_matches p = Some m) as [[matches u] ->].
  { unfold reply_matches. in_packet. by eexists. }
  cbn [mbind option_bind]. destruct matches; [|by eexists]. in_packet.
  destruct (u && _); [|by eexists]. destruct (describe_udp_some p) as [line ->]; [lia|]. by eexists.
Qed.

Section listening.
Context `{Pcap Hd} (ticks : nat -> Z).

Lemma listen_loop_ends fuel : forall deadline matched st,
  (exists k, (k <= fuel)%nat /\ deadline <= u32 (ticks (rs_ticks st + k)%nat)) ->
  exists matched' st', listen_loop ticks fuel deadline matched st = Listened matched' st'.
Proof.
  induction fuel as [|fuel IH]; intros deadline matched st (k & Hk & Ht); cbn [listen_loop get_tick_count].
  - assert (k = 0%nat) as -> by lia. rewrite Nat.add_0_r in Ht.
    destruct (Z.ltb_spec (u32 (ticks (rs_ticks st))) deadline); [lia|]. by eexists _, _.
  - destruct (Z.ltb_spec (u32 (ticks (rs_ticks st))) deadline) as [Hlt|]; [|by eexists _, _].
    assert (forall m st1, rs_ticks st1 = S (rs_ticks st) ->
      exists matched' st', listen_loop ticks fuel deadline m st1 = Listened matched' st') as Hgo.
    { intros m st1 Hst1. apply IH. exists (k - 1)%nat.
      assert (k <> 0%nat) by (intros ->; rewrite Nat.add_0_r in Ht; lia).
      split; [lia|]. rewrite Hst1. by replace (S (rs_ticks st) + (k - 1))%nat with (rs_ticks st + k)%nat by lia. }
    destruct st as [h out t]. cbn in *. destruct (pcap_next_ex h) as [[| | |p] h']; try by apply Hgo.
    + by eexists _, _.
    + destruct (describe_reply_some p) as [[line|] ->]; by apply Hgo.
Qed.
End listening.

(** ** Claims *)

(** C40: [checksum16] is the Internet checksum of RFC 1071: for every byte string of
    up to 64 KiB, of odd length too, it is the complement of the one's complement sum
    of its 16-bit words; stored into the zeroed checksum field of a header (at an even
    offset) it makes the one's complement sum of the header all ones, which is what a
    receiver tests. *)
Theorem checksum_makes_header_valid (data pre post : list Z) :
  (Forall is_byte data -> Z.of_nat (length data) <= 65536 ->
   checksum16 data = 65535 - ones_complement_sum data) /\
  (Nat.Even (length pre) -> Forall is_byte (pre ++ post) -> Z.of_nat (length (pre ++ post)) <= 65534 ->
   let header := pre ++ [0; 0] ++ post in
   ones_complement_sum (put_be16 (length pre) (checksum16 header) header) = 65535).
Proof.
  split; [apply checksum16_reference|]. intros He Hb Hl header.
  unfold header. rewrite checksum16_reference; [by apply complement_stored| |].
  - apply Forall_app in Hb as [? ?]. repeat first [apply Forall_app_2 | apply Forall_cons_2 | done].
  - rewrite !length_app in *. simpl. lia.
Qed.

(** The IP header of a RESET frame. *)
Lemma checksum_makes_header_valid_witness :
  checksum16 [69; 0; 0; 31; 255; 255; 240] = 65535 - ones_complement_sum [69; 0; 0; 31; 255; 255; 240] /\
  ones_complement_sum (put_be16 10
    (checksum16 (take 10 (drop 14 (reset_frame false)) ++ [0; 0] ++ drop 12 (take 20 (drop 14 (reset_frame false)))))
    (take 10 (drop 14 (reset_frame false)) ++ [0; 0] ++ drop 12 (take 20 (drop 14 (reset_frame false))))) = 65535.
Proof.
  destruct (checksum_makes_header_valid [69; 0; 0; 31; 255; 255; 240] (take 10 (drop 14 (reset_frame false)))
    (drop 12 (take 20 (drop 14 (reset_frame false))))) as [H1 H2].
  split.
  - apply H1; [repeat constructor; done|vm_compute; discriminate].
  - apply H2; [exists 5%nat; reflexivity|vm_compute; repeat constructor; discriminate|vm_compute; discriminate].
Defined.

(** Listening for replies ends once the clock has passed the deadline, for any
    packets the capture library delivers, and never reads outside a packet. *)
Theorem raw_listen_ends `{Pcap Hd} (ticks : nat -> Z) (st : raw_state Hd) (k : nat) :
  u32 (u32 (ticks (rs_ticks st)) + 3000) <= u32 (ticks (S (rs_ticks st) + k)%nat) ->
  forall fuel, (k <= fuel)%nat -> exists matched st', listen ticks fuel st = Listened matched st'.
Proof.
  intros Ht fuel Hk. unfold listen, get_tick_count. destruct st as [h out t]. cbn in Ht |- *.
  destruct (listen_loop_ends ticks fuel (u32 (u32 (ticks t) + 3000)) 0
    (mkRaw h (out ++ ["listening for FPGA UDP replies for ~3 seconds..."]) (S t))) as (m & st' & ->).
  - exists k. split; [done|]. exact Ht.
  - by eexists _, _.
Qed.

(** A capture library with a list of packets to deliver. *)
#[global] Instance list_pcap : Pcap (list captured) := {
  pcap_sendpacket _ h := (0, h);
  pcap_next_ex h := match h with [] => (CapTimeout, []) | r :: h => (r, h) end }.

Lemma raw_listen_ends_witness :
  exists matched st', listen (fun n => 1000 * Z.of_nat n) 4
    (mkRaw [CapPacket (reset_frame true); CapPacket [1; 2; 3]] [] 0%nat) = Listened matched st'.
Proof.
  apply (raw_listen_ends (fun n => 1000 * Z.of_nat n)
    (mkRaw [CapPacket (reset_frame true); CapPacket [1; 2; 3]] [] 0%nat) 3).
  - vm_compute. discriminate.
  - lia.
Defined.

(** The deadline wraps: within three seconds of the 32-bit millisecond counter's
    overflow the loop ends at once, and no packet is looked at. *)
Lemma listen_deadline_wraps `{Pcap Hd} (ticks : nat -> Z) (st : raw_state Hd) fuel :
  2 ^ 32 - 3000 <= u32 (ticks (rs_ticks st)) <= u32 (ticks (S (rs_ticks st))) ->
  exists st', listen ticks fuel st = Listened 0 st' /\ rs_handle st' = rs_handle st.
Proof.
  intros [Ht Ht']. destruct st as [h out t]. cbn in Ht, Ht'. pose proof (u32_range (ticks t)) as Hr. unfold is_u32 in Hr.
  assert (u32 (u32 (ticks t) + 3000) < 3000) as Hw by (unfold u32 at 1; zdm).
  unfold listen, get_tick_count. cbn. set (d := u32 (u32 (ticks t) + 3000)) in *.
  assert ((u32 (ticks (S t)) <? d) = false) as Hnot by (apply Z.ltb_ge; lia).
  destruct fuel; cbn [listen_loop get_tick_count rs_ticks]; rewrite Hnot; by eexists.
Qed.
