(* ===== verification/Board.v ===== *)
(** The kernel behind an ideal serial line.

    A [Board] is the device the host opens: a program of the kernel's stream
    monad with its registers and DDR2, the bytes the host has written so far, with
    the gaps in which they arrive, and how much of the output the host has read.
    Its output is that of the program on the bytes written so far; reads deliver
    it in order.  [Board] implements the terminal interface of [UartTransport],
    and a board that runs [hash_join_kernel] implements [JoinServer]: this
    discharges the interface the client is proved against. *)
From S2P Require Import Prelude Types Stream LinearHashTable Grace Wire Dialogue Join Kernel LinearJoin LinearAborts.
From S2P Require Import Transport Decoder Protocol KernelServer UartTransport.

Record Board := mkBoard {
  bd_gaps : nat -> Z;
  bd_prog : M dev kst;
  bd_ports : regs;
  bd_ddr2 : gmap Z Z;
  bd_sent : list Z;
  bd_taken : nat }.

(** What the program has emitted so far. *)
Definition board_out (b : Board) : list Z :=
  match bd_prog b (mkDev (feed (bd_gaps b) 0 (bd_sent b) []) [] (bd_ports b) (bd_ddr2 b)) with
  | Ret _ d | Blocked d => ax_data <$> tx d
  | Fault => []
  end.

#[global] Instance board_tty : Tty Board := {
  sys_write data b := (Z.of_nat (length data), b <| bd_sent ::= (fun s => s ++ data) |>);
  sys_read n b :=
    let bs := take n (drop (bd_taken b) (board_out b)) in
    (Some bs, b <| bd_taken ::= (fun k => k + length bs)%nat |>);
  sys_tcflush b := b <| bd_taken := length (board_out b) |>;
  uart_budget _ := 0%nat }.

(** A freshly configured device running [n] sessions of the kernel. *)
Definition kernel_board (g : nat -> Z) (dbg : bool) (rtl : RtlTiming) (n : nat) (k : kst)
    (p : regs) (mm : gmap Z Z) : Board :=
  mkBoard g (hash_join_kernel dbg rtl n k) p mm [] 0.

(** ** The terminal *)

#[global] Program Instance board_readable : ReadableTty Board := {
  tty_in b := drop (bd_taken b) (board_out b) }.
Next Obligation.
  intros n b. simpl. split; [rewrite length_take; lia|].
  set (l := drop (bd_taken b) (board_out b)).
  change (take n l ++ drop (bd_taken b + length (take n l)) (board_out b) = l).
  rewrite <- drop_drop. fold l. destruct (Nat.le_ge_cases n (length l)).
  - rewrite length_take, Nat.min_l by done. apply take_drop.
  - rewrite take_ge, drop_all by done. apply app_nil_r.
Qed.

#[global] Instance board_prompt : PromptTransport (UartTransport Board).
Proof.
  intros n [b sp vt] Hn. eexists _, _. split; [reflexivity|]. simpl.
  destruct (drop _ _); [done|]. by destruct n; [lia|].
Qed.

(** A write hands over all bytes at once. *)
Definition board_write (data : list Z) (u : UartTransport Board) : UartTransport Board :=
  u <| uart_fd ::= fun b => b <| bd_sent ::= (fun s => s ++ data) |> |>.

Lemma board_send data u : data <> [] -> send data u = Done tt (board_write data u).
Proof.
  intros Hd. simpl. unfold uart_send. destruct data as [|x data]; [done|].
  cbn [length Nat.add write_loop]. unfold mbind, H_bind, fd_call.
  cbn [sys_write board_tty]. destruct (Z.ltb_spec (Z.of_nat (length (x :: data))) 0); [lia|].
  rewrite Nat2Z.id, drop_all. by destruct (length data + _)%nat.
Qed.

(** ** Output along a run *)

Lemma axis_frames_data fs : ax_data <$> axis_frames fs = replies_bytes fs.
Proof.
  unfold axis_frames, replies_bytes. induction fs as [|f fs IH]; [done|].
  cbn [fmap list_fmap concat]. rewrite fmap_app, IH. f_equal. apply axis_data.
Qed.

Lemma replies_bytes_app fs fs' : replies_bytes (fs ++ fs') = replies_bytes fs ++ replies_bytes fs'.
Proof. unfold replies_bytes. by rewrite fmap_app, concat_app. Qed.

(** The run of the board's program so far: it has consumed all input, emitted
    [fs] and is left with [m]. *)
Definition run_to (b : Board) (m : M dev kst) (fs : list fp_frame) : Prop :=
  exists w, leads (bd_gaps b) (bd_prog b) (bd_sent b) (bd_ports b, bd_ddr2 b) m fs w.

Lemma board_out_run dbg rtl j a b m fs :
  run_to b m fs -> in_state dbg rtl j a m -> board_out b = replies_bytes fs.
Proof.
  intros [w Hr] Hin. specialize (Hr 0%nat [] [] []). rewrite !app_nil_r in Hr. simpl in Hr.
  unfold board_out. rewrite Hr.
  destruct (in_state_waits dbg rtl j a m (axis_frames fs) (fst w) (snd w) Hin) as [->|[k ->]];
    apply axis_frames_data.
Qed.

(** ** The board as a join server *)

(** The kernel on the board is at a waiting point of the session of [j]. *)
Definition board_serves (j : job) (a : pstate) (u : UartTransport Board) : Prop :=
  let b := uart_fd u in
  servable j /\ timely (bd_gaps b) /\ (bd_taken b <= length (board_out b))%nat /\
  exists dbg rtl m fs, run_to b m fs /\ in_state dbg rtl j a m.

(** If the bytes [bs] take the kernel from [a] to a later waiting point, writing
    them leaves the board there, with the reply behind the unread output. *)
Lemma board_serves_send j a u bs (Q : list fp_frame -> pstate -> Prop) :
  bs <> [] -> board_serves j a u ->
  (forall dbg rtl m w, servable j -> timely (bd_gaps (uart_fd u)) -> in_state dbg rtl j a m ->
     exists m' fs w' a', leads (bd_gaps (uart_fd u)) m bs w m' fs w' /\ Q fs a' /\
       in_state dbg rtl j a' m') ->
  exists u' fs a',
    send bs u = Done tt u' /\ Q fs a' /\ board_serves j a' u' /\
    incoming u' = incoming u ++ replies_bytes fs.
Proof.
  intros Hbs (Hj & Hg & Ht & dbg & rtl & m & fs0 & [w Hr] & Hin) Hstep.
  destruct (Hstep dbg rtl m w Hj Hg Hin) as (m' & fs & w' & a' & Hl & HQ & Hin').
  set (u' := board_write bs u).
  assert (run_to (uart_fd u') m' (fs0 ++ fs)) as Hr'.
  { exists w'. exact (leads_trans _ _ _ _ _ _ _ _ _ _ Hr Hl). }
  assert (board_out (uart_fd u) = replies_bytes fs0) as Ho
    by (eapply board_out_run; [by exists w|done]).
  assert (board_out (uart_fd u') = replies_bytes fs0 ++ replies_bytes fs) as Ho'
    by (rewrite <- replies_bytes_app; by eapply board_out_run).
  assert (bd_taken (uart_fd u') = bd_taken (uart_fd u)) as Htk by done.
  exists u', fs, a'. split_and!; [by apply board_send|done| |].
  - split_and!; [done|done| |by exists dbg, rtl, m', (fs0 ++ fs)].
    rewrite Htk, Ho', length_app, <- Ho. lia.
  - change (drop (bd_taken (uart_fd u')) (board_out (uart_fd u')) =
      drop (bd_taken (uart_fd u)) (board_out (uart_fd u)) ++ replies_bytes fs).
    rewrite Htk, Ho', Ho. apply drop_app_le. by rewrite <- Ho.
Qed.

Lemma pg_bytes_nonempty kt f : pg_bytes kt f <> [].
Proof. by destruct f. Qed.

#[global] Program Instance board_server (j : job) : JoinServer (UartTransport Board) j kernel_grouping := {
  serves := board_serves j }.
Next Obligation.
  intros j a n [b sp vt] bs u' (Hj & Hg & Ht & dbg & rtl & m & fs & Hr & Hin) Hrecv.
  injection Hrecv as _ <-. simpl in *. split_and!; [done|done| |by exists dbg, rtl, m, fs].
  set (l := drop _ _). assert (length l = length (board_out b) - bd_taken b)%nat as Hl
    by apply length_drop.
  pose proof (length_take l n) as Hlt.
  change (bd_taken b + length (take n l) <= length (board_out b))%nat. lia.
Qed.
Next Obligation.
  intros j a f u Hs Hms. apply board_serves_send with (a := a); [apply pg_bytes_nonempty|done|].
  intros dbg rtl m w Hj Hg Hin. by apply kernel_step.
Qed.
Next Obligation.
  intros j b u Hs Hb. apply board_serves_send with (a := AIdle); [done|done|].
  intros dbg rtl m w Hj Hg Hin. by apply kernel_first_steps.
Qed.

(** A fresh board waits for CONFIGURE, with at most a debug frame to read. *)
Lemma kernel_board_serves g dbg rtl n k p mm j sp vt :
  timely g -> servable j ->
  let u := mkUart (kernel_board g dbg rtl (S n) k p mm) sp vt in
  serves (j := j) AIdle u /\ incoming u = replies_bytes (debug_frames dbg DBG_INFO DBG_IDLE_ENTER 0).
Proof.
  intros Hg Hj u. set (ds := debug_frames dbg DBG_INFO DBG_IDLE_ENTER 0).
  destruct (session_enter g dbg rtl k (p <| ht_capacity_reg := HT_MAX_ROWS |>
    <| rx_buf_cap_reg := RX_CREDIT_TUPLES |>) mm) as [p' Hs].
  assert (run_to (uart_fd u) (session_rest dbg rtl (session_init k) ≫= session_loop dbg rtl n) ds) as Hr.
  { exists (p', mm). exact (leads_bind_l _ _ (session_loop dbg rtl n) _ _ _ _ Hs). }
  pose proof (IS_idle dbg rtl j n k) as Hin.
  pose proof (board_out_run _ _ _ _ _ _ _ Hr Hin) as Ho. split.
  - split_and!; [done|done|simpl; lia|]. by eexists dbg, rtl, _, ds.
  - simpl. by rewrite drop_0.
Qed.
