(* ===== verification/Adapter.v ===== *)
(** The bridge between the PostgreSQL extension and the host library,
    [pg/src/fpga_adapter.cpp].

    [fpga_adapter_run] is the C entry point.  Its globals are the record
    [adapter]; a C string is an [option string] ([None] is a null pointer).  What
    the operating system provides is a parameter of the section: the clock, the
    opening of a socket or terminal, and whether [malloc] succeeds.  An exception
    that leaves the [extern "C"] function is [Escapes]. *)
From stdpp Require Import strings.
From S2P Require Import Prelude Types LinearHashTable Stream Wire Dialogue Join Grace Kernel.
From S2P Require Import Transport Serializer Decoder Client SoftwareKernel UdpTransport UartTransport.

(** ** Capacities *)

Definition kHtMaxRows : Z := 12288.
Definition kGraceMaxK : Z := 256.
Definition kGraceWordsPerTuple : Z := 2.
Definition kGraceInnerSlotWords : Z := kHtMaxRows * kGraceWordsPerTuple.
Definition kGraceOuterAreaBase : Z := kGraceMaxK * kGraceInnerSlotWords.
Definition kGraceDdr2TotalWords : Z := 16 * 1024 * 1024.
Definition kGraceMaxInnerRows : Z := kGraceMaxK * kHtMaxRows.

(** ** Metrics *)

Record AdapterHostMetrics := mkAdapterMetrics {
  am_config_send_us : Z;
  am_config_ack_wait_us : Z;
  am_build_send_us : Z;
  am_build_ack_wait_us : Z;
  am_probe_send_us : Z;
  am_probe_ack_wait_us : Z;
  am_final_status_wait_us : Z;
  am_reset_wait_us : Z;
  am_result_recv_us : Z;
  am_adapter_total_us : Z;
  am_protocol_frames_sent : Z;
  am_protocol_frames_recv : Z;
  am_transport_sends : Z;
  am_bytes_sent : Z;
  am_bytes_recv : Z;
  am_config_frames_sent : Z;
  am_inner_frames_sent : Z;
  am_outer_frames_sent : Z;
  am_reset_frames_sent : Z;
  am_ack_frames_recv : Z;
  am_status_frames_recv : Z;
  am_result_frames_recv : Z;
  am_debug_frames_recv : Z;
  am_timing_frames_recv : Z;
  am_error_frames_recv : Z;
  am_result_pairs_recv : Z;
  am_has_board_timing : bool;
  am_board_timing_version : Z;
  am_board_timing_flags : Z;
  am_board_clock_hz : Z;
  am_board_inner_rows : Z;
  am_board_outer_rows : Z;
  am_board_matched_rows : Z;
  am_board_inner_frames : Z;
  am_board_outer_frames : Z;
  am_board_result_frames : Z;
  am_board_ack_frames : Z;
  am_board_debug_frames : Z;
  am_board_bytes_rx : Z;
  am_board_bytes_tx : Z;
  am_board_session_total_cycles : Z;
  am_board_config_cycles : Z;
  am_board_build_rx_cycles : Z;
  am_board_build_compute_cycles : Z;
  am_board_build_total_cycles : Z;
  am_board_probe_rx_cycles : Z;
  am_board_probe_compute_cycles : Z;
  am_board_result_emit_cycles : Z;
  am_board_probe_total_cycles : Z;
  am_board_ack_emit_cycles : Z;
  am_board_rx_wait_cycles : Z;
  am_board_tx_blocked_cycles : Z;
  am_board_protocol_wait_cycles : Z;
  am_board_max_build_batch_cycles : Z;
  am_board_max_probe_batch_cycles : Z;
  am_board_max_result_frame_cycles : Z;
  am_board_hash_build_inserts : Z;
  am_board_hash_probe_lookups : Z;
  am_board_hash_probe_hits : Z;
  am_board_hash_probe_misses : Z;
  am_board_hash_overflow_errors : Z;
  am_board_hash_build_collision_steps : Z;
  am_board_hash_probe_collision_steps : Z;
  am_board_hash_max_build_probe_distance : Z;
  am_board_hash_max_probe_distance : Z;
  am_board_hash_table_load_factor_ppm : Z }.
Definition adapter_metrics0 : AdapterHostMetrics :=
  mkAdapterMetrics 0 0 0 0 0 0 0 0 0 0 0 0 0 0 0 0 0 0 0 0 0 0 0 0 0 0 false 0 0 0 0 0 0 0 0 0 0 0
    0 0 0 0 0 0 0 0 0 0 0 0 0 0 0 0 0 0 0 0 0 0 0 0 0 0 0 0.

(** The board's fields are assigned only when the board reported its timing. *)
Definition copy_host_metrics (src : HostSessionMetrics) (dst : AdapterHostMetrics)
  : AdapterHostMetrics :=
  if has_board_timing src then
    let t := board_timing src in
    mkAdapterMetrics (config_send_us src) (config_ack_wait_us src) (build_send_us src)
      (build_ack_wait_us src) (probe_send_us src) (probe_ack_wait_us src) (final_status_wait_us
      src) (reset_wait_us src) (result_recv_us src) (adapter_total_us src) (protocol_frames_sent
      src) (protocol_frames_recv src) (transport_sends src) (bytes_sent src) (bytes_recv src)
      (config_frames_sent src) (inner_frames_sent src) (outer_frames_sent src) (reset_frames_sent
      src) (ack_frames_recv src) (status_frames_recv src) (result_frames_recv src)
      (debug_frames_recv src) (timing_frames_recv src) (error_frames_recv src) (result_pairs_recv
      src) (has_board_timing src) (tm_version t) (tm_flags t) (tm_clock_hz t) (tm_inner_rows t)
      (tm_outer_rows t) (tm_matched_rows t) (tm_inner_frames t) (tm_outer_frames t)
      (tm_result_frames t) (tm_ack_frames t) (tm_debug_frames t) (tm_bytes_rx t) (tm_bytes_tx t)
      (tm_session_total_cycles t) (tm_config_cycles t) (tm_build_rx_cycles t)
      (tm_build_compute_cycles t) (tm_build_total_cycles t) (tm_probe_rx_cycles t)
      (tm_probe_compute_cycles t) (tm_result_emit_cycles t) (tm_probe_total_cycles t)
      (tm_ack_emit_cycles t) (tm_rx_wait_cycles t) (tm_tx_blocked_cycles t)
      (tm_protocol_wait_cycles t) (tm_max_build_batch_cycles t) (tm_max_probe_batch_cycles t)
      (tm_max_result_frame_cycles t) (tm_hash_build_inserts t) (tm_hash_probe_lookups t)
      (tm_hash_probe_hits t) (tm_hash_probe_misses t) (tm_hash_overflow_errors t)
      (tm_hash_build_collision_steps t) (tm_hash_probe_collision_steps t)
      (tm_hash_max_build_probe_distance t) (tm_hash_max_probe_distance t)
      (tm_hash_table_load_factor_ppm t)
  else
    mkAdapterMetrics (config_send_us src) (config_ack_wait_us src) (build_send_us src)
      (build_ack_wait_us src) (probe_send_us src) (probe_ack_wait_us src) (final_status_wait_us
      src) (reset_wait_us src) (result_recv_us src) (adapter_total_us src) (protocol_frames_sent
      src) (protocol_frames_recv src) (transport_sends src) (bytes_sent src) (bytes_recv src)
      (config_frames_sent src) (inner_frames_sent src) (outer_frames_sent src) (reset_frames_sent
      src) (ack_frames_recv src) (status_frames_recv src) (result_frames_recv src)
      (debug_frames_recv src) (timing_frames_recv src) (error_frames_recv src) (result_pairs_recv
      src) (has_board_timing src) (am_board_timing_version dst) (am_board_timing_flags dst)
      (am_board_clock_hz dst) (am_board_inner_rows dst) (am_board_outer_rows dst)
      (am_board_matched_rows dst) (am_board_inner_frames dst) (am_board_outer_frames dst)
      (am_board_result_frames dst) (am_board_ack_frames dst) (am_board_debug_frames dst)
      (am_board_bytes_rx dst) (am_board_bytes_tx dst) (am_board_session_total_cycles dst)
      (am_board_config_cycles dst) (am_board_build_rx_cycles dst) (am_board_build_compute_cycles
      dst) (am_board_build_total_cycles dst) (am_board_probe_rx_cycles dst)
      (am_board_probe_compute_cycles dst) (am_board_result_emit_cycles dst)
      (am_board_probe_total_cycles dst) (am_board_ack_emit_cycles dst) (am_board_rx_wait_cycles
      dst) (am_board_tx_blocked_cycles dst) (am_board_protocol_wait_cycles dst)
      (am_board_max_build_batch_cycles dst) (am_board_max_probe_batch_cycles dst)
      (am_board_max_result_frame_cycles dst) (am_board_hash_build_inserts dst)
      (am_board_hash_probe_lookups dst) (am_board_hash_probe_hits dst) (am_board_hash_probe_misses
      dst) (am_board_hash_overflow_errors dst) (am_board_hash_build_collision_steps dst)
      (am_board_hash_probe_collision_steps dst) (am_board_hash_max_build_probe_distance dst)
      (am_board_hash_max_probe_distance dst) (am_board_hash_table_load_factor_ppm dst).

(** ** Parsing of the settings *)

Definition str_eq (a : option string) (b : string) : bool :=
  match a with None => false | Some a => bool_decide (a = b) end.

Definition fail_with {S A} (what : string) : H S A := throw (FpgaException (AdapterFailure what)).

Record UdpEndpoint := mkUdpEndpoint { ep_host : string; ep_port_no : Z }.

Definition colon : Ascii.ascii := Ascii.ascii_of_nat 58.

(** [s.rfind(':')] as the parts before and after the last colon. *)
Fixpoint rsplit_colon (s : string) : option (string * string) :=
  match s with
  | EmptyString => None
  | String c s' =>
      match rsplit_colon s' with
      | Some (host, port) => Some (String c host, port)
      | None => if Ascii.eqb c colon then Some (EmptyString, s') else None
      end
  end.

(** [std::isdigit] in the C locale. *)
Definition digit_value (c : Ascii.ascii) : Z := Z.of_nat (Ascii.nat_of_ascii c) - 48.
Definition isdigit (c : Ascii.ascii) : bool := (0 <=? digit_value c) && (digit_value c <=? 9).
Fixpoint all_digits (s : string) : bool :=
  match s with EmptyString => true | String c s => isdigit c && all_digits s end.

(** [strtoul] on a string of digits; it saturates at ULONG_MAX. *)
Fixpoint decimal (acc : Z) (s : string) : Z :=
  match s with EmptyString => acc | String c s => decimal (acc * 10 + digit_value c) s end.
Definition strtoul (s : string) : Z := Z.min (decimal 0 s) (2 ^ 64 - 1).

Definition parse_udp_endpoint {S} (device : option string) : H S UdpEndpoint :=
  let host := default "" device in
  let endpoint := mkUdpEndpoint host FPGA_UDP_PORT in
  match rsplit_colon host with
  | None => mret endpoint
  | Some (before, port_text) =>
      if bool_decide (port_text = "") then mret endpoint
      else if negb (all_digits port_text) then mret endpoint
      else
        let port := strtoul port_text in
        if (port =? 0) || (65535 <? port) then fail_with "invalid UDP port in fpga.device"
        else if bool_decide (before = "") then fail_with "invalid UDP host in fpga.device"
        else mret (mkUdpEndpoint before (u16 port))
  end.

(** [(name && name[0] != '\0') ? name : dflt] *)
Definition or_default (name : option string) (dflt : string) : string :=
  match name with None => dflt | Some EmptyString => dflt | Some s => s end.

Definition parse_algorithm (algorithm_name : option string) : exn + Z :=
  let name := Some (or_default algorithm_name "a") in
  if str_eq name "a" || str_eq name "A" || str_eq name "algorithm_a" || str_eq name "linear"
  then inr (alg_code ALGORITHM_A)
  else if str_eq name "b" || str_eq name "B" || str_eq name "algorithm_b" || str_eq name "grace"
  then inr (alg_code ALGORITHM_B)
  else inl (FpgaException (AdapterFailure "unsupported fpga.algorithm")).

(** ** Capacity of DDR2 *)

(** The counts are [size_t], 64 bits wide. *)
Definition grace_ddr_layout_fits (inner_count outer_count : Z) : bool :=
  if kGraceMaxInnerRows <? inner_count then false
  else
    let k := u64 (u64 (inner_count + kHtMaxRows) - 1) / kHtMaxRows in
    let k := if k =? 0 then 1 else k in
    if kGraceMaxK <? k then false
    else
      let outer_slot_words := u64 (u64 (u64 (outer_count / k + 1) * kGraceWordsPerTuple) * 2) in
      u64 (kGraceOuterAreaBase + u64 (k * outer_slot_words)) <=? kGraceDdr2TotalWords.

(** ** Removal of duplicate keys *)

Fixpoint dedup_loop (seen : gset Z) (l : list Tuple) : list Tuple :=
  match l with
  | [] => []
  | t :: l =>
      if bool_decide (key t ∈ seen) then dedup_loop seen l
      else t :: dedup_loop ({[ key t ]} ∪ seen) l
  end.
Definition dedup (inner : list Tuple) : list Tuple := dedup_loop ∅ inner.

(** ** The client's configuration *)

Definition adapter_client_config (warn_ms hard_ms max_batch_tuples ack_window_frames : Z) : ClientConfig :=
  client_config0 <| warn_timeout_ms := warn_ms |> <| hard_timeout_ms := hard_ms |>
    <| Client.max_batch_tuples := max_batch_tuples |> <| Client.ack_window_frames := ack_window_frames |>.

(** ** The UDP reset handshake *)

Section prepare.
Context `{UdpSocket Sk} (clock : nat -> Z) (fuel : nat).

(** The socket and the clock readings so far. *)
Local Abbreviation prep := (H (UdpTransport Sk * nat)).

Definition on_udp {A} (m : H (UdpTransport Sk) A) : prep A := fun '(u, n) =>
  match m u with
  | Done a u => Done a (u, n)
  | Throw e u => Throw e (u, n)
  | Spin => Spin
  end.

Definition read_clock : prep Z := fun '(u, n) => Done (clock n) (u, S n).

(** The destructor of [ScopedUdpTimeout] restores the timeout on both exits. *)
Definition with_udp_timeout {A} (ms : Z) (m : prep A) : prep A := fun '(u, n) =>
  let saved := recv_timeout u in
  let restore '(u, n) := (u <| recv_timeout := saved |>, n) in
  match m (u <| recv_timeout := ms |>, n) with
  | Done a s => Done a (restore s)
  | Throw e s => Throw e (restore s)
  | Spin => Spin
  end.

(** [try { ... } catch (const std::exception&) { udp.reset(); }] *)
Definition recv_or_reset (d : ResultDecoder) : prep (option MsgType * ResultDecoder * frame_out) :=
  fun '(u, n) =>
    match recv_frame d out0 u with
    | Done r u => Done r (u, n)
    | Throw _ u => (on_udp udp_reset ;; mret (None, d, out0)) (u, n)
    | Spin => Spin
    end.

(** The [while] of one attempt: whether ACK(IDLE) arrived in time. *)
Fixpoint wait_for_idle (n : nat) (start : Z) (d : ResultDecoder) : prep (bool * ResultDecoder) :=
  match n with
  | O => spin
  | S n =>
      t ← read_clock;
      if 6500 <=? Z.quot (t - start) 1000000 then mret (false, d)
      else
        '(msg, d, o) ← recv_or_reset d;
        match msg with
        | Some MSG_ACK =>
            if ack_phase (out_ack o) =? phase_code PHASE_IDLE then mret (true, d)
            else wait_for_idle n start d
        | _ => wait_for_idle n start d
        end
  end.

Fixpoint reset_attempts (attempts : nat) (d : ResultDecoder) : prep unit :=
  match attempts with
  | O => mret tt
  | S attempts =>
      on_udp (udp_send [msg_code MSG_RESET; 0; 0]) ;;
      start ← read_clock;
      '(got_idle, d) ← wait_for_idle fuel start d;
      if (got_idle : bool) then mret tt
      else on_udp udp_reset ;; reset_attempts attempts d
  end.

Definition prepare_udp_session : prep unit :=
  with_udp_timeout 5
    (on_udp udp_reset ;;
     on_udp (drain_until_quiet fuel 1 2048) ;;
     reset_attempts 2 decoder0 ;;
     on_udp (drain_until_quiet fuel 1 2048)).
End prepare.

(** ** The entry point *)

Inductive adapter_error :=
| NoErrorYet
| Message (what : string)
| What (e : exn)
| Unexpected (e : exn).

(** The globals, the clock readings so far and the session counter of the client. *)
Record adapter := mkAdapter {
  g_last_error : adapter_error;
  g_last_metrics : AdapterHostMetrics;
  g_have_last_metrics : bool;
  ad_ticks : nat;
  ad_counter : Z }.
Definition adapter0 : adapter := mkAdapter NoErrorYet adapter_metrics0 false 0 0.

(** How [fpga_adapter_run] ends, with [*out_pairs]. *)
Inductive run_outcome :=
| Returned (ok : bool) (out_pairs : option (list ResultPair))
| Escapes (e : exn)
| Undefined
| Stuck.

(** Caught as [const FpgaException&]. *)
Definition is_fpga_exception (e : exn) : bool :=
  match e with
  | FpgaException _ | FpgaTimeoutException | FpgaErrorException _ => true
  | _ => false
  end.

Section run.
Context `{UdpSocket Sk} `{Tty F} (clock : nat -> Z) (fuel : nat).
Context (open_socket : string -> Z -> Z -> option (Sk * endpoint)).
Context (open_tty : string -> option F) (configure_tty : speed_t -> Z -> F -> option F).
Context (malloc_ok : bool).

(** The handlers at the end of the [try] block. *)
Definition failed (e : exn) (g : adapter) : run_outcome * adapter :=
  match e with
  | ArrayOverrun => (Undefined, g)
  | _ => (Returned false None,
          g <| g_last_error := if is_fpga_exception e then What e else Unexpected e |>)
  end.

(** Steps 5 and 6: the client on a transport, and the result array. *)
Definition run_client {T} `{Transport T} (t : T) (ccfg : ClientConfig) (cfg : JoinConfig)
    (inner outer : list Tuple) (g : adapter) : run_outcome * adapter :=
  match run_hash_join clock fuel cfg inner outer (new_client t ccfg (ad_ticks g) (ad_counter g)) with
  | Spin => (Stuck, g)
  | Throw e c => failed e (g <| ad_ticks := ticks c |> <| ad_counter := session_counter c |>)
  | Done results c =>
      let g := g <| ad_ticks := ticks c |> <| ad_counter := session_counter c |>
                 <| g_last_metrics ::= copy_host_metrics (metrics c) |>
                 <| g_have_last_metrics := true |> in
      match results with
      | [] => (Returned true None, g)
      | _ =>
          if malloc_ok then (Returned true (Some results), g)
          else (Returned false None, g <| g_last_error := Message "malloc failed for result pairs" |>)
      end
  end.

Definition run_udp (device : option string) (ccfg : ClientConfig) (cfg : JoinConfig)
    (inner outer : list Tuple) (g : adapter) : run_outcome * adapter :=
  match parse_udp_endpoint device tt with
  | Spin => (Stuck, g)
  | Throw e _ => failed e g
  | Done ep _ =>
      match open_udp open_socket (ep_host ep) (ep_port_no ep) FPGA_UDP_PORT 100 1200 with
      | inl e => failed e g
      | inr udp =>
          let ccfg := ccfg <| coalesce_config_first_inner := true |>
                           <| infer_done_from_probe_ack := true |> <| reset_after_run := false |> in
          match prepare_udp_session clock fuel (udp, ad_ticks g) with
          | Spin => (Stuck, g)
          | Throw e (_, n) => failed e (g <| ad_ticks := n |>)
          | Done _ (udp, n) => run_client udp ccfg cfg inner outer (g <| ad_ticks := n |>)
          end
      end
  end.

Definition run_uart (device : string) (device_baud : Z) (ccfg : ClientConfig) (cfg : JoinConfig)
    (inner outer : list Tuple) (g : adapter) : run_outcome * adapter :=
  match open_uart open_tty configure_tty device device_baud 200 with
  | inl e => failed e g
  | inr uart => run_client uart ccfg cfg inner outer g
  end.

(** Steps 4 to 6: the [try] block. *)
Definition run_transport (use_simulation : bool) (transport_name device : option string)
    (device_baud : Z) (ccfg : ClientConfig) (cfg : JoinConfig) (inner outer : list Tuple)
    (g : adapter) : run_outcome * adapter :=
  if use_simulation then run_client software_kernel0 ccfg cfg inner outer g
  else
    match device with
    | None | Some EmptyString => failed (FpgaException (AdapterFailure "fpga.device is empty")) g
    | Some dev =>
        let name := Some (or_default transport_name "uart") in
        if str_eq name "udp" then run_udp device ccfg cfg inner outer g
        else if str_eq name "uart" then run_uart dev device_baud ccfg cfg inner outer g
        else failed (FpgaException (AdapterFailure "unsupported fpga.transport")) g
    end.

Definition fpga_adapter_run (key_type : Z) (use_simulation : bool)
    (algorithm_name transport_name device : option string)
    (device_baud warn_ms hard_ms max_batch_tuples ack_window_frames : Z)
    (inner outer : list Tuple) (g : adapter) : run_outcome * adapter :=
  let g := g <| g_have_last_metrics := false |> <| g_last_metrics := adapter_metrics0 |> in
  let dedup_inner := dedup inner in
  match parse_algorithm algorithm_name with
  | inl e => (Escapes e, g)
  | inr algorithm =>
      let cfg := mkJoinConfig algorithm key_type in
      let ccfg := adapter_client_config warn_ms hard_ms max_batch_tuples ack_window_frames in
      let attempt := run_transport use_simulation transport_name device device_baud ccfg cfg
                       dedup_inner outer g in
      if algorithm =? alg_code ALGORITHM_A then
        if kHtMaxRows <? Z.of_nat (length dedup_inner) then
          (Returned false None, g <| g_last_error :=
             Message "Algorithm A inner side exceeds BRAM hash-table capacity" |>)
        else attempt
      else if negb (grace_ddr_layout_fits (Z.of_nat (length dedup_inner)) (Z.of_nat (length outer))) then
        (Returned false None, g <| g_last_error :=
           Message "Algorithm B input sizes exceed Nexys A7 DDR2 layout capacity" |>)
      else attempt
  end.
End run.

Definition fpga_adapter_last_error (g : adapter) : adapter_error := g_last_error g.

(** [None] when it returns false; the argument tells whether [out_metrics] is set. *)
Definition fpga_adapter_last_host_metrics (out_metrics : bool) (g : adapter)
  : option AdapterHostMetrics :=
  if negb (g_have_last_metrics g) || negb out_metrics then None else Some (g_last_metrics g).
