(* ===== verification/AdapterSafety.v ===== *)
(** The transports the adapter can choose, against a peer that sends anything: their
    calls return, and keep what [ClientSafety] asks of a transport.

    For UDP the invariant is that the receive buffer holds bytes; for the software
    kernel that its frames are bytes and its tuples no wider than those of the
    session, so that no request of the client makes it read outside a frame.  The UDP
    reset handshake ends too: the datagrams that arrive are finitely many, and its
    waiting loop reads the clock. *)
From stdpp Require Import strings.
From S2P Require Import Prelude Types LinearHashTable Stream Wire Dialogue Join Grace Kernel.
From S2P Require Import Transport Serializer Decoder Hoare Client Protocol ClientJoin ClientSafety SoftwareKernel.
From S2P Require Import UdpTransport UartTransport Adapter.

(** An exception the adapter's handlers catch. *)
Definition caught (e : exn) : Prop := e <> ArrayOverrun.

(** ** The serial line *)

Section uart.
Context {F : Type} {HF : Tty F} {HR : ReadableTty F} {HW : LawfulTty F}.
Context (reads_bytes : forall n (f : F) bs f', sys_read n f = (Some bs, f') -> Forall is_byte bs).

Lemma uart_recv_safe n (u : UartTransport F) : (0 < n)%nat ->
  match recv n u with
  | Done bs u' => True /\ ((length bs <= n)%nat /\ Forall is_byte bs)
  | Throw e u' => caught e /\ True
  | Spin => False
  end.
Proof using HR reads_bytes.
  intros Hn. simpl. unfold uart_recv, mbind, H_bind, fd_call.
  pose proof (read_law n (uart_fd u)) as Hlaw. pose proof (reads_bytes n (uart_fd u)) as Hb.
  destruct (sys_read n (uart_fd u)) as [[bs|] f']; [|done].
  split_and!; [done|apply Hlaw|by eapply Hb].
Qed.

Lemma uart_send_safe data (u : UartTransport F) :
  match send data u with Done _ _ => True | Throw e _ => caught e /\ True | Spin => False end.
Proof.
  pose proof (write_loop_ok (length data + uart_budget (uart_fd u)) data u ltac:(lia)) as Hw.
  simpl. unfold uart_send. destruct (write_loop _ data u); [done| |done]. by destruct Hw as [-> _].
Qed.
End uart.

(** ** The software kernel *)

Definition sk_inv (kt : Z) (k : SoftwareKernel) : Prop :=
  (tuple_stride k <= tuple_width kt)%nat /\ is_byte (sk_session_id k) /\ Forall is_byte (out_buf k) /\
  Forall (Forall is_byte) (resp_queue k).

(** [bytes_ok] proves that a byte string put together from masked bytes is one. *)
Ltac bytes_ok :=
  repeat first [apply Forall_app_2 | apply Forall_cons_2 | apply Forall_nil_2 | apply u8_byte | assumption
               | done].

Lemma push_u16_ok v x : Forall is_byte v -> Forall is_byte (push_u16 v x).
Proof. intros. unfold push_u16. bytes_ok. Qed.
Lemma push_u32_ok v x : Forall is_byte v -> Forall is_byte (push_u32 v x).
Proof. intros. unfold push_u32. bytes_ok. Qed.

Lemma push_ack_ok kt p cr n m k : sk_inv kt k -> sk_inv kt (push_ack p cr n m k).
Proof.
  intros (H1 & H2 & H3 & H4). split_and!; [done..|]. apply Forall_app_2; [done|]. apply Forall_cons_2; [|constructor].
  repeat apply push_u32_ok. apply push_u16_ok. cbn [app]. bytes_ok.
Qed.

Lemma push_result_ok kt ms k : sk_inv kt k -> sk_inv kt (push_result ms k).
Proof.
  intros (H1 & H2 & H3 & H4). split_and!; [done..|]. apply Forall_app_2; [done|]. apply Forall_cons_2; [|constructor].
  assert (Forall is_byte (push_u16 [msg_code MSG_RESULT] (u16 (Z.of_nat (length ms))))) as Hf
    by (apply push_u16_ok; bytes_ok).
  revert Hf. generalize (push_u16 [msg_code MSG_RESULT] (u16 (Z.of_nat (length ms)))).
  induction ms as [|r ms IH]; intros f Hf; [done|]. apply IH. unfold push_pair.
  by apply push_u16_ok, push_u32_ok, push_u16_ok, push_u32_ok.
Qed.

Lemma sk_inner_rows_safe kt i : forall p k, sk_inv kt k -> sk_inv kt (sk_inner_rows i p k).
Proof. induction i as [|i IH]; intros p k Hk; [done|]. by apply IH. Qed.

Lemma sk_outer_rows_safe kt i : forall p ms k, sk_inv kt k -> sk_inv kt (sk_outer_rows i p ms k).2.
Proof.
  induction i as [|i IH]; intros p ms k Hk; [done|]. cbn [sk_outer_rows].
  destruct (sk_ht k !! _); by apply IH.
Qed.

Lemma sk_send_safe kt data k :
  request kt data -> sk_inv kt k ->
  match send data k with Done _ k' => sk_inv kt k' | Throw e k' => caught e /\ sk_inv kt k' | Spin => False end.
Proof.
  intros [Hb Hd] Hk. simpl. unfold sk_send, mbind, H_bind, hmodify.
  set (k1 := k <| all_sent ::= _ |>). assert (sk_inv kt k1) as Hk1 by exact Hk. clearbody k1.
  destruct data as [|m [|lo [|hi payload]]]; try done. destruct Hd as [Hcfg Hrows].
  change (length (m :: lo :: hi :: payload) <? 3)%nat with false. cbn iota zeta.
  change (at_byte (m :: lo :: hi :: payload) 0) with m.
  change (at_byte (m :: lo :: hi :: payload) 1) with lo.
  change (at_byte (m :: lo :: hi :: payload) 2) with hi.
  change (drop 3 (m :: lo :: hi :: payload)) with payload.
  rewrite !Forall_cons in Hb. destruct Hb as (_ & Hlo & Hhi & Hp).
  assert (Z.lor lo (u16 (Z.shiftl hi 8)) = lo + 256 * hi) as ->.
  { unfold is_byte in *. rewrite Z.shiftl_mul_pow2, u16_small by (unfold is_u16; lia).
    rewrite <- Z.shiftl_mul_pow2, lor_shiftl_add by lia. lia. }
  destruct (Z.eqb_spec m (msg_code MSG_CONFIGURE)) as [He|_].
  { destruct (Hcfg He) as [Hlen Hkt]. unfold on_configure. destruct (Nat.ltb_spec (length payload) 13); [lia|].
    apply push_ack_ok. destruct Hk1 as (_ & _ & H3 & H4). split_and!; [|by apply at_byte_range|done|done].
    unfold tuple_stride, sk_key_bytes, tuple_width. rcbn. rewrite Hkt.
    destruct (Z.eqb_spec kt 1) as [->|]; [done|]. destruct (_ =? _); lia. }
  assert (m = msg_code MSG_INNER_DATA \/ m = msg_code MSG_OUTER_DATA ->
    (length payload <? Z.to_nat (lo + 256 * hi) * tuple_stride k1)%nat = false) as Hfits.
  { intros Hm. specialize (Hrows Hm). apply Nat.ltb_ge. destruct Hk1 as [Hs _]. nia. }
  destruct (Z.eqb_spec m (msg_code MSG_INNER_DATA)) as [He|_].
  { unfold on_inner. rewrite Hfits by auto. by apply push_ack_ok, sk_inner_rows_safe. }
  destruct (Z.eqb_spec m (msg_code MSG_OUTER_DATA)) as [He|_].
  { unfold on_outer. rewrite Hfits by auto.
    pose proof (sk_outer_rows_safe kt (Z.to_nat (lo + 256 * hi)) payload [] k1 Hk1) as Ho.
    destruct (sk_outer_rows _ _ _ _) as [ms k2]. cbn [snd] in Ho. cbv zeta. apply push_ack_ok.
    destruct ms; [done|by apply push_result_ok]. }
  destruct (m =? msg_code MSG_RESET); [|done].
  destruct Hk1 as (H1 & _). unfold on_reset. apply push_ack_ok.
  split_and!; [exact H1|done|constructor|constructor].
Qed.

Lemma refill_bytes buf queue b q :
  refill buf queue = Some (b, q) -> Forall is_byte buf -> Forall (Forall is_byte) queue ->
  Forall is_byte b /\ Forall (Forall is_byte) q.
Proof.
  revert buf. induction queue as [|f queue IH]; intros [|x buf] He Hb Hq; cbn [refill] in He; try done;
    try (by injection He as <- <-).
  apply Forall_cons in Hq as [Hf Hq]. by eapply IH.
Qed.

Lemma sk_recv_safe kt n k : (0 < n)%nat -> sk_inv kt k ->
  match recv n k with
  | Done bs k' => sk_inv kt k' /\ ((length bs <= n)%nat /\ Forall is_byte bs)
  | Throw e k' => caught e /\ sk_inv kt k'
  | Spin => False
  end.
Proof.
  intros Hn (H1 & H2 & H3 & H4). simpl. unfold sk_recv, sk_inv. destruct (refill _ _) as [[b q]|] eqn:He.
  - destruct (refill_bytes _ _ _ _ He H3 H4) as [Hb Hq]. split_and!; [done|done| |done| |by apply Forall_take].
    + by apply Forall_drop.
    + rewrite length_take. lia.
  - split_and!; try done; try constructor. simpl. lia.
Qed.

Lemma software_kernel0_inv kt : sk_inv kt software_kernel0.
Proof.
  unfold sk_inv, tuple_width. split_and!; [|done|constructor|constructor].
  change (tuple_stride software_kernel0) with 10%nat. destruct (_ =? _); lia.
Qed.

(** ** UDP *)

Section udp.
Context {Sk : Type} {HS : UdpSocket Sk} {HL : LawfulSocket Sk}.
Context (arrive_bytes : forall n (s : Sk) data src s',
           sys_recvfrom n s = (RecvData data src, s') -> Forall is_byte data).
Local Abbreviation udp := (UdpTransport Sk).

Definition udp_inv (u : udp) : Prop := Forall is_byte (rx_packet u) /\ (0 < max_payload u)%nat.

(** A bound on the bytes [recv] can still return. *)
Definition backlog (u : udp) : nat :=
  (length (queued (sock u)) * RX_PACKET_BYTES + (length (rx_packet u) - rx_offset u))%nat.

Lemma zero_bytes n : Forall is_byte (replicate n 0).
Proof. by apply Forall_replicate. Qed.

(** A packet of at most the buffer's size replaces an exhausted one. *)
Lemma backlog_refill (u u' : udp) (p : list Z) :
  (length p <= RX_PACKET_BYTES)%nat -> rx_packet u' = p -> rx_offset u' = 0%nat ->
  (S (length (queued (sock u'))) <= length (queued (sock u)))%nat -> (backlog u' <= backlog u)%nat.
Proof. intros Hp He Ho Hq. unfold backlog. rewrite He, Ho. nia. Qed.

Lemma fill_packet_safe n : forall u,
  udp_inv u -> (length (queued (sock u)) < n)%nat ->
  match fill_packet n u with
  | Done b u' =>
      udp_inv u' /\ (length (queued (sock u')) <= length (queued (sock u)))%nat /\
      (backlog u' <= backlog u)%nat /\ (b = true -> (rx_offset u' < length (rx_packet u'))%nat)
  | Throw e u' => caught e /\ udp_inv u'
  | Spin => False
  end.
Proof using HL arrive_bytes.
  induction n as [|n IH]; intros u Hu Hn; [lia|]. cbn [fill_packet].
  unfold mbind at 1, H_bind at 1, hget at 1.
  destruct (Nat.ltb_spec (rx_offset u) (length (rx_packet u))) as [Hlt|Hge]; [done|].
  rewrite (hbind_Done _ _ u tt (u <| rx_packet := [] |> <| rx_offset := 0%nat |>)) by done.
  set (u1 := u <| rx_packet := [] |> <| rx_offset := 0%nat |>).
  assert (udp_inv u1) as Hu1 by (split; [constructor|apply Hu]).
  pose proof (select_law (timeout_us (recv_timeout u)) (sock u)) as Hsel.
  unfold mbind at 1, H_bind at 1, call at 1. change (sock u1) with (sock u).
  destruct (sys_select _ (sock u)) as [r s1]. destruct Hsel as (Hq & _ & Hr).
  destruct r as [eintr| |].
  - rewrite Hr. split; [done|exact Hu1].
  - split; [exact Hu1|]. split; [change (length (queued s1) <= length (queued (sock u)))%nat; by rewrite Hq|].
    split; [|done]. change (length (queued s1) * RX_PACKET_BYTES + 0 <= backlog u)%nat.
    rewrite Hq. unfold backlog. lia.
  - pose proof (recvfrom_law RX_PACKET_BYTES s1) as Hrf. pose proof (arrive_bytes RX_PACKET_BYTES s1) as Hab.
    unfold mbind at 1, H_bind at 1, call at 1. change (sock (u1 <| sock := s1 |>)) with s1.
    destruct (sys_recvfrom RX_PACKET_BYTES s1) as [r s2]. destruct Hrf as [_ Hrf].
    destruct r as [eintr|data src].
    { destruct Hrf as [-> _]. split; [done|]. split; [apply zero_bytes|apply Hu]. }
    specialize (Hab _ _ _ eq_refl). destruct Hrf as (d & q & Hq1 & Hq2 & Hd).
    assert (length data <= RX_PACKET_BYTES)%nat as Hlen by (subst data; rewrite length_take; lia).
    assert (S (length (queued s2)) <= length (queued (sock u)))%nat as Hshorter
      by (rewrite Hq2, <- Hq, Hq1; simpl; lia).
    assert (forall p, (length p <= RX_PACKET_BYTES)%nat -> Forall is_byte p ->
      match fill_packet n (u1 <| sock := s2 |> <| rx_packet := p |>) with
      | Done b u' => udp_inv u' /\ (length (queued (sock u')) <= length (queued (sock u)))%nat /\
          (backlog u' <= backlog u)%nat /\ (b = true -> (rx_offset u' < length (rx_packet u'))%nat)
      | Throw e u' => caught e /\ udp_inv u'
      | Spin => False
      end) as Hnext.
    { intros p Hpl Hpb. set (u2 := u1 <| sock := s2 |> <| rx_packet := p |>).
      assert (backlog u2 <= backlog u)%nat as Hbl by by eapply backlog_refill.
      specialize (IH u2 (conj Hpb (proj2 Hu)) ltac:(change (sock u2) with s2; lia)).
      destruct (fill_packet n u2) as [b u'|e u'|]; [|done..]. destruct IH as (? & Hq' & ? & ?).
      change (sock u2) with s2 in Hq'. split_and!; [done|lia|lia|done]. }
    destruct (negb (same_ipv4_endpoint src (remote_addr u))).
    + apply (Hnext (data ++ replicate (RX_PACKET_BYTES - length data) 0)).
      * rewrite length_app, length_replicate. lia.
      * apply Forall_app_2; [done|apply zero_bytes].
    + by apply (Hnext data).
Qed.

Lemma udp_recv_backlog n u : (0 < n)%nat -> udp_inv u ->
  match udp_recv n u with
  | Done bs u' =>
      udp_inv u' /\ ((length bs <= n)%nat /\ Forall is_byte bs) /\
      (bs <> [] -> (backlog u' < backlog u)%nat)
  | Throw e u' => caught e /\ udp_inv u'
  | Spin => False
  end.
Proof using HL arrive_bytes.
  intros Hn Hu. unfold udp_recv. destruct (Nat.eqb_spec n 0); [lia|].
  unfold mbind at 1, H_bind at 1, hget at 1. unfold mbind at 1, H_bind at 1.
  pose proof (fill_packet_safe (recv_budget (sock u)) u Hu (budget_enough (sock u))) as Hf.
  destruct (fill_packet _ u) as [[] u1|e u1|]; [| |done..].
  2: { destruct Hf as (Hi & _). split_and!; [exact Hi|simpl; lia|constructor|done]. }
  destruct Hf as (Hi & Hq & Hbl & Hlt). specialize (Hlt eq_refl).
  unfold mbind, H_bind, hget, hmodify, mret, H_ret.
  set (k := (n `min` (length (rx_packet u1) - rx_offset u1))%nat).
  set (bs := take k (drop (rx_offset u1) (rx_packet u1))).
  assert (Forall is_byte bs) as Hbs by (apply Forall_take, Forall_drop, Hi).
  assert (length bs <= n)%nat as Hlb by (unfold bs; rewrite length_take; lia).
  set (u2 := u1 <| rx_offset ::= fun o => (o + k)%nat |>).
  assert (backlog u2 < backlog u1)%nat as Hdec.
  { unfold backlog. change (sock u2) with (sock u1). change (rx_packet u2) with (rx_packet u1).
    change (rx_offset u2) with (rx_offset u1 + k)%nat. unfold k. lia. }
  destruct (Nat.leb_spec (length (rx_packet u2)) (rx_offset u2)) as [Hle|Hgt].
  - split_and!; [split; [constructor|apply Hi]|done|done|]. intros _.
    assert (backlog (u2 <| rx_packet := [] |> <| rx_offset := 0%nat |>) <= backlog u2)%nat; [|lia].
    unfold backlog. rcbn. lia.
  - split_and!; [exact Hi|done|done|]. intros _. lia.
Qed.

Lemma udp_recv_safe n u : (0 < n)%nat -> udp_inv u ->
  match recv n u with
  | Done bs u' => udp_inv u' /\ ((length bs <= n)%nat /\ Forall is_byte bs)
  | Throw e u' => caught e /\ udp_inv u'
  | Spin => False
  end.
Proof using HL arrive_bytes.
  intros Hn Hu. pose proof (udp_recv_backlog n u Hn Hu) as Hr. simpl.
  destruct (udp_recv n u); [|done..]. by destruct Hr as (? & ? & _).
Qed.

Lemma send_chunks_safe n : forall data (u : udp), (length data <= n)%nat -> udp_inv u ->
  match send_chunks n data u with
  | Done _ u' => udp_inv u' | Throw e u' => caught e /\ udp_inv u' | Spin => False end.
Proof.
  induction n as [|n IH]; intros [|b data] u Hn Hu; try (simpl in Hn; lia); try done.
  cbn [send_chunks]. unfold mbind, H_bind, hget, call.
  set (chunk := (length (b :: data) `min` max_payload u)%nat).
  assert (0 < chunk)%nat as Hc by (pose proof (proj2 Hu); subst chunk; simpl length; lia).
  destruct (sys_sendto _ _ _) as [sent s']. destruct (sent <? 0); [done|]. destruct (negb _); [done|].
  apply IH; [|done]. rewrite length_drop. lia.
Qed.

Lemma udp_send_safe data u : udp_inv u ->
  match send data u with Done _ u' => udp_inv u' | Throw e u' => caught e /\ udp_inv u' | Spin => False end.
Proof. intros. by apply send_chunks_safe. Qed.

Lemma discard_pending_safe n : forall u, (length (queued (sock u)) < n)%nat -> udp_inv u ->
  match discard_pending n u with Done _ u' => udp_inv u' | Throw _ _ | Spin => False end.
Proof using HL.
  induction n as [|n IH]; intros u Hn Hu; [lia|]. cbn [discard_pending].
  unfold mbind, H_bind, call. pose proof (select_law 0 (sock u)) as Hsel.
  destruct (sys_select 0 (sock u)) as [r s1]. destruct Hsel as (Hq & _ & _). destruct r; [done..|].
  change (sock (u <| sock := s1 |>)) with s1.
  pose proof (recvfrom_law DISCARD_BYTES s1) as Hrf. destruct (sys_recvfrom DISCARD_BYTES s1) as [[e|data src] s2];
    [done|]. destruct Hrf as (_ & d & q & Hq1 & Hq2 & _). destruct data; [done|].
  apply IH; [|done]. rcbn. rewrite Hq2. rewrite Hq in Hq1. rewrite Hq1 in Hn. simpl in Hn. lia.
Qed.

Lemma udp_reset_safe u : udp_inv u ->
  match udp_reset u with Done _ u' => udp_inv u' | Throw _ _ | Spin => False end.
Proof using HL.
  intros Hu. unfold udp_reset, mbind, H_bind, hmodify, hget. apply discard_pending_safe; [apply budget_enough|].
  split; [constructor|apply Hu].
Qed.

(** *** The reset handshake *)

(** Draining ends with the first receive that times out. *)
Lemma drain_loop_settles size : (0 < size)%nat -> forall b u, udp_inv u -> (backlog u <= b)%nat ->
  exists r, (forall n, (S b < n)%nat -> drain_loop n 0 1 size u = r) /\
    outcome_in (fun e u => caught e /\ udp_inv u) (fun _ => udp_inv) r.
Proof using HL arrive_bytes.
  intros Hsz. induction b as [|b IH]; intros u Hu Hb;
    pose proof (udp_recv_backlog size u Hsz Hu) as Hr;
    destruct (udp_recv size u) as [[|x bs] u'|e u'|] eqn:He; try done;
    try (destruct Hr as (_ & _ & Hdec); specialize (Hdec ltac:(done)); lia).
  1,3: exists (Done tt u'); split; [|apply Hr]; intros [|[|n]] Hn; try lia; cbn [drain_loop];
    change (0 <? 1) with true; cbn iota; by rewrite (hbind_Done _ _ _ _ _ He).
  1,3: exists (Throw e u'); split; [|done]; intros [|n] Hn; [lia|]; cbn [drain_loop];
    change (0 <? 1) with true; cbn iota; by apply hbind_Throw.
  destruct Hr as (Hu' & _ & Hdec). specialize (Hdec ltac:(done)).
  destruct (IH u' Hu' ltac:(lia)) as (r & Hr & Ho). exists r. split; [|done].
  intros [|n] Hn; [lia|]. cbn [drain_loop]. change (0 <? 1) with true. cbn iota.
  rewrite (hbind_Done _ _ _ _ _ He). apply Hr. lia.
Qed.

Context (clock : nat -> Z).
Context (clock_advances : forall ms i, exists N, forall k, (N <= k)%nat ->
           ms <= Z.quot (clock k - clock i) 1000000).

Local Abbreviation prep := (udp * nat)%type.
Definition prep_inv (s : prep) : Prop := udp_inv s.1.
Definition prep_bad (e : exn) (s : prep) : Prop := caught e /\ prep_inv s.
Local Abbreviation psettles m Q := (settles prep_bad prep_inv m (fun a s => prep_inv s /\ Q a)).

Lemma on_udp_settles {A} (m : nat -> H udp A) :
  (forall u, udp_inv u -> exists F r, (forall fuel, (F <= fuel)%nat -> m fuel u = r) /\
     outcome_in (fun e u => caught e /\ udp_inv u) (fun _ => udp_inv) r) ->
  psettles (fun fuel => on_udp (m fuel)) (fun _ => True).
Proof.
  intros Hm [u n] Hu. destruct (Hm u Hu) as (F & r & Hr & Ho).
  exists F, (on_udp (fun _ => r) (u, n)). split.
  - intros fuel Hf. unfold on_udp. by rewrite Hr.
  - unfold on_udp. by destruct r.
Qed.

Lemma reset_settles : psettles (fun _ => on_udp udp_reset) (fun _ => True).
Proof using HL.
  apply on_udp_settles. intros u Hu. exists 0%nat, (udp_reset u). split; [done|].
  pose proof (udp_reset_safe u Hu). by destruct (udp_reset u).
Qed.

Lemma drain_settles size : psettles (fun fuel => on_udp (drain_until_quiet fuel 1 size)) (fun _ => True).
Proof using HL arrive_bytes.
  apply on_udp_settles. intros u Hu. unfold drain_until_quiet. change (1 =? 0) with false. cbn iota zeta.
  assert (0 < if (size =? 0)%nat then DISCARD_BYTES else size)%nat as Hsz.
  { destruct (Nat.eqb_spec size 0); [unfold DISCARD_BYTES|]; lia. }
  revert Hsz. generalize (if (size =? 0)%nat then DISCARD_BYTES else size). intros sz Hsz.
  set (u1 := u <| rx_packet := [] |> <| rx_offset := 0%nat |>).
  destruct (drain_loop_settles sz Hsz (backlog u1) u1) as (r & Hr & Ho);
    [split; [constructor|apply Hu]|lia|].
  exists (S (S (backlog u1))), r. split; [|done]. intros fuel Hf. rewrite (hbind_Done _ _ u tt u1) by done.
  apply Hr. lia.
Qed.

Lemma recv_or_reset_safe d u n : udp_inv u ->
  match recv_or_reset d (u, n) with Done _ s => prep_inv s /\ s.2 = n | Throw _ _ | Spin => False end.
Proof using HL arrive_bytes.
  intros Hu. unfold recv_or_reset.
  pose proof (recv_frame_settles udp_inv caught (fun e He => He) udp_recv_safe d out0 ltac:(done) u Hu) as Hr.
  destruct (recv_frame d out0 u) as [r u'|e u'|]; [by destruct Hr| |done]. destruct Hr as [_ Hu'].
  unfold mbind, H_bind, on_udp. pose proof (udp_reset_safe u' Hu') as Hs. by destruct (udp_reset u').
Qed.

(** The waiting loop reads the clock in every round. *)
Lemma wait_for_idle_settles start N :
  (forall k, (N <= k)%nat -> 6500 <= Z.quot (clock k - start) 1000000) -> forall m d u n,
  udp_inv u -> (N - n <= m)%nat ->
  exists r, (forall fuel, (m < fuel)%nat -> wait_for_idle clock fuel start d (u, n) = r) /\
    outcome_in prep_bad (fun _ => prep_inv) r.
Proof using HL arrive_bytes.
  intros HN. induction m as [|m IH]; intros d u n Hu Hm;
    (destruct (Z.leb_spec 6500 (Z.quot (clock n - start) 1000000)) as [Hto|Hto];
     [exists (Done (false, d) (u, S n)); split; [|done]; intros [|fuel] Hf; [lia|]; cbn [wait_for_idle];
      rewrite (hbind_Done _ _ _ (clock n) (u, S n)) by done;
      by destruct (Z.leb_spec 6500 (Z.quot (clock n - start) 1000000)); [|lia]|]).
  { specialize (HN n ltac:(lia)). lia. }
  pose proof (recv_or_reset_safe d u (S n) Hu) as Hr.
  destruct (recv_or_reset d (u, S n)) as [[[msg d'] o] [u' n']|e s|] eqn:He; [|done..].
  destruct Hr as [Hu' Hn']. simpl in Hn'. subst n'.
  assert (forall fuel, wait_for_idle clock (S fuel) start d (u, n) =
    match msg with
    | Some MSG_ACK => if ack_phase (out_ack o) =? phase_code PHASE_IDLE then mret (true, d')
                      else wait_for_idle clock fuel start d'
    | _ => wait_for_idle clock fuel start d'
    end (u', S n)) as Hstep.
  { intros fuel. cbn [wait_for_idle]. rewrite (hbind_Done _ _ _ (clock n) (u, S n)) by done.
    destruct (Z.leb_spec 6500 (Z.quot (clock n - start) 1000000)); [lia|].
    rewrite (hbind_Done _ _ _ _ _ He). by destruct msg as [[]|]. }
  destruct (IH d' u' (S n) Hu' ltac:(lia)) as (r & Hr & Ho).
  assert (exists r, (forall fuel, (m < fuel)%nat ->
    match msg with
    | Some MSG_ACK => if ack_phase (out_ack o) =? phase_code PHASE_IDLE then mret (true, d')
                      else wait_for_idle clock fuel start d'
    | _ => wait_for_idle clock fuel start d'
    end (u', S n) = r) /\ outcome_in prep_bad (fun _ => prep_inv) r) as (r' & Hr' & Ho').
  { destruct msg as [[]|]; try (by exists r). destruct (_ =? _); [|by exists r].
    exists (Done (true, d') (u', S n)). by split. }
  exists r'. split; [|done]. intros [|fuel] Hf; [lia|]. rewrite Hstep. apply Hr'. lia.
Qed.

Lemma reset_attempts_settles attempts : forall d,
  settles prep_bad prep_inv (fun fuel => reset_attempts clock fuel attempts d) (fun _ => prep_inv).
Proof using HL arrive_bytes clock_advances.
  induction attempts as [|attempts IH]; intros d; cbn [reset_attempts]; [by apply s_ret|].
  eapply (s_bind _ _ _ _ (fun _ s => prep_inv s /\ True)).
  { apply (on_udp_settles (fun _ => udp_send _)). intros u Hu. eexists 0%nat, _. split; [done|].
    pose proof (udp_send_safe [msg_code MSG_RESET; 0; 0] u Hu) as Hs. simpl in Hs. by destruct (udp_send _ u). }
  intros []. apply s_drop. intros _.
  eapply (s_bind _ _ _ _ (fun t s => prep_inv s /\ exists i, t = clock i)).
  { apply s_run. intros [u n] Hu. simpl. split; [done|]. by exists n. }
  intros start. apply s_drop. intros [i ->].
  eapply (s_bind _ _ _ _ (fun _ => prep_inv)).
  { intros [u n] Hu. destruct (clock_advances 6500 i) as [N HN].
    destruct (wait_for_idle_settles (clock i) N HN N d u n Hu ltac:(lia)) as (r & Hr & Ho).
    exists (S N), r. split; [|done]. intros fuel Hf. apply Hr. lia. }
  intros [[] d']; [by apply s_ret|].
  eapply s_bind; [apply reset_settles|]. intros []. apply s_drop. intros _. apply IH.
Qed.

Lemma with_timeout_settles {A} ms (m : nat -> H prep A) :
  settles prep_bad prep_inv m (fun _ => prep_inv) ->
  settles prep_bad prep_inv (fun fuel => with_udp_timeout ms (m fuel)) (fun _ => prep_inv).
Proof.
  intros Hm [u n] Hu. unfold with_udp_timeout.
  match goal with |- context [m _ ?s] => destruct (Hm s Hu) as (F & r & Hr & Ho) end.
  eexists F, _. split; [intros fuel Hf; rewrite (Hr fuel Hf); reflexivity|].
  by destruct r as [a [u' n']|e [u' n']|].
Qed.

(** The handshake ends, with the session prepared or an exception the adapter catches. *)
Lemma prepare_settles :
  settles prep_bad prep_inv (fun fuel => prepare_udp_session clock fuel) (fun _ => prep_inv).
Proof using HL arrive_bytes clock_advances.
  unfold prepare_udp_session. apply with_timeout_settles.
  eapply s_bind; [apply reset_settles|]. intros []. apply s_drop. intros _.
  eapply s_bind; [apply drain_settles|]. intros []. apply s_drop. intros _.
  eapply s_bind; [apply reset_attempts_settles|]. intros [].
  eapply s_weaken; [apply drain_settles|done|by intros ? ? []].
Qed.
End udp.
