(* ===== verification/Planner.v ===== *)
(** The planner hook of the extension, [pg/src/fpga_planner.c], and the settings it
    reads, [pg/src/fpga_hashjoin.c].

    PostgreSQL's nodes are reduced to the fields the code looks at; a node of
    another kind is [OtherNode].  Row estimates are [double]s; they are rationals here.
    The code's arithmetic on them is exact as long as it stays below 2^53, and above
    that every comparison it makes has the same outcome, since rounding is monotone.
    Estimates of 2^64 rows and more, whose conversion to [uint64] is undefined in C, are
    outside the model.  [None] stands for a null string. *)
From stdpp Require Import strings.
From Stdlib Require Import QArith.QArith_base QArith.Qround.
From S2P Require Import Prelude Types.

(** ** Settings *)

Record gucs := mkGucs {
  fpga_enabled : bool;
  fpga_simulation : bool;
  fpga_algorithm : option string;
  fpga_transport : option string;
  fpga_device : option string;
  fpga_device_baud : Z;
  fpga_min_inner_rows : Z;
  fpga_max_inner_rows : Z;
  fpga_warn_timeout_ms : Z;
  fpga_hard_timeout_ms : Z;
  fpga_max_batch_tuples : Z;
  fpga_ack_window_frames : Z;
  fpga_explain_verbose : bool }.

(** The boot values of [_PG_init]. *)
Definition gucs0 : gucs :=
  mkGucs true true (Some "a") (Some "uart") (Some "/dev/ttyUSB0") 115200 100 12288 2000 30000 118 15 false.

Definition INT_MAX : Z := 2 ^ 31 - 1.

(** The ranges [DefineCustomIntVariable] enforces. *)
Definition gucs_in_range (s : gucs) : Prop :=
  9600 <= fpga_device_baud s <= 4000000 /\ 0 <= fpga_min_inner_rows s <= INT_MAX /\
  1 <= fpga_max_inner_rows s <= INT_MAX /\ 0 <= fpga_warn_timeout_ms s <= INT_MAX /\
  1 <= fpga_hard_timeout_ms s <= INT_MAX /\ 1 <= fpga_max_batch_tuples s <= 118 /\
  1 <= fpga_ack_window_frames s <= 64.

(** ** Planner nodes *)

Inductive node :=
| Var (varno varattno vartype : Z)
| OtherNode.

Inductive clause :=
| OpExpr (args : list node)
| OtherClause.

Record RestrictInfo := mkRestrict { rclause : clause; hashjoinoperator : Z }.
(** An element of a restriction list that need not be a [RestrictInfo]. *)
Inductive restriction := Restrict (r : RestrictInfo) | OtherRestriction.

Record IndexOptInfo := mkIndex {
  idx_unique : bool;
  idx_immediate : bool;
  idx_keys : list Z;
  idx_has_pred : bool }.

Inductive RelOptKind := RELOPT_BASEREL | RELOPT_OTHER.
Record RelOptInfo := mkRel {
  relids : list Z;
  rel_rows : Q;
  reloptkind : RelOptKind;
  indexlist : list IndexOptInfo;
  cheapest_total_path : Z }.

Inductive JoinType := JOIN_INNER | JOIN_OTHER.

Definition InvalidOid : Z := 0.
Definition INT8OID : Z := 20.
Definition INT4OID : Z := 23.
Definition OidIsValid (oid : Z) : bool := negb (oid =? InvalidOid).

(** ** The algorithm setting *)

Definition pg_tolower (c : Ascii.ascii) : Ascii.ascii :=
  let n := Ascii.nat_of_ascii c in
  if (65 <=? n)%nat && (n <=? 90)%nat then Ascii.ascii_of_nat (n + 32) else c.
Fixpoint lower (s : string) : string :=
  match s with EmptyString => EmptyString | String c s => String (pg_tolower c) (lower s) end.
(** [pg_strcasecmp(a, b) == 0] *)
Definition same_ignoring_case (a b : string) : bool := bool_decide (lower a = lower b).

Definition fpga_algorithm_is_b (s : gucs) : bool :=
  match fpga_algorithm s with
  | None => false
  | Some a => same_ignoring_case a "b" || same_ignoring_case a "algorithm_b" ||
              same_ignoring_case a "grace"
  end.

Definition fpga_algorithm_is_valid (s : gucs) : bool :=
  match fpga_algorithm s with
  | None => true
  | Some a => same_ignoring_case a "a" || same_ignoring_case a "algorithm_a" ||
              same_ignoring_case a "linear" || fpga_algorithm_is_b s
  end.

(** ** Size estimates *)

Definition FPGA_HT_MAX_ROWS : Z := 12288.
Definition FPGA_GRACE_MAX_K : Z := 256.
Definition FPGA_GRACE_WORDS_PER_TUPLE : Z := 2.
Definition FPGA_GRACE_OUTER_AREA_BASE : Z :=
  FPGA_GRACE_MAX_K * (FPGA_HT_MAX_ROWS * FPGA_GRACE_WORDS_PER_TUPLE).
Definition FPGA_GRACE_DDR2_TOTAL_WORDS : Z := 16 * 1024 * 1024.
Definition FPGA_GRACE_MAX_INNER_ROWS : Z := FPGA_GRACE_MAX_K * FPGA_HT_MAX_ROWS.

(** [x < y] on doubles. *)
Definition double_lt (x y : Q) : bool := negb (Qle_bool y x).

(** [(uint64) x], and one more if that was rounded down. *)
Definition round_up (x : Q) : Z :=
  let rows := Qfloor x in
  if double_lt (inject_Z rows) x then rows + 1 else rows.

Definition fpga_grace_estimate_k (inner_rows : Q) : Z :=
  if Qle_bool inner_rows 0 then 1
  else
    let rows := round_up inner_rows in
    let k := u64 (u64 (rows + FPGA_HT_MAX_ROWS) - 1) / FPGA_HT_MAX_ROWS in
    if k <? 1 then 1 else k.

Definition fpga_grace_estimate_fits (inner_rows outer_rows : Q) : bool :=
  if double_lt (inject_Z FPGA_GRACE_MAX_INNER_ROWS) inner_rows then false
  else
    let k := fpga_grace_estimate_k inner_rows in
    if FPGA_GRACE_MAX_K <? k then false
    else
      let outer_rows_u := if Qle_bool outer_rows 0 then 0 else round_up outer_rows in
      let outer_slot_words := (outer_rows_u / k + 1) * FPGA_GRACE_WORDS_PER_TUPLE * 2 in
      FPGA_GRACE_OUTER_AREA_BASE + k * outer_slot_words <=? FPGA_GRACE_DDR2_TOTAL_WORDS.

(** ** The join clause *)

(** The out-parameters of [find_equijoin_key]. *)
Record join_key := mkJoinKey { out_key_oid : Z; out_inner_attno : Z; out_outer_attno : Z }.
Definition join_key0 : join_key := mkJoinKey InvalidOid 0 0.

(** The conditions a list element must meet to be counted: a hash-joinable
    operator on two variables of different relations. *)
Definition counted (r : restriction) : option (Z * Z * Z * (Z * Z * Z)) :=
  match r with
  | Restrict (mkRestrict (OpExpr [Var n1 a1 t1; Var n2 a2 t2]) op) =>
      if negb (OidIsValid op) then None
      else if n1 =? n2 then None
      else Some ((n1, a1, t1), (n2, a2, t2))
  | _ => None
  end.

Fixpoint find_equijoin_loop (l : list restriction) (innerrel outerrel : RelOptInfo)
    (eq_count : Z) (out : join_key) : bool * join_key :=
  match l with
  | [] => (eq_count =? 1, out)
  | r :: l =>
      match counted r with
      | None => find_equijoin_loop l innerrel outerrel eq_count out
      | Some ((n1, a1, t1), (n2, a2, t2)) =>
          let eq_count := eq_count + 1 in
          if 1 <? eq_count then (false, out)
          else if bool_decide (n1 ∈ relids innerrel) then
            if negb (t1 =? t2) then (false, out)
            else find_equijoin_loop l innerrel outerrel eq_count (mkJoinKey t1 a1 a2)
          else if bool_decide (n1 ∈ relids outerrel) then
            if negb (t2 =? t1) then (false, out)
            else find_equijoin_loop l innerrel outerrel eq_count (mkJoinKey t2 a2 a1)
          else find_equijoin_loop l innerrel outerrel eq_count out
      end
  end.

Definition find_equijoin_key (restrictlist : list restriction) (innerrel outerrel : RelOptInfo)
  : bool * join_key := find_equijoin_loop restrictlist innerrel outerrel 0 join_key0.

Definition usable_index (attno : Z) (idx : IndexOptInfo) : bool :=
  idx_unique idx && idx_immediate idx &&
  match idx_keys idx with [k] => k =? attno | _ => false end && negb (idx_has_pred idx).

Definition rel_joinkey_is_unique (rel : RelOptInfo) (attno : Z) : bool :=
  existsb (usable_index attno) (indexlist rel).

(** ** The hook *)

(** Key type and attribute numbers when the join can be offloaded. *)
Definition fpga_is_offloadable (s : gucs) (outerrel innerrel : RelOptInfo) (jointype : JoinType)
    (restrictlist : list restriction) : option (Z * Z * Z) :=
  if negb (fpga_enabled s) then None
  else if negb (fpga_algorithm_is_valid s) then None
  else
    match jointype with
    | JOIN_OTHER => None
    | JOIN_INNER =>
        let '(found, out) := find_equijoin_key restrictlist innerrel outerrel in
        if negb found then None
        else
          match (if out_key_oid out =? INT4OID then Some (key_code KEY_INT32)
                 else if out_key_oid out =? INT8OID then Some (key_code KEY_INT64) else None) with
          | None => None
          | Some key_type =>
              if (if fpga_algorithm_is_b s
                  then negb (fpga_grace_estimate_fits (rel_rows innerrel) (rel_rows outerrel))
                  else double_lt (inject_Z (fpga_max_inner_rows s)) (rel_rows innerrel)) then None
              else if double_lt (rel_rows innerrel) (inject_Z (fpga_min_inner_rows s)) then None
              else
                match reloptkind innerrel, reloptkind outerrel with
                | RELOPT_BASEREL, RELOPT_BASEREL =>
                    Some (key_type, out_inner_attno out, out_outer_attno out)
                | _, _ => None
                end
          end
    end.

Record CustomPath := mkCustomPath {
  custom_private : list Z;
  custom_paths : list Z;
  total_cost : Z }.

Definition make_path (key_type inner_attno outer_attno : Z) (innerrel outerrel : RelOptInfo)
  : CustomPath :=
  mkCustomPath [key_type; inner_attno; outer_attno]
    [cheapest_total_path outerrel; cheapest_total_path innerrel] 0.

(** The path the hook adds, if any. *)
Definition fpga_planner_hook (s : gucs) (outerrel innerrel : RelOptInfo) (jointype : JoinType)
    (restrictlist : list restriction) : option CustomPath :=
  match fpga_is_offloadable s outerrel innerrel jointype restrictlist with
  | None => None
  | Some (key_type, inner_attno, outer_attno) =>
      if rel_joinkey_is_unique innerrel inner_attno then
        Some (make_path key_type inner_attno outer_attno innerrel outerrel)
      else if negb (rel_joinkey_is_unique outerrel outer_attno) then None
      else if (if fpga_algorithm_is_b s
               then negb (fpga_grace_estimate_fits (rel_rows outerrel) (rel_rows innerrel))
               else double_lt (inject_Z (fpga_max_inner_rows s)) (rel_rows outerrel)) then None
      else Some (make_path key_type outer_attno inner_attno outerrel innerrel)
  end.

(** The plan node made of a path: its qualification is always empty. *)
Record CustomScan := mkCustomScan {
  custom_scan_tlist : list (Z * Z);
  plan_targetlist : list (Z * Z);
  plan_qual : list clause;
  custom_plans : list Z;
  cs_private : list Z }.

Definition plan_fpga_custom_path (best_path : CustomPath) (tlist : list (Z * Z))
    (clauses : list clause) (plans : list Z) : CustomScan :=
  mkCustomScan tlist tlist [] plans (custom_private best_path).
