(* ===== verification/Extension.v ===== *)
(** The entry point of the extension, [pg/src/fpga_hashjoin.c]: the settings it
    registers, the registration of the custom scan, and the chain of planner hooks.

    PostgreSQL's side is a record: the settings registered so far, the values of the C
    variables behind them, the registered scan methods and the hook variable.  What
    [DefineCustomBoolVariable] and its kin assign to the variable (the boot value, or a
    value found in a configuration file) is PostgreSQL's: [pg_define] is a parameter, as
    is [add_path].  A hook is one of another module (a function on the path list) or the
    extension's own.  Descriptions of settings and the module magic are left out. *)
From stdpp Require Import strings.
From Stdlib Require Import QArith.QArith_base.
From S2P Require Import Prelude Types Planner.

(** ** Settings *)

(** A call of [DefineCustomBoolVariable] or its kin: the name, the C variable, the boot
    value and the range. *)
Inductive guc_def :=
| GucBool (name : string) (var : gucs -> bool) (boot : bool)
| GucString (name : string) (var : gucs -> option string) (boot : string)
| GucInt (name : string) (var : gucs -> Z) (boot min max : Z).

Definition guc_name (d : guc_def) : string :=
  match d with GucBool n _ _ | GucString n _ _ | GucInt n _ _ _ _ => n end.

Definition FPGA_DEFAULT_ACK_WINDOW_FRAMES : Z := 15.

(** The C initialisers of the variables. *)
Definition static_gucs : gucs :=
  mkGucs true true None None None 115200 100 12288 2000 30000 118 FPGA_DEFAULT_ACK_WINDOW_FRAMES false.

(** The calls of [_PG_init], in order. *)
Definition guc_table : list guc_def :=
  [GucBool "fpga.enabled" fpga_enabled true;
   GucBool "fpga.simulation" fpga_simulation true;
   GucString "fpga.algorithm" fpga_algorithm "a";
   GucString "fpga.transport" fpga_transport "uart";
   GucString "fpga.device" fpga_device "/dev/ttyUSB0";
   GucInt "fpga.device_baud" fpga_device_baud 115200 9600 4000000;
   GucInt "fpga.min_inner_rows" fpga_min_inner_rows 100 0 INT_MAX;
   GucInt "fpga.max_inner_rows" fpga_max_inner_rows 12288 1 INT_MAX;
   GucInt "fpga.warn_timeout_ms" fpga_warn_timeout_ms 2000 0 INT_MAX;
   GucInt "fpga.hard_timeout_ms" fpga_hard_timeout_ms 30000 1 INT_MAX;
   GucInt "fpga.max_batch_tuples" fpga_max_batch_tuples 118 1 118;
   GucInt "fpga.ack_window_frames" fpga_ack_window_frames
     FPGA_DEFAULT_ACK_WINDOW_FRAMES 1 64;
   GucBool "fpga.explain_verbose" fpga_explain_verbose false].

(** ** Hooks *)

(** The arguments of [set_join_pathlist_hook]; the path list is that of [joinrel]. *)
Record join_call := mkJoinCall {
  jc_outerrel : RelOptInfo;
  jc_innerrel : RelOptInfo;
  jc_jointype : JoinType;
  jc_restrictlist : list restriction }.

Inductive path := FpgaPath (p : CustomPath) | OtherPath (id : Z).

Inductive hook :=
| ForeignHook (f : join_call -> list path -> list path)
| FpgaHook.

(** ** PostgreSQL with the extension loaded *)

Record server := mkServer {
  settings : gucs;
  defined : list guc_def;
  scan_methods : list string;
  set_join_pathlist_hook : option hook;
  prev_join_pathlist_hook : option hook }.

Section init.
Context (pg_define : guc_def -> gucs -> gucs).

Definition PG_init (v : server) : server :=
  let v := foldl (fun v d => v <| settings ::= pg_define d |> <| defined ::= (fun l => l ++ [d]) |>)
             v guc_table in
  let v := v <| scan_methods ::= (fun l => l ++ ["fpga_hashjoin"]) |> in
  let v := v <| prev_join_pathlist_hook := set_join_pathlist_hook v |> in
  v <| set_join_pathlist_hook := Some FpgaHook |>.
End init.

Definition PG_fini (v : server) : server :=
  v <| set_join_pathlist_hook := prev_join_pathlist_hook v |>.

Section hooks.
Context (add_path : path -> list path -> list path).

(** [fpga_planner_hook] on the path list of [joinrel]. *)
Definition planner_hook_adds (s : gucs) (c : join_call) (paths : list path) : list path :=
  match fpga_planner_hook s (jc_outerrel c) (jc_innerrel c) (jc_jointype c) (jc_restrictlist c) with
  | Some p => add_path (FpgaPath p) paths
  | None => paths
  end.

(** Calling a hook.  The extension's own calls the saved one first; [depth] bounds
    how often it may find itself saved. *)
Fixpoint call_hook (depth : nat) (v : server) (h : hook) (c : join_call) (paths : list path)
  : option (list path) :=
  match h with
  | ForeignHook f => Some (f c paths)
  | FpgaHook =>
      match depth with
      | O => None
      | S depth =>
          paths ← match prev_join_pathlist_hook v with
                  | Some h => call_hook depth v h c paths
                  | None => Some paths
                  end;
          Some (planner_hook_adds (settings v) c paths)
      end
  end.

(** What the planner does at a join: nothing without a hook. *)
Definition plan_join (depth : nat) (v : server) (c : join_call) (paths : list path) : option (list path) :=
  match set_join_pathlist_hook v with
  | Some h => call_hook depth v h c paths
  | None => Some paths
  end.
End hooks.

(** ** Lemmas *)

Lemma foldl_define pg_define l : forall v,
  foldl (fun v d => v <| settings ::= pg_define d |> <| defined ::= (fun l => l ++ [d]) |>) v l =
  v <| settings ::= (fun s => foldl (fun s d => pg_define d s) s l) |> <| defined ::= (fun ds => ds ++ l) |>.
Proof.
  induction l as [|d l IH]; intros []; rcbn; [by rewrite app_nil_r|].
  rewrite IH. rcbn. by rewrite <- app_assoc.
Qed.

(** The state after [_PG_init]. *)
Lemma PG_init_eq pg_define v : PG_init pg_define v =
  mkServer (foldl (fun s d => pg_define d s) (settings v) guc_table) (defined v ++ guc_table)
    (scan_methods v ++ ["fpga_hashjoin"%string]) (Some FpgaHook) (set_join_pathlist_hook v).
Proof. unfold PG_init. rewrite foldl_define. by destruct v. Qed.

(** ** Claims *)

Definition bare_server : server := mkServer static_gucs [] [] None None.

(** C18: the extension's planner hook joins the chain and leaves it: with another
    module's hook or none installed before, a join is planned by calling that hook
    first and then offering the FPGA path, for any settings made since; unloading
    puts the previous hook back. *)
Theorem planner_hook_chained (pg_define : guc_def -> gucs -> gucs)
    (add_path : path -> list path -> list path) (v : server) (s : gucs) (c : join_call) (paths : list path) :
  set_join_pathlist_hook v <> Some FpgaHook ->
  let v' := (PG_init pg_define v) <| settings := s |> in
  (exists before, plan_join add_path 0 v c paths = Some before /\
     plan_join add_path 1 v' c paths = Some (planner_hook_adds add_path s c before)) /\
  set_join_pathlist_hook (PG_fini v') = set_join_pathlist_hook v.
Proof.
  intros Hh v'. subst v'. rewrite PG_init_eq. destruct v as [s0 ds ms h p]. rcbn. cbn in Hh.
  unfold plan_join, PG_fini. rcbn. split; [|done]. destruct h as [[f|]|]; [|done|]; eexists; done.
Qed.

Lemma planner_hook_chained_witness :
  let v := bare_server <| set_join_pathlist_hook := Some (ForeignHook (fun _ l => OtherPath 7 :: l)) |> in
  let rel n := mkRel [n] (inject_Z 500) RELOPT_BASEREL [mkIndex true true [1] false] n in
  let clause := Restrict (mkRestrict (OpExpr [Var 1 1 INT4OID; Var 2 1 INT4OID]) 96) in
  plan_join (fun p l => p :: l) 1 ((PG_init (fun _ s => s) v) <| settings := gucs0 |>)
    (mkJoinCall (rel 2) (rel 1) JOIN_INNER [clause]) [] =
  Some [FpgaPath (mkCustomPath [1; 1; 1] [2; 1] 0); OtherPath 7].
Proof.
  intros v rel clause.
  destruct (planner_hook_chained (fun _ s => s) (fun p l => p :: l) v gucs0
    (mkJoinCall (rel 2) (rel 1) JOIN_INNER [clause]) [])
    as [(before & Hb & ->) _]; [done|].
  injection Hb as <-. vm_compute. reflexivity.
Defined.
