(* ===== verification/PlannerProps.v ===== *)
(** What the planner hook guarantees about the joins it offloads. *)
From stdpp Require Import strings.
From Stdlib Require Import QArith.QArith_base QArith.Qround.
From S2P Require Import Prelude Types LinearHashTable Stream Wire Dialogue Join Grace Kernel LinearJoin.
From S2P Require Import GraceSafety GraceJoin Transport Serializer Decoder Client SoftwareKernel.
From S2P Require Import UdpTransport UartTransport Adapter AdapterProps Planner.

(** ** What the hook is to decide, stated on the planner's data *)

(** [r] is an equality that can be hashed, between columns [ia] of the inner and
    [oa] of the outer relation, both of type [t].  The side is told from the left
    variable, as the inner one where it is a member of both relations. *)
Inductive equates (innerrel outerrel : RelOptInfo) (t ia oa : Z) : restriction -> Prop :=
| EqInnerLeft n1 n2 op :
    op <> InvalidOid -> n1 <> n2 -> n1 ∈ relids innerrel ->
    equates innerrel outerrel t ia oa (Restrict (mkRestrict (OpExpr [Var n1 ia t; Var n2 oa t]) op))
| EqOuterLeft n1 n2 op :
    op <> InvalidOid -> n1 <> n2 -> n1 ∉ relids innerrel -> n1 ∈ relids outerrel ->
    equates innerrel outerrel t ia oa (Restrict (mkRestrict (OpExpr [Var n1 oa t; Var n2 ia t]) op)).

(** [r] is no hashable equality of two variables of different relations. *)
Definition no_equality (r : restriction) : Prop :=
  forall n1 a1 t1 n2 a2 t2 op,
    r = Restrict (mkRestrict (OpExpr [Var n1 a1 t1; Var n2 a2 t2]) op) -> op = InvalidOid \/ n1 = n2.

(** Of the conditions exactly one is such an equality, and it equates the columns. *)
Definition joins_on (l : list restriction) (innerrel outerrel : RelOptInfo) (t ia oa : Z) : Prop :=
  exists l1 r l2, l = l1 ++ r :: l2 /\ Forall no_equality l1 /\ Forall no_equality l2 /\
    equates innerrel outerrel t ia oa r.

(** Column [attno] alone is the key of a unique index that is checked at once and
    covers every row. *)
Definition unique_column (rel : RelOptInfo) (attno : Z) : Prop :=
  exists idx, idx ∈ indexlist rel /\ idx_unique idx = true /\ idx_immediate idx = true /\
    idx_keys idx = [attno] /\ idx_has_pred idx = false.

Definition named (names : list string) (a : option string) : Prop :=
  match a with Some a => lower a ∈ names | None => False end.
Definition selects_a (s : gucs) : Prop :=
  fpga_algorithm s = None \/ named ["a"; "algorithm_a"; "linear"] (fpga_algorithm s).
Definition selects_b (s : gucs) : Prop := named ["b"; "algorithm_b"; "grace"] (fpga_algorithm s).

(** The DDR2 holds 256 build slots of 12288 two-word rows, and after them for each
    of the [K] partitions twice its mean share of the probe rows. *)
Definition ddr_holds (build probe : Z) : Prop :=
  let K := Z.max 1 ((build + 12287) / 12288) in
  build <= 256 * 12288 /\
  256 * 12288 * 2 + K * (2 * (2 * (Z.max 0 probe / K + 1))) <= 16 * 1024 * 1024.

(** The estimates admitted: below the configured limit of algorithm A, which a user may
    set above the table's 12288 rows, or within the DDR2 of algorithm B. *)
Definition size_admitted (s : gucs) (build probe : RelOptInfo) : Prop :=
  (selects_a s /\ (rel_rows build <= inject_Z (fpga_max_inner_rows s))%Q) \/
  (selects_b s /\ ddr_holds (Qceiling (rel_rows build)) (Qceiling (rel_rows probe))).

(** ** Lemmas: the code's tests against these *)

Lemma counted_None r : counted r = None <-> no_equality r.
Proof.
  unfold no_equality. split.
  - intros Hc n1 a1 t1 n2 a2 t2 op ->. cbn in Hc. unfold OidIsValid in Hc. rewrite negb_involutive in Hc.
    destruct (Z.eqb_spec op InvalidOid), (Z.eqb_spec n1 n2); auto; discriminate.
  - intros Hn. destruct r as [[[args|] op]|]; try done.
    destruct args as [|[n1 a1 t1|] [|[n2 a2 t2|] [|]]]; try done. cbn. unfold OidIsValid.
    rewrite negb_involutive. destruct (Hn _ _ _ _ _ _ _ eq_refl) as [->| ->]; [done|].
    rewrite Z.eqb_refl. by destruct (op =? InvalidOid).
Qed.

Lemma counted_Some r n1 a1 t1 n2 a2 t2 :
  counted r = Some ((n1, a1, t1), (n2, a2, t2)) <->
  exists op, op <> InvalidOid /\ n1 <> n2 /\
    r = Restrict (mkRestrict (OpExpr [Var n1 a1 t1; Var n2 a2 t2]) op).
Proof.
  split.
  - destruct r as [[[args|] op]|]; try done.
    destruct args as [|[] [|[] [|]]]; try done. cbn. unfold OidIsValid. rewrite negb_involutive.
    destruct (Z.eqb_spec op InvalidOid); [done|]. destruct (Z.eqb_spec varno varno0); [done|].
    intros [= -> -> -> -> -> ->]. by exists op.
  - intros (op & Hop & Hn & ->). cbn. unfold OidIsValid. rewrite negb_involutive.
    destruct (Z.eqb_spec op InvalidOid), (Z.eqb_spec n1 n2); done.
Qed.

(** After the one equality, none may follow. *)
Lemma find_loop_rest l innerrel outerrel out out' :
  find_equijoin_loop l innerrel outerrel 1 out = (true, out') <-> Forall no_equality l /\ out' = out.
Proof.
  induction l as [|r l IH]; cbn [find_equijoin_loop].
  { split; [by intros [= <-]|by intros [_ ->]]. }
  rewrite Forall_cons, <- counted_None.
  destruct (counted r) as [[[[n1 a1] t1] [[n2 a2] t2]]|]; [naive_solver|]. rewrite IH. naive_solver.
Qed.

Lemma find_equijoin_spec l innerrel outerrel t ia oa :
  t <> InvalidOid ->
  find_equijoin_key l innerrel outerrel = (true, mkJoinKey t ia oa) <-> joins_on l innerrel outerrel t ia oa.
Proof.
  intros Ht. unfold find_equijoin_key. split.
  - induction l as [|r l IH]; cbn [find_equijoin_loop]; [done|].
    destruct (counted r) as [[[[n1 a1] t1] [[n2 a2] t2]]|] eqn:Hr.
    2: { intros (l1 & r' & l2 & -> & H1 & H2 & H3)%IH. exists (r :: l1), r', l2.
         split_and!; [done| |done|done]. constructor; [by apply counted_None|done]. }
    apply counted_Some in Hr as (op & Hop & Hn & ->). intros Hf. exists [].
    eexists _, l. split; [done|]. split; [constructor|]. change (1 <? 0 + 1) with false in Hf.
    case_bool_decide as Hin; [|case_bool_decide as Hout].
    + destruct (Z.eqb_spec t1 t2) as [->|]; [|done]. apply find_loop_rest in Hf as [Hl [= -> -> ->]].
      split; [done|]. by constructor.
    + destruct (Z.eqb_spec t2 t1) as [->|]; [|done]. apply find_loop_rest in Hf as [Hl [= -> -> ->]].
      split; [done|]. by constructor.
    + apply find_loop_rest in Hf as [_ [= ]]. congruence.
  - intros (l1 & r & l2 & -> & H1 & H2 & Hr). induction H1 as [|x l1 Hx _ IH].
    2: { cbn [app find_equijoin_loop]. by rewrite (proj2 (counted_None x) Hx). }
    destruct Hr as [n1 n2 op Hop Hn Hin|n1 n2 op Hop Hn Hni Hin]; cbn [app find_equijoin_loop].
    all: erewrite (proj2 (counted_Some _ _ _ _ _ _ _)) by (exists op; done).
    all: change (1 <? 0 + 1) with false; rewrite ?bool_decide_true, ?bool_decide_false, ?bool_decide_true by done.
    all: rewrite Z.eqb_refl; cbn [negb]; by apply find_loop_rest.
Qed.

Lemma unique_column_spec rel attno : rel_joinkey_is_unique rel attno = true <-> unique_column rel attno.
Proof.
  unfold rel_joinkey_is_unique, unique_column. rewrite existsb_exists. unfold usable_index.
  split; intros (idx & Hin & Hu); exists idx; rewrite list_elem_of_In in *.
  - rewrite !andb_true_iff, negb_true_iff in Hu. destruct Hu as [[[Hu Hi] Hk] Hp].
    destruct (idx_keys idx) as [|k [|]]; try done. apply Z.eqb_eq in Hk as ->. done.
  - destruct Hu as (Hu & Hi & Hk & Hp). split; [done|]. by rewrite Hu, Hi, Hk, Hp, Z.eqb_refl.
Qed.

Lemma named_spec names a :
  Forall (fun n => lower n = n) names ->
  existsb (same_ignoring_case a) names = true <-> lower a ∈ names.
Proof.
  induction 1 as [|n names Hn _ IH]; cbn [existsb]; [split; [done|by intros ?%elem_of_nil]|].
  rewrite orb_true_iff, IH, elem_of_cons. unfold same_ignoring_case. rewrite bool_decide_eq_true, Hn. done.
Qed.

Lemma algorithm_b_spec s : fpga_algorithm_is_b s = true <-> selects_b s.
Proof.
  unfold fpga_algorithm_is_b, selects_b, named. destruct (fpga_algorithm s) as [a|]; [|done].
  rewrite <- named_spec by (repeat constructor). cbn [existsb]. by rewrite orb_false_r, orb_assoc.
Qed.

Lemma algorithm_valid_spec s : fpga_algorithm_is_valid s = true <-> selects_a s \/ selects_b s.
Proof.
  rewrite <- algorithm_b_spec. unfold fpga_algorithm_is_valid, selects_a, named.
  destruct (fpga_algorithm s) as [a|]; [|naive_solver].
  rewrite orb_true_iff, <- named_spec by (repeat constructor). cbn [existsb]. rewrite orb_false_r, !orb_true_iff.
  naive_solver.
Qed.

(** No name selects both. *)
Lemma selects_one s : selects_a s -> ~ selects_b s.
Proof.
  unfold selects_a, selects_b, named. destruct (fpga_algorithm s) as [a|]; [|naive_solver].
  rewrite !elem_of_cons, elem_of_nil. intros [?|[->|[->|[->|?]]]]; try done; intros [?|[?|[?|?]]]; done.
Qed.

(** ** Lemmas: size estimates *)

Lemma double_lt_false x y : double_lt x y = false <-> (y <= x)%Q.
Proof. unfold double_lt. by rewrite negb_false_iff, Qle_bool_iff. Qed.

Lemma Qle_inject z x : (x <= inject_Z z)%Q <-> Qceiling x <= z.
Proof.
  split; intros H.
  - rewrite <- (Qceiling_Z z). by apply Qceiling_resp_le.
  - eapply Qle_trans; [apply Qle_ceiling|]. by rewrite <- Zle_Qle.
Qed.

Lemma Qle_bool_0 x : Qle_bool x 0 = (Qceiling x <=? 0).
Proof. apply eq_true_iff_eq. rewrite Qle_bool_iff, Z.leb_le. apply (Qle_inject 0). Qed.

Lemma round_up_ceiling x : round_up x = Qceiling x.
Proof.
  unfold round_up. destruct (double_lt (inject_Z (Qfloor x)) x) eqn:Hl.
  - assert (~ Qceiling x <= Qfloor x) as Hn.
    { rewrite <- Qle_inject, <- double_lt_false, Hl. done. }
    pose proof (proj1 (Qle_inject (Qfloor x + 1) x) (Qlt_le_weak _ _ (Qlt_floor x))). lia.
  - apply double_lt_false, Qle_inject in Hl. pose proof (Qle_floor_ceiling x) as Hc.
    rewrite <- Zle_Qle in Hc. lia.
Qed.

Lemma grace_K_max inner :
  Qceiling inner < 2 ^ 60 ->
  fpga_grace_estimate_k inner = Z.max 1 ((Qceiling inner + 12287) / 12288).
Proof.
  intros Hi. unfold fpga_grace_estimate_k, FPGA_HT_MAX_ROWS. rewrite round_up_ceiling.
  rewrite Qle_bool_0. destruct (Z.leb_spec (Qceiling inner) 0) as [H0|Hp].
  - pose proof (Z.div_le_upper_bound (Qceiling inner + 12287) 12288 1). lia.
  - rewrite (u64_small (Qceiling inner + 12288)), (u64_small (Qceiling inner + 12288 - 1)) by (unfold is_u64; lia).
    replace (Qceiling inner + 12288 - 1) with (Qceiling inner + 12287) by lia.
    destruct (Z.ltb_spec ((Qceiling inner + 12287) / 12288) 1); lia.
Qed.

Lemma grace_fits_ddr inner outer :
  fpga_grace_estimate_fits inner outer = true <-> ddr_holds (Qceiling inner) (Qceiling outer).
Proof.
  unfold fpga_grace_estimate_fits, ddr_holds.
  destruct (double_lt (inject_Z FPGA_GRACE_MAX_INNER_ROWS) inner) eqn:Hc.
  { assert (~ Qceiling inner <= FPGA_GRACE_MAX_INNER_ROWS) as Hn
      by (rewrite <- Qle_inject, <- double_lt_false, Hc; done).
    unfold FPGA_GRACE_MAX_INNER_ROWS, FPGA_GRACE_MAX_K, FPGA_HT_MAX_ROWS in Hn. split; [done|lia]. }
  apply double_lt_false, Qle_inject in Hc.
  unfold FPGA_GRACE_MAX_INNER_ROWS, FPGA_GRACE_MAX_K, FPGA_HT_MAX_ROWS in Hc.
  rewrite grace_K_max by lia. unfold FPGA_GRACE_OUTER_AREA_BASE, FPGA_GRACE_DDR2_TOTAL_WORDS,
    FPGA_GRACE_WORDS_PER_TUPLE, FPGA_GRACE_MAX_K, FPGA_HT_MAX_ROWS.
  assert ((Qceiling inner + 12287) / 12288 <= 256) as HK by (apply Z.lt_succ_r, Z.div_lt_upper_bound; lia).
  revert HK. set (K := Z.max 1 _). intros HK.
  destruct (Z.ltb_spec 256 K); [lia|].
  replace (if Qle_bool outer 0 then 0 else round_up outer) with (Z.max 0 (Qceiling outer)).
  { rewrite Z.leb_le. intuition lia. }
  rewrite round_up_ceiling, Qle_bool_0. destruct (Z.leb_spec (Qceiling outer) 0); lia.
Qed.

Lemma size_admitted_spec s build probe :
  selects_a s \/ selects_b s ->
  (if fpga_algorithm_is_b s
   then negb (fpga_grace_estimate_fits (rel_rows build) (rel_rows probe))
   else double_lt (inject_Z (fpga_max_inner_rows s)) (rel_rows build)) = false <->
  size_admitted s build probe.
Proof.
  intros Hs. unfold size_admitted. pose proof (selects_one s) as H1.
  destruct (fpga_algorithm_is_b s) eqn:Hb.
  - apply algorithm_b_spec in Hb. rewrite negb_false_iff, grace_fits_ddr. naive_solver.
  - assert (~ selects_b s) by (rewrite <- algorithm_b_spec, Hb; done). rewrite double_lt_false. naive_solver.
Qed.

(** ** Lemmas: offloadable joins *)

(** The wire's key type of a column type. *)
Definition key_of_type (kt t : Z) : Prop := (kt = 1 /\ t = 23) \/ (kt = 2 /\ t = 20).

Lemma offloadable_spec s outerrel innerrel jt l kt ia oa :
  fpga_is_offloadable s outerrel innerrel jt l = Some (kt, ia, oa) <->
  fpga_enabled s = true /\ (selects_a s \/ selects_b s) /\ jt = JOIN_INNER /\
  reloptkind innerrel = RELOPT_BASEREL /\ reloptkind outerrel = RELOPT_BASEREL /\
  (inject_Z (fpga_min_inner_rows s) <= rel_rows innerrel)%Q /\ size_admitted s innerrel outerrel /\
  exists t, key_of_type kt t /\ joins_on l innerrel outerrel t ia oa.
Proof.
  unfold fpga_is_offloadable. rewrite <- algorithm_valid_spec. split.
  - destruct (fpga_enabled s); [|done]. destruct (fpga_algorithm_is_valid s) eqn:Hv; [|done]. cbn [negb].
    apply algorithm_valid_spec in Hv. destruct jt; [|done].
    destruct (find_equijoin_key l innerrel outerrel) as [[] [t ia' oa']] eqn:Hf; [|done]. cbn [negb out_key_oid out_inner_attno out_outer_attno].
    destruct (if t =? INT4OID then _ else _) as [kt'|] eqn:Hk; [|done].
    destruct (if fpga_algorithm_is_b s then _ else _) eqn:He; [done|]. apply size_admitted_spec in He; [|done].
    destruct (double_lt _ _) eqn:Hm; [done|]. apply double_lt_false in Hm.
    destruct (reloptkind innerrel), (reloptkind outerrel); try done. intros [= -> -> ->].
    assert (key_of_type kt t) as Hkt.
    { destruct (Z.eqb_spec t INT4OID) as [->|]; [injection Hk as <-; by left|].
      destruct (Z.eqb_spec t INT8OID) as [->|]; [injection Hk as <-; by right|done]. }
    split_and!; try done. exists t. split; [done|]. apply find_equijoin_spec; [|done].
    destruct Hkt as [[_ ->]|[_ ->]]; done.
  - intros (-> & Hv & -> & -> & -> & Hm & He & t & Hk & Hj). rewrite Hv. cbn [negb].
    apply find_equijoin_spec in Hj; [|by destruct Hk as [[_ ->]|[_ ->]]]. rewrite Hj.
    apply algorithm_valid_spec in Hv. apply size_admitted_spec in He; [|done]. rewrite He.
    apply double_lt_false in Hm. rewrite Hm. by destruct Hk as [[-> ->]|[-> ->]].
Qed.

(** ** Claims *)

(** C16: the hook adds a path exactly when the extension is enabled, the algorithm setting
    names A or B, the join is an inner join of two base relations, exactly one of the
    join conditions is a hashable equality of variables of different relations (conditions
    of any other form are not looked at), it equates int4 or int8 columns of the two
    sides, the inner estimate reaches the configured minimum, the estimates are
    admitted (for A below the configured maximum, for B within the DDR2), and the inner
    column has a single-column, immediate, unique, non-partial index; or, failing that, the
    outer one has and the swapped estimates are admitted too.  The path then carries the
    key type and the columns of build and probe side in that order, the probe side's
    sub-plan before the build side's, and cost 0. *)
Theorem planner_offloads_exactly (s : gucs) (outerrel innerrel : RelOptInfo) (jt : JoinType)
    (l : list restriction) (p : CustomPath) :
  fpga_planner_hook s outerrel innerrel jt l = Some p <->
  fpga_enabled s = true /\ (selects_a s \/ selects_b s) /\ jt = JOIN_INNER /\
  reloptkind innerrel = RELOPT_BASEREL /\ reloptkind outerrel = RELOPT_BASEREL /\
  (inject_Z (fpga_min_inner_rows s) <= rel_rows innerrel)%Q /\ size_admitted s innerrel outerrel /\
  exists kt t ia oa, key_of_type kt t /\ joins_on l innerrel outerrel t ia oa /\
    ((unique_column innerrel ia /\
      p = mkCustomPath [kt; ia; oa] [cheapest_total_path outerrel; cheapest_total_path innerrel] 0) \/
     (~ unique_column innerrel ia /\ unique_column outerrel oa /\ size_admitted s outerrel innerrel /\
      p = mkCustomPath [kt; oa; ia] [cheapest_total_path innerrel; cheapest_total_path outerrel] 0)).
Proof.
  unfold fpga_planner_hook. split.
  - destruct (fpga_is_offloadable _ _ _ _ _) as [[[kt ia] oa]|] eqn:Ho; [|done].
    apply offloadable_spec in Ho as (He & Hv & Hj & Hi & Hor & Hm & Hf & t & Hk & Hl).
    intros Hp. split_and!; try done. exists kt, t, ia, oa. split_and!; [done..|].
    rewrite <- !unique_column_spec. destruct (rel_joinkey_is_unique innerrel ia).
    { injection Hp as <-. by left. }
    destruct (rel_joinkey_is_unique outerrel oa); [|done]. cbn [negb] in Hp.
    destruct (if fpga_algorithm_is_b s then _ else _) eqn:Hf'; [done|]. injection Hp as <-.
    apply size_admitted_spec in Hf'; [|done]. right. done.
  - intros (He & Hv & Hj & Hi & Hor & Hm & Hf & kt & t & ia & oa & Hk & Hl & Hp).
    rewrite (proj2 (offloadable_spec s outerrel innerrel jt l kt ia oa)) by (split_and!; try done; by exists t).
    destruct Hp as [[Hu%unique_column_spec ->]|(Hu & Ho%unique_column_spec & Hf' & ->)]; [by rewrite Hu|].
    rewrite <- unique_column_spec, not_true_iff_false in Hu. rewrite Hu, Ho. cbn [negb].
    apply size_admitted_spec in Hf'; [|done]. by rewrite Hf'.
Qed.

(** Two tables: [t1] with a primary key on its first column, [t2] without. *)
Definition example_t1 : RelOptInfo :=
  mkRel [1] (inject_Z 500) RELOPT_BASEREL [mkIndex true true [1] false] 11.
Definition example_t2 : RelOptInfo := mkRel [2] (inject_Z 9000) RELOPT_BASEREL [] 22.
Definition example_clause : restriction :=
  Restrict (mkRestrict (OpExpr [Var 1 1 INT4OID; Var 2 3 INT4OID]) 96).

(** With [t2] as the inner relation the sides are swapped; what the theorem says of
    that path. *)
Lemma planner_offloads_exactly_witness :
  exists ia oa, unique_column example_t1 oa /\ ~ unique_column example_t2 ia /\ ia = 3 /\ oa = 1.
Proof.
  destruct (proj1 (planner_offloads_exactly gucs0 example_t1 example_t2 JOIN_INNER [example_clause]
    (mkCustomPath [1; 1; 3] [22; 11] 0)) ltac:(vm_compute; reflexivity))
    as (_ & _ & _ & _ & _ & _ & _ & kt & t & ia & oa & _ & _ & [[_ Hp]|(Hn & Hu & _ & Hp)]).
  - discriminate Hp.
  - injection Hp as Hk Ho Hi. exists ia, oa. split; [exact Hu|]. split; [exact Hn|]. split; symmetry; assumption.
Defined.

Lemma find_loop_skip r innerrel outerrel : counted r = None -> forall l1 l2 n out,
  find_equijoin_loop (l1 ++ r :: l2) innerrel outerrel n out =
  find_equijoin_loop (l1 ++ l2) innerrel outerrel n out.
Proof.
  intros Hr. induction l1 as [|x l1 IH]; intros l2 n out; simpl; [by rewrite Hr|].
  destruct (counted x) as [[[[n1 a1] t1] [[n2 a2] t2]]|]; [|done]. rewrite !IH. done.
Qed.

(** A join condition that is not counted, such as an inequality between the
    tables, has no influence: with and without it the same path is added, and the
    plan made of the path has no qualification, so nothing tests the condition. *)
Theorem other_conditions_dropped (s : gucs) (outerrel innerrel : RelOptInfo) (jt : JoinType)
    (l1 l2 : list restriction) (r : restriction) :
  counted r = None ->
  fpga_planner_hook s outerrel innerrel jt (l1 ++ r :: l2) =
    fpga_planner_hook s outerrel innerrel jt (l1 ++ l2) /\
  forall p tlist clauses plans, plan_qual (plan_fpga_custom_path p tlist clauses plans) = [].
Proof.
  intros Hr. split; [|done]. unfold fpga_planner_hook, fpga_is_offloadable, find_equijoin_key.
  by rewrite (find_loop_skip r) by done.
Qed.

(** [t1.id = t2.ref AND t1.id < t2.ref]. *)
Lemma other_conditions_dropped_witness :
  fpga_planner_hook gucs0 example_t2 example_t1 JOIN_INNER
    [example_clause; Restrict (mkRestrict (OpExpr [Var 1 1 INT4OID; Var 2 3 INT4OID]) InvalidOid)] =
  Some (mkCustomPath [1; 1; 3] [22; 11] 0).
Proof.
  refine (eq_trans (proj1 (other_conditions_dropped gucs0 example_t2 example_t1 JOIN_INNER
    [example_clause] [] (Restrict (mkRestrict (OpExpr [Var 1 1 INT4OID; Var 2 3 INT4OID]) InvalidOid)) _)) _).
  - reflexivity.
  - vm_compute. reflexivity.
Defined.

(** The adapter's test, in 64-bit arithmetic, is the same condition. *)
Lemma adapter_fits_ddr inner outer :
  0 <= inner -> 0 <= outer <= 2 ^ 60 -> grace_ddr_layout_fits inner outer = true <-> ddr_holds inner outer.
Proof.
  intros Hi Ho. unfold grace_ddr_layout_fits, ddr_holds, kGraceMaxInnerRows, kGraceMaxK, kHtMaxRows.
  destruct (Z.ltb_spec (256 * 12288) inner) as [|Hcap]; [split; [done|lia]|].
  rewrite (u64_small (inner + 12288)), (u64_small (inner + 12288 - 1)) by (unfold is_u64; lia).
  replace (inner + 12288 - 1) with (inner + 12287) by lia.
  assert (0 <= (inner + 12287) / 12288 <= 256) as HK
    by (split; [apply Z.div_pos; lia|apply Z.lt_succ_r, Z.div_lt_upper_bound; lia]).
  replace (if (inner + 12287) / 12288 =? 0 then 1 else (inner + 12287) / 12288)
    with (Z.max 1 ((inner + 12287) / 12288)) by (destruct (Z.eqb_spec ((inner + 12287) / 12288) 0); lia).
  revert HK. set (K := Z.max 1 _). intros HK. destruct (Z.ltb_spec 256 K); [lia|].
  rewrite Z.max_r by lia.
  assert (0 <= outer / K <= outer) as Hq by (split; [apply Z.div_pos; lia|apply Z.div_le_upper_bound; nia]).
  assert (K * (outer / K) <= outer) as Hk by (apply Z.mul_div_le; lia).
  unfold kGraceOuterAreaBase, kGraceDdr2TotalWords, kGraceInnerSlotWords, kGraceWordsPerTuple, kGraceMaxK, kHtMaxRows.
  rewrite (u64_small (outer / K + 1)), (u64_small ((outer / K + 1) * 2)), (u64_small ((outer / K + 1) * 2 * 2))
    by (unfold is_u64; lia).
  assert (K * ((outer / K + 1) * 2 * 2) = 4 * (K * (outer / K)) + 4 * K) as HE by ring.
  assert (0 <= K * (outer / K)) by nia. rewrite HE.
  rewrite (u64_small (4 * (K * (outer / K)) + 4 * K)), u64_small by (unfold is_u64; lia).
  rewrite Z.leb_le. split; [intros; split; [done|]|intros [_ ?]]; lia.
Qed.

(** C36: the planner's size test is the adapter's: an estimate, which may be fractional,
    passes the one exactly when relations of that many rows, rounded up, pass the other. *)
Theorem estimate_is_adapter_test (inner outer : Q) :
  (0 <= inner)%Q -> (0 <= outer)%Q -> (outer < inject_Z (2 ^ 60))%Q ->
  fpga_grace_estimate_fits inner outer = grace_ddr_layout_fits (Qceiling inner) (Qceiling outer).
Proof.
  intros Hi Ho Hm. apply eq_true_iff_eq. rewrite grace_fits_ddr. symmetry. apply adapter_fits_ddr.
  - rewrite <- (Qceiling_Z 0). by apply Qceiling_resp_le.
  - split; [rewrite <- (Qceiling_Z 0); by apply Qceiling_resp_le|]. by apply Qle_inject, Qlt_le_weak.
Qed.

Lemma estimate_is_adapter_test_witness :
  fpga_grace_estimate_fits (40001 # 2) (inject_Z 3000000) = grace_ddr_layout_fits 20001 3000000.
Proof.
  exact (estimate_is_adapter_test (40001 # 2) (inject_Z 3000000)
    ltac:(by apply Qle_bool_iff) ltac:(by apply Qle_bool_iff) ltac:(reflexivity)).
Defined.
