(* ===== verification/ExtensionProps.v ===== *)
(** The settings the extension registers suffice for the code that uses them: the
    executor's casts, the client's configuration and the datagrams of the UDP transport. *)
From stdpp Require Import strings.
From S2P Require Import Prelude Types LinearHashTable Stream Wire Dialogue Join Transport Serializer Decoder.
From S2P Require Import Hoare Client Protocol ClientJoin ClientSafety UdpTransport Adapter Planner Extension.

(** ** What PostgreSQL is told and what it keeps *)

(** The variable of [d] has a value in the range given at its registration, as
    PostgreSQL documents for every integer setting. *)
Definition in_range (s : gucs) (d : guc_def) : Prop :=
  match d with GucInt _ var _ lo hi => lo <= var s <= hi | _ => True end.

(** PostgreSQL's rules for a registration: the boot value is in the range, and the C
    variable starts with it (a string variable may start as a null pointer). *)
Definition well_registered (d : guc_def) : Prop :=
  match d with
  | GucBool _ var boot => var static_gucs = boot
  | GucString _ var _ => var static_gucs = None
  | GucInt _ var boot lo hi => var static_gucs = boot /\ lo <= boot <= hi
  end.

(** The client configuration the adapter makes of the values handed to it by
    [begin_fpga_custom_scan], which casts them. *)
Definition settings_config (s : gucs) : ClientConfig :=
  adapter_client_config (u32 (fpga_warn_timeout_ms s)) (u32 (fpga_hard_timeout_ms s))
    (u16 (fpga_max_batch_tuples s)) (u16 (fpga_ack_window_frames s)).

(** ** Lemmas *)

Lemma table_in_range s : Forall (in_range s) guc_table -> gucs_in_range s.
Proof.
  unfold guc_table. rewrite !Forall_cons. cbn [in_range]. unfold gucs_in_range. tauto.
Qed.

Lemma table_well_registered : Forall well_registered guc_table.
Proof. unfold guc_table. rewrite !Forall_cons. unfold INT_MAX. cbn. split_and!; done || lia. Qed.

Lemma serialize_configure_length config ic oc sid : length (serialize_configure config ic oc sid) = 16%nat.
Proof. done. Qed.

Lemma serialize_batch_length kt msg rows n frame :
  (n <= length rows)%nat -> serialize_batch kt msg rows n n = Some frame ->
  (length frame <= 3 + n * tuple_width kt)%nat /\ ((0 < n)%nat -> (0 < length frame)%nat).
Proof.
  intros Hn. unfold serialize_batch. rewrite Nat.min_id. destruct (Nat.eqb_spec n 0); [intros [= <-]; simpl; lia|].
  destruct (put_tuples_width kt rows n [] Hn) as (bs & -> & Hb & _); [done|].
  cbn [mbind option_bind app]. intros [= <-]. unfold put_u16, put_u8. cbn [app length]. lia.
Qed.

(** Bytes that fit are posted by a single [sendto]. *)
Lemma udp_send_one `{UdpSocket Sk} (data : list Z) (u : UdpTransport Sk) :
  (0 < length data <= max_payload u)%nat ->
  udp_send data u =
  let '(sent, s') := sys_sendto data (remote_addr u) (sock u) in
  if sent =? Z.of_nat (length data) then Done tt (u <| sock := s' |>)
  else Throw TransportError (u <| sock := s' |>).
Proof.
  intros Hl. unfold udp_send. destruct data as [|x data]; [simpl in Hl; lia|]. cbn [length send_chunks].
  change (x :: data) with ([x] ++ data) in *. set (bytes := [x] ++ data) in *.
  unfold mbind, H_bind, hget, call. change (S (length data)) with (length bytes).
  rewrite Nat.min_l, take_ge, drop_ge by lia.
  destruct (sys_sendto bytes (remote_addr u) (sock u)) as [sent s'].
  destruct (Z.ltb_spec sent 0), (Z.eqb_spec sent (Z.of_nat (length bytes))); cbn [negb]; try done; [lia|].
  by destruct (length data).
Qed.

(** ** Claims *)

(** C17: [_PG_init] registers thirteen settings under distinct names, with boot values in their
    ranges that agree with the C initialisers.  As long as every integer setting has
    a value in the range registered for it, the executor's casts to 32 and 16 bits change
    no value, the client takes its configuration over as it is, and with 32-bit keys
    the UDP transport posts CONFIGURE and a batch of up to [fpga.max_batch_tuples] rows
    after it, as well as such a batch alone, with one [sendto] of all the bytes. *)
Theorem registered_settings_suffice (pg_define : guc_def -> gucs -> gucs) (v : server) (s : gucs) :
  Forall (in_range s) (defined (PG_init pg_define v)) ->
  (exists added, defined (PG_init pg_define v) = defined v ++ added /\ length added = 13%nat /\
     NoDup (guc_name <$> added) /\ Forall well_registered added) /\
  (u32 (fpga_device_baud s) = fpga_device_baud s /\
   u32 (fpga_warn_timeout_ms s) = fpga_warn_timeout_ms s /\
   u32 (fpga_hard_timeout_ms s) = fpga_hard_timeout_ms s /\
   u16 (fpga_max_batch_tuples s) = fpga_max_batch_tuples s /\
   u16 (fpga_ack_window_frames s) = fpga_ack_window_frames s) /\
  checked_config (settings_config s) = settings_config s /\
  forall (Sk : Type) (HSk : UdpSocket Sk) (u : UdpTransport Sk) alg ic oc sid msg rows b frame data,
    max_payload u = 1200%nat -> (0 < b <= length rows)%nat ->
    Z.of_nat b <= max_batch_tuples (checked_config (settings_config s)) ->
    serialize_batch (key_code KEY_INT32) msg rows b b = Some frame ->
    data = frame \/ data = serialize_configure (mkJoinConfig alg (key_code KEY_INT32)) ic oc sid ++ frame ->
    udp_send data u =
      let '(sent, s') := sys_sendto data (remote_addr u) (sock u) in
      if sent =? Z.of_nat (length data) then Done tt (u <| sock := s' |>)
      else Throw TransportError (u <| sock := s' |>).
Proof.
  rewrite PG_init_eq. cbn [defined]. intros [_ Hs%table_in_range]%Forall_app.
  unfold gucs_in_range, INT_MAX in Hs. split.
  { exists guc_table. split_and!; [done|done|by apply (bool_decide_unpack _)|exact table_well_registered]. }
  rewrite !u32_small, !u16_small by (unfold is_u32, is_u16; lia). split; [done|].
  assert (checked_config (settings_config s) = settings_config s) as Hc.
  { unfold checked_config, settings_config, adapter_client_config. rewrite !u16_small by (unfold is_u16; lia). rcbn. consts.
    destruct (Z.eqb_spec (fpga_max_batch_tuples s) 0), (Z.ltb_spec 256 (fpga_max_batch_tuples s)); try lia.
    rcbn. by destruct (Z.eqb_spec (fpga_ack_window_frames s) 0); [lia|]. }
  split; [done|]. rewrite Hc.
  assert (max_batch_tuples (settings_config s) = fpga_max_batch_tuples s) as ->
    by (unfold settings_config, adapter_client_config; rcbn; apply u16_small; unfold is_u16; lia).
  clear Hc. intros Sk HSk u alg ic oc sid msg rows b frame data Hp Hb Hm Hf Hd.
  pose proof (serialize_batch_length _ _ _ _ _ (proj2 Hb) Hf) as [Hl Hl']. specialize (Hl' (proj1 Hb)).
  change (tuple_width _) with 10%nat in *.
  apply udp_send_one. rewrite Hp.
  destruct Hd as [->| ->]; rewrite ?length_app, ?serialize_configure_length; lia.
Qed.

Definition two_rows : list Tuple := [mkTuple 7 (mkTid 1 1); mkTuple 8 (mkTid 1 2)].

Lemma registered_settings_suffice_witness :
  exists frame,
    serialize_batch (key_code KEY_INT32) MSG_INNER_DATA two_rows 2 2 = Some frame /\
    udp_send frame (mkUdp (mkNet [] []) board_addr 100 1200 [] 0) =
    Done tt (mkUdp (mkNet [] [(frame, board_addr)]) board_addr 100 1200 [] 0).
Proof.
  destruct (registered_settings_suffice (fun _ s => s) bare_server gucs0) as (_ & _ & _ & H).
  - repeat (apply Forall_cons_2); try apply Forall_nil_2; vm_compute; try exact I; split; discriminate.
  - eexists. split; [reflexivity|].
    refine (eq_trans (H net _ (mkUdp (mkNet [] []) board_addr 100 1200 [] 0) 0 2 0 1 MSG_INNER_DATA two_rows
      2%nat _ _ eq_refl _ _ eq_refl (or_introl eq_refl)) _).
    + cbn. lia.
    + vm_compute. discriminate.
    + reflexivity.
Defined.

(** With 64-bit keys the registered maximum is too large for one datagram: 118 rows
    after CONFIGURE are 1671 bytes, and [send] cuts them. *)
Lemma int64_batch_splits :
  option_map (fun frame =>
    (length (serialize_configure (mkJoinConfig 0 (key_code KEY_INT64)) 118 0 1 ++ frame),
     match udp_send (serialize_configure (mkJoinConfig 0 (key_code KEY_INT64)) 118 0 1 ++ frame)
             (mkUdp (mkNet [] []) board_addr 100 1200 [] 0) with
     | Done _ u => length <$> (net_outbox (sock u)).*1
     | _ => []
     end))
    (serialize_batch (key_code KEY_INT64) MSG_INNER_DATA (replicate 118 (mkTuple 7 (mkTid 1 1))) 118 118) =
  Some (1671%nat, [1200; 471]%nat).
Proof. vm_compute. reflexivity. Qed.
