(* ===== verification/Executor.v ===== *)
(** The custom scan executor, [pg/src/fpga_executor.c].

    A table row is the list of its nullable attribute values ([Datum]s); a
    relation is what [table_tuple_fetch_row_version] finds in it under the
    snapshot.  A sub-plan is the list of heap tuples its scan slot will hold, in
    order.  [ereport(ERROR)] is [PgError].  The monotonic clock is a function of the
    number of readings; durations, doubles in milliseconds in the source, are whole
    nanoseconds here.  PostgreSQL's [palloc] and [repalloc] grant what is asked for (they
    raise an error above 1 GB, that is for a side with more than 2^25 rows).  Log lines are left out; EXPLAIN is in [Explain]. *)
From stdpp Require Import strings.
From S2P Require Import Prelude Types Stream Wire Join Transport Serializer Decoder Client.
From S2P Require Import SoftwareKernel UdpTransport UartTransport Adapter Planner.

(** ** PostgreSQL's side *)

Definition row : Type := list (option Z).
Definition heap : Type := gmap (Z * Z) row.

(** [slot_getattr]: attribute numbers of columns start at 1, and a column the row does
    not have is null.  PostgreSQL asserts that it is not asked for other numbers;
    here they are null too. *)
Definition slot_getattr (r : row) (attno : Z) : option Z :=
  if attno <=? 0 then None else default None (r !! Z.to_nat (attno - 1)).

(** A heap tuple in a scan slot. *)
Record heap_tuple := mkHeapTuple { tts_tid : Tid; tts_row : row }.

Inductive pg_result (A : Type) : Type :=
| PgOk (a : A)
| PgError (what : string)
| PgCrash.
Arguments PgOk {A}.
Arguments PgError {A}.
Arguments PgCrash {A}.

Definition table_tuple_fetch_row_version (rel : heap) (t : Tid) : option row :=
  rel !! (blkno t, offno t).

(** ** Durations *)

Record timespec := mkTimespec { tv_sec : Z; tv_nsec : Z }.
Definition elapsed_ns (start stop : timespec) : Z :=
  (tv_sec stop - tv_sec start) * 1000000000 + (tv_nsec stop - tv_nsec start).

(** The time between readings [r] and [r + 1] of the clock. *)
Definition span (mono : nat -> timespec) (r : nat) : Z := elapsed_ns (mono r) (mono (S r)).

Record scan_times := mkTimes {
  fpga_total : Z;
  inner_drain : Z;
  outer_drain : Z;
  adapter_run : Z;
  result_copy : Z;
  tid_fetch : Z }.
Definition times0 : scan_times := mkTimes 0 0 0 0 0 0.

(** ** State *)

(** [custom_ps] are the states of the child plans; a fetch slot is absent or holds
    the tuple fetched last, if any. *)
Record FpgaCustomScanState := mkScanState {
  inner_rel : option heap;
  outer_rel : option heap;
  inner_key_attno : Z;
  outer_key_attno : Z;
  scan_key_type : Z;
  result_pairs : list ResultPair;
  result_cursor : nat;
  inner_rtindex : Z;
  outer_rtindex : Z;
  inner_tuple_count : Z;
  outer_tuple_count : Z;
  custom_ps : list Z;
  inner_fetch_slot : option (option row);
  outer_fetch_slot : option (option row);
  times : scan_times;
  mono_reads : nat;
  has_adapter_metrics : bool;
  adapter_metrics : AdapterHostMetrics }.

(** The C array [custom_private] read by position. *)
Definition list_nth_int (l : list Z) (i : nat) : Z := nth i l 0.

Definition fpga_create_custom_scan_state (cscan : CustomScan) : FpgaCustomScanState :=
  mkScanState None None (list_nth_int (cs_private cscan) 1) (list_nth_int (cs_private cscan) 2)
    (list_nth_int (cs_private cscan) 0) [] 0 0 0 0 0 [] None None times0 0 false adapter_metrics0.

(** ** Reading the sub-plans *)

Definition datum_key (key_type : Z) (d : Z) : Z :=
  if key_type =? key_code KEY_INT32 then i32 d else i64 d.

(** The loop of [drain_plan]; [None] is a write behind the array's capacity. *)
Fixpoint drain_rows (plan : list heap_tuple) (key_attno key_type capacity : Z)
    (tuples : list Tuple) : option (list Tuple) :=
  match plan with
  | [] => Some tuples
  | slot :: plan =>
      match slot_getattr (tts_row slot) key_attno with
      | None => drain_rows plan key_attno key_type capacity tuples
      | Some d =>
          let count := Z.of_nat (length tuples) in
          let capacity := if count =? capacity then capacity * 2 else capacity in
          if capacity <=? count then None
          else
            drain_rows plan key_attno key_type capacity
              (tuples ++ [mkTuple (datum_key key_type d) (tts_tid slot)])
      end
  end.
Definition drain_plan (plan : list heap_tuple) (key_attno key_type : Z) : option (list Tuple) :=
  drain_rows plan key_attno key_type 64 [].

(** ** BeginCustomScan *)

(** What the executor gets from PostgreSQL: the sub-plans' tuples and base
    relations, in the order outer, inner. *)
Record scan_env := mkScanEnv {
  outer_plan : list heap_tuple;
  inner_plan : list heap_tuple;
  outer_table : heap;
  inner_table : heap;
  outer_scanrelid : Z;
  inner_scanrelid : Z }.

Section begin.
Context `{UdpSocket Sk} `{Tty F} (mono : nat -> timespec) (clock : nat -> Z) (fuel : nat).
Context (open_socket : string -> Z -> Z -> option (Sk * endpoint)).
Context (open_tty : string -> option F) (configure_tty : speed_t -> Z -> F -> option F).
Context (malloc_ok : bool).

Definition begin_custom_scan (s : gucs) (explain_only : bool) (cscan : CustomScan) (env : scan_env)
    (state : FpgaCustomScanState) (g : adapter) : pg_result (FpgaCustomScanState * adapter) :=
  if explain_only then PgOk (state, g)
  else if negb (length (custom_plans cscan) =? 2)%nat
  then PgError "fpga_hashjoin: expected 2 custom_plans"
  else
    let state := state <| custom_ps ::= (fun ps => if (length ps =? 2)%nat then ps
                                                   else ps ++ custom_plans cscan) |>
                       <| inner_rtindex := inner_scanrelid env |>
                       <| outer_rtindex := outer_scanrelid env |>
                       <| inner_rel := Some (inner_table env) |>
                       <| outer_rel := Some (outer_table env) |>
                       <| inner_fetch_slot := Some None |>
                       <| outer_fetch_slot := Some None |> in
    let r := mono_reads state in
    match drain_plan (inner_plan env) (inner_key_attno state) (scan_key_type state),
          drain_plan (outer_plan env) (outer_key_attno state) (scan_key_type state) with
    | Some inner_arr, Some outer_arr =>
        let state := state <| inner_tuple_count := Z.of_nat (length inner_arr) |>
                           <| outer_tuple_count := Z.of_nat (length outer_arr) |>
                           <| times -> inner_drain := span mono r |>
                           <| times -> outer_drain := span mono (r + 2) |> in
        let '(ok, g) :=
          fpga_adapter_run clock fuel open_socket open_tty configure_tty malloc_ok
            (scan_key_type state) (fpga_simulation s) (fpga_algorithm s) (fpga_transport s)
            (fpga_device s) (u32 (fpga_device_baud s)) (u32 (fpga_warn_timeout_ms s))
            (u32 (fpga_hard_timeout_ms s)) (u16 (fpga_max_batch_tuples s))
            (u16 (fpga_ack_window_frames s)) inner_arr outer_arr g in
        let state := state <| times -> adapter_run := span mono (r + 4) |>
                           <| times -> fpga_total := span mono (r + 4) |> in
        let state := match fpga_adapter_last_host_metrics true g with
                     | Some m => state <| has_adapter_metrics := true |> <| adapter_metrics := m |>
                     | None => state <| has_adapter_metrics := false |>
                     end in
        match ok with
        | Returned true pairs =>
            PgOk (state <| result_pairs := default [] pairs |>
                        <| times -> result_copy := span mono (r + 6) |>
                        <| mono_reads := (r + 8)%nat |> <| result_cursor := 0%nat |>, g)
        | Returned false _ => PgError "FPGA hash join failed"
        | Escapes _ | Undefined | Stuck => PgCrash
        end
    | _, _ => PgCrash
    end.
End begin.

(** ** ExecCustomScan *)

(** The value of one entry of [custom_scan_tlist]: an attribute of the outer or of
    the inner tuple. *)
Definition scan_column (outer_rti : Z) (inner outer : row) (var : Z * Z) : option Z :=
  let src := if var.1 =? outer_rti then outer else inner in
  slot_getattr src var.2.

(** [project] is PostgreSQL's [ExecProject], absent when the target list is the
    identity. *)
Definition emit_row (cscan : CustomScan) (project : option (row -> row)) (outer_rti : Z)
    (inner outer : row) : row :=
  let scan_slot := scan_column outer_rti inner outer <$> custom_scan_tlist cscan in
  match project with Some f => f scan_slot | None => scan_slot end.

(** [table_tuple_fetch_row_version] leaves the tuple it found in the slot. *)
Definition store_tuple (found : option row) (slot : option (option row)) : option (option row) :=
  match found with Some r => Some (Some r) | None => slot end.

Section exec.
Context (mono : nat -> timespec) (cscan : CustomScan) (project : option (row -> row)).

(** The loop over the remaining result pairs: the next row. *)
Fixpoint next_row (ir or : heap) (pairs : list ResultPair) (state : FpgaCustomScanState)
  : option row * FpgaCustomScanState :=
  match pairs with
  | [] => (None, state)
  | p :: pairs =>
      let r := mono_reads state in
      let inner_found := table_tuple_fetch_row_version ir (inner_tid p) in
      let outer_found := table_tuple_fetch_row_version or (outer_tid p) in
      let state := state <| result_cursor ::= S |>
                         <| inner_fetch_slot ::= store_tuple inner_found |>
                         <| outer_fetch_slot ::= store_tuple outer_found |>
                         <| times -> tid_fetch ::= (fun t => t + span mono r) |>
                         <| mono_reads := (r + 2)%nat |> in
      match inner_found, outer_found with
      | Some inner, Some outer => (Some (emit_row cscan project (outer_rtindex state) inner outer), state)
      | _, _ => next_row ir or pairs state
      end
  end.

(** The relations are open whenever there are results: a scan that was only
    explained has neither. *)
Definition exec_custom_scan (state : FpgaCustomScanState) : option row * FpgaCustomScanState :=
  match inner_rel state, outer_rel state with
  | Some ir, Some or => next_row ir or (drop (result_cursor state) (result_pairs state)) state
  | _, _ => (None, state)
  end.
End exec.

(** ** EndCustomScan and ReScanCustomScan *)

(** The calls that give resources back to PostgreSQL. *)
Inductive release :=
| EndNode (ps : Z)
| ClearSlot (inner : bool)
| CloseTable (inner : bool).

Definition when_some {A} (o : option A) (r : release) : list release :=
  match o with Some _ => [r] | None => [] end.

Definition end_custom_scan (state : FpgaCustomScanState) : list release * FpgaCustomScanState :=
  ((EndNode <$> custom_ps state) ++
   when_some (inner_fetch_slot state) (ClearSlot true) ++
   when_some (outer_fetch_slot state) (ClearSlot false) ++
   when_some (inner_rel state) (CloseTable true) ++
   when_some (outer_rel state) (CloseTable false),
   state <| custom_ps := [] |>
         <| inner_fetch_slot ::= option_map (fun _ => None) |>
         <| outer_fetch_slot ::= option_map (fun _ => None) |>
         <| inner_rel := None |> <| outer_rel := None |>).

Definition rescan_custom_scan (state : FpgaCustomScanState) : pg_result FpgaCustomScanState :=
  PgError "FPGA hash join does not support rescan".

(** PostgreSQL pulls rows until there is none; [n] bounds the calls. *)
Fixpoint pull (mono : nat -> timespec) (n : nat) (cscan : CustomScan) (project : option (row -> row))
    (state : FpgaCustomScanState) : list row * FpgaCustomScanState :=
  match n with
  | O => ([], state)
  | S n =>
      match exec_custom_scan mono cscan project state with
      | (None, state) => ([], state)
      | (Some r, state) => let '(rs, state) := pull mono n cscan project state in (r :: rs, state)
      end
  end.
