(* ===== verification/ExecutorProps.v ===== *)
(** What the executor does with its sub-plans and with the accelerator's answer,
    against the relational meaning of the join. *)
From stdpp Require Import strings.
From S2P Require Import Prelude Types LinearHashTable Stream Wire Join Transport Serializer Decoder Client.
From S2P Require Import SoftwareKernel UdpTransport UartTransport Adapter Planner Executor.

(** ** Draining a sub-plan *)

(** The value of column [a] of a row, counted from 1; a missing column is null. *)
Definition column (r : row) (a : Z) : option Z :=
  if 1 <=? a then nth (Z.to_nat a - 1) r None else None.

(** The integer a datum holds: the two's complement number of its low 32 or 64 bits. *)
Definition int_value (kt d : Z) : Z :=
  let w := if kt =? 1 then 32 else 64 in
  let m := d mod 2 ^ w in
  if m <? 2 ^ (w - 1) then m else m - 2 ^ w.

(** The join key of a heap tuple, unless it is null. *)
Definition join_key_of (attno kt : Z) (t : heap_tuple) : option Z :=
  int_value kt <$> column (tts_row t) attno.

Lemma slot_getattr_column r a : slot_getattr r a = column r a.
Proof.
  unfold slot_getattr, column. destruct (Z.leb_spec a 0), (Z.leb_spec 1 a); try lia; [done|].
  rewrite nth_lookup. do 2 f_equal. lia.
Qed.

Lemma datum_key_value kt d : datum_key kt d = int_value kt d.
Proof.
  unfold datum_key, int_value. change (key_code KEY_INT32) with 1.
  destruct (kt =? 1); [unfold i32|unfold i64]; unfold signed; case_match; lia.
Qed.

Definition drained (attno kt : Z) (plan : list heap_tuple) : list Tuple :=
  omap (fun t => k ← join_key_of attno kt t; Some (mkTuple k (tts_tid t))) plan.

Lemma drain_rows_ok attno kt plan : forall capacity tuples,
  1 <= capacity -> Z.of_nat (length tuples) <= capacity ->
  drain_rows plan attno kt capacity tuples = Some (tuples ++ drained attno kt plan).
Proof.
  unfold drained, join_key_of. induction plan as [|t plan IH]; intros capacity tuples Hc Hl; simpl.
  { by rewrite app_nil_r. }
  rewrite slot_getattr_column. destruct (column (tts_row t) attno) as [d|]; cbn; [|by apply IH].
  rewrite datum_key_value. destruct (Z.eqb_spec (Z.of_nat (length tuples)) capacity).
  all: match goal with |- context [?c <=? _] => destruct (Z.leb_spec c (Z.of_nat (length tuples))); [lia|] end.
  all: rewrite IH by (rewrite ?length_app; simpl; lia); by rewrite <- app_assoc.
Qed.

Lemma drain_plan_ok attno kt plan : drain_plan plan attno kt = Some (drained attno kt plan).
Proof. unfold drain_plan. by rewrite drain_rows_ok by (simpl; lia). Qed.

Lemma drained_wf attno kt plan :
  known_key_type kt -> Forall (fun t => tid_wf (tts_tid t)) plan ->
  Forall (tuple_wf kt) (drained attno kt plan).
Proof.
  intros Hkt Hw. unfold drained, join_key_of.
  induction Hw as [|t plan Ht _ IH]; [constructor|]. cbn [omap list_omap].
  destruct (column _ _) as [d|]; cbn; [|exact IH]. constructor; [|exact IH].
  split; [|exact Ht]. cbn [key]. rewrite <- datum_key_value. destruct Hkt as [-> | ->]; [apply i32_range|apply i64_range].
Qed.

(** ** Emitting rows *)

Section emit.
Context (mono : nat -> timespec) (cscan : CustomScan) (project : option (row -> row)).

(** The row of a result pair, if both tuples are still there. *)
Definition fetch_pair (outer_rti : Z) (ir or : heap) (p : ResultPair) : option row :=
  inner ← table_tuple_fetch_row_version ir (inner_tid p);
  outer ← table_tuple_fetch_row_version or (outer_tid p);
  Some (emit_row cscan project outer_rti inner outer).

(** The time of [k] fetches, from reading [r] of the clock on. *)
Fixpoint fetch_spans (r k : nat) : Z :=
  match k with O => 0 | S k => span mono r + fetch_spans (r + 2) k end.

(** [st'] is [st] after [k] more pairs were looked up. *)
Record advanced (st st' : FpgaCustomScanState) (k : nat) : Prop := {
  adv_cursor : result_cursor st' = (result_cursor st + k)%nat;
  adv_reads : mono_reads st' = (mono_reads st + 2 * k)%nat;
  adv_times : times st' = (times st) <| tid_fetch ::= (fun t => t + fetch_spans (mono_reads st) k) |>;
  adv_rels : inner_rel st' = inner_rel st /\ outer_rel st' = outer_rel st;
  adv_pairs : result_pairs st' = result_pairs st;
  adv_rti : outer_rtindex st' = outer_rtindex st;
  adv_children : custom_ps st' = custom_ps st;
  adv_counts : inner_tuple_count st' = inner_tuple_count st /\ outer_tuple_count st' = outer_tuple_count st;
  adv_metrics : has_adapter_metrics st' = has_adapter_metrics st /\ adapter_metrics st' = adapter_metrics st;
  adv_slots : (is_Some (inner_fetch_slot st) -> is_Some (inner_fetch_slot st')) /\
    (is_Some (outer_fetch_slot st) -> is_Some (outer_fetch_slot st')) }.

Lemma fetch_spans_app k : forall r k', fetch_spans r (k + k') = fetch_spans r k + fetch_spans (r + 2 * k) k'.
Proof.
  induction k as [|k IH]; intros r k'; cbn [fetch_spans Nat.add]; [by rewrite Nat.add_0_r|].
  rewrite IH. replace (r + 2 + 2 * k)%nat with (r + 2 * S k)%nat by lia. lia.
Qed.

Lemma advanced_refl st : advanced st st 0.
Proof.
  constructor; try done; try lia.
  destruct st as [? ? ? ? ? ? ? ? ? ? ? ? ? ? [] ? ? ?]. rcbn. by rewrite Z.add_0_r.
Qed.

Lemma advanced_trans st1 st2 st3 k k' : advanced st1 st2 k -> advanced st2 st3 k' -> advanced st1 st3 (k + k').
Proof.
  intros [A1 A2 A3 [A4 A4'] A5 A6 A7 [A8 A8'] [A9 A9'] [A10 A10']]
    [B1 B2 B3 [B4 B4'] B5 B6 B7 [B8 B8'] [B9 B9'] [B10 B10']].
  constructor; try (split; congruence); try congruence; try lia.
  - rewrite B3, A3, A2, fetch_spans_app. destruct (times st1). rcbn. f_equal. lia.
  - split; auto.
Qed.

Lemma is_Some_store found slot : is_Some slot -> is_Some (store_tuple found slot).
Proof. by destruct found. Qed.

(** One iteration of the loop. *)
Lemma fetch_advances inner_found outer_found st :
  advanced st (st <| result_cursor ::= S |>
                  <| inner_fetch_slot ::= store_tuple inner_found |>
                  <| outer_fetch_slot ::= store_tuple outer_found |>
                  <| times -> tid_fetch ::= (fun t => t + span mono (mono_reads st)) |>
                  <| mono_reads := (mono_reads st + 2)%nat |>) 1.
Proof.
  destruct st as [? ? ? ? ? ? ? ? ? ? ? ? ? ? [] ? ? ?]. constructor; try done; rcbn; try lia.
  - f_equal. lia.
  - split; apply is_Some_store.
Qed.

Lemma next_row_spec ir or pairs : forall st,
  match omap (fetch_pair (outer_rtindex st) ir or) pairs with
  | [] => exists st', next_row mono cscan project ir or pairs st = (None, st') /\ advanced st st' (length pairs)
  | r :: rs =>
      exists k st', (0 < k <= length pairs)%nat /\
        next_row mono cscan project ir or pairs st = (Some r, st') /\ advanced st st' k /\
        omap (fetch_pair (outer_rtindex st) ir or) (drop k pairs) = rs
  end.
Proof.
  induction pairs as [|p pairs IH]; intros st; cbn [omap list_omap next_row].
  { exists st. split; [done|]. apply advanced_refl. }
  cbv zeta. set (i := table_tuple_fetch_row_version ir (inner_tid p)).
  set (o := table_tuple_fetch_row_version or (outer_tid p)).
  pose proof (fetch_advances i o st) as Hadv.
  set (st1 := st <| result_cursor ::= S |> <| inner_fetch_slot ::= _ |> <| outer_fetch_slot ::= _ |>
    <| times -> tid_fetch ::= _ |> <| mono_reads := _ |>) in Hadv |- *.
  assert (outer_rtindex st1 = outer_rtindex st) as Hrti by (by destruct Hadv).
  unfold fetch_pair at 1. fold i o. rewrite Hrti. clearbody st1. clearbody i o.
  assert ((i = None \/ o = None) \/ exists ri ro, i = Some ri /\ o = Some ro) as [Hmiss|(ri & ro & Hi & Ho)]
    by (destruct i, o; eauto 6).
  - replace (match i with Some inner => match o with Some outer => _ | None => _ end | None => _ end)
      with (next_row mono cscan project ir or pairs st1) by (destruct Hmiss as [-> | ->]; [done|by destruct i]).
    replace (i ≫= _) with (@None row) by (destruct Hmiss as [-> | ->]; [done|by destruct i]).
    specialize (IH st1). rewrite Hrti in IH. destruct (omap _ pairs) as [|r rs].
    + destruct IH as (st' & -> & Ha). exists st'. split; [done|]. exact (advanced_trans _ _ _ _ _ Hadv Ha).
    + destruct IH as (k & st' & Hk & -> & Ha & Hd). exists (S k), st'. cbn [length drop].
      split_and!; [lia|lia|done|exact (advanced_trans _ _ _ _ _ Hadv Ha)|done].
  - rewrite Hi, Ho. cbn [mbind option_bind]. exists 1%nat, st1. cbn [length drop].
    split_and!; [lia|lia|done|done|done].
Qed.

Definition pending_rows (state : FpgaCustomScanState) (ir or : heap) : list row :=
  omap (fetch_pair (outer_rtindex state) ir or) (drop (result_cursor state) (result_pairs state)).

Lemma pending_advanced st st' k ir or : advanced st st' k ->
  pending_rows st' ir or =
  omap (fetch_pair (outer_rtindex st) ir or) (drop (result_cursor st + k) (result_pairs st)).
Proof. intros [A1 _ _ _ A5 A6 _ _ _ _]. unfold pending_rows. by rewrite A1, A5, A6. Qed.

Lemma exec_spec state ir or :
  inner_rel state = Some ir -> outer_rel state = Some or ->
  (result_cursor state <= length (result_pairs state))%nat ->
  exists k state', exec_custom_scan mono cscan project state = (head (pending_rows state ir or), state') /\
    advanced state state' k /\ (result_cursor state + k <= length (result_pairs state))%nat /\
    pending_rows state' ir or = tail (pending_rows state ir or) /\
    (if bool_decide (pending_rows state ir or = []) then (result_cursor state + k)%nat = length (result_pairs state)
     else (0 < k)%nat).
Proof.
  intros Hi Ho Hc. unfold exec_custom_scan. rewrite Hi, Ho.
  pose proof (next_row_spec ir or (drop (result_cursor state) (result_pairs state)) state) as Hn.
  fold (pending_rows state ir or) in Hn. rewrite length_drop in Hn.
  destruct (pending_rows state ir or) as [|r rs] eqn:Hp.
  - destruct Hn as (st' & -> & Ha). eexists _, st'. split; [done|]. split; [exact Ha|].
    rewrite (pending_advanced _ _ _ _ _ Ha), drop_ge by lia. split_and!; [lia|done|cbn; lia].
  - destruct Hn as (k & st' & Hk & -> & Ha & Hd). exists k, st'. split; [done|]. split; [exact Ha|].
    rewrite (pending_advanced _ _ _ _ _ Ha). split_and!; [lia| |cbn; lia]. by rewrite <- drop_drop.
Qed.

(** Behind the last pair there is nothing more. *)
Lemma exec_end state :
  result_cursor state = length (result_pairs state) ->
  exec_custom_scan mono cscan project state = (None, state).
Proof.
  intros Hc. unfold exec_custom_scan. rewrite Hc, drop_all.
  by destruct (inner_rel state), (outer_rel state).
Qed.

(** Pulling until the end yields the rows of the remaining pairs. *)
Lemma pull_spec n : forall state ir or,
  inner_rel state = Some ir -> outer_rel state = Some or ->
  (result_cursor state <= length (result_pairs state))%nat ->
  (length (result_pairs state) - result_cursor state < n)%nat ->
  exists state', pull mono n cscan project state = (pending_rows state ir or, state') /\
    advanced state state' (length (result_pairs state) - result_cursor state).
Proof.
  induction n as [|n IH]; intros state ir or Hi Ho Hc Hn; [lia|]. cbn [pull].
  destruct (exec_spec state ir or Hi Ho Hc) as (k & st1 & -> & Ha & Hk & Hp & Hlt).
  destruct (pending_rows state ir or) as [|r rs] eqn:Hpr; cbn in Hlt; cbn [head tail] in *.
  - exists st1. split; [done|]. by replace (length (result_pairs state) - result_cursor state)%nat with k by lia.
  - pose proof Ha as [A1 _ _ [A4 A4'] A5 _ _ _ _ _].
    destruct (IH st1 ir or) as (st2 & -> & Ha2); rewrite ?A1, ?A4, ?A4', ?A5; try done; try lia.
    exists st2. rewrite Hp. split; [done|]. rewrite A1, A5 in Ha2.
    replace (length (result_pairs state) - result_cursor state)%nat
      with (k + (length (result_pairs state) - (result_cursor state + k)))%nat by lia.
    exact (advanced_trans _ _ _ _ _ Ha Ha2).
Qed.
End emit.

(** ** The relational meaning *)

(** The output row of a pair: for every entry (relation, attribute) of the target list
    the column of the outer row if the relation is the outer one, of the inner row
    otherwise; then the projection, if there is one. *)
Definition output_row (tlist : list (Z * Z)) (project : option (row -> row)) (outer_rti : Z)
    (inner outer : row) : row :=
  default id project
    (map (fun '(rel, a) => if bool_decide (rel = outer_rti) then column outer a else column inner a) tlist).

(** Rows of the join of two scans: every pair of tuples with equal keys that are
    not null, outer-major. *)
Definition sql_join (tlist : list (Z * Z)) (project : option (row -> row)) (outer_rti kt ia oa : Z)
    (inner outer : list heap_tuple) : list row :=
  o ← outer;
  omap (fun i =>
    match join_key_of ia kt i, join_key_of oa kt o with
    | Some a, Some b =>
        if a =? b then Some (output_row tlist project outer_rti (tts_row i) (tts_row o)) else None
    | _, _ => None
    end) inner.

Lemma emit_row_output cscan project rti inner outer :
  emit_row cscan project rti inner outer = output_row (custom_scan_tlist cscan) project rti inner outer.
Proof.
  unfold emit_row, output_row.
  replace (scan_column rti inner outer <$> custom_scan_tlist cscan) with
    (map (fun '(rel, a) => if bool_decide (rel = rti) then column outer a else column inner a)
       (custom_scan_tlist cscan)); [by destruct project|].
  apply map_ext. intros [rel a]. unfold scan_column. cbn [fst snd]. rewrite slot_getattr_column.
  case_bool_decide; destruct (Z.eqb_spec rel rti); done.
Qed.

(** The scan's tuples are in the table under their TIDs. *)
Definition scan_of (plan : list heap_tuple) (rel : heap) : Prop :=
  Forall (fun t => table_tuple_fetch_row_version rel (tts_tid t) = Some (tts_row t)) plan.

Section meaning.
Context (cscan : CustomScan) (project : option (row -> row)) (rti kt ia oa : Z) (ir or : heap).

Lemma omap_app_list {A B} (f : A -> option B) (l l' : list A) : omap f (l ++ l') = omap f l ++ omap f l'.
Proof. apply omap_app. Qed.

Lemma fetch_matches o b inner :
  table_tuple_fetch_row_version or (tts_tid o) = Some (tts_row o) -> scan_of inner ir ->
  omap (fetch_pair cscan project rti ir or)
    (omap (fun i => if key i =? b then Some (mkPair (tid i) (tts_tid o)) else None) (drained ia kt inner)) =
  omap (fun i =>
    match join_key_of ia kt i, Some b with
    | Some a, Some b =>
        if a =? b then Some (output_row (custom_scan_tlist cscan) project rti (tts_row i) (tts_row o)) else None
    | _, _ => None
    end) inner.
Proof.
  intros Ho Hs. unfold drained. induction Hs as [|i inner Hi _ IH]; [done|].
  cbn [omap list_omap]. destruct (join_key_of ia kt i) as [a|]; cbn [mbind option_bind]; [|exact IH].
  cbn [omap list_omap key tid]. destruct (a =? b); [|exact IH].
  cbn [omap list_omap]. unfold fetch_pair at 1. cbn [inner_tid outer_tid]. rewrite Hi, Ho.
  cbn [mbind option_bind]. rewrite emit_row_output. f_equal. exact IH.
Qed.

(** Fetching the pairs of the equi-join of the keys gives the rows of the join. *)
Lemma fetch_nested_join inner outer :
  scan_of inner ir -> scan_of outer or ->
  omap (fetch_pair cscan project rti ir or)
    (nested_join (drained ia kt inner) (drained oa kt outer)) =
  sql_join (custom_scan_tlist cscan) project rti kt ia oa inner outer.
Proof.
  intros Hi Ho. unfold nested_join, sql_join. induction Ho as [|o outer Hot _ IH]; [done|].
  rewrite bind_cons. unfold drained at 2. cbn [omap list_omap].
  destruct (join_key_of oa kt o) as [b|] eqn:Hb; cbn [mbind option_bind].
  - fold (drained oa kt outer). rewrite bind_cons, omap_app_list. cbn [key tid].
    rewrite (fetch_matches o b inner Hot Hi). f_equal. exact IH.
  - fold (drained oa kt outer). rewrite IH.
    replace (omap _ inner) with (@nil row); [done|]. symmetry.
    clear. induction inner as [|i inner IH]; [done|]. cbn [omap list_omap].
    by destruct (join_key_of ia kt i).
Qed.
End meaning.

(** ** A whole scan *)

Section scan.
Context `{UdpSocket Sk} `{Tty F} (mono : nat -> timespec) (clock : nat -> Z) (fuel : nat).
Context (open_socket : string -> Z -> Z -> option (Sk * endpoint)).
Context (open_tty : string -> option F) (configure_tty : speed_t -> Z -> F -> option F).
Context (malloc_ok : bool).

(** The call of the adapter that [begin_custom_scan] makes. *)
Definition adapter_call (s : gucs) (kt : Z) (inner outer : list Tuple) (g : adapter)
  : run_outcome * adapter :=
  fpga_adapter_run clock fuel open_socket open_tty configure_tty malloc_ok
    kt (fpga_simulation s) (fpga_algorithm s) (fpga_transport s)
    (fpga_device s) (u32 (fpga_device_baud s)) (u32 (fpga_warn_timeout_ms s))
    (u32 (fpga_hard_timeout_ms s)) (u16 (fpga_max_batch_tuples s))
    (u16 (fpga_ack_window_frames s)) inner outer g.

(** The state a fresh scan is in when [begin_custom_scan] has succeeded. *)
Record begun (cscan : CustomScan) (env : scan_env) (ps : option (list ResultPair))
    (inner outer : list Tuple) (st : FpgaCustomScanState) : Prop := {
  bg_rels : inner_rel st = Some (inner_table env) /\ outer_rel st = Some (outer_table env);
  bg_pairs : result_pairs st = default [] ps;
  bg_cursor : result_cursor st = 0%nat;
  bg_rti : outer_rtindex st = outer_scanrelid env;
  bg_counts : inner_tuple_count st = Z.of_nat (length inner) /\ outer_tuple_count st = Z.of_nat (length outer);
  bg_children : custom_ps st = custom_plans cscan;
  bg_slots : inner_fetch_slot st = Some None /\ outer_fetch_slot st = Some None;
  bg_reads : mono_reads st = 8%nat;
  bg_times : times st = mkTimes (span mono 4) (span mono 0) (span mono 2) (span mono 4) (span mono 6) 0 }.

Lemma begin_ok s cscan env g ps g' :
  let st := fpga_create_custom_scan_state cscan in
  let kt := scan_key_type st in
  let inner := drained (inner_key_attno st) kt (inner_plan env) in
  let outer := drained (outer_key_attno st) kt (outer_plan env) in
  length (custom_plans cscan) = 2%nat ->
  adapter_call s kt inner outer g = (Returned true ps, g') ->
  exists st', begin_custom_scan mono clock fuel open_socket open_tty configure_tty malloc_ok
      s false cscan env st g = PgOk (st', g') /\ begun cscan env ps inner outer st'.
Proof.
  intros st kt inner outer Hl Hrun. unfold begin_custom_scan. rewrite Hl. cbn [Nat.eqb negb].
  rewrite !drain_plan_ok. cbn zeta. unfold adapter_call in Hrun.
  match goal with |- context [fpga_adapter_run _ _ _ _ _ _ ?k] => change k with kt end.
  match goal with |- context [drained ?a ?b (inner_plan env)] =>
    change a with (inner_key_attno st); change b with kt end.
  match goal with |- context [drained ?a ?b (outer_plan env)] =>
    change a with (outer_key_attno st); change b with kt end.
  fold inner outer. rewrite Hrun. destruct (fpga_adapter_last_host_metrics true g') as [m|].
  all: eexists; split; [reflexivity|by constructor].
Qed.

(** The rows a scan returns, given what the adapter returned. *)
Lemma scan_ok s cscan env project g ps g' n :
  let st := fpga_create_custom_scan_state cscan in
  let kt := scan_key_type st in
  let inner := drained (inner_key_attno st) kt (inner_plan env) in
  let outer := drained (outer_key_attno st) kt (outer_plan env) in
  length (custom_plans cscan) = 2%nat ->
  scan_of (inner_plan env) (inner_table env) -> scan_of (outer_plan env) (outer_table env) ->
  adapter_call s kt inner outer g = (Returned true ps, g') ->
  default [] ps = nested_join inner outer -> (length (default [] ps) < n)%nat ->
  exists st', begin_custom_scan mono clock fuel open_socket open_tty configure_tty malloc_ok
      s false cscan env st g = PgOk (st', g') /\
    exists st'', pull mono n cscan project st' =
        (sql_join (custom_scan_tlist cscan) project (outer_scanrelid env) kt (inner_key_attno st) (outer_key_attno st)
           (inner_plan env) (outer_plan env), st'') /\
      exec_custom_scan mono cscan project st'' = (None, st'').
Proof.
  intros st kt inner outer Hl Hsi Hso Hrun Hps Hn.
  destruct (begin_ok s cscan env g ps g' Hl Hrun) as (st' & Hb & [[Hir Hor] Hp Hc Hrti _ _ _ _ _]).
  exists st'. split; [exact Hb|].
  destruct (pull_spec mono cscan project n st' _ _ Hir Hor) as (st'' & -> & Ha); [rewrite ?Hc, ?Hp; lia..|].
  exists st''. split; [|by apply exec_end; rewrite (adv_cursor _ _ _ _ Ha), (adv_pairs _ _ _ _ Ha), Hc, Nat.sub_0_r].
  f_equal. unfold pending_rows. rewrite Hc, Hp, Hps, Hrti, drop_0. by apply fetch_nested_join.
Qed.
End scan.

(** ** Claims *)

(** C35: draining a sub-plan never writes behind its growing array and yields, in
    order, one tuple per row whose key is not null, with that row's TID and its key
    at the width of the key type; so the rows sent to the accelerator are
    well-formed. *)
Theorem drain_plan_exact (plan : list heap_tuple) (attno kt : Z) :
  drain_plan plan attno kt = Some (drained attno kt plan) /\
  (known_key_type kt -> Forall (fun t => tid_wf (tts_tid t)) plan ->
   Forall (tuple_wf kt) (drained attno kt plan)).
Proof. split; [apply drain_plan_ok|apply drained_wf]. Qed.

(** C14: when the adapter succeeds with the equi-join of the drained keys, the scan
    returns exactly the rows of the SQL join of its two sub-plans, in outer-major
    order and with nulls never matching, and then reports the end. *)
Theorem scan_returns_sql_join `{UdpSocket Sk} `{Tty F} (mono : nat -> timespec) (clock : nat -> Z) (fuel : nat)
    (open_socket : string -> Z -> Z -> option (Sk * endpoint)) (open_tty : string -> option F)
    (configure_tty : speed_t -> Z -> F -> option F) (malloc_ok : bool)
    (s : gucs) (cscan : CustomScan) (env : scan_env) (project : option (row -> row)) (g g' : adapter)
    (ps : option (list ResultPair)) (n : nat) :
  let st := fpga_create_custom_scan_state cscan in
  let kt := scan_key_type st in
  let inner := drained (inner_key_attno st) kt (inner_plan env) in
  let outer := drained (outer_key_attno st) kt (outer_plan env) in
  length (custom_plans cscan) = 2%nat ->
  scan_of (inner_plan env) (inner_table env) -> scan_of (outer_plan env) (outer_table env) ->
  adapter_call clock fuel open_socket open_tty configure_tty malloc_ok s kt inner outer g =
    (Returned true ps, g') ->
  default [] ps = nested_join inner outer -> (length (default [] ps) < n)%nat ->
  exists st', begin_custom_scan mono clock fuel open_socket open_tty configure_tty malloc_ok
      s false cscan env st g = PgOk (st', g') /\
    exists st'', pull mono n cscan project st' =
        (sql_join (custom_scan_tlist cscan) project (outer_scanrelid env) kt (inner_key_attno st) (outer_key_attno st)
           (inner_plan env) (outer_plan env), st'') /\
      exec_custom_scan mono cscan project st'' = (None, st'').
Proof. intros. by eapply scan_ok. Qed.

(** A terminal with a recorded answer. *)
Record recording := mkRecording { answer : list Z }.
#[global] Instance recording_tty : Tty recording := {
  sys_write data f := (Z.of_nat (length data), f);
  sys_read n f := (Some (take n (answer f)), f <| answer ::= drop n |>);
  sys_tcflush f := f;
  uart_budget _ := 0%nat }.

(** Two tables with one row each, joined on their second and first column. *)
Definition example_inner_row : heap_tuple := mkHeapTuple (mkTid 10 1) [Some 7; Some 42].
Definition example_outer_row : heap_tuple := mkHeapTuple (mkTid 20 1) [Some 42; None].
Definition example_env : scan_env :=
  mkScanEnv [example_outer_row; mkHeapTuple (mkTid 20 2) [None; Some 1]] [example_inner_row]
    {[ (20, 1) := [Some 42; None]; (20, 2) := [None; Some 1] ]} {[ (10, 1) := [Some 7; Some 42] ]} 2 1.
Definition example_scan : CustomScan :=
  mkCustomScan [(1, 1); (2, 1)] [(1, 1); (2, 1)] [] [22; 11] [1; 2; 1].
Definition example_gucs : gucs := gucs0 <| fpga_simulation := false |>.
(** ACK(BUILDING) twice, RESULT with one pair and STATUS(DONE). *)
Definition example_answer : list Z :=
  [5;1;0; 1;1; 0;2; 0;0;0;0; 0;0;0;0] ++ [5;1;0; 1;1; 0;0; 1;0;0;0; 0;0;0;0] ++
  [4;1;0; 10;0;0;0; 1;0; 20;0;0;0; 1;0] ++ [6;1;0; 3;1; 0;0; 1;0;0;0; 1;0;0;0].

(** A second between two readings. *)
Definition tick_second (n : nat) : timespec := mkTimespec (Z.of_nat n) 0.

Lemma scan_returns_sql_join_witness :
  exists st' g', begin_custom_scan tick_second (fun _ => 0) 10 (fun _ _ _ => None : option (net * endpoint))
      (fun _ => Some (mkRecording example_answer)) (fun _ _ f => Some f) true
      example_gucs false example_scan example_env (fpga_create_custom_scan_state example_scan) adapter0
      = PgOk (st', g') /\
    exists st'', pull tick_second 2 example_scan None st' = ([[Some 7; Some 42]], st'').
Proof.
  set (inner := drained 2 1 (inner_plan example_env)).
  set (outer := drained 1 1 (outer_plan example_env)).
  set (g' := snd (adapter_call (fun _ => 0) 10 (fun _ _ _ => None : option (net * endpoint))
    (fun _ => Some (mkRecording example_answer)) (fun _ _ f => Some f) true
    example_gucs 1 inner outer adapter0)).
  destruct (scan_returns_sql_join tick_second (fun _ => 0) 10 (fun _ _ _ => None : option (net * endpoint))
    (fun _ => Some (mkRecording example_answer)) (fun _ _ f => Some f) true
    example_gucs example_scan example_env None adapter0 g'
    (Some [mkPair (mkTid 10 1) (mkTid 20 1)]) 2) as (st' & Hb & st'' & Hp & _).
  - reflexivity.
  - repeat constructor.
  - repeat constructor.
  - vm_compute. reflexivity.
  - reflexivity.
  - simpl. lia.
  - exists st', g'. split; [exact Hb|]. exists st''. exact Hp.
Defined.
