(* ===== verification/Explain.v ===== *)
(** EXPLAIN and the end of a scan, [pg/src/fpga_executor.c]: what
    [explain_custom_scan] prints of a finished run, and which resources
    [end_custom_scan] gives back.

    A property is a label with a value; durations are the nanoseconds of [Executor]
    (the host library's microseconds times 1000), printed by PostgreSQL in
    milliseconds with three digits. *)
From stdpp Require Import strings.
From S2P Require Import Prelude Types LinearHashTable Stream Wire Join Transport Serializer Decoder Client.
From S2P Require Import SoftwareKernel UdpTransport UartTransport Adapter Planner Executor ExecutorProps.

(** ** ExplainCustomScan *)








(** ** Lemmas *)

Lemma elapsed_trans a b c : elapsed_ns a b + elapsed_ns b c = elapsed_ns a c.
Proof. unfold elapsed_ns. lia. Qed.

Section facts.
Context (mono : nat -> timespec).
Hypothesis mono_advances : forall i, 0 <= span mono i.

Lemma elapsed_nonneg k : forall i, 0 <= elapsed_ns (mono i) (mono (i + k)%nat).
Proof.
  induction k as [|k IH]; intros i; [rewrite Nat.add_0_r; unfold elapsed_ns; lia|].
  rewrite <- (elapsed_trans _ (mono (S i))). pose proof (mono_advances i). unfold span in *.
  specialize (IH (S i)). by replace (i + S k)%nat with (S i + k)%nat by lia; lia.
Qed.


End facts.

Lemma pull_advanced mono cscan project n : forall st ir or,
  inner_rel st = Some ir -> outer_rel st = Some or ->
  (result_cursor st <= length (result_pairs st))%nat ->
  exists k, advanced mono st (snd (pull mono n cscan project st)) k.
Proof.
  induction n as [|n IH]; intros st ir or Hi Ho Hc; cbn [pull].
  { exists 0%nat. apply advanced_refl. }
  destruct (exec_spec mono cscan project st ir or Hi Ho Hc) as (k & st1 & -> & Ha & Hk & _).
  destruct (head (pending_rows cscan project st ir or)) as [r|]; [|by exists k].
  destruct (IH st1 ir or) as [k' Ha'].
  - by rewrite (proj1 (adv_rels _ _ _ _ Ha)).
  - by rewrite (proj2 (adv_rels _ _ _ _ Ha)).
  - by rewrite (adv_cursor _ _ _ _ Ha), (adv_pairs _ _ _ _ Ha).
  - destruct (pull mono n cscan project st1) as [rs st2]. exists (k + k')%nat. by eapply advanced_trans.
Qed.




(** ** Claims *)

Section lifecycle.
Context `{UdpSocket Sk} `{Tty F} (mono : nat -> timespec) (clock : nat -> Z) (fuel : nat).
Context (open_socket : string -> Z -> Z -> option (Sk * endpoint)).
Context (open_tty : string -> option F) (configure_tty : speed_t -> Z -> F -> option F).
Context (malloc_ok : bool) (s : gucs) (cscan : CustomScan) (env : scan_env) (g : adapter).

Definition begin_fresh (explain_only : bool) : pg_result (FpgaCustomScanState * adapter) :=
  begin_custom_scan mono clock fuel open_socket open_tty configure_tty malloc_ok
    s explain_only cscan env (fpga_create_custom_scan_state cscan) g.

(** The rows a fresh scan drains from its sub-plans. *)
Definition inner_sent : list Tuple :=
  let st := fpga_create_custom_scan_state cscan in
  drained (inner_key_attno st) (scan_key_type st) (inner_plan env).
Definition outer_sent : list Tuple :=
  let st := fpga_create_custom_scan_state cscan in
  drained (outer_key_attno st) (scan_key_type st) (outer_plan env).
Definition run_fresh : run_outcome * adapter :=
  adapter_call clock fuel open_socket open_tty configure_tty malloc_ok s
    (scan_key_type (fpga_create_custom_scan_state cscan)) inner_sent outer_sent g.
End lifecycle.




(** C15: a scan gives back what it took, once: whenever it is ended, both child plans
    are ended, both fetch slots cleared and both tables closed; ending it again
    closes nothing twice.  A scan that was only explained opened nothing, returns no
    row and releases nothing. *)
Theorem scan_released_once `{UdpSocket Sk} `{Tty F} (mono : nat -> timespec) (clock : nat -> Z) (fuel : nat)
    (open_socket : string -> Z -> Z -> option (Sk * endpoint)) (open_tty : string -> option F)
    (configure_tty : speed_t -> Z -> F -> option F) (malloc_ok : bool) (s : gucs) (cscan : CustomScan)
    (env : scan_env) (project : option (row -> row)) (g g' : adapter) (ps : option (list ResultPair)) (n : nat) :
  length (custom_plans cscan) = 2%nat ->
  run_fresh clock fuel open_socket open_tty configure_tty malloc_ok s cscan env g = (Returned true ps, g') ->
  (exists st, begin_fresh mono clock fuel open_socket open_tty configure_tty malloc_ok s cscan env g false =
      PgOk (st, g') /\
    let '(released, ended) := end_custom_scan (snd (pull mono n cscan project st)) in
    released = (EndNode <$> custom_plans cscan) ++ [ClearSlot true; ClearSlot false; CloseTable true; CloseTable false] /\
    fst (end_custom_scan ended) = [ClearSlot true; ClearSlot false]) /\
  exists st, begin_fresh mono clock fuel open_socket open_tty configure_tty malloc_ok s cscan env g true = PgOk (st, g) /\
    exec_custom_scan mono cscan project st = (None, st) /\ fst (end_custom_scan st) = [].
Proof.
  intros Hl Hrun. split; [|by exists (fpga_create_custom_scan_state cscan)].
  destruct (begin_ok mono clock fuel open_socket open_tty configure_tty malloc_ok s cscan env g ps g' Hl Hrun)
    as (st & Hb & [[Hir Hor] Hp Hc _ _ Hch [Hsi Hso] _ _]). exists st. split; [exact Hb|].
  destruct (pull_advanced mono cscan project n st _ _ Hir Hor) as [k Ha]; [rewrite Hc; lia|].
  set (st' := snd (pull mono n cscan project st)) in *. clearbody st'.
  destruct Ha as [_ _ _ [A4 A4'] _ _ A7 _ _ [A10 A10']].
  rewrite Hsi, Hso in *. destruct (A10 ltac:(by eexists)) as [x Hx], (A10' ltac:(by eexists)) as [y Hy].
  destruct st'. cbn in A4, A4', A7, Hx, Hy. subst. unfold end_custom_scan. rcbn. rewrite Hch, Hir, Hor. done.
Qed.

Lemma scan_released_once_witness :
  exists st g', begin_fresh tick_second (fun _ => 0) 10 (fun _ _ _ => None : option (net * endpoint))
      (fun _ => Some (mkRecording example_answer)) (fun _ _ f => Some f) true example_gucs example_scan
      example_env adapter0 false = PgOk (st, g') /\
    fst (end_custom_scan (snd (pull tick_second 2 example_scan None st))) =
      [EndNode 22; EndNode 11; ClearSlot true; ClearSlot false; CloseTable true; CloseTable false].
Proof.
  set (g' := snd (run_fresh (fun _ => 0) 10 (fun _ _ _ => None : option (net * endpoint))
    (fun _ => Some (mkRecording example_answer)) (fun _ _ f => Some f) true example_gucs example_scan example_env adapter0)).
  destruct (scan_released_once tick_second (fun _ => 0) 10 (fun _ _ _ => None : option (net * endpoint))
    (fun _ => Some (mkRecording example_answer)) (fun _ _ f => Some f) true example_gucs example_scan example_env
    None adapter0 g' (Some [mkPair (mkTid 10 1) (mkTid 20 1)]) 2) as [(st & Hb & Hr) _].
  - reflexivity.
  - vm_compute. reflexivity.
  - exists st, g'. split; [exact Hb|].
    destruct (end_custom_scan (snd (pull tick_second 2 example_scan None st))) as [released ended].
    destruct Hr as [-> _]. reflexivity.
Defined.
