(* ===== verification/EndToEnd.v ===== *)
(** The parts put together: client, transport and kernel; then adapter and
    executor on top of them.

    The client is correct against any implementation of [JoinServer]; the board
    that runs the kernel is one.  Through the adapter and the executor this gives
    the property the extension is built for: a scan over a board returns the rows
    of the SQL join. *)
From stdpp Require Import strings.
From S2P Require Import Prelude Types Stream LinearHashTable Grace Wire Dialogue Join Kernel LinearJoin LinearAborts.
From S2P Require Import Transport Serializer Decoder Client Protocol ClientJoin KernelServer UdpTransport UartTransport Board.
From S2P Require Import SoftwareKernel Adapter AdapterProps Planner Executor ExecutorProps.

(** ** Conversations *)

(** The host may send the frames [l] one after the other, whatever the replies. *)
Fixpoint sendable (j : job) (a : pstate) (l : list pg_frame) : Prop :=
  match l with
  | [] => True
  | f :: l => may_send j a f /\ forall fs a', protocol_step j kernel_grouping a f fs a' -> sendable j a' l
  end.

Lemma kernel_conversation g dbg rtl j l : timely g -> servable j -> forall a m w,
  in_state dbg rtl j a m -> sendable j a l ->
  exists m' fs w' a',
    leads g m (request_frames_bytes (j_key_type j) l) w m' fs w' /\
    protocol_steps j kernel_grouping a l fs a' /\ in_state dbg rtl j a' m'.
Proof.
  intros Hg Hj. induction l as [|f l IH]; intros a m w Hin Hs.
  - exists m, [], w, a. split_and!; [apply leads_refl|constructor|done].
  - destruct Hs as [Hms Hs].
    destruct (kernel_step g Hg dbg rtl j Hj _ _ _ w Hin Hms) as (m1 & fs1 & w1 & a1 & Hr1 & Hs1 & Hin1).
    destruct (IH _ _ w1 Hin1 (Hs _ _ Hs1)) as (m2 & fs2 & w2 & a2 & Hr2 & Hs2 & Hin2).
    exists m2, (fs1 ++ fs2), w2, a2. split_and!; [|by econstructor|done].
    exact (leads_trans _ _ _ _ _ _ _ _ _ _ Hr1 Hr2).
Qed.

(** ** A board behind a serial device *)

(** The transport that opening a fresh board yields. *)
Definition opened_board (b : Board) (sp : speed_t) (vt : Z) : UartTransport Board :=
  mkUart (sys_tcflush b) sp vt.

Lemma opened_board_serves g dbg rtl n k p mm j sp vt :
  timely g -> servable j ->
  let u := opened_board (kernel_board g dbg rtl (S n) k p mm) sp vt in
  serves (j := j) AIdle u /\ incoming u = replies_bytes [].
Proof.
  intros Hg Hj u.
  destruct (kernel_board_serves g dbg rtl n k p mm j sp vt Hg Hj) as [(_ & _ & _ & H) _].
  destruct H as (dbg' & rtl' & m & fs & Hr & Hin). split.
  - split_and!; [done|done| |by exists dbg', rtl', m, fs].
    change (length (board_out (kernel_board g dbg rtl (S n) k p mm)) <=
            length (board_out (kernel_board g dbg rtl (S n) k p mm)))%nat. lia.
  - change (drop (length (board_out (kernel_board g dbg rtl (S n) k p mm)))
             (board_out (kernel_board g dbg rtl (S n) k p mm)) = []).
    apply drop_all.
Qed.

(** The job of two well-formed relations. *)
Lemma job_of_rows kt sid inner outer :
  known_key_type kt -> is_byte sid -> Forall (tuple_wf kt) inner -> Forall (tuple_wf kt) outer ->
  table_accepts inner -> Z.of_nat (length outer) < 2 ^ 32 -> servable (mkJob kt sid inner outer).
Proof. intros [-> | ->] Hs Hi Ho Ht Hn; by constructor. Qed.

Section deployment.
Context (gaps : nat -> Z) (dbg : bool) (rtl : RtlTiming) (n : nat) (k : kst) (p : regs) (mm : gmap Z Z).
Context (gaps_timely : timely gaps).
Context (clock : nat -> Z).
Local Abbreviation board := (kernel_board gaps dbg rtl (S n) k p mm).
(** The device is always there and keeps its settings. *)
Definition open_board (_ : string) : option Board := Some board.
Definition configure_board (_ : speed_t) (_ : Z) (b : Board) : option Board := Some b.

(** Settings under which a session fits the kernel. *)
Record client_settings (cc : ClientConfig) (outer : list Tuple) : Prop := {
  cs_batch : 0 < max_batch_tuples cc <= RX_BUF_TUPLES;
  cs_window : ACK_BATCH_FRAMES <= ack_window_frames cc;
  cs_override : session_id_override cc = 0;
  cs_rows : Z.of_nat (length outer) < 2 ^ 32;
  cs_frames : Z.of_nat (length outer) <= probe_frame_limit * max_batch_tuples cc;
  cs_clock : forall i m, (i <= m)%nat ->
    Z.quot (clock m - clock i) 1000000 < hard_timeout_ms cc }.

Lemma checked_settings cc outer : client_settings cc outer -> checked_config cc = cc.
Proof.
  intros [Hb Hw _ _ _ _]. unfold checked_config. consts.
  replace (max_batch_tuples cc =? 0) with false by lia.
  replace (256 <? max_batch_tuples cc) with false by lia. cbn [orb].
  by replace (ack_window_frames cc =? 0) with false by lia.
Qed.

Lemma client_over_board kt cc inner outer sp vt ticks0 counter :
  known_key_type kt -> Forall (tuple_wf kt) inner -> Forall (tuple_wf kt) outer ->
  table_accepts inner -> client_settings cc outer ->
  exists c' F, forall fuel, (F <= fuel)%nat ->
    run_hash_join clock fuel (mkJoinConfig (alg_code ALGORITHM_A) kt) inner outer
      (new_client (opened_board board sp vt) cc ticks0 counter) = Done (hash_join inner outer) c'.
Proof using gaps_timely.
  intros Hkt Hi Ho Ht Hcc. pose proof (checked_settings _ _ Hcc) as Hck.
  destruct Hcc as [Hb Hw Hov Hrows Hframes Hclock].
  set (c := new_client (opened_board board sp vt) cc ticks0 counter).
  assert (cfg c = cc) as Hcfg by exact Hck.
  assert (is_byte (next_sid c)) as Hsid.
  { unfold next_sid. rewrite Hcfg, Hov. simpl. apply Z.mod_pos_bound. lia. }
  set (j := mkJob kt (next_sid c) inner outer).
  pose proof (job_of_rows kt (next_sid c) inner outer Hkt Hsid Hi Ho Ht Hrows) as Hj. fold j in Hj.
  destruct (opened_board_serves gaps dbg rtl n k p mm j sp vt gaps_timely Hj) as [Hsv Hin].
  destruct (run_hash_join_ok (j := j) (group := 2) clock c (mkJoinConfig (alg_code ALGORITHM_A) kt) inner outer [])
    as (c' & F & Hrun); [by rewrite Hcfg| |exact Hsv|exact Hin|constructor|by exists c', F].
  pose proof (inner_fits j Hj) as Hni. consts.
  constructor; rewrite ?Hcfg; try done.
  - apply kernel_paced; [done|apply Hb].
  - simpl. by rewrite narrow_tuples_id.
  - simpl. by rewrite narrow_tuples_id.
  - lia.
Qed.

(** ** The adapter over a board *)

Lemma adapter_over_board `{UdpSocket Sk} (open_socket : string -> Z -> Z -> option (Sk * endpoint))
    kt alg tr dev baud warn hard batch window inner outer g :
  let cc := adapter_client_config warn hard batch window in
  known_key_type kt -> Forall (tuple_wf kt) inner -> Forall (tuple_wf kt) outer ->
  table_accepts (dedup inner) -> client_settings cc outer ->
  parse_algorithm alg = inr (alg_code ALGORITHM_A) -> or_default tr "uart" = "uart"%string ->
  dev <> ""%string -> is_Some (baud_to_speed baud) ->
  exists ps g' F, default [] ps = hash_join inner outer /\ forall fuel, (F <= fuel)%nat ->
    fpga_adapter_run clock fuel open_socket open_board configure_board true kt false
      alg tr (Some dev) baud warn hard batch window inner outer g = (Returned true ps, g').
Proof using gaps_timely.
  intros cc Hkt Hi Ho Ht Hcc Halg Htr Hdev [sp Hsp].
  set (g1 := g <| g_have_last_metrics := false |> <| g_last_metrics := adapter_metrics0 |>).
  assert (Forall (tuple_wf kt) (dedup inner)) as Hdi.
  { rewrite Forall_forall in *. intros t Ht'. apply Hi. eapply elem_of_sublist; [done|apply dedup_sublist]. }
  destruct (client_over_board kt cc (dedup inner) outer sp (vtime_tenths 200) (ad_ticks g1)
    (ad_counter g1) Hkt Hdi Ho Ht Hcc) as (c' & F & Hrun).
  rewrite dedup_join in Hrun.
  assert (Z.of_nat (length (dedup inner)) <= 12288) as Hcap.
  { destruct Ht as [h Hall]. exact (build_all_length _ _ _ (ht_rep_reset _) Hall). }
  eexists (match hash_join inner outer with [] => None | l => Some l end), _, F.
  split; [by destruct (hash_join inner outer)|]. intros fuel Hf.
  unfold fpga_adapter_run. rewrite Halg. fold g1. cbn zeta. fold cc.
  change (alg_code ALGORITHM_A =? alg_code ALGORITHM_A) with true. cbn iota.
  replace (kHtMaxRows <? Z.of_nat (length (dedup inner))) with false by (unfold kHtMaxRows; lia).
  unfold run_transport. destruct dev as [|ch dev]; [done|]. rewrite Htr. cbn zeta.
  change (str_eq (Some "uart"%string) "udp") with false.
  change (str_eq (Some "uart"%string) "uart") with true. cbn iota.
  unfold run_uart, open_uart, open_board, configure_board. rewrite Hsp.
  fold (opened_board board sp (vtime_tenths 200)). unfold run_client. rewrite (Hrun fuel Hf).
  destruct (hash_join inner outer); reflexivity.
Qed.

(** ** A scan over a board *)

(** Settings for algorithm A over a serial line. *)
Record uart_settings (s : gucs) (dev : string) : Prop := {
  us_range : gucs_in_range s;
  us_sim : fpga_simulation s = false;
  us_alg : parse_algorithm (fpga_algorithm s) = inr (alg_code ALGORITHM_A);
  us_tr : or_default (fpga_transport s) "uart" = "uart"%string;
  us_dev : fpga_device s = Some dev /\ dev <> ""%string;
  us_baud : is_Some (baud_to_speed (fpga_device_baud s));
  us_window : 2 <= fpga_ack_window_frames s;
  us_clock : forall i m, (i <= m)%nat ->
    Z.quot (clock m - clock i) 1000000 < fpga_hard_timeout_ms s }.

Lemma uart_client_settings s dev outer :
  uart_settings s dev -> Z.of_nat (length outer) <= probe_frame_limit * fpga_max_batch_tuples s ->
  client_settings (client_config0 <| warn_timeout_ms := u32 (fpga_warn_timeout_ms s) |>
    <| hard_timeout_ms := u32 (fpga_hard_timeout_ms s) |>
    <| Client.max_batch_tuples := u16 (fpga_max_batch_tuples s) |>
    <| Client.ack_window_frames := u16 (fpga_ack_window_frames s) |>) outer.
Proof.
  intros [(_ & _ & _ & _ & Hh & Hb & Ha) _ _ _ _ _ Hw Hc] Hn. unfold INT_MAX in *. consts.
  rewrite (u16_small (fpga_max_batch_tuples s)), (u16_small (fpga_ack_window_frames s)),
    (u32_small (fpga_hard_timeout_ms s)) by (unfold is_u16, is_u32; lia).
  constructor; try done; unfold constant; cbn; consts; unfold constant, probe_frame_limit in *; try lia.
Qed.
End deployment.

(** ** Claims *)

(** C1: a custom scan over a board that runs the kernel returns exactly the rows
    of the SQL join of its two sub-plans, in outer-major order and with nulls never
    matching, and then reports the end; enough fuel exists.  The scan uses algorithm A
    over the serial line without simulation, with settings in range, a baud rate
    the transport supports and at least two frames in the window; the keys of the
    build side are unique and fit the hash table; there are at most a million outer
    frames, and neither the client's hard timeout nor the kernel's watchdog expires.
    The kernel's state, its debug output and the batch size are arbitrary. *)
Theorem scan_over_board_returns_sql_join `{UdpSocket Sk}
    (open_socket : string -> Z -> Z -> option (Sk * endpoint))
    (gaps : nat -> Z) (dbg : bool) (rtl : RtlTiming) (sessions : nat) (k : kst) (p : regs)
    (mm : gmap Z Z) (mono : nat -> timespec) (clock : nat -> Z) (s : gucs) (dev : string) (cscan : CustomScan)
    (env : scan_env) (project : option (row -> row)) (g : adapter) (n : nat) (kt ia oa : Z) :
  let inner := drained ia kt (inner_plan env) in
  let outer := drained oa kt (outer_plan env) in
  timely gaps -> uart_settings clock s dev -> known_key_type kt ->
  cs_private cscan = [kt; ia; oa] -> length (custom_plans cscan) = 2%nat ->
  scan_of (inner_plan env) (inner_table env) -> scan_of (outer_plan env) (outer_table env) ->
  Forall (fun t => tid_wf (tts_tid t)) (inner_plan env ++ outer_plan env) ->
  keys_unique inner -> table_accepts inner ->
  Z.of_nat (length outer) <= probe_frame_limit * fpga_max_batch_tuples s ->
  (length outer < n)%nat ->
  exists F, forall fuel, (F <= fuel)%nat ->
  exists st' g' st'',
    begin_custom_scan mono clock fuel open_socket
      (open_board gaps dbg rtl sessions k p mm) configure_board true s false cscan env
      (fpga_create_custom_scan_state cscan) g = PgOk (st', g') /\
    pull mono n cscan project st' =
      (sql_join (custom_scan_tlist cscan) project (outer_scanrelid env) kt ia oa
         (inner_plan env) (outer_plan env), st'') /\
    exec_custom_scan mono cscan project st'' = (None, st'').
Proof.
  intros inner outer Hg Hs Hkt Hpr Hl Hsi Hso Hw Hu Ht Hn Hpull.
  apply Forall_app in Hw as [Hwi Hwo].
  pose proof (uart_client_settings _ _ _ _ Hs Hn) as Hcc.
  destruct Hs as [Hr Hsim Halg Htr [Hdev Hne] Hbaud Hwin Hc].
  destruct (adapter_over_board gaps dbg rtl sessions k p mm Hg clock open_socket kt (fpga_algorithm s)
    (fpga_transport s) dev (u32 (fpga_device_baud s)) (u32 (fpga_warn_timeout_ms s))
    (u32 (fpga_hard_timeout_ms s)) (u16 (fpga_max_batch_tuples s)) (u16 (fpga_ack_window_frames s))
    inner outer g) as (ps & g' & F & Hps & Hrun); try done.
  { by apply drained_wf. }
  { by apply drained_wf. }
  { by rewrite dedup_id. }
  { rewrite u32_small; [done|]. destruct Hr as [Hb _]. unfold is_u32. lia. }
  exists F. intros fuel Hf. specialize (Hrun fuel Hf). rewrite <- Hsim, <- Hdev in Hrun.
  pose proof (scan_ok mono clock fuel open_socket (open_board gaps dbg rtl sessions k p mm) configure_board
    true s cscan env project g ps g' n) as Hscan.
  cbv zeta in Hscan.
  assert (scan_key_type (fpga_create_custom_scan_state cscan) = kt /\
    inner_key_attno (fpga_create_custom_scan_state cscan) = ia /\
    outer_key_attno (fpga_create_custom_scan_state cscan) = oa) as (Hk & Hia & Hoa).
  { unfold fpga_create_custom_scan_state. by rewrite Hpr. }
  rewrite Hk, Hia, Hoa in Hscan.
  destruct Hscan as (st' & Hb & st'' & Hp & He); try done.
  - by rewrite Hps, hash_join_nested.
  - rewrite Hps. pose proof (length_hash_join inner outer). lia.
  - by exists st', g', st''.
Qed.

Definition example_board_gucs : gucs := gucs0 <| fpga_simulation := false |>.

Lemma scan_over_board_returns_sql_join_witness :
  exists F, forall fuel, (F <= fuel)%nat ->
  exists st' g' st'',
    begin_custom_scan tick_second (fun _ => 0) fuel (fun _ _ _ => None : option (net * endpoint))
      (open_board (fun _ => 7) true rtl_none 0 kst_static (mkRegs 0 0 0 0 0) ∅) configure_board true
      example_board_gucs false example_scan example_env
      (fpga_create_custom_scan_state example_scan) adapter0 = PgOk (st', g') /\
    pull tick_second 2 example_scan None st' = ([[Some 7; Some 42]], st'') /\
    exec_custom_scan tick_second example_scan None st'' = (None, st'').
Proof.
  apply (scan_over_board_returns_sql_join (fun _ _ _ => None : option (net * endpoint))
    (fun _ => 7) true rtl_none 0 kst_static (mkRegs 0 0 0 0 0) ∅ tick_second (fun _ => 0) example_board_gucs
    "/dev/ttyUSB0" example_scan example_env None adapter0 2 1 2 1).
  - intros i. unfold RX_WATCHDOG_CYCLES. lia.
  - by constructor.
  - by left.
  - reflexivity.
  - reflexivity.
  - repeat constructor.
  - repeat constructor.
  - repeat constructor; done.
  - by apply (bool_decide_unpack _).
  - apply table_accepts_small. unfold MAX_PROBE_DIST. simpl. lia.
  - unfold probe_frame_limit. simpl. lia.
  - simpl. lia.
Defined.

(** C4: the kernel implements the host protocol.  Fed in time with any sequence
    of frames the protocol lets the host send in a session, in whatever batches,
    the kernel consumes them all, and what it emits behind its start-up debug frame
    is a sequence of replies the protocol allows; it never faults and then waits
    for more input, or has returned when no session is left. *)
Theorem kernel_refines_protocol (g : nat -> Z) (dbg : bool) (rtl : RtlTiming) (n : nat) (k : kst)
    (p : regs) (mm : gmap Z Z) (j : job) (l : list pg_frame) :
  timely g -> servable j -> sendable j AIdle l ->
  exists d fs a',
    final (hash_join_kernel dbg rtl (S n) k
      (mkDev (feed g 0 (request_frames_bytes (j_key_type j) l) []) [] p mm)) = Some d /\
    rx d = [] /\ tx d = axis_frames (debug_frames dbg DBG_INFO DBG_IDLE_ENTER 0 ++ fs) /\
    protocol_steps j kernel_grouping AIdle l fs a'.
Proof.
  intros Hg Hj Hs.
  destruct (session_enter g dbg rtl k (p <| ht_capacity_reg := HT_MAX_ROWS |>
    <| rx_buf_cap_reg := RX_CREDIT_TUPLES |>) mm) as [p' He].
  destruct (kernel_conversation g dbg rtl j l Hg Hj _ _ (p', mm) (IS_idle dbg rtl j n k) Hs)
    as (m' & fs & w' & a' & Hr & Hp & Hin).
  pose proof (leads_trans _ _ _ _ _ _ _ _ _ _
    (leads_bind_l _ _ (session_loop dbg rtl n) _ _ _ _ He) Hr 0%nat [] [] []) as Hk.
  rewrite !app_nil_r in Hk.
  set (d := mkDev [] (axis_frames (debug_frames dbg DBG_INFO DBG_IDLE_ENTER 0 ++ fs)) (fst w') (snd w')).
  exists d, fs, a'. split_and!; [|done|done|done].
  transitivity (final (m' d)); [by apply (f_equal final)|].
  unfold d. destruct (in_state_waits dbg rtl j a' m'
    (axis_frames (debug_frames dbg DBG_INFO DBG_IDLE_ENTER 0 ++ fs)) (fst w') (snd w') Hin)
    as [->|[k' ->]]; done.
Qed.

(** One inner and one outer row with the same key. *)
Definition example_job : job :=
  mkJob 1 7 [mkTuple 5 (mkTid 10 1)] [mkTuple 5 (mkTid 20 1)].

Lemma example_servable : servable example_job.
Proof.
  constructor; try (repeat constructor; done). apply table_accepts_small.
  unfold MAX_PROBE_DIST. simpl. lia.
Qed.

Lemma example_sendable :
  sendable example_job AIdle
    [PConfigure (job_configure example_job); PInner (j_inner example_job); POuter (j_outer example_job)].
Proof.
  split; [constructor|]. intros fs a Hs. inversion Hs as [? ? ? _ [-> _]| | | | | |]; subst.
  split; [apply (MS_inner example_job 0 [] 1); unfold batch_ok; consts; simpl; lia|].
  intros fs' a' Hs'.
  inversion Hs' as [|? ? ? ? [Hb _] Hlt|? ? ? ? [Hb _] Hlt|? ? ? ? ? ? Hb _ _ [-> _]| | |]; subst;
    try (unfold n_inner in Hlt; simpl in Hlt; lia).
  split; [|done]. apply (MS_outer example_job 0 0 [] [] 1); unfold batch_ok, probe_frame_limit;
    consts; unfold n_outer; simpl; lia.
Qed.

Lemma kernel_refines_protocol_witness :
  exists d fs a',
    final (hash_join_kernel true rtl_none 1 kst_static
      (mkDev (feed (fun _ => 7) 0 (request_frames_bytes 1
         [PConfigure (job_configure example_job); PInner (j_inner example_job);
          POuter (j_outer example_job)]) []) [] (mkRegs 0 0 0 0 0) ∅)) = Some d /\
    rx d = [] /\ tx d = axis_frames (debug_frames true DBG_INFO DBG_IDLE_ENTER 0 ++ fs) /\
    protocol_steps example_job kernel_grouping AIdle [PConfigure (job_configure example_job);
      PInner (j_inner example_job); POuter (j_outer example_job)] fs a'.
Proof.
  apply (kernel_refines_protocol (fun _ => 7) true rtl_none 0 kst_static (mkRegs 0 0 0 0 0) ∅ example_job).
  - intros i. unfold RX_WATCHDOG_CYCLES. lia.
  - apply example_servable.
  - apply example_sendable.
Defined.

(** C3: over any transport whose far end keeps the host protocol for algorithm A,
    [run_hash_join] returns, and returns exactly the join the far end holds, which
    for unique inner keys is the equi-join of the two relations at the width of the
    key type: no result is lost, added or reordered by the credit window, the
    coalesced first frame or the inferred end of the probe phase.  The far end may
    group its acknowledgements as it likes, as long as a group of frames fits the
    window and the credit ([paced]; the kernel's groups of two do from a window of
    two on).  Rows are split into batches as configured, the outer ones into at most
    a million frames, and the clock does not reach the hard timeout. *)
Theorem client_joins_over_server {T} {HT : Transport T} {HL : LawfulTransport T}
    {HP : PromptTransport T} {j : job} {gr : grouping} {HJ : JoinServer T j gr} (group : nat) (clock : nat -> Z)
    (c : FpgaClient T) (config : JoinConfig) (inner outer : list Tuple) (pend : list fp_frame) :
  (forall i k, (i <= k)%nat -> Z.quot (clock k - clock i) 1000000 < hard_timeout_ms (cfg c)) ->
  job_fits j gr group c config inner outer -> serves AIdle (transport c) ->
  incoming (transport c) = replies_bytes pend -> Forall silent pend ->
  exists c' F, forall fuel, (F <= fuel)%nat ->
    run_hash_join clock fuel config inner outer c = Done (joined j) c' /\
    (keys_unique (j_inner j) ->
     joined j = nested_join (narrow_tuple (key_type config) <$> inner)
                  (narrow_tuple (key_type config) <$> outer)).
Proof.
  intros Hc Hf Hs Hi Hp.
  destruct (run_hash_join_ok clock c config inner outer pend Hc Hf Hs Hi Hp) as (c' & F & Hr).
  exists c', F. intros fuel Hfu. split; [by apply Hr|]. intros Hu.
  rewrite (jf_key _ _ _ _ _ _ _ Hf), <- (jf_inner _ _ _ _ _ _ _ Hf), <- (jf_outer _ _ _ _ _ _ _ Hf).
  by apply hash_join_nested.
Qed.

Definition example_client : FpgaClient (UartTransport Board) :=
  new_client (opened_board (kernel_board (fun _ => 7) true rtl_none 1 kst_static (mkRegs 0 0 0 0 0) ∅)
    B115200 2) (client_config0 <| session_id_override := 7 |>) 0 0.

Lemma client_joins_over_server_witness :
  exists c' F, forall fuel, (F <= fuel)%nat ->
    run_hash_join (fun _ => 0) fuel (mkJoinConfig 0 1) (j_inner example_job) (j_outer example_job)
      example_client = Done [mkPair (mkTid 10 1) (mkTid 20 1)] c' /\
    (keys_unique (j_inner example_job) ->
     [mkPair (mkTid 10 1) (mkTid 20 1)] = nested_join (j_inner example_job) (j_outer example_job)).
Proof.
  destruct (opened_board_serves (fun _ => 7) true rtl_none 0 kst_static (mkRegs 0 0 0 0 0) ∅
    example_job B115200 2) as [Hs Hi].
  { intros i. unfold RX_WATCHDOG_CYCLES. lia. }
  { apply example_servable. }
  apply (client_joins_over_server (j := example_job) 2 (fun _ => 0) example_client (mkJoinConfig 0 1)
    (j_inner example_job) (j_outer example_job) []).
  - intros i m _. reflexivity.
  - constructor; try done; [by apply kernel_paced|by left].
  - exact Hs.
  - exact Hi.
  - constructor.
Defined.

(** How a run ended. *)
Definition run_result {S A} (r : hres S A) : option (A + exn) :=
  match r with Done a _ => Some (inl a) | Throw e _ => Some (inr e) | Spin => None end.

(** Two rows, sent one per frame with [window] frames in flight; a second passes
    between two readings of the clock. *)
Definition two_frame_run (window : Z) : option (list ResultPair + exn) :=
  let rows := [mkTuple 5 (mkTid 10 1); mkTuple 6 (mkTid 10 2)] in
  run_result (run_hash_join (fun n => Z.of_nat n * 1000000000) 100 (mkJoinConfig 0 1) rows rows
    (new_client (opened_board (kernel_board (fun _ => 7) true rtl_none 1 kst_static (mkRegs 0 0 0 0 0) ∅)
       B115200 2)
       (client_config0 <| max_batch_tuples := 1 |> <| ack_window_frames := window |>) 0 0)).

(** A window of one frame, which the setting [fpga.ack_window_frames] allows,
    does not work with the kernel: it acknowledges every second frame, so the
    client waits for an acknowledgement that is not coming and times out.  (From
    two frames on the run returns the join, whatever the rows.) *)
Theorem window_of_one_times_out :
  gucs_in_range (gucs0 <| fpga_ack_window_frames := 1 |>) /\
  two_frame_run 1 = Some (inr FpgaTimeoutException).
Proof. by split; [|vm_compute]. Qed.
